(* ===== verification/_CoqProject ===== *)
-Q . S2P
Prelude.v
Protocol.v
Credential.v
Invitation.v
Brain.v
BrainValid.v
BrainInv.v
BrainOps.v
BrainThm.v
Snapshot.v
Storage.v
Reconcile.v
Node.v
Delta.v
Wire.v
Client.v
Sync.v
Host.v
HostSync.v
TaskArtifact.v
TaskReceipt.v
TaskMachine.v
TaskStore.v
TaskService.v
TaskPlan.v
TaskThm.v
TaskRuns.v
AppJson.v
EventRouter.v
EventThm.v
AppWire.v
AppConnection.v
Worktree.v
Runtime.v
Orchestrator.v
LocalState.v
RunThm.v
RunPoll.v
LocalThm.v
LocalSystem.v
Account.v
AccountThm.v
AccountLogic.v
AccountMachine.v
StoredFile.v
Identity.v
Project.v
ProjectThm.v
ProjectThread.v
Vault.v
Trust.v
Channel.v
Server.v
Registration.v
Session.v
SessionThm.v
Hosting.v
Transport.v
Supervisor.v
TaskCommand.v
Toy.v
Witness.v
WitnessSync.v
TaskWitness.v
ServiceWitness.v
EventWitness.v
AppWitness.v
RunWitness.v
AccountWitness.v
SettingsWitness.v
NodeWitness.v
DesktopWitness.v
