(* ===== verification/Prelude.v ===== *)
(** * Rivloom desktop: a verification library

    Rivloom is a desktop program around the Codex agent (src/apps/desktop/src-tauri/src). This
    library models the part of it that carries its own logic: how a team shares one
    authority, the Brain, between machines (collaboration/), how one machine keeps its tasks
    and accounts for their runs (task/), how it talks to the Codex process (app_server/), the
    account that process is signed in with (account/), and its settings: who this device is
    (identity/) and which directories it works in (project/).

    ** The program and the files that model it

    The Brain is the state of a team: members, their Nodes, shared tasks, credentials and
    invitations, and a log of the messages it has admitted.
    - [Protocol] (protocol.rs): messages, their field rules, codecs and the view of a message
      that the Brain decides on.
    - [Credential] (credential.rs), [Invitation] (invitation.rs): the two registries inside a
      Brain, with the monotone clock.
    - [Brain] (brain.rs, brain_tasks.rs): every operation of the authority and
      [Brain::validate]. [BrainValid] states declaratively what [validate] decides,
      [BrainInv] and [BrainOps] prove that each operation keeps it, [BrainThm] has the
      step relation [brain_step], the reachable states and the properties over executions.
    - [Snapshot] (snapshot.rs, Brain::encode and Brain::decode): the untrusted bytes a Brain is
      restored from.
    - [Storage] (storage.rs): the store that owns a Brain and its file; every change is a
      transaction that is committed to the file before its result is released.
    - [Reconcile] (reconcile.rs), [Delta]: the pages in which a member is sent what
      changed, and why the changes after a revision are enough.
    - [Node] (node.rs): the view a machine keeps, built page by page.
    - [Wire] (wire.rs), [Client] (client.rs), [Host] (host.rs): the control protocol, the
      client that drives a Node over it and the host that answers from a store.
    - [Sync]: the client's loop over the pages of a Brain. [HostSync]: that loop against a session
      of the host, with other sessions at the same store, lost messages, and clocks.
    - [TaskArtifact] (task/artifact.rs, the bounded git call of task/worktree.rs),
      [TaskReceipt] (task/receipt.rs), [TaskMachine] (task/types.rs, task/state_machine.rs):
      the patch a run leaves, the receipt that seals how it ended, and the task with its
      runs and its log.
    - [TaskStore] (task/storage.rs), [TaskService] (task/service.rs): the file of the tasks and
      the service that caches it behind a lock. [TaskPlan] is the abstract machine of the
      service, a function from a call and the stored tasks to the next tasks and the answer;
      [TaskThm] shows that the service follows it under every fault, and what holds over
      histories of calls and restarts; [TaskRuns] has what becomes of a run.
    - [AppJson], [EventRouter] (app_server/event_router.rs), [EventThm]: JSON values, and the
      router that hands the notifications of the Codex process to the observers of runs.
    - [AppWire] (app_server/wire.rs), [AppConnection] (app_server/connection.rs): the lines of
      the process, and the requests that many threads send over one connection.
    - [Worktree] (task/worktree.rs), [Runtime] (runtime/codex.rs), [Orchestrator]
      (task/orchestrator.rs): the directory a run works in, the turn it is, and its way from the
      queue to its receipt. [RunThm] has what a start sends and what is kept of a run,
      [RunPoll] how a poll decides its outcome.
    - [LocalState] (task/local_state.rs): the commands over local runs, the workers that poll
      them and their stop flags. [LocalThm] shows what a worker leaves behind and that it
      ends; [LocalSystem] is the system of commands, workers and events, with its reachable
      states.
    - [Account] (account/service.rs, account/service/, account/login.rs): the account service.
      Its operations are programs of blocks under the state mutex, locks and outside calls, and
      a machine runs any number of them block by block. [AccountThm] is about the completions
      that arrive before a login has started; [AccountLogic] is a program logic for what a
      thread owns and may rely on while others run, with a proof of every operation;
      [AccountMachine] has the reachable machines and what holds of them.
    - [StoredFile] (identity/storage.rs, project/storage.rs): the versioned document in a file
      that both settings are kept in. [Identity] (identity/): the identity of the device.
      [Project] (project/storage.rs, service.rs, state.rs): the recent projects;
      [ProjectThm] has which of them are kept and found again. [ProjectThread]
      (project/protocol.rs, thread_service.rs, commands.rs): the threads of a project.
    - [Vault] (collaboration/secret_store.rs): where a device keeps its secrets, an interface
      with its laws and two instances, the vault of Windows and the one of other systems, which
      keeps nothing. [Trust] (trust.rs, tls.rs): the
      endpoint of a Brain and when it may be dialed. [Channel] (tls.rs, client.rs): frames over
      an open channel and one exchange of the client. [Server] (server.rs): the workers that
      serve a host's sessions over such channels. [Registration] (node_registration.rs): the
      directory in which a device records whom it trusts and who it became. [Session]
      (node_session.rs, node_membership.rs, node_commands.rs): joining, connecting and
      administering over one client; [SessionThm] has what holds over histories of its calls.
    - [Hosting] (hosting.rs, host_profile.rs, server_identity.rs): a Brain that is set up and
      served on this device.
    - [Transport] (app_server/transport.rs), [Supervisor] (app_server/process.rs, protocol.rs,
      runtime_status.rs): the stream of the Codex process, and the threads that start, watch and
      stop it.
    - [TaskCommand] (task/commands.rs): the commands that start, stop and list local tasks, over
      projects, process, identity and [LocalState].
    - [Toy], [Witness], [WitnessSync], [TaskWitness], [ServiceWitness], [EventWitness],
      [AppWitness], [RunWitness], [AccountWitness], [SettingsWitness], [NodeWitness],
      [DesktopWitness]: concrete Brains, tasks, routers, connections, runs, logins, settings,
      devices and processes, on which the properties are evaluated.

    ** How code is represented

    A method on [&mut self] that returns [Result] is a function of the monad [M] below: from
    a state to a result and a state, so that what was written before an early return stays
    written. Code without state returns [result]. Structs are records, enums are
    inductive types, both in a module of their name with the type called [t];
    [BTreeMap<String, _>] is a [gmap string], iterated in key order; [Vec] is a list;
    strings are UTF-8 byte strings; [u64] and [usize] are [N] or [nat], [i64] is [Z], with
    [checked_add], [saturating_sub] and the bounds written out where the code relies on
    them.

    Threads are interleaved at the granularity of their critical sections in [AppConnection],
    [EventRouter], [Account] and [Supervisor]. Elsewhere a whole call is one step: a command of
    [LocalState] or an iteration of one of its workers, though each takes several locks in turn, and
    a request of [Host], which the store's lock does keep whole.

    What is not in the repository is a parameter: SHA-256 (class [Sha256]), serde_json on
    each type that is written or read (classes [ProtocolJson], [SnapshotJson],
    [DocumentJson], [PageJson], [RecordsJson], [WireJson], [ReceiptJson], [TasksJson],
    [RunEventJson], [ValueJson], [AccountJson], [DocumentFormat], [ThreadJson], [BindingJson],
    [VaultJson], [DescriptorJson], [RegistrationJson], [DirectoryJson], [ProfileJson],
    [InitializeJson], with what is relied on as a law of its own class), URL parsing, what
    rustls and rcgen accept and make ([TlsInputs], [ServerCrypto]), the outcome of each random
    draw, the local clock, the outcome of each file operation, git, and the peer at the other
    end of a channel. Hash collisions are never excluded globally: a theorem that depends on it
    speaks of the two documents at hand ([collides]).

    ** What the theorems show

    - Invariants: every reachable Brain and every reachable task validates; revisions grow and
      identify content; tasks only move forward.
    - Safety: revoked members stay out, invitations are used once, a page discloses only
      what its member may see, sessions reach the Brain only after authentication and
      administer it only as its owner (what anyone else asks for moves at most the clock),
      receipts close their runs.
    - Functional behaviour: lifetimes of credentials and invitations as exact conditions,
      presence, idempotent admission, receipts and patches.
    - Refinement: the host's answers are backed by the file, an exchange of a client is one
      request handled by the host however its bytes are cut, a task's log replays to the task,
      the task service follows its plan whatever fails.
    - Concurrency: over all interleavings requests get the response with their id and no
      waiting thread is forgotten; an observer of a run sees its events in order or is told
      of a gap; a run is started once over any history of calls and restarts; each active run
      has one worker, which ends when its stream has ended, and a stop reaches it.
    - Local runs: what a run asks of the server names its new worktree and no other directory, its
      evidence is not thrown away, its outcome is the one that was reported. [worktree_strands_run] and [late_report_lost] are
      two ways in which the code falls short: a worktree that a failed start leaves behind,
      and a report that arrives between two looks at the stream.
    - The account service: its threads cannot block each other, leave no lock, login or refresh
      behind, and open the browser only on an official page of a live connection, whatever
      the interleaving. [failed_logout_leaves_observer_behind] is a status that changes without
      being published.
    - The settings: the identity never changes but for its name, the recent projects are exactly
      the latest ones, a selected project is found again, and the threads of a project are its
      own. [oversized_projects_lock_out] is a list that is written and cannot be read. A local
      task is started only in such a project, on a process whose status was connected, as the
      device of the stored identity.
    - The device in a team: it asks to join at most once, dials only endpoints on a private
      network whose certificate was confirmed, and its client has the binding that is recorded;
      a saved credential is found until it expires; a message arrives whole or not at all.
      [hosting_ends_after_a_day] is how long a hosted Brain can be started, since its owner's
      credential is not renewed.
    - The Codex process: no line is lost, and the observers of the supervisor are told in an
      order they can rely on, whatever the interleaving.
    - Equivalence and round trips: decoding does not depend on chunks; messages, snapshots,
      lines, credentials.
    - Convergence: a client's reconciliation with a host that others use too ends with exactly the
      view of the Brain the host then serves, or disconnected; with a quiet host it ends with the
      view, within its own limit.
    - Errors: failed operations keep state, failed commits fence the store, errors close
      sessions.

    ** Bounds

    The only loop with a fixed number of iterations is the client's, [MAX_SHARED_RECORDS] =
    192 as in the source; [client_converges] proves it enough with a quiet host, since a Brain holds
    at most 64 members, 64 Nodes and 64 tasks. Everything else is structural recursion over the data.
    The theorems on the account service speak of runs of at most 2^64 - 1 steps, within which
    the revision of its connection, which wraps around, cannot come back to an earlier value.

    ** Not modelled

    TLS itself and sockets: the handshake, certificates, deadlines and byte budgets of tls.rs, and
    binding and accepting in server.rs; their outcomes are arguments. Directory locking and
    platform file replacement, whose outcomes are arguments too. The child process itself,
    writing to it and killing it (the rest of transport.rs). The Tauri side: command wrappers
    (node_commands.rs but for join_brain), account/state.rs, app_server/state.rs, lib.rs and main.rs,
    which move calls to other threads and emit events. The user interface and the Codex workspace,
    so that what the server makes of a run's sandbox policy, its default temporary directories
    included, is not claimed. Canonical paths and git are arguments too: a path
    is a list of names. *)

From Stdlib Require Export Ascii Lia ZifyBool ZifyN.
From stdpp Require Export base option list gmap strings fin_maps sorting numbers.

#[global] Set Default Goal Selector "!".

(** Comparisons with the capacity constants stay folded under [simpl]. *)
#[global] Arguments Nat.leb : simpl never.
#[global] Arguments Nat.ltb : simpl never.

(** ** Results and the state-and-error monad *)

(** Rust's [Result]. *)
Inductive result (E A : Type) : Type :=
| Ok (a : A)
| Err (e : E).
Arguments Ok {E A} a.
Arguments Err {E A} e.

#[global] Instance result_eq_dec `{EqDecision E, EqDecision A} : EqDecision (result E A).
Proof. solve_decision. Defined.

Definition is_ok {E A} (r : result E A) : bool :=
  match r with Ok _ => true | Err _ => false end.

#[global] Instance result_ret {E} : MRet (result E) := fun _ a => Ok a.
#[global] Instance result_bind {E} : MBind (result E) :=
  fun _ _ k r => match r with Ok a => k a | Err e => Err e end.
#[global] Instance result_fmap {E} : FMap (result E) :=
  fun _ _ f r => match r with Ok a => Ok (f a) | Err e => Err e end.

(** [Result::map_err] *)
Definition map_err {E F A} (f : E -> F) (r : result E A) : result F A :=
  match r with Ok a => Ok a | Err e => Err (f e) end.

(** [Option::ok_or] *)
Definition ok_or {E A} (o : option A) (e : E) : result E A :=
  match o with Some a => Ok a | None => Err e end.

(** [if cond { return Err(e) }] in a function without state *)
Definition refuse {E} (cond : bool) (e : E) : result E unit :=
  if cond then Err e else Ok tt.

(** [for a in l { f(a)?; }] in a function without state *)
Fixpoint for_each {E A} (f : A -> result E unit) (l : list A) : result E unit :=
  match l with
  | [] => Ok tt
  | a :: l => match f a with Ok _ => for_each f l | Err e => Err e end
  end.

(** A method on [&mut self] that returns [Result<A, E>]. The state is returned
    beside the result also when the result is an error: what the method wrote
    before its early return stays written. *)
Definition M (S E A : Type) : Type := S -> result E A * S.

#[global] Instance M_ret {S E} : MRet (M S E) := fun _ a s => (Ok a, s).
#[global] Instance M_bind {S E} : MBind (M S E) :=
  fun _ _ k m s =>
    match m s with
    | (Ok a, s') => k a s'
    | (Err e, s') => (Err e, s')
    end.

Definition get {S E} : M S E S := fun s => (Ok s, s).
Definition gets {S E A} (f : S -> A) : M S E A := fun s => (Ok (f s), s).
Definition modify {S E} (f : S -> S) : M S E unit := fun s => (Ok tt, f s).
Definition throw {S E A} (e : E) : M S E A := fun s => (Err e, s).
(** The [?] operator on a value computed without touching the state. *)
Definition lift {S E A} (r : result E A) : M S E A := fun s => (r, s).
(** [if cond { return Err(e) }] *)
Definition reject_if {S E} (cond : bool) (e : E) : M S E unit :=
  if cond then throw e else mret tt.
(** A call on a field of the state, with its error converted by [From]. *)
Definition zoom {S T E F A} (view : S -> T) (set : T -> S -> S) (f : E -> F)
    (m : M T E A) : M S F A :=
  fun s => let (r, t) := m (view s) in (map_err f r, set t s).

(** A call whose result is matched on *)
Definition attempt {S E F A} (m : M S E A) : M S F (result E A) :=
  fun s => let (r, s) := m s in (Ok r, s).

(** ** Byte strings

    A Rust [String] or [&str] is its UTF-8 byte string; [len] is the number of
    bytes. [Vec<u8>] and [[u8; N]] are byte strings too. *)

Definition byte_of (a : ascii) : N := N_of_ascii a.
Definition len (s : string) : N := N.of_nat (String.length s).
(** [iter().map(f).sum::<usize>()] for sizes in bytes *)
Definition sum_len {A} (f : A -> string) (l : list A) : N :=
  foldr (fun a total => len (f a) + total)%N 0%N l.
Definition is_empty (s : string) : bool :=
  match s with EmptyString => true | String _ _ => false end.
Definition str_eqb (s t : string) : bool := bool_decide (s = t).

(** [value.bytes().all(f)] *)
Fixpoint bytes_all (f : N -> bool) (s : string) : bool :=
  match s with
  | EmptyString => true
  | String a s => f (byte_of a) && bytes_all f s
  end.

Definition in_range (lo hi b : N) : bool := (lo <=? b)%N && (b <=? hi)%N.
Definition is_ascii_digit (b : N) : bool := in_range 48 57 b.
Definition is_ascii_alphanumeric (b : N) : bool :=
  is_ascii_digit b || in_range 65 90 b || in_range 97 122 b.
Definition is_ascii_hexdigit (b : N) : bool :=
  is_ascii_digit b || in_range 65 70 b || in_range 97 102 b.
(** [b.is_ascii_digit() || (b'a'..=b'f').contains(&b)] *)
Definition is_lower_hex (b : N) : bool := is_ascii_digit b || in_range 97 102 b.

(** [str::chars]: the code points of a UTF-8 byte string. A [str] is always well
    formed; on other byte strings the decoding stops at the first stray byte. *)
Fixpoint chars (s : string) : list N :=
  match s with
  | EmptyString => []
  | String a s1 =>
    let b0 := byte_of a in
    if (b0 <? 128)%N then b0 :: chars s1 else
    match s1 with
    | EmptyString => []
    | String a1 s2 =>
      let b1 := N.land (byte_of a1) 63 in
      if (b0 <? 224)%N then (N.land b0 31 * 64 + b1)%N :: chars s2 else
      match s2 with
      | EmptyString => []
      | String a2 s3 =>
        let b2 := N.land (byte_of a2) 63 in
        if (b0 <? 240)%N then (N.land b0 15 * 4096 + b1 * 64 + b2)%N :: chars s3 else
        match s3 with
        | EmptyString => []
        | String a3 s4 =>
          let b3 := N.land (byte_of a3) 63 in
          (N.land b0 7 * 262144 + b1 * 4096 + b2 * 64 + b3)%N :: chars s4
        end
      end
    end
  end.

(** [str::from_utf8]: well-formed UTF-8, without overlong forms, surrogates or code
    points above U+10FFFF. *)
Definition is_continuation (b : N) : bool := in_range 128 191 b.
Fixpoint is_utf8 (s : string) : bool :=
  match s with
  | EmptyString => true
  | String a s1 =>
    let b0 := byte_of a in
    if (b0 <? 128)%N then is_utf8 s1 else
    match s1 with
    | EmptyString => false
    | String a1 s2 =>
      let b1 := byte_of a1 in
      if in_range 194 223 b0 then is_continuation b1 && is_utf8 s2 else
      match s2 with
      | EmptyString => false
      | String a2 s3 =>
        let b2 := byte_of a2 in
        if in_range 224 239 b0 then
          is_continuation b1 && is_continuation b2
          && negb ((b0 =? 224)%N && (b1 <? 160)%N) && negb ((b0 =? 237)%N && (159 <? b1)%N)
          && is_utf8 s3
        else
        match s3 with
        | EmptyString => false
        | String a3 s4 =>
          in_range 240 244 b0 && is_continuation b1 && is_continuation b2
          && is_continuation (byte_of a3)
          && negb ((b0 =? 240)%N && (b1 <? 144)%N) && negb ((b0 =? 244)%N && (143 <? b1)%N)
          && is_utf8 s4
        end
      end
    end
  end.

(** [char::is_whitespace]: the Unicode [White_Space] property. *)
Definition is_whitespace (c : N) : bool :=
  in_range 9 13 c || (c =? 32)%N || (c =? 133)%N || (c =? 160)%N || (c =? 5760)%N
  || in_range 8192 8202 c || (c =? 8232)%N || (c =? 8233)%N || (c =? 8239)%N
  || (c =? 8287)%N || (c =? 12288)%N.
(** [char::is_control]: the Unicode general category [Cc]. *)
Definition is_control (c : N) : bool := in_range 0 31 c || in_range 127 159 c.

(** [value.trim().is_empty()]: trimming leaves nothing when every character is
    white space. *)
Definition trim_is_empty (s : string) : bool := forallb is_whitespace (chars s).
(** [value.chars().any(char::is_control)] *)
Definition has_control (s : string) : bool := existsb is_control (chars s).

(** The lower-case hexadecimal digit of a nibble: [b"0123456789abcdef"[n]]. *)
Definition hex_digit (n : N) : ascii :=
  if (n <? 10)%N then ascii_of_N (48 + n) else ascii_of_N (87 + n).
(** [format!("{:x}", bytes)]: two digits per byte. *)
Fixpoint hex_of_bytes (s : string) : string :=
  match s with
  | EmptyString => EmptyString
  | String a s =>
    String (hex_digit (N.shiftr (byte_of a) 4))
      (String (hex_digit (N.land (byte_of a) 15)) (hex_of_bytes s))
  end.

(** ** Machine integers

    Unsigned integers are [N], signed ones [Z]; [checked_add] on [i64] and [u64]
    is written out. *)

Definition i64_max : Z := 9223372036854775807.
Definition u64_max : N := 18446744073709551615.
Definition i64_checked_add (a b : Z) : option Z :=
  if bool_decide (- (i64_max + 1) <= a + b <= i64_max)%Z then Some (a + b)%Z else None.
Definition u64_checked_add (a b : N) : option N :=
  if bool_decide (a + b <= u64_max)%N then Some (a + b)%N else None.
(** [i64::saturating_sub] *)
Definition i64_saturating_sub (a b : Z) : Z :=
  Z.max (- (i64_max + 1)) (Z.min i64_max (a - b)).
(** [Option::filter] *)
Definition opt_filter {A} (f : A -> bool) (o : option A) : option A :=
  match o with Some a => if f a then Some a else None | None => None end.
Definition is_some_and {A} (f : A -> bool) (o : option A) : bool :=
  match o with Some a => f a | None => false end.
Definition is_none_or {A} (f : A -> bool) (o : option A) : bool :=
  match o with Some a => f a | None => true end.
Definition is_some {A} (o : option A) : bool :=
  match o with Some _ => true | None => false end.
Definition is_none {A} (o : option A) : bool := negb (is_some o).

(** ** [BTreeMap<String, V>]

    A [gmap string V]; iteration is in key order, the bytewise lexicographic order
    of [str]. *)

Definition key_le {V} (x y : string * V) : Prop := String.leb x.1 y.1 = true.
#[global] Instance key_le_dec {V} (x y : string * V) : Decision (key_le x y).
Proof. unfold key_le. apply _. Defined.

(** [map.iter()] *)
Definition entries {V} (m : gmap string V) : list (string * V) :=
  merge_sort key_le (map_to_list m).
(** [map.values()] *)
Definition values {V} (m : gmap string V) : list V := (entries m).*2.
Definition contains_key {V} (k : string) (m : gmap string V) : bool := is_some (m !! k).
(** [for v in map.values_mut().filter(p) { *v = f(v) }] *)
Definition update_where {V} (p : V -> bool) (f : V -> V) (m : gmap string V) : gmap string V :=
  (fun v => if p v then f v else v) <$> m.

(** [iter().enumerate()] *)
Definition enumerate {A} (l : list A) : list (nat * A) := zip (seq 0 (length l)) l.

(** ** The sha2 crate

    [Sha256::digest] is a parameter of everything that hashes: a function from byte
    strings to byte strings. Its documented output size is a law of its own, used
    only where a proof needs it. *)
Class Sha256 := sha256_digest : string -> string.
Class Sha256Laws `{Sha256} : Prop := sha256_len (s : string) : len (sha256_digest s) = 32%N.

(** Lines: newline and carriage return, [s.last() == Some(&b)], the bytes before the last one,
    and [strip_suffix] for one byte, keeping what has no such end *)
Definition NL : ascii := ascii_of_N 10.
Definition CR : ascii := ascii_of_N 13.
Fixpoint ends_with (b : ascii) (s : string) : bool :=
  match s with
  | EmptyString => false
  | String a EmptyString => bool_decide (a = b)
  | String _ s => ends_with b s
  end.
Fixpoint without_last (s : string) : string :=
  match s with
  | EmptyString => EmptyString
  | String _ EmptyString => EmptyString
  | String a s => String a (without_last s)
  end.
Definition strip_last (b : ascii) (s : string) : string :=
  if ends_with b s then without_last s else s.

(** [str::strip_prefix] *)
Fixpoint strip_prefix (prefix s : string) : option string :=
  match prefix, s with
  | EmptyString, s => Some s
  | String a prefix, String b s => if bool_decide (a = b) then strip_prefix prefix s else None
  | String _ _, EmptyString => None
  end.

(** ** Generic lemmas *)

Section MonadLemmas.
Context {S E : Type}.
Implicit Types s : S.

Lemma bind_ok_iff {A B} (m : M S E A) (k : A -> M S E B) s r s' :
  (m ≫= k) s = (Ok r, s') <-> exists a s1, m s = (Ok a, s1) /\ k a s1 = (Ok r, s').
Proof.
  unfold mbind, M_bind. destruct (m s) as [[a|e] s1]; naive_solver.
Qed.

Lemma bind_err_iff {A B} (m : M S E A) (k : A -> M S E B) s e s' :
  (m ≫= k) s = (Err e, s') <->
  m s = (Err e, s') \/ exists a s1, m s = (Ok a, s1) /\ k a s1 = (Err e, s').
Proof.
  unfold mbind, M_bind. destruct (m s) as [[a|e'] s1]; naive_solver.
Qed.

Lemma bind_ok {A B} (m : M S E A) (k : A -> M S E B) s a s1 :
  m s = (Ok a, s1) -> (m ≫= k) s = k a s1.
Proof. unfold mbind, M_bind. by intros ->. Qed.

Lemma bind_err {A B} (m : M S E A) (k : A -> M S E B) s e s1 :
  m s = (Err e, s1) -> (m ≫= k) s = (Err e, s1).
Proof. unfold mbind, M_bind. by intros ->. Qed.

(** A run of two statements, whatever its result *)
Lemma bind_cases {A B} (m : M S E A) (k : A -> M S E B) s r s' :
  (m ≫= k) s = (r, s') ->
  (exists e, m s = (Err e, s') /\ r = Err e) \/
  (exists a s1, m s = (Ok a, s1) /\ k a s1 = (r, s')).
Proof. unfold mbind, M_bind. destruct (m s) as [[] ?]; naive_solver. Qed.

Lemma ret_inv {A} (a : A) s r s' :
  (mret a : M S E A) s = (r, s') -> r = Ok a /\ s' = s.
Proof. unfold mret, M_ret. naive_solver. Qed.

Lemma reject_if_ok (c : bool) (e : E) s u s' :
  reject_if c e s = (Ok u, s') -> c = false /\ s' = s.
Proof. unfold reject_if, throw, mret, M_ret. destruct c; naive_solver. Qed.

Lemma reject_if_err (c : bool) (e e' : E) s s' :
  reject_if c e s = (Err e', s') -> c = true /\ e' = e /\ s' = s.
Proof. unfold reject_if, throw, mret, M_ret. destruct c; naive_solver. Qed.

Lemma reject_inv (c : bool) (e : E) s r s' :
  reject_if c e s = (r, s') -> r = (if c then Err e else Ok tt) /\ s' = s.
Proof. unfold reject_if, throw, mret, M_ret. destruct c; naive_solver. Qed.

Lemma reject_if_false (e : E) s : reject_if false e s = (Ok tt, s).
Proof. done. Qed.

Lemma reject_if_true (e : E) s : reject_if true e s = (Err e, s).
Proof. done. Qed.

Lemma gets_inv {A} (f : S -> A) s r s' :
  (gets f : M S E A) s = (r, s') -> r = Ok (f s) /\ s' = s.
Proof. unfold gets. naive_solver. Qed.

Lemma get_inv s r s' : (get : M S E S) s = (r, s') -> r = Ok s /\ s' = s.
Proof. unfold get. naive_solver. Qed.

Lemma modify_inv (f : S -> S) s r s' :
  (modify f : M S E unit) s = (r, s') -> r = Ok tt /\ s' = f s.
Proof. unfold modify. naive_solver. Qed.

Lemma lift_inv {A} (x : result E A) s r s' :
  (lift x : M S E A) s = (r, s') -> r = x /\ s' = s.
Proof. unfold lift. naive_solver. Qed.

Lemma throw_inv {A} (e : E) s r s' :
  (throw e : M S E A) s = (r, s') -> r = Err e /\ s' = s.
Proof. unfold throw. naive_solver. Qed.

Lemma zoom_ok {T F A} (view : S -> T) (set : T -> S -> S) (f : F -> E)
    (m : M T F A) s a s' :
  zoom view set f m s = (Ok a, s') ->
  exists t, m (view s) = (Ok a, t) /\ s' = set t s.
Proof. unfold zoom. destruct (m (view s)) as [[] t]; naive_solver. Qed.

Lemma zoom_err {T F A} (view : S -> T) (set : T -> S -> S) (f : F -> E)
    (m : M T F A) s e s' :
  zoom view set f m s = (Err e, s') ->
  exists e' t, m (view s) = (Err e', t) /\ e = f e' /\ s' = set t s.
Proof. unfold zoom. destruct (m (view s)) as [[] t]; naive_solver. Qed.

Lemma zoom_intro {T F A} (view : S -> T) (set : T -> S -> S) (f : F -> E)
    (m : M T F A) s r t :
  m (view s) = (r, t) -> zoom view set f m s = (map_err f r, set t s).
Proof. unfold zoom. by intros ->. Qed.
End MonadLemmas.

Lemma ok_or_ok {E A} (o : option A) (e : E) a : ok_or o e = Ok a <-> o = Some a.
Proof. destruct o; naive_solver. Qed.

Lemma refuse_ok {E} (c : bool) (e : E) u : refuse c e = Ok u <-> c = false.
Proof. destruct c, u; naive_solver. Qed.

Lemma result_bind_ok {E A B} (m : result E A) (k : A -> result E B) b :
  m ≫= k = Ok b <-> exists a, m = Ok a /\ k a = Ok b.
Proof. unfold mbind, result_bind. destruct m; naive_solver. Qed.

Lemma result_seq_ok {E B} (m : result E unit) (k : result E B) b :
  (m ≫= fun _ => k) = Ok b <-> m = Ok tt /\ k = Ok b.
Proof. unfold mbind, result_bind. destruct m as [[]|e]; naive_solver. Qed.

Lemma for_each_ok {E A} (f : A -> result E unit) l :
  for_each f l = Ok tt <-> Forall (fun a => f a = Ok tt) l.
Proof.
  induction l as [|a l IH]; simpl; [done|]. rewrite list.Forall_cons, <- IH.
  destruct (f a) as [[]|e]; naive_solver.
Qed.

(** Replaces the final state of a run, a variable or a tuple of variables. *)
Ltac subst_state Hs :=
  lazymatch type of Hs with
  | ?x = _ => first [is_var x; subst x | simplify_eq Hs; simpl | idtac]
  end.

(** Decomposes a run [prog s = (Ok a, s')] into the runs of its statements. *)
Ltac run_inv H :=
  lazymatch type of H with
  | (mbind _ _) _ = (Ok _, _) =>
    let a := fresh "a" in let s := fresh "s" in let H1 := fresh "Hrun" in
    let H2 := fresh "Hrun" in
    apply bind_ok_iff in H; destruct H as (a & s & H1 & H2); cbn beta in H2;
    run_inv H1; run_inv H2
  | reject_if _ _ _ = (Ok _, _) =>
    let Hc := fresh "Hguard" in
    apply reject_if_ok in H; let Hs := fresh "Hs" in destruct H as [Hc Hs]; subst_state Hs
  | mret _ _ = (_, _) => apply ret_inv in H; let Hs := fresh "Hs" in destruct H as [H Hs]; subst_state Hs; simplify_eq
  | gets _ _ = (_, _) => apply gets_inv in H; let Hs := fresh "Hs" in destruct H as [H Hs]; subst_state Hs; simplify_eq
  | get _ = (_, _) => apply get_inv in H; let Hs := fresh "Hs" in destruct H as [H Hs]; subst_state Hs; simplify_eq
  | modify _ _ = (_, _) => apply modify_inv in H; let Hs := fresh "Hs" in destruct H as [H Hs]; subst_state Hs; simplify_eq
  | lift _ _ = (_, _) => apply lift_inv in H; let Hs := fresh "Hs" in destruct H as [H Hs]; subst_state Hs; try symmetry in H
  | throw _ _ = (Ok _, _) => apply throw_inv in H; destruct H; discriminate
  | zoom _ _ _ _ _ = (Ok _, _) =>
    let t := fresh "t" in
    apply zoom_ok in H; let Hs := fresh "Hs" in destruct H as (t & H & Hs); subst_state Hs
  | (if ?b then _ else _) _ = (Ok _, _) =>
    let Hif := fresh "Hif" in destruct b eqn:Hif; run_inv H
  | _ => idtac
  end.

(** Decomposes a run that ends in an error: one goal per early return, each with the
    runs of the statements before it. *)
Ltac err_inv H :=
  lazymatch type of H with
  | (mbind _ _) _ = (Err _, _) =>
    let a := fresh "a" in let s := fresh "s" in let H1 := fresh "Hrun" in
    let H2 := fresh "Hrun" in
    apply bind_err_iff in H; destruct H as [H|(a & s & H1 & H2)];
    [err_inv H | cbn beta in H2; run_inv H1; err_inv H2]
  | reject_if _ _ _ = (Err _, _) =>
    let Hc := fresh "Hguard" in
    apply reject_if_err in H; destruct H as (Hc & ? & ?); simplify_eq
  | mret _ _ = (Err _, _) => apply ret_inv in H; destruct H; discriminate
  | gets _ _ = (Err _, _) => apply gets_inv in H; destruct H; discriminate
  | get _ = (Err _, _) => apply get_inv in H; destruct H; discriminate
  | modify _ _ = (Err _, _) => apply modify_inv in H; destruct H; discriminate
  | lift _ _ = (Err _, _) =>
    apply lift_inv in H; destruct H as [H ?]; symmetry in H; simplify_eq
  | throw _ _ = (Err _, _) => apply throw_inv in H; destruct H; simplify_eq
  | zoom _ _ _ _ _ = (Err _, _) =>
    let e := fresh "e" in let t := fresh "t" in
    apply zoom_err in H; destruct H as (e & t & H & ? & ?); simplify_eq
  | (if ?b then _ else _) _ = (Err _, _) =>
    let Hif := fresh "Hif" in destruct b eqn:Hif; err_inv H
  | _ => idtac
  end.

(** Splits conjunctions and disjunctions of boolean tests. *)
Lemma orb_false_inv b1 b2 : b1 || b2 = false -> b1 = false /\ b2 = false.
Proof. destruct b1, b2; naive_solver. Qed.
Lemma andb_true_inv b1 b2 : b1 && b2 = true -> b1 = true /\ b2 = true.
Proof. destruct b1, b2; naive_solver. Qed.

(** *** Ordered maps *)

Section MapLemmas.
Context {V : Type}.
Implicit Types m : gmap string V.

Lemma entries_perm m : entries m ≡ₚ map_to_list m.
Proof. apply merge_sort_Permutation. Qed.

Lemma elem_of_entries m k v : (k, v) ∈ entries m <-> m !! k = Some v.
Proof. by rewrite entries_perm, elem_of_map_to_list. Qed.

Lemma NoDup_entries_keys m : NoDup (entries m).*1.
Proof. rewrite entries_perm. apply NoDup_fst_map_to_list. Qed.

Lemma NoDup_entries m : NoDup (entries m).
Proof. eapply NoDup_fmap_1, NoDup_entries_keys. Qed.

Lemma length_entries m : length (entries m) = size m.
Proof. by rewrite entries_perm, length_map_to_list. Qed.

Lemma list_to_map_entries m : list_to_map (entries m) = m.
Proof.
  rewrite <- (list_to_map_to_list m) at 2. apply list_to_map_proper.
  - apply NoDup_entries_keys.
  - apply entries_perm.
Qed.

Lemma entries_empty : entries (∅ : gmap string V) = [].
Proof. unfold entries. by rewrite map_to_list_empty. Qed.

Lemma elem_of_values m v : v ∈ values m <-> exists k, m !! k = Some v.
Proof.
  unfold values. rewrite list_elem_of_fmap. split.
  - intros ([k v'] & -> & H). exists k. by apply elem_of_entries.
  - intros [k H]. exists (k, v). by rewrite elem_of_entries.
Qed.

Lemma length_values m : length (values m) = size m.
Proof. unfold values. by rewrite length_fmap, length_entries. Qed.

Lemma forallb_entries (f : string * V -> bool) m :
  forallb f (entries m) = true <-> map_Forall (fun k v => f (k, v) = true) m.
Proof.
  rewrite forallb_forall. split.
  - intros H k v Hk. apply H, list_elem_of_In, elem_of_entries, Hk.
  - intros H [k v] Hin. apply H, elem_of_entries, list_elem_of_In, Hin.
Qed.

Lemma existsb_values (f : V -> bool) m :
  existsb f (values m) = true <-> exists k v, m !! k = Some v /\ f v = true.
Proof.
  rewrite existsb_exists. split.
  - intros (v & Hin & Hf). apply list_elem_of_In, elem_of_values in Hin as [k Hk]. eauto.
  - intros (k & v & Hk & Hf). exists v. split; [|done].
    apply list_elem_of_In, elem_of_values. eauto.
Qed.

Lemma existsb_values_false (f : V -> bool) m :
  existsb f (values m) = false <-> map_Forall (fun _ v => f v = false) m.
Proof.
  rewrite <- not_true_iff_false, existsb_values. split.
  - intros H k v Hk. apply not_true_iff_false. intros Hf. apply H. eauto.
  - intros H (k & v & Hk & Hf). by rewrite (H k v Hk) in Hf.
Qed.

Lemma lookup_update_where p (f : V -> V) m k :
  update_where p f m !! k = (fun v => if p v then f v else v) <$> m !! k.
Proof. unfold update_where. apply lookup_fmap. Qed.

Lemma size_update_where p (f : V -> V) m : size (update_where p f m) = size m.
Proof. unfold update_where. apply map_size_fmap. Qed.

Lemma contains_key_true k m : contains_key k m = true <-> exists v, m !! k = Some v.
Proof. unfold contains_key. destruct (m !! k); naive_solver. Qed.

Lemma contains_key_false k m : contains_key k m = false <-> m !! k = None.
Proof. unfold contains_key. destruct (m !! k); naive_solver. Qed.
End MapLemmas.

(** Two maps of the same size, the keys of one among those of the other, have the
    same keys. *)
Lemma dom_eq_of_size {V W} (m1 : gmap string V) (m2 : gmap string W) :
  dom m1 ⊆ dom m2 -> size m1 = size m2 -> dom m1 = dom m2.
Proof.
  intros Hsub Hsize. apply leibniz_equiv, set_subseteq_size_equiv; [done|].
  rewrite !size_dom. lia.
Qed.

(** *** Byte strings *)

Lemma str_eqb_true s t : str_eqb s t = true <-> s = t.
Proof. apply bool_decide_eq_true. Qed.

Lemma str_eqb_false s t : str_eqb s t = false <-> s <> t.
Proof. apply bool_decide_eq_false. Qed.

Lemma str_eqb_refl s : str_eqb s s = true.
Proof. by apply str_eqb_true. Qed.

Lemma length_append s t : String.length (s +:+ t) = String.length s + String.length t.
Proof. induction s as [|a s IH]; simpl; [done|]. by rewrite IH. Qed.

Lemma len_append s t : len (s +:+ t) = (len s + len t)%N.
Proof. unfold len. rewrite length_append. lia. Qed.

Lemma append_empty s : s +:+ EmptyString = s.
Proof. induction s as [|b s IH]; [done|]. exact (f_equal (String b) IH). Qed.

Lemma append_assoc s t u : (s +:+ t) +:+ u = s +:+ (t +:+ u).
Proof. induction s as [|b s IH]; [done|]. exact (f_equal (String b) IH). Qed.

Lemma strip_prefix_append p s : strip_prefix p (p +:+ s) = Some s.
Proof. induction p as [|a p IH]; [done|]. simpl. rewrite bool_decide_true by done. exact IH. Qed.

Lemma strip_prefix_Some p v s : strip_prefix p v = Some s -> v = p +:+ s.
Proof.
  revert v. induction p as [|a p IH]; intros v; simpl; [by intros [= ->]|]. destruct v as [|b v]; [done|].
  case_bool_decide as Hab; [|done]. subst b. intros ->%IH. done.
Qed.

Lemma bytes_all_append f s t : bytes_all f (s +:+ t) = bytes_all f s && bytes_all f t.
Proof. induction s as [|a s IH]; simpl; [done|]. by rewrite IH, andb_assoc. Qed.

Lemma bytes_all_impl (f g : N -> bool) s :
  (forall b, f b = true -> g b = true) -> bytes_all f s = true -> bytes_all g s = true.
Proof.
  intros Hfg. induction s as [|a s IH]; simpl; [done|].
  intros [Hf Hs]%andb_true_inv. by rewrite (Hfg _ Hf), (IH Hs).
Qed.

Lemma byte_of_bound a : (byte_of a < 256)%N.
Proof. apply N_ascii_bounded. Qed.

Lemma hex_digit_lower n : (n < 16)%N -> is_lower_hex (byte_of (hex_digit n)) = true.
Proof.
  intros Hn. unfold hex_digit, is_lower_hex, is_ascii_digit, in_range, byte_of.
  destruct (N.ltb_spec n 10); rewrite N_ascii_embedding by lia;
    apply orb_true_iff; [left|right]; apply andb_true_iff; split; apply N.leb_le; lia.
Qed.

Lemma length_hex_of_bytes s : String.length (hex_of_bytes s) = 2 * String.length s.
Proof. induction s as [|a s IH]; simpl; [done|]. rewrite IH. lia. Qed.

Lemma len_hex_of_bytes s : len (hex_of_bytes s) = (2 * len s)%N.
Proof. unfold len. rewrite length_hex_of_bytes. lia. Qed.

Lemma hex_of_bytes_lower s : bytes_all is_lower_hex (hex_of_bytes s) = true.
Proof.
  induction s as [|a s IH]; simpl; [done|]. rewrite IH, andb_true_r.
  pose proof (byte_of_bound a) as Hb. apply andb_true_intro. split; apply hex_digit_lower.
  - rewrite N.shiftr_div_pow2. apply N.Div0.div_lt_upper_bound. done.
  - change 15%N with (N.ones 4). rewrite N.land_ones. by apply N.mod_lt.
Qed.

Lemma length_string_of_list l : String.length (String.string_of_list_ascii l) = length l.
Proof. induction l as [|a l IH]; simpl; [done|]. by rewrite IH. Qed.

(** ** Automation *)

(** Turns boolean tests in the context into the propositions they decide. *)
Ltac bool_hyps :=
  repeat match goal with
  | H : _ || _ = false |- _ => apply orb_false_inv in H; destruct H
  | H : _ && _ = true |- _ => apply andb_true_inv in H; destruct H
  | H : negb _ = false |- _ => apply negb_false_iff in H
  | H : negb _ = true |- _ => apply negb_true_iff in H
  | H : bool_decide _ = true |- _ => apply bool_decide_eq_true_1 in H
  | H : bool_decide _ = false |- _ => apply bool_decide_eq_false_1 in H
  | H : str_eqb _ _ = true |- _ => apply str_eqb_true in H
  | H : str_eqb _ _ = false |- _ => apply str_eqb_false in H
  | H : contains_key _ _ = true |- _ => apply contains_key_true in H; destruct H
  | H : contains_key _ _ = false |- _ => apply contains_key_false in H
  | H : Nat.leb _ _ = true |- _ => apply Nat.leb_le in H
  | H : Nat.leb _ _ = false |- _ => apply Nat.leb_gt in H
  | H : Nat.ltb _ _ = true |- _ => apply Nat.ltb_lt in H
  | H : Nat.ltb _ _ = false |- _ => apply Nat.ltb_ge in H
  | H : ok_or _ _ = Ok _ |- _ => apply ok_or_ok in H
  end.

(** Decomposes a computation of a result into its steps. *)
Ltac result_inv H :=
  lazymatch type of H with
  | (_ ≫= _) = Ok _ =>
    let x := fresh "x" in let Hx := fresh "Hx" in
    apply result_bind_ok in H; destruct H as (x & Hx & H); cbn beta in H; result_inv H
  | Ok _ = Ok _ => simplify_eq
  | Err _ = Ok _ => discriminate H
  | _ => idtac
  end.

(** Runs a short program to all its ends. *)
Ltac run_cases H :=
  unfold reject_if, get, gets, modify, lift, throw, mbind, M_bind, mret, M_ret in H;
  repeat (case_match; simplify_eq/=); simplify_eq/=.
