(* ===== verification/Protocol.v ===== *)
(** * Collaboration protocol v1 (collaboration/protocol.rs)

    The message envelope and its payloads, the validity rules a message passes
    before it crosses the module boundary, the admission view the Brain reads, and
    the bounded [decode]/[encode] pair. serde_json and sha2 are parameters. *)

From S2P Require Import Prelude.

(** ** Constants *)

Definition MAX_MESSAGE_BYTES : N := 32 * 1024.
Definition MAX_PATCH_BYTES : N := 512 * 1024.
Definition MAX_REVISION : N := 9007199254740991.
Definition EMPTY_SHA256 : string :=
  "e3b0c44298fc1c149afbf4c8996fb92427ae41e4649b934ca495991b7852b855".

(** ** String enums

    The [string_enum!] macro: a variant is written as its wire string, and exactly
    the wire strings are read back. *)

Class StringEnum (A : Type) := { variants : list (A * string) }.

Definition enum_serialize `{StringEnum A, EqDecision A} (a : A) : option string :=
  snd <$> find (fun p => bool_decide (p.1 = a)) variants.
Definition enum_deserialize `{StringEnum A} (s : string) : option A :=
  fst <$> find (fun p => str_eqb p.2 s) variants.

Module Role.
Inductive t := Owner | Member.
#[global] Instance eq_dec : EqDecision t.
Proof. solve_decision. Defined.
#[global] Instance wire : StringEnum t :=
  {| variants := [(Owner, "owner"); (Member, "member")] |}.
End Role.

Module RuntimeId.
Inductive t := Codex.
#[global] Instance eq_dec : EqDecision t.
Proof. solve_decision. Defined.
#[global] Instance wire : StringEnum t := {| variants := [(Codex, "codex")] |}.
End RuntimeId.

Module Capability.
Inductive t := TaskRun | Interrupt | Patch.
#[global] Instance eq_dec : EqDecision t.
Proof. solve_decision. Defined.
#[global] Instance wire : StringEnum t :=
  {| variants := [(TaskRun, "taskRun"); (Interrupt, "interrupt"); (Patch, "patch")] |}.
End Capability.

Module ArtifactKind.
Inductive t := Patch.
#[global] Instance eq_dec : EqDecision t.
Proof. solve_decision. Defined.
#[global] Instance wire : StringEnum t := {| variants := [(Patch, "patch")] |}.
End ArtifactKind.

Module TaskStatus.
Inductive t :=
| Draft | Offered | Accepted | Running | AwaitingReview
| Approved | Rejected | Cancelled | Failed | OutcomeUnknown.
#[global] Instance eq_dec : EqDecision t.
Proof. solve_decision. Defined.
#[global] Instance wire : StringEnum t :=
  {| variants :=
       [(Draft, "draft"); (Offered, "offered"); (Accepted, "accepted");
        (Running, "running"); (AwaitingReview, "awaitingReview");
        (Approved, "approved"); (Rejected, "rejected"); (Cancelled, "cancelled");
        (Failed, "failed"); (OutcomeUnknown, "outcomeUnknown")] |}.
End TaskStatus.

Module ExecutionPolicy.
Inductive t := ManagedWorktreeOffline.
#[global] Instance eq_dec : EqDecision t.
Proof. solve_decision. Defined.
#[global] Instance wire : StringEnum t :=
  {| variants := [(ManagedWorktreeOffline, "managedWorktreeOffline")] |}.
End ExecutionPolicy.

Module ArtifactState.
Inductive t := Empty | Complete | TooLarge | UnsupportedEncoding.
#[global] Instance eq_dec : EqDecision t.
Proof. solve_decision. Defined.
#[global] Instance wire : StringEnum t :=
  {| variants :=
       [(Empty, "empty"); (Complete, "complete"); (TooLarge, "tooLarge");
        (UnsupportedEncoding, "unsupportedEncoding")] |}.
End ArtifactState.

Module ReceiptOutcome.
Inductive t := Success | Failed | Cancelled | OutcomeUnknown.
#[global] Instance eq_dec : EqDecision t.
Proof. solve_decision. Defined.
#[global] Instance wire : StringEnum t :=
  {| variants :=
       [(Success, "success"); (Failed, "failed"); (Cancelled, "cancelled");
        (OutcomeUnknown, "outcomeUnknown")] |}.
End ReceiptOutcome.

Module Failure.
Inductive t := ExecutionFailed | ConnectionLost | PolicyDenied | InvalidArtifact.
#[global] Instance eq_dec : EqDecision t.
Proof. solve_decision. Defined.
#[global] Instance wire : StringEnum t :=
  {| variants :=
       [(ExecutionFailed, "executionFailed"); (ConnectionLost, "connectionLost");
        (PolicyDenied, "policyDenied"); (InvalidArtifact, "invalidArtifact")] |}.
End Failure.

(** ** Payloads *)

Module Identity.
Record t := mk {
  identity_id : string;
  member_id : string;
  device_id : string;
  display_name : string;
  role : Role.t;
}.
#[global] Instance eq_dec : EqDecision t.
Proof. solve_decision. Defined.
End Identity.

Module NodePayload.
Record t := mk {
  node_id : string;
  member_id : string;
  device_id : string;
  runtime_id : RuntimeId.t;
  runtime_version : string;
  capabilities : list Capability.t;
}.
#[global] Instance eq_dec : EqDecision t.
Proof. solve_decision. Defined.
End NodePayload.

Module Task.
Record t := mk {
  task_id : string;
  created_by_member_id : string;
  goal : string;
  constraints : list string;
  expected_artifact : ArtifactKind.t;
  status : TaskStatus.t;
}.
#[global] Instance eq_dec : EqDecision t.
Proof. solve_decision. Defined.
End Task.

Module Decision.
Inductive t :=
| Offered
| Accepted (accepted_by_member_id project_ref run_id run_key : string) (accepted_at : Z)
| Rejected (decided_by_member_id : string) (decided_at : Z)
| Cancelled (decided_by_member_id : string) (decided_at : Z).
#[global] Instance eq_dec : EqDecision t.
Proof. solve_decision. Defined.
End Decision.

Module Assignment.
Record t := mk {
  assignment_id : string;
  task_id : string;
  offered_by_member_id : string;
  target_node_id : string;
  execution_policy : ExecutionPolicy.t;
  decision : Decision.t;
}.
#[global] Instance eq_dec : EqDecision t.
Proof. solve_decision. Defined.
End Assignment.

Module Artifact.
Record t := mk {
  artifact_id : string;
  task_id : string;
  run_id : string;
  baseline_commit : string;
  state : ArtifactState.t;
  limit_bytes : N;
  byte_count : option N;
  sha256 : option string;
}.
#[global] Instance eq_dec : EqDecision t.
Proof. solve_decision. Defined.
End Artifact.

Module TestExecution.
Record t := mk { name : string; exit_code : Z }.
#[global] Instance eq_dec : EqDecision t.
Proof. solve_decision. Defined.
End TestExecution.

Module TestReport.
Inductive t := NotReported | Reported (executions : list TestExecution.t).
#[global] Instance eq_dec : EqDecision t.
Proof. solve_decision. Defined.
End TestReport.

Module ReceiptContent.
Record t := mk {
  task_id : string;
  run_id : string;
  node_id : string;
  runtime_id : RuntimeId.t;
  runtime_version : string;
  started_at : Z;
  finished_at : Z;
  outcome : ReceiptOutcome.t;
  summary : option string;
  failure : option Failure.t;
  tests : TestReport.t;
  artifact : Artifact.t;
}.
#[global] Instance eq_dec : EqDecision t.
Proof. solve_decision. Defined.
End ReceiptContent.

Module Receipt.
Record t := mk { content : ReceiptContent.t; content_sha256 : string }.
#[global] Instance eq_dec : EqDecision t.
Proof. solve_decision. Defined.
End Receipt.

Module Payload.
Inductive t :=
| Identity (value : Identity.t)
| Node (value : NodePayload.t)
| Task (value : Task.t)
| Assignment (value : Assignment.t)
| RunReceipt (value : Receipt.t)
| Artifact (value : Artifact.t).
#[global] Instance eq_dec : EqDecision t.
Proof. solve_decision. Defined.
End Payload.

Module Envelope.
Record t := mk {
  protocol_version : N;
  message_id : string;
  idempotency_key : string;
  brain_id : string;
  sender_node_id : string;
  sent_at : Z;
  revision : N;
  payload : Payload.t;
}.
#[global] Instance eq_dec : EqDecision t.
Proof. solve_decision. Defined.
End Envelope.

(** The newtype [Message(Envelope)]. Only [try_from] builds one in the code; the
    predicate [message_ok] below is what its values satisfy. *)
Record Message := mkMessage { message_envelope : Envelope.t }.
#[global] Instance Message_eq_dec : EqDecision Message.
Proof. solve_decision. Defined.

Inductive ProtocolError := InvalidMessage | MessageTooLarge.
#[global] Instance ProtocolError_eq_dec : EqDecision ProtocolError.
Proof. solve_decision. Defined.

(** ** External code: serde_json on the derived serializers *)

Class ProtocolJson := {
  (** [serde_json::to_vec(&payload)] *)
  payload_to_vec : Payload.t -> option string;
  (** [serde_json::to_vec(content)] *)
  content_to_vec : ReceiptContent.t -> option string;
  (** [serde_json::to_vec] and [serde_json::from_slice] on the envelope *)
  envelope_to_vec : Envelope.t -> option string;
  envelope_from_slice : string -> option Envelope.t;
}.

(** Reading back what was written gives the value that was written. *)
Class ProtocolJsonLaws `{ProtocolJson} : Prop :=
  envelope_from_to e bytes :
    envelope_to_vec e = Some bytes -> envelope_from_slice bytes = Some e.

(** ** Field rules *)

Definition id (value : string) : bool :=
  negb (is_empty value) && (len value <=? 128)%N
  && bytes_all (fun byte =>
       is_ascii_alphanumeric byte || (byte =? 45)%N || (byte =? 95)%N) value.

Definition text (value : string) (max_bytes : N) : bool :=
  negb (trim_is_empty value) && (len value <=? max_bytes)%N.

Definition hex (value : string) (length : N) : bool :=
  (len value =? length)%N && bytes_all is_lower_hex value.

Definition timestamp (value : Z) : bool :=
  (0 <=? value)%Z && (value <=? 253402300799)%Z.

(** ** Payload rules *)

Definition capabilities_distinct (capabilities : list Capability.t) : bool :=
  forallb (fun '(i, capability) => negb (bool_decide (capability ∈ take i capabilities)))
    (enumerate capabilities).

Definition decision_valid (decision : Decision.t) : bool :=
  match decision with
  | Decision.Offered => true
  | Decision.Accepted accepted_by_member_id project_ref run_id run_key accepted_at =>
    forallb id [accepted_by_member_id; project_ref; run_id; run_key]
    && timestamp accepted_at
  | Decision.Rejected decided_by_member_id decided_at
  | Decision.Cancelled decided_by_member_id decided_at =>
    id decided_by_member_id && timestamp decided_at
  end.

Definition artifact_state_valid (a : Artifact.t) : bool :=
  match a.(Artifact.state) with
  | ArtifactState.Empty =>
    bool_decide (a.(Artifact.byte_count) = Some 0%N)
    && bool_decide (a.(Artifact.sha256) = Some EMPTY_SHA256)
  | ArtifactState.Complete | ArtifactState.UnsupportedEncoding =>
    is_some_and (in_range 1 MAX_PATCH_BYTES) a.(Artifact.byte_count)
    && is_some_and (fun value => hex value 64) a.(Artifact.sha256)
  | ArtifactState.TooLarge =>
    is_none a.(Artifact.byte_count) && is_none a.(Artifact.sha256)
  end.

Definition artifact_valid (a : Artifact.t) : bool :=
  forallb id [a.(Artifact.artifact_id); a.(Artifact.task_id); a.(Artifact.run_id)]
  && (hex a.(Artifact.baseline_commit) 40 || hex a.(Artifact.baseline_commit) 64)
  && (a.(Artifact.limit_bytes) =? MAX_PATCH_BYTES)%N
  && artifact_state_valid a.

Definition tests_valid (tests : TestReport.t) : bool :=
  match tests with
  | TestReport.NotReported => true
  | TestReport.Reported executions =>
    (length executions <=? 32)%nat
    && forallb (fun test => text test.(TestExecution.name) 256) executions
    && (sum_len TestExecution.name executions <=? 4096)%N
  end.

Definition outcome_valid (content : ReceiptContent.t) : bool :=
  match content.(ReceiptContent.outcome) with
  | ReceiptOutcome.Success | ReceiptOutcome.Cancelled =>
    is_none content.(ReceiptContent.failure)
  | ReceiptOutcome.Failed | ReceiptOutcome.OutcomeUnknown =>
    is_some content.(ReceiptContent.failure)
  end.

Section Rules.
Context `{Sha256, ProtocolJson}.

Definition receipt_valid (receipt : Receipt.t) : bool :=
  let content := receipt.(Receipt.content) in
  forallb id [content.(ReceiptContent.task_id); content.(ReceiptContent.run_id);
              content.(ReceiptContent.node_id)]
  && text content.(ReceiptContent.runtime_version) 128
  && timestamp content.(ReceiptContent.started_at)
  && timestamp content.(ReceiptContent.finished_at)
  && (content.(ReceiptContent.started_at) <=? content.(ReceiptContent.finished_at))%Z
  && is_none_or (fun value => text value 4096) content.(ReceiptContent.summary)
  && artifact_valid content.(ReceiptContent.artifact)
  && str_eqb content.(ReceiptContent.task_id) content.(ReceiptContent.artifact).(Artifact.task_id)
  && str_eqb content.(ReceiptContent.run_id) content.(ReceiptContent.artifact).(Artifact.run_id)
  && tests_valid content.(ReceiptContent.tests)
  && outcome_valid content
  && is_some_and (fun bytes =>
       str_eqb (hex_of_bytes (sha256_digest bytes)) receipt.(Receipt.content_sha256))
       (content_to_vec content).

Definition payload_valid (payload : Payload.t) : bool :=
  match payload with
  | Payload.Identity value =>
    forallb id [value.(Identity.identity_id); value.(Identity.member_id);
                value.(Identity.device_id)]
    && text value.(Identity.display_name) 80
  | Payload.Node value =>
    forallb id [value.(NodePayload.node_id); value.(NodePayload.member_id);
                value.(NodePayload.device_id)]
    && text value.(NodePayload.runtime_version) 128
    && (length value.(NodePayload.capabilities) <=? 3)%nat
    && capabilities_distinct value.(NodePayload.capabilities)
  | Payload.Task value =>
    id value.(Task.task_id)
    && id value.(Task.created_by_member_id)
    && text value.(Task.goal) 4096
    && (length value.(Task.constraints) <=? 32)%nat
    && forallb (fun v => text v 1024) value.(Task.constraints)
    && (sum_len (fun v => v) value.(Task.constraints) <=? 8192)%N
  | Payload.Assignment value =>
    forallb id [value.(Assignment.assignment_id); value.(Assignment.task_id);
                value.(Assignment.offered_by_member_id); value.(Assignment.target_node_id)]
    && decision_valid value.(Assignment.decision)
  | Payload.Artifact value => artifact_valid value
  | Payload.RunReceipt value => receipt_valid value
  end.

(** ** [Message] *)

Definition message_encode (m : Message) : result ProtocolError string :=
  bytes ← ok_or (envelope_to_vec m.(message_envelope)) InvalidMessage;
  _ ← refuse (MAX_MESSAGE_BYTES <? len bytes)%N MessageTooLarge;
  Ok bytes.

Definition message_try_from (value : Envelope.t) : result ProtocolError Message :=
  _ ← refuse
    (negb (value.(Envelope.protocol_version) =? 1)%N
     || negb (forallb id [value.(Envelope.message_id); value.(Envelope.idempotency_key);
                          value.(Envelope.brain_id); value.(Envelope.sender_node_id)])
     || negb (timestamp value.(Envelope.sent_at))
     || (MAX_REVISION <? value.(Envelope.revision))%N
     || negb (payload_valid value.(Envelope.payload))) InvalidMessage;
  let message := mkMessage value in
  _ ← message_encode message;
  Ok message.

(** [Message::decode]: [serde_json::from_slice] reads the envelope and converts it
    with [try_from]; every failure of either is reported as [InvalidMessage]. *)
Definition message_decode (bytes : string) : result ProtocolError Message :=
  _ ← refuse (MAX_MESSAGE_BYTES <? len bytes)%N MessageTooLarge;
  envelope ← ok_or (envelope_from_slice bytes) InvalidMessage;
  map_err (fun _ => InvalidMessage) (message_try_from envelope).

Definition with_revision (m : Message) (revision : N) : result ProtocolError Message :=
  let e := m.(message_envelope) in
  message_try_from
    {| Envelope.protocol_version := e.(Envelope.protocol_version);
       Envelope.message_id := e.(Envelope.message_id);
       Envelope.idempotency_key := e.(Envelope.idempotency_key);
       Envelope.brain_id := e.(Envelope.brain_id);
       Envelope.sender_node_id := e.(Envelope.sender_node_id);
       Envelope.sent_at := e.(Envelope.sent_at);
       Envelope.revision := revision;
       Envelope.payload := e.(Envelope.payload) |}.

Definition is_receipt_from (m : Message) (node_id : string) : bool :=
  match m.(message_envelope).(Envelope.payload) with
  | Payload.RunReceipt receipt =>
    str_eqb receipt.(Receipt.content).(ReceiptContent.node_id) node_id
  | _ => false
  end.

Definition payload_hash (m : Message) : result ProtocolError string :=
  bytes ← ok_or (payload_to_vec m.(message_envelope).(Envelope.payload)) InvalidMessage;
  Ok (sha256_digest bytes).

(** What [try_from] guarantees of every [Message]. *)
Definition message_ok (m : Message) : bool := is_ok (message_try_from m.(message_envelope)).
End Rules.

(** ** Admission *)

Inductive PayloadView :=
| ViewNode (node_id member_id device_id : string)
| ViewTask (task_id member_id : string) (status : TaskStatus.t)
| Unsupported.

Record Admission := mkAdmission {
  adm_brain_id : string;
  adm_sender_node_id : string;
  adm_key : string;
  adm_revision : N;
  adm_payload : PayloadView;
}.

Definition admission (m : Message) : Admission :=
  let e := m.(message_envelope) in
  {| adm_brain_id := e.(Envelope.brain_id);
     adm_sender_node_id := e.(Envelope.sender_node_id);
     adm_key := e.(Envelope.idempotency_key);
     adm_revision := e.(Envelope.revision);
     adm_payload :=
       match e.(Envelope.payload) with
       | Payload.Node node =>
         ViewNode node.(NodePayload.node_id) node.(NodePayload.member_id)
           node.(NodePayload.device_id)
       | Payload.Task task =>
         ViewTask task.(Task.task_id) task.(Task.created_by_member_id) task.(Task.status)
       | Payload.Identity _ | Payload.Assignment _ | Payload.RunReceipt _
       | Payload.Artifact _ => Unsupported
       end |}.

#[global] Arguments admission : simpl never.

(** ** Facts *)

Section Facts.
Context `{Sha256, ProtocolJson}.

(** The size rule of a message: it serializes, into at most 32 KiB. *)
Definition fits (e : Envelope.t) : Prop :=
  exists bytes, envelope_to_vec e = Some bytes /\ (len bytes <= MAX_MESSAGE_BYTES)%N.

Record envelope_ok (e : Envelope.t) : Prop := {
  eok_version : e.(Envelope.protocol_version) = 1%N;
  eok_message_id : id e.(Envelope.message_id) = true;
  eok_key : id e.(Envelope.idempotency_key) = true;
  eok_brain : id e.(Envelope.brain_id) = true;
  eok_sender : id e.(Envelope.sender_node_id) = true;
  eok_sent_at : timestamp e.(Envelope.sent_at) = true;
  eok_revision : (e.(Envelope.revision) <= MAX_REVISION)%N;
  eok_payload : payload_valid e.(Envelope.payload) = true;
}.

Lemma message_encode_ok m bytes :
  message_encode m = Ok bytes <->
  envelope_to_vec m.(message_envelope) = Some bytes /\ (len bytes <= MAX_MESSAGE_BYTES)%N.
Proof.
  unfold message_encode. rewrite result_bind_ok. setoid_rewrite ok_or_ok.
  setoid_rewrite result_seq_ok. setoid_rewrite refuse_ok. setoid_rewrite N.ltb_ge.
  naive_solver.
Qed.

Lemma message_try_from_ok e m :
  message_try_from e = Ok m <-> m = mkMessage e /\ envelope_ok e /\ fits e.
Proof.
  unfold message_try_from. rewrite result_seq_ok, refuse_ok, result_bind_ok.
  setoid_rewrite message_encode_ok. unfold fits. cbn [forallb message_envelope]. split.
  - intros (Hg & bytes & Hb & [= <-]). split; [done|]. split; [|eauto]. bool_hyps.
    split; try done; lia.
  - intros (-> & [-> -> -> -> -> -> Hr ->] & bytes & Hb). split; [|by exists bytes].
    simpl. rewrite orb_false_r. by apply N.ltb_ge.
Qed.

Lemma message_ok_spec m :
  message_ok m = true <-> envelope_ok m.(message_envelope) /\ fits m.(message_envelope).
Proof.
  unfold message_ok. destruct (message_try_from _) as [m'|e] eqn:Htf.
  - apply message_try_from_ok in Htf. naive_solver.
  - split; [done|]. intros [? ?]. exfalso.
    assert (message_try_from m.(message_envelope) = Ok (mkMessage m.(message_envelope)))
      by (by apply message_try_from_ok). congruence.
Qed.

Lemma message_try_from_message_ok e m : message_try_from e = Ok m -> message_ok m = true.
Proof.
  intros Htf. apply message_ok_spec. apply message_try_from_ok in Htf as (-> & ? & ?). done.
Qed.

Lemma message_ok_try_from m :
  message_ok m = true -> message_try_from m.(message_envelope) = Ok m.
Proof.
  intros [? ?]%message_ok_spec. apply message_try_from_ok. by destruct m.
Qed.

(** A rejected envelope is [InvalidMessage], or [MessageTooLarge] when all its fields
    are fine and only its size is not. *)
Lemma message_try_from_err e x :
  message_try_from e = Err x ->
  (x = MessageTooLarge <-> envelope_ok e /\ exists bytes,
     envelope_to_vec e = Some bytes /\ (MAX_MESSAGE_BYTES < len bytes)%N).
Proof.
  intros Htf. split.
  - intros ->. unfold message_try_from in Htf. destruct (refuse _ _) as [u|] eqn:Hr in Htf.
    + apply refuse_ok in Hr. bool_hyps. cbn [forallb] in *. bool_hyps. split; [split; done || lia|].
      unfold message_encode, mbind, result_bind, refuse, ok_or in Htf. simpl in Htf.
      destruct (envelope_to_vec e) as [bytes|]; [|done].
      destruct (MAX_MESSAGE_BYTES <? len bytes)%N eqn:Hl; [|done]. apply N.ltb_lt in Hl. eauto.
    + revert Hr Htf. unfold refuse, mbind, result_bind. destruct (_ || _); congruence.
  - intros ([H1 H2 H3 H4 H5 H6 H7 H8] & bytes & Hb & Hl). revert Htf.
    unfold message_try_from, message_encode, mbind, result_bind, refuse, ok_or.
    cbn [forallb message_envelope]. apply N.ltb_ge in H7. apply N.ltb_lt in Hl.
    rewrite H1, H2, H3, H4, H5, H6, H7, H8, Hb, Hl. simpl. congruence.
Qed.
End Facts.

Section Properties.
Context `{Sha256, ProtocolJson}.

(** Every message that passed [try_from] encodes, and decoding the bytes gives
    the same message back; conversely whatever [decode] returns passed [try_from] and
    came from at most 32 KiB. *)
Theorem message_roundtrip (Hlaws : ProtocolJsonLaws) m :
  message_ok m = true ->
  exists bytes, message_encode m = Ok bytes /\ message_decode bytes = Ok m /\
    forall bytes' m', message_decode bytes' = Ok m' ->
      message_ok m' = true /\ (len bytes' <= MAX_MESSAGE_BYTES)%N.
Proof.
  intros Hm. pose proof (message_ok_try_from m Hm) as Htf.
  apply message_ok_spec in Hm as [Hok (bytes & Hb & Hl)]. exists bytes. split_and!.
  - by apply message_encode_ok.
  - unfold message_decode. rewrite result_seq_ok, refuse_ok, N.ltb_ge, result_bind_ok.
    split; [done|]. exists m.(message_envelope). rewrite (envelope_from_to _ _ Hb), Htf. done.
  - intros bytes' m'. unfold message_decode. rewrite result_seq_ok, refuse_ok, N.ltb_ge.
    rewrite result_bind_ok. intros (? & e & _ & Htf'). split; [|done].
    destruct (message_try_from e) as [m0|] eqn:He; [|done]. simpl in Htf'. injection Htf' as <-.
    by eapply message_try_from_message_ok.
Qed.

(** Restamping a message with a revision keeps everything the Brain
    deduplicates on: idempotency key, sender, Brain and payload hash; it succeeds only
    for revisions a JSON number can carry exactly, and then yields a valid message. *)
Lemma with_revision_keeps m r m' :
  with_revision m r = Ok m' ->
  (admission m').(adm_key) = (admission m).(adm_key) /\
  (admission m').(adm_sender_node_id) = (admission m).(adm_sender_node_id) /\
  (admission m').(adm_brain_id) = (admission m).(adm_brain_id) /\
  (admission m').(adm_payload) = (admission m).(adm_payload) /\
  payload_hash m' = payload_hash m /\
  (admission m').(adm_revision) = r /\ (r <= 9007199254740991)%N /\ message_ok m' = true.
Proof.
  unfold with_revision. intros Htf. pose proof (message_try_from_message_ok _ _ Htf).
  apply message_try_from_ok in Htf as (-> & Hok & _). split_and!; try done.
  apply (eok_revision _ Hok).
Qed.
End Properties.

(** A string enum is read back as it was written, and nothing else is read. *)
Definition enum_roundtrips (A : Type) `{StringEnum A, EqDecision A} : Prop :=
  (forall a, exists w, enum_serialize a = Some w /\ enum_deserialize w = Some a) /\
  (forall w (a : A), enum_deserialize w = Some a -> enum_serialize a = Some w).

Lemma find_some_in {A} (f : A -> bool) l x : find f l = Some x -> x ∈ l /\ f x = true.
Proof. intros [? ?]%find_some. by rewrite list_elem_of_In. Qed.

Ltac enum_roundtrip :=
  split;
  [ intros []; eexists; split; reflexivity
  | intros w a; unfold enum_deserialize; intros (p & Hp & ->)%fmap_Some;
    apply find_some_in in Hp as [Hin Hw]; apply str_eqb_true in Hw; subst w;
    repeat (apply elem_of_cons in Hin as [->|Hin]; [reflexivity|]);
    by apply not_elem_of_nil in Hin ].

(** Every enum of the protocol round-trips through its wire string, and only
    the exact wire strings are accepted. *)
Lemma string_enums_roundtrip :
  enum_roundtrips Role.t /\ enum_roundtrips RuntimeId.t /\ enum_roundtrips Capability.t /\
  enum_roundtrips ArtifactKind.t /\ enum_roundtrips TaskStatus.t /\
  enum_roundtrips ExecutionPolicy.t /\ enum_roundtrips ArtifactState.t /\
  enum_roundtrips ReceiptOutcome.t /\ enum_roundtrips Failure.t.
Proof. split_and!; enum_roundtrip. Qed.
