(* ===== verification/Credential.v ===== *)
(** * Node credentials (collaboration/credential.rs)

    Secret tokens and their domain-separated digests, the monotone clock, and the
    registry that issues, checks and revokes Node credentials. The operating
    system's random source is a parameter: each call of [SecretToken::generate] takes
    the outcome of its own [getrandom::fill] as an argument. *)

From S2P Require Import Prelude Protocol.

Definition MAX_CREDENTIALS : nat := 64.
Definition CREDENTIAL_TTL_SECONDS : Z := 24 * 60 * 60.

Inductive AccessError := Rejected | Capacity | EntropyUnavailable.
#[global] Instance AccessError_eq_dec : EqDecision AccessError.
Proof. solve_decision. Defined.

(** ** Secret tokens *)

Record SecretToken := mkToken { expose_secret : string }.
#[global] Instance SecretToken_eq_dec : EqDecision SecretToken.
Proof. solve_decision. Defined.

Inductive SecretPurpose := NodeCredential | Invitation.

(** The outcome of [getrandom::fill] on a [[u8; 32]] buffer. *)
Definition draw : Type := option (vec ascii 32).

Definition token_generate (d : draw) : result AccessError SecretToken :=
  match d with
  | None => Err EntropyUnavailable
  | Some bytes => Ok (mkToken (hex_of_bytes (String.string_of_list_ascii (vec_to_list bytes))))
  end.

Definition token_parse (value : string) : result AccessError SecretToken :=
  _ ← refuse (negb (len value =? 64)%N || negb (bytes_all is_lower_hex value)) Rejected;
  Ok (mkToken value).

Definition purpose_domain (purpose : SecretPurpose) : string :=
  match purpose with
  | NodeCredential => "rivloom/node-credential/v1" +:+ String (ascii_of_N 0) ""
  | Invitation => "rivloom/invitation/v1" +:+ String (ascii_of_N 0) ""
  end.

Section Digest.
Context `{Sha256}.

Definition token_digest (token : SecretToken) (purpose : SecretPurpose) : string :=
  sha256_digest (purpose_domain purpose +:+ token.(expose_secret)).

Definition token_matches (token : SecretToken) (expected : string)
    (purpose : SecretPurpose) : bool :=
  str_eqb (token_digest token purpose) expected.
End Digest.

(** ** Clock *)

Record Clock := mkClock { high_water_at : Z }.
#[global] Instance Clock_eq_dec : EqDecision Clock.
Proof. solve_decision. Defined.
Definition Clock_default : Clock := mkClock 0.

Definition clock_observe (now : Z) : M Clock AccessError unit :=
  clock ← get;
  _ ← reject_if (negb (timestamp now) || (now <? clock.(high_water_at))%Z) Rejected;
  modify (fun _ => mkClock now).

(** ** Bindings and credentials *)

Module CredentialBinding.
Record t := mk {
  brain_id : string;
  member_id : string;
  node_id : string;
  device_id : string;
}.
#[global] Instance eq_dec : EqDecision t.
Proof. solve_decision. Defined.
End CredentialBinding.

Definition binding_valid (b : CredentialBinding.t) : bool :=
  forallb id [b.(CredentialBinding.brain_id); b.(CredentialBinding.member_id);
              b.(CredentialBinding.node_id); b.(CredentialBinding.device_id)].

Module IssuedCredential.
Record t := mk {
  binding : CredentialBinding.t;
  expires_at : Z;
  secret : SecretToken;
}.
#[global] Instance eq_dec : EqDecision t.
Proof. solve_decision. Defined.
End IssuedCredential.

Module ConnectionIdentity.
Record t := mk { binding : CredentialBinding.t; verifier : string }.
#[global] Instance eq_dec : EqDecision t.
Proof. solve_decision. Defined.
End ConnectionIdentity.

Module StoredCredential.
Record t := mk {
  binding : CredentialBinding.t;
  issued_at : Z;
  expires_at : Z;
  verifier : string;
  revoked : bool;
}.
#[global] Instance eq_dec : EqDecision t.
Proof. solve_decision. Defined.
Definition member (r : t) : string := r.(binding).(CredentialBinding.member_id).
Definition revoke (r : t) : t :=
  {| binding := r.(binding); issued_at := r.(issued_at); expires_at := r.(expires_at);
     verifier := r.(verifier); revoked := true |}.
End StoredCredential.

Module CredentialRegistry.
Record t := mk {
  brain_id : string;
  clock : Clock;
  records : gmap string StoredCredential.t;
}.
#[global] Instance eq_dec : EqDecision t.
Proof. solve_decision. Defined.
Definition set_clock (c : Clock) (r : t) : t := mk r.(brain_id) c r.(records).
Definition set_records (m : gmap string StoredCredential.t) (r : t) : t :=
  mk r.(brain_id) r.(clock) m.
End CredentialRegistry.

Definition cred_high_water (r : CredentialRegistry.t) : Z :=
  high_water_at r.(CredentialRegistry.clock).

(** [records.values().map(|record| &record.binding)] *)
Definition bindings (r : CredentialRegistry.t) : list CredentialBinding.t :=
  StoredCredential.binding <$> values r.(CredentialRegistry.records).

Definition is_revoked (r : CredentialRegistry.t) (member_id : string) : bool :=
  existsb (fun record => str_eqb (StoredCredential.member record) member_id
                         && record.(StoredCredential.revoked))
    (values r.(CredentialRegistry.records)).

Definition registry_new (brain_id : string) : result AccessError CredentialRegistry.t :=
  _ ← refuse (negb (id brain_id)) Rejected;
  Ok (CredentialRegistry.mk brain_id Clock_default ∅).

(** ** [TryFrom<CredentialSnapshot>] *)

Definition record_valid (brain_id : string) (high_water : Z) (key : string)
    (record : StoredCredential.t) : bool :=
  binding_valid record.(StoredCredential.binding)
  && str_eqb record.(StoredCredential.binding).(CredentialBinding.brain_id) brain_id
  && str_eqb key record.(StoredCredential.binding).(CredentialBinding.node_id)
  && timestamp record.(StoredCredential.issued_at)
  && (record.(StoredCredential.issued_at) <=? high_water)%Z
  && timestamp record.(StoredCredential.expires_at)
  && bool_decide (i64_checked_add record.(StoredCredential.issued_at) CREDENTIAL_TTL_SECONDS
                  = Some record.(StoredCredential.expires_at)).

(** The loop of [try_from]: [members] remembers the revocation flag last seen for
    each member. *)
Fixpoint check_records (brain_id : string) (high_water : Z) (members : gmap string bool)
    (l : list (string * StoredCredential.t)) : result AccessError unit :=
  match l with
  | [] => Ok tt
  | (key, record) :: l =>
    let member := StoredCredential.member record in
    let revoked := record.(StoredCredential.revoked) in
    if negb (record_valid brain_id high_water key record)
       || is_some_and (fun old => negb (Bool.eqb old revoked)) (members !! member)
    then Err Rejected
    else check_records brain_id high_water (<[member := revoked]> members) l
  end.

(** The snapshot has the fields of the registry, deserialized without its checks. *)
Definition registry_try_from (value : CredentialRegistry.t)
    : result AccessError CredentialRegistry.t :=
  _ ← refuse (negb (id value.(CredentialRegistry.brain_id))
              || negb (timestamp (cred_high_water value))) Rejected;
  _ ← check_records value.(CredentialRegistry.brain_id) (cred_high_water value) ∅
        (entries value.(CredentialRegistry.records));
  Ok value.

(** ** Operations *)

Definition observe_registry (now : Z) : M CredentialRegistry.t AccessError unit :=
  zoom CredentialRegistry.clock CredentialRegistry.set_clock (fun e => e) (clock_observe now).

Section Operations.
Context `{Sha256}.

Definition issue (binding : CredentialBinding.t) (now : Z) (d : draw)
    : M CredentialRegistry.t AccessError IssuedCredential.t :=
  _ ← observe_registry now;
  r ← get;
  let records := r.(CredentialRegistry.records) in
  let node_id := binding.(CredentialBinding.node_id) in
  _ ← reject_if
    (negb (str_eqb binding.(CredentialBinding.brain_id) r.(CredentialRegistry.brain_id))
     || negb (binding_valid binding)
     || contains_key node_id records
     || existsb (fun record =>
          str_eqb (StoredCredential.member record) binding.(CredentialBinding.member_id)
          && record.(StoredCredential.revoked)) (values records)) Rejected;
  _ ← reject_if (MAX_CREDENTIALS <=? size records)%nat Capacity;
  expires_at ← lift (ok_or
    (opt_filter timestamp (i64_checked_add now CREDENTIAL_TTL_SECONDS)) Rejected);
  secret ← lift (token_generate d);
  let record := {| StoredCredential.binding := binding;
                   StoredCredential.issued_at := now;
                   StoredCredential.expires_at := expires_at;
                   StoredCredential.verifier := token_digest secret NodeCredential;
                   StoredCredential.revoked := false |} in
  _ ← modify (CredentialRegistry.set_records (<[node_id := record]> records));
  mret (IssuedCredential.mk binding expires_at secret).

Definition active_record (binding : CredentialBinding.t) (now : Z)
    : M CredentialRegistry.t AccessError StoredCredential.t :=
  _ ← observe_registry now;
  r ← get;
  record ← lift (ok_or
    (r.(CredentialRegistry.records) !! binding.(CredentialBinding.node_id)) Rejected);
  _ ← reject_if
    (negb (str_eqb binding.(CredentialBinding.brain_id) r.(CredentialRegistry.brain_id))
     || negb (bool_decide (record.(StoredCredential.binding) = binding))
     || record.(StoredCredential.revoked)
     || (now <? record.(StoredCredential.issued_at))%Z
     || (record.(StoredCredential.expires_at) <=? now)%Z) Rejected;
  mret record.

Definition connect (binding : CredentialBinding.t) (secret : SecretToken) (now : Z)
    : M CredentialRegistry.t AccessError ConnectionIdentity.t :=
  record ← active_record binding now;
  _ ← reject_if (negb (token_matches secret record.(StoredCredential.verifier) NodeCredential))
        Rejected;
  mret (ConnectionIdentity.mk binding record.(StoredCredential.verifier)).

Definition authorize_task (session : ConnectionIdentity.t) (now : Z)
    : M CredentialRegistry.t AccessError unit :=
  record ← active_record session.(ConnectionIdentity.binding) now;
  reject_if (negb (str_eqb record.(StoredCredential.verifier)
                           session.(ConnectionIdentity.verifier))) Rejected.
End Operations.

Definition of_member (member_id : string) (record : StoredCredential.t) : bool :=
  str_eqb (StoredCredential.member record) member_id.

Definition revoke_credentials (member_id : string) : M CredentialRegistry.t AccessError unit :=
  r ← get;
  let records := r.(CredentialRegistry.records) in
  _ ← modify (CredentialRegistry.set_records
        (update_where (of_member member_id) StoredCredential.revoke records));
  reject_if (negb (existsb (of_member member_id) (values records))) Rejected.

(** ** The registry's invariant *)

(** What [TryFrom<CredentialSnapshot>] demands of a registry, with the capacity that
    [issue] and the bounded map reader enforce. *)
Record registry_wf (r : CredentialRegistry.t) : Prop := {
  rwf_brain : id r.(CredentialRegistry.brain_id) = true;
  rwf_clock : timestamp (cred_high_water r) = true;
  rwf_records : map_Forall (fun key record =>
    record_valid r.(CredentialRegistry.brain_id) (cred_high_water r) key record = true)
    r.(CredentialRegistry.records);
  (** all credentials of a member are revoked, or none is *)
  rwf_members : map_Forall (fun _ record =>
    record.(StoredCredential.revoked) = is_revoked r (StoredCredential.member record))
    r.(CredentialRegistry.records);
  rwf_capacity : size r.(CredentialRegistry.records) <= MAX_CREDENTIALS;
}.

(** A session passes the credential check of registry [r] at time [now]. *)
Definition session_live (r : CredentialRegistry.t) (s : ConnectionIdentity.t) (now : Z)
    : Prop :=
  let b := s.(ConnectionIdentity.binding) in
  exists record,
    r.(CredentialRegistry.records) !! b.(CredentialBinding.node_id) = Some record /\
    b.(CredentialBinding.brain_id) = r.(CredentialRegistry.brain_id) /\
    record.(StoredCredential.binding) = b /\
    record.(StoredCredential.revoked) = false /\
    (record.(StoredCredential.issued_at) <= now < record.(StoredCredential.expires_at))%Z /\
    record.(StoredCredential.verifier) = s.(ConnectionIdentity.verifier).

Definition observable (r : CredentialRegistry.t) (now : Z) : Prop :=
  timestamp now = true /\ (cred_high_water r <= now)%Z.

(** Any operation of the registry, with any arguments and any outcome. *)
Inductive registry_step `{Sha256} : CredentialRegistry.t -> CredentialRegistry.t -> Prop :=
| step_issue b now d res r r' : issue b now d r = (res, r') -> registry_step r r'
| step_connect b secret now res r r' : connect b secret now r = (res, r') -> registry_step r r'
| step_authorize s now res r r' : authorize_task s now r = (res, r') -> registry_step r r'
| step_revoke m res r r' : revoke_credentials m r = (res, r') -> registry_step r r'.

(** ** Lemmas *)

Lemma token_generate_parse d t :
  token_generate d = Ok t -> token_parse t.(expose_secret) = Ok t.
Proof.
  destruct d as [bytes|]; simpl; [|done]. intros [= <-]. unfold token_parse. simpl.
  rewrite len_hex_of_bytes, hex_of_bytes_lower. unfold len.
  rewrite length_string_of_list, length_vec_to_list. done.
Qed.

Lemma token_generate_shape d t :
  token_generate d = Ok t ->
  len t.(expose_secret) = 64%N /\ bytes_all is_lower_hex t.(expose_secret) = true.
Proof.
  intros H%token_generate_parse. unfold token_parse, mbind, result_bind, refuse in H.
  destruct (len (expose_secret t) =? 64)%N eqn:Hl; simpl in H; [|done].
  destruct (bytes_all is_lower_hex (expose_secret t)); simpl in H; [|done].
  by apply N.eqb_eq in Hl.
Qed.

(** Identifiers built from a prefix and a token pass the protocol's [id] rule. *)
Lemma id_prefix_token prefix d t :
  token_generate d = Ok t -> id prefix = true -> (len prefix <= 64)%N ->
  id (prefix +:+ t.(expose_secret)) = true.
Proof.
  intros (Hlen & Hhex)%token_generate_shape Hp Hlp. unfold id in *.
  apply andb_true_inv in Hp as [[He _]%andb_true_inv Ha].
  rewrite bytes_all_append, Ha, len_append, Hlen.
  rewrite (bytes_all_impl is_lower_hex _ _); [|intros b|done].
  - apply andb_true_intro; split; [|done]. apply andb_true_intro; split.
    + by destruct prefix.
    + apply N.leb_le. lia.
  - unfold is_lower_hex, is_ascii_alphanumeric, is_ascii_digit, in_range. lia.
Qed.

Lemma clock_observe_spec now c :
  clock_observe now c =
  if timestamp now && (c.(high_water_at) <=? now)%Z then (Ok tt, mkClock now)
  else (Err Rejected, c).
Proof.
  unfold clock_observe, mbind, M_bind, get, reject_if, modify, throw, mret, M_ret.
  rewrite Z.ltb_antisym. by destruct (timestamp now), (high_water_at c <=? now)%Z.
Qed.

Lemma observe_registry_ok now r u r' :
  observe_registry now r = (Ok u, r') ->
  observable r now /\ r' = CredentialRegistry.set_clock (mkClock now) r.
Proof.
  unfold observe_registry, zoom, observable, cred_high_water. rewrite clock_observe_spec.
  destruct (timestamp now) eqn:Ht, (_ <=? now)%Z eqn:Hh; simpl; try done.
  intros [= _ <-]. apply Z.leb_le in Hh. done.
Qed.

Lemma observe_registry_err now r e r' :
  observe_registry now r = (Err e, r') -> e = Rejected /\ r' = r /\ ~ observable r now.
Proof.
  unfold observe_registry, zoom, observable, cred_high_water. rewrite clock_observe_spec.
  destruct r as [b c m]. simpl.
  destruct (timestamp now) eqn:Ht, (high_water_at c <=? now)%Z eqn:Hh;
    simpl; intros Hrun; simplify_eq/=; repeat split; try (intros [? ?]; lia || done).
Qed.

Lemma observe_registry_run now r :
  observable r now ->
  observe_registry now r = (Ok tt, CredentialRegistry.set_clock (mkClock now) r).
Proof.
  unfold observe_registry, zoom, observable, cred_high_water. rewrite clock_observe_spec.
  intros [-> H%Z.leb_le]. by rewrite H.
Qed.

(** The loop accepts exactly when some assignment of one flag to each member agrees
    with what was seen before and with every record. *)
Lemma check_records_ok brain hw members l :
  check_records brain hw members l = Ok tt <->
  exists flag : string -> bool,
    (forall m b, members !! m = Some b -> flag m = b) /\
    Forall (fun '(k, r) => record_valid brain hw k r = true /\
      flag (StoredCredential.member r) = r.(StoredCredential.revoked)) l.
Proof.
  revert members. induction l as [|[k r] l IH]; intros members; cbn [check_records].
  { split; [|done]. intros _. exists (fun m => default false (members !! m)).
    split; [by intros m b ->|constructor]. }
  set (m := StoredCredential.member r). set (f := StoredCredential.revoked r). split.
  - destruct (record_valid brain hw k r) eqn:Hv; simpl; [|done].
    destruct (is_some_and _ (members !! m)) eqn:Hold; [done|].
    intros Hrest. apply IH in Hrest as (flag & Hflag & Hl). exists flag.
    assert (flag m = f) as Hm by (apply Hflag, lookup_insert_eq).
    split; [|by constructor]. intros m' b Hm'. destruct (decide (m' = m)) as [->|Hne].
    + rewrite Hm' in Hold. simpl in Hold. apply negb_false_iff, Bool.eqb_prop in Hold.
      congruence.
    + apply Hflag. by rewrite lookup_insert_ne.
  - intros (flag & Hflag & Hl). apply list.Forall_cons in Hl as [[Hv Hm] Hl]. rewrite Hv. simpl.
    destruct (members !! m) as [old|] eqn:Hold; simpl.
    + apply Hflag in Hold. fold m f in Hm. rewrite <- Hold, Hm, Bool.eqb_reflx. simpl.
      apply IH. exists flag. split; [|done].
      intros m' b [[<- <-]|[? ?]]%lookup_insert_Some; auto.
    + apply IH. exists flag. split; [|done].
      intros m' b [[<- <-]|[? ?]]%lookup_insert_Some; auto.
Qed.

Lemma is_revoked_true r m :
  is_revoked r m = true <->
  exists k record, r.(CredentialRegistry.records) !! k = Some record /\
    StoredCredential.member record = m /\ record.(StoredCredential.revoked) = true.
Proof.
  unfold is_revoked. rewrite existsb_values. split.
  - intros (k & record & Hk & [? ?]%andb_true_inv). apply str_eqb_true in H. eauto.
  - intros (k & record & Hk & <- & Hr). exists k, record. rewrite str_eqb_refl. eauto.
Qed.

(** [try_from] accepts exactly the well-formed registries within capacity. *)
Lemma registry_try_from_wf r :
  size r.(CredentialRegistry.records) <= MAX_CREDENTIALS ->
  registry_try_from r = Ok r <-> registry_wf r.
Proof.
  intros Hsize. unfold registry_try_from. rewrite result_bind_ok. setoid_rewrite refuse_ok.
  setoid_rewrite result_bind_ok. split.
  - intros (_ & Hg & u & Hc & _). destruct u.
    apply check_records_ok in Hc as (flag & _ & Hl). bool_hyps.
    rewrite list.Forall_forall in Hl.
    assert (forall k v, r.(CredentialRegistry.records) !! k = Some v ->
      record_valid r.(CredentialRegistry.brain_id) (cred_high_water r) k v = true /\
      flag (StoredCredential.member v) = v.(StoredCredential.revoked)) as Hall.
    { intros k v Hk. apply (Hl (k, v)). by apply elem_of_entries. }
    split; try done.
    + intros k v Hk. by apply Hall in Hk as [? _].
    + intros k v Hk. destruct (is_revoked r (StoredCredential.member v)) eqn:Hr.
      * apply is_revoked_true in Hr as (k' & v' & Hk' & Hm & Hv').
        destruct (Hall _ _ Hk) as [_ <-]. destruct (Hall _ _ Hk') as [_ Hf']. congruence.
      * apply not_true_iff_false in Hr. apply not_true_iff_false. intros Hv. apply Hr.
        apply is_revoked_true. eauto.
  - intros [Hb Hc Hrec Hmem _]. exists tt. rewrite Hb, Hc. split; [done|].
    exists tt. split; [|done]. apply check_records_ok. exists (is_revoked r).
    split; [by intros m b; rewrite lookup_empty|]. apply list.Forall_forall.
    intros [k v] Hin%elem_of_entries. split; [by apply Hrec|]. symmetry. by eapply Hmem.
Qed.

#[global] Instance observable_dec r now : Decision (observable r now).
Proof. unfold observable. apply _. Defined.

(** The registry after a successful observation of [now]. *)
Definition at_time (now : Z) (r : CredentialRegistry.t) : CredentialRegistry.t :=
  CredentialRegistry.set_clock (mkClock now) r.
#[global] Arguments at_time _ _ /.

Lemma observe_registry_not now r :
  ~ observable r now -> observe_registry now r = (Err Rejected, r).
Proof.
  intros Hn. destruct (observe_registry now r) as [[u|e] r'] eqn:Hrun.
  - by apply observe_registry_ok in Hrun as [? _].
  - by apply observe_registry_err in Hrun as (-> & -> & _).
Qed.

Lemma at_time_wf now r : registry_wf r -> observable r now -> registry_wf (at_time now r).
Proof.
  intros [Hb Hc Hrec Hmem Hcap] [Ht Hle]. split; try done.
  intros k v Hk. apply Hrec in Hk. unfold record_valid, cred_high_water in *. simpl.
  repeat rewrite andb_true_iff in Hk |- *. intuition lia.
Qed.

(** Whether a record found for a binding is usable: the guard of [active_record]. *)
Definition record_refused (r : CredentialRegistry.t) (b : CredentialBinding.t) (now : Z)
    (record : StoredCredential.t) : bool :=
  negb (str_eqb b.(CredentialBinding.brain_id) r.(CredentialRegistry.brain_id))
  || negb (bool_decide (record.(StoredCredential.binding) = b))
  || record.(StoredCredential.revoked)
  || (now <? record.(StoredCredential.issued_at))%Z
  || (record.(StoredCredential.expires_at) <=? now)%Z.

Lemma active_record_run b now r :
  observable r now ->
  active_record b now r =
  (match r.(CredentialRegistry.records) !! b.(CredentialBinding.node_id) with
   | Some record => if record_refused r b now record then Err Rejected else Ok record
   | None => Err Rejected
   end, at_time now r).
Proof.
  intros Hobs. unfold active_record. erewrite bind_ok by (by apply observe_registry_run).
  unfold mbind, M_bind, get, lift. simpl. fold (record_refused r b now).
  destruct (_ !! _) as [record|]; simpl; [|done].
  change (CredentialRegistry.brain_id _) with (CredentialRegistry.brain_id r).
  fold (record_refused r b now record). by destruct (record_refused r b now record).
Qed.

Lemma active_record_not b now r :
  ~ observable r now -> active_record b now r = (Err Rejected, r).
Proof.
  intros Hn. unfold active_record. apply bind_err. by apply observe_registry_not.
Qed.

Lemma record_refused_false r b now record :
  record_refused r b now record = false <->
  b.(CredentialBinding.brain_id) = r.(CredentialRegistry.brain_id) /\
  record.(StoredCredential.binding) = b /\
  record.(StoredCredential.revoked) = false /\
  (record.(StoredCredential.issued_at) <= now < record.(StoredCredential.expires_at))%Z.
Proof.
  unfold record_refused, str_eqb. repeat rewrite orb_false_iff.
  rewrite !negb_false_iff, !bool_decide_eq_true. intuition lia.
Qed.

Section Facts.
Context `{Sha256}.

Lemma authorize_task_run s now r :
  observable r now ->
  authorize_task s now r =
  (match r.(CredentialRegistry.records) !!
         s.(ConnectionIdentity.binding).(CredentialBinding.node_id) with
   | Some record =>
     if record_refused r s.(ConnectionIdentity.binding) now record
        || negb (str_eqb record.(StoredCredential.verifier) s.(ConnectionIdentity.verifier))
     then Err Rejected else Ok tt
   | None => Err Rejected
   end, at_time now r).
Proof.
  intros Hobs. unfold authorize_task, mbind, M_bind. rewrite (active_record_run _ _ _ Hobs).
  destruct (_ !! _) as [record|]; [|done].
  destruct (record_refused _ _ _ record); [done|]. simpl.
  by destruct (str_eqb _ _).
Qed.

Lemma authorize_task_not s now r :
  ~ observable r now -> authorize_task s now r = (Err Rejected, r).
Proof.
  intros Hn. unfold authorize_task. apply bind_err. by apply active_record_not.
Qed.

(** The two outcomes of a credential check, for the callers that only forward it. *)
Lemma authorize_task_ok s now r u r' :
  authorize_task s now r = (Ok u, r') ->
  observable r now /\ r' = at_time now r /\ session_live r s now.
Proof.
  destruct (decide (observable r now)) as [Hobs|Hn]; last by rewrite authorize_task_not.
  rewrite (authorize_task_run _ _ _ Hobs). unfold session_live.
  destruct (_ !! _) as [record|] eqn:Hk; [|done].
  destruct (record_refused _ _ _ record) eqn:Hr; [done|]. simpl.
  destruct (str_eqb _ _) eqn:Hv; [|done]. simpl. intros [= _ <-].
  apply record_refused_false in Hr as (?&?&?&?&?). apply str_eqb_true in Hv.
  split_and!; [done|done|]. exists record. by split_and!.
Qed.

Lemma authorize_task_err s now r e r' :
  authorize_task s now r = (Err e, r') ->
  e = Rejected /\ (r' = r \/ observable r now /\ r' = at_time now r).
Proof.
  destruct (decide (observable r now)) as [Hobs|Hn].
  - rewrite (authorize_task_run _ _ _ Hobs). destruct (_ !! _) as [record|].
    + destruct (_ || _); naive_solver.
    + naive_solver.
  - rewrite authorize_task_not by done. naive_solver.
Qed.

Lemma authorize_task_live s now r :
  observable r now -> session_live r s now ->
  authorize_task s now r = (Ok tt, at_time now r).
Proof.
  intros Hobs (record & Hk & Hb & Hbind & Hrev & Htime & Hver).
  rewrite (authorize_task_run _ _ _ Hobs), Hk.
  assert (record_refused r s.(ConnectionIdentity.binding) now record = false) as ->
    by (apply record_refused_false; destruct Htime; by split_and!).
  by rewrite Hver, str_eqb_refl.
Qed.
End Facts.

Section Operations_facts.
Context `{Sha256}.

(** The record a successful [issue] stores. *)
Definition issued_record (b : CredentialBinding.t) (now : Z) (t : SecretToken)
    : StoredCredential.t :=
  {| StoredCredential.binding := b;
     StoredCredential.issued_at := now;
     StoredCredential.expires_at := (now + CREDENTIAL_TTL_SECONDS)%Z;
     StoredCredential.verifier := token_digest t NodeCredential;
     StoredCredential.revoked := false |}.

Lemma checked_ttl now ttl e :
  opt_filter timestamp (i64_checked_add now ttl) = Some e ->
  e = (now + ttl)%Z /\ timestamp e = true /\ i64_checked_add now ttl = Some e.
Proof.
  unfold i64_checked_add. case_bool_decide; simpl; [|done].
  destruct (timestamp (now + ttl)) eqn:Ht; [|done]. intros [= <-]. done.
Qed.

Lemma issue_ok b now d r c r' :
  issue b now d r = (Ok c, r') ->
  exists t,
    observable r now /\
    b.(CredentialBinding.brain_id) = r.(CredentialRegistry.brain_id) /\
    binding_valid b = true /\
    r.(CredentialRegistry.records) !! b.(CredentialBinding.node_id) = None /\
    is_revoked r b.(CredentialBinding.member_id) = false /\
    size r.(CredentialRegistry.records) < MAX_CREDENTIALS /\
    timestamp (now + CREDENTIAL_TTL_SECONDS) = true /\
    i64_checked_add now CREDENTIAL_TTL_SECONDS = Some (now + CREDENTIAL_TTL_SECONDS)%Z /\
    token_generate d = Ok t /\
    c = IssuedCredential.mk b (now + CREDENTIAL_TTL_SECONDS) t /\
    r' = CredentialRegistry.set_records
           (<[b.(CredentialBinding.node_id) := issued_record b now t]>
              r.(CredentialRegistry.records)) (at_time now r).
Proof.
  unfold issue. intros Hrun. run_inv Hrun.
  apply observe_registry_ok in Hrun0 as [Hobs ->].
  bool_hyps. simpl in *. apply checked_ttl in Hrun as (-> & Hts & Hadd).
  unfold is_revoked. exists a3. by split_and!.
Qed.

Lemma issue_err b now d r e r' :
  issue b now d r = (Err e, r') -> r' = r \/ observable r now /\ r' = at_time now r.
Proof.
  unfold issue. intros [Hrun|(u & s & Hrun & Hk)]%bind_err_iff.
  { apply observe_registry_err in Hrun as (_ & -> & _). by left. }
  apply observe_registry_ok in Hrun as [Hobs ->]. right. split; [done|]. revert Hk.
  unfold mbind, M_bind, get, reject_if, lift, throw, mret, M_ret, modify.
  repeat case_match; intros; simplify_eq; try done.
Qed.

Lemma connect_state b secret now r res r' :
  connect b secret now r = (res, r') -> r' = r \/ observable r now /\ r' = at_time now r.
Proof.
  unfold connect, mbind, M_bind.
  destruct (decide (observable r now)) as [Hobs|Hn].
  - rewrite (active_record_run _ _ _ Hobs). unfold reject_if, throw, mret, M_ret.
    repeat case_match; naive_solver.
  - rewrite (active_record_not _ _ _ Hn). naive_solver.
Qed.

Lemma authorize_task_state s now r res r' :
  authorize_task s now r = (res, r') -> r' = r \/ observable r now /\ r' = at_time now r.
Proof.
  destruct res.
  - intros (?&?&_)%authorize_task_ok. auto.
  - intros (_&?)%authorize_task_err. done.
Qed.

Lemma revoke_credentials_state m r res r' :
  revoke_credentials m r = (res, r') ->
  r' = CredentialRegistry.set_records
         (update_where (of_member m) StoredCredential.revoke r.(CredentialRegistry.records)) r.
Proof.
  unfold revoke_credentials, mbind, M_bind, get, modify, reject_if, throw, mret, M_ret.
  case_match; naive_solver.
Qed.
End Operations_facts.

Section Invariant.
Context `{Sha256}.

(** Issuing to a member that is not revoked changes no member's revocation. *)
Lemma is_revoked_issued b now t r m :
  r.(CredentialRegistry.records) !! b.(CredentialBinding.node_id) = None ->
  is_revoked (CredentialRegistry.set_records
    (<[b.(CredentialBinding.node_id) := issued_record b now t]>
       r.(CredentialRegistry.records)) (at_time now r)) m = is_revoked r m.
Proof.
  intros Hfresh. apply eq_true_iff_eq. rewrite !is_revoked_true. simpl.
  split; intros (k & v & Hk & Hm & Hv); exists k, v; (split; [|done]).
  - apply lookup_insert_Some in Hk as [[<- <-]|[? ?]]; [|done]. done.
  - rewrite lookup_insert_ne; [done|]. congruence.
Qed.

Lemma issue_wf b now d r c r' :
  registry_wf r -> issue b now d r = (Ok c, r') -> registry_wf r'.
Proof.
  intros Hwf Hrun. apply issue_ok in Hrun
    as (t & Hobs & Hb & Hvalid & Hfresh & Hrev & Hsize & Hts & Hadd & Ht & -> & ->).
  pose proof (at_time_wf now r Hwf Hobs) as [Hbrain Hclock Hrec Hmem _].
  split; [done|done| | |].
  - intros k v Hk. simpl in Hk. apply lookup_insert_Some in Hk as [[<- <-]|[? Hk]].
    + unfold record_valid, issued_record, cred_high_water. simpl.
      rewrite Hvalid, Hb, !str_eqb_refl, Hts, Hadd, Z.leb_refl. destruct Hobs as [-> _].
      by rewrite bool_decide_eq_true_2.
    + by apply (Hrec k v).
  - intros k v Hk. rewrite is_revoked_issued by done. simpl in Hk.
    apply lookup_insert_Some in Hk as [[<- <-]|[? Hk]]; [done|]. by apply (Hmem k v).
  - simpl. rewrite map_size_insert_None by done. lia.
Qed.

(** After revoking [m], a member is revoked when it was, or when it is [m] and has a
    credential. *)
Lemma is_revoked_revoke r m m' :
  is_revoked (CredentialRegistry.set_records
    (update_where (of_member m) StoredCredential.revoke r.(CredentialRegistry.records)) r) m'
  = is_revoked r m' || str_eqb m' m && existsb (of_member m) (values r.(CredentialRegistry.records)).
Proof.
  apply eq_true_iff_eq. rewrite orb_true_iff, andb_true_iff, !is_revoked_true, str_eqb_true.
  rewrite existsb_values. simpl. split.
  - intros (k & v & Hk & Hm & Hv). rewrite lookup_update_where in Hk.
    apply fmap_Some in Hk as (v0 & Hk & ->).
    destruct (of_member m v0) eqn:Hof; [|left; by exists k, v0].
    right. split; [|by exists k, v0]. apply str_eqb_true in Hof. by subst.
  - intros [(k & v & Hk & Hm & Hv)|(-> & k & v & Hk & Hof)]; exists k; eexists;
      rewrite lookup_update_where, Hk; (split; [done|]).
    + by destruct (of_member m v).
    + rewrite Hof. apply str_eqb_true in Hof. by split.
Qed.

Lemma revoke_credentials_wf m r res r' :
  registry_wf r -> revoke_credentials m r = (res, r') -> registry_wf r'.
Proof.
  intros [Hb Hc Hrec Hmem Hcap] ->%revoke_credentials_state. split; [done|done| | |].
  - intros k v Hk. simpl in Hk. rewrite lookup_update_where in Hk.
    apply fmap_Some in Hk as (v0 & Hk & ->). apply Hrec in Hk. by case_match.
  - intros k v Hk. simpl in Hk. rewrite lookup_update_where in Hk.
    apply fmap_Some in Hk as (v0 & Hk & ->). rewrite is_revoked_revoke.
    destruct (of_member m v0) eqn:Hof.
    + symmetry. apply orb_true_iff. right. apply andb_true_iff. split; [exact Hof|].
      apply existsb_values. eauto.
    + unfold of_member in Hof. rewrite Hof, andb_false_l, orb_false_r. by apply (Hmem k v0).
  - simpl. by rewrite size_update_where.
Qed.

Lemma registry_step_wf r r' : registry_wf r -> registry_step r r' -> registry_wf r'.
Proof.
  intros Hwf Hstep.
  destruct Hstep as [b now d [c|e] r r' Hrun|b secret now res r r' Hrun
                    |s now res r r' Hrun|m res r r' Hrun].
  - by eapply issue_wf.
  - apply issue_err in Hrun as [->|[? ->]]; [done|by apply at_time_wf].
  - apply connect_state in Hrun as [->|[? ->]]; [done|by apply at_time_wf].
  - apply authorize_task_state in Hrun as [->|[? ->]]; [done|by apply at_time_wf].
  - by eapply revoke_credentials_wf.
Qed.

(** Once a member is revoked, no operation of the registry undoes it. *)
Lemma is_revoked_step r r' m :
  registry_step r r' -> is_revoked r m = true -> is_revoked r' m = true.
Proof.
  intros Hstep Hr.
  destruct Hstep as [b now d [c|e] r r' Hrun|b secret now res r r' Hrun
                    |s now res r r' Hrun|m' res r r' Hrun].
  - apply issue_ok in Hrun as (t & _ & _ & _ & Hfresh & _ & _ & _ & _ & _ & -> & ->).
    by rewrite is_revoked_issued.
  - apply issue_err in Hrun as [->|[? ->]]; done.
  - apply connect_state in Hrun as [->|[? ->]]; done.
  - apply authorize_task_state in Hrun as [->|[? ->]]; done.
  - apply revoke_credentials_state in Hrun as ->. by rewrite is_revoked_revoke, Hr.
Qed.

Lemma registry_steps r r' m :
  rtc registry_step r r' -> registry_wf r -> is_revoked r m = true ->
  registry_wf r' /\ is_revoked r' m = true.
Proof.
  induction 1 as [|r1 r2 r3 Hstep _ IH]; intros Hwf Hr; [done|].
  apply IH; eauto using registry_step_wf, is_revoked_step.
Qed.

(** A session of a revoked member is never live. *)
Lemma session_live_not_revoked r s now :
  registry_wf r -> session_live r s now ->
  is_revoked r s.(ConnectionIdentity.binding).(CredentialBinding.member_id) = false.
Proof.
  intros Hwf (v & Hk & _ & Hb & Hrev & _). pose proof (rwf_members _ Hwf _ _ Hk) as Hm.
  unfold StoredCredential.member in Hm. rewrite Hb in Hm. congruence.
Qed.
End Invariant.

(** ** Credentials across any sequence of operations *)

Section Lifetime.
Context `{Sha256}.

(** The same credential, whatever its revocation flag. *)
Definition same_credential (v v' : StoredCredential.t) : Prop :=
  v'.(StoredCredential.binding) = v.(StoredCredential.binding) /\
  v'.(StoredCredential.issued_at) = v.(StoredCredential.issued_at) /\
  v'.(StoredCredential.expires_at) = v.(StoredCredential.expires_at) /\
  v'.(StoredCredential.verifier) = v.(StoredCredential.verifier).

Lemma registry_step_keeps r r' k v :
  registry_step r r' -> r.(CredentialRegistry.records) !! k = Some v ->
  r'.(CredentialRegistry.brain_id) = r.(CredentialRegistry.brain_id) /\
  exists v', r'.(CredentialRegistry.records) !! k = Some v' /\ same_credential v v'.
Proof.
  intros Hstep Hk.
  destruct Hstep as [b now d [c|e] r r' Hrun|b secret now res r r' Hrun
                    |s now res r r' Hrun|m res r r' Hrun].
  - apply issue_ok in Hrun as (t & _ & _ & _ & Hfresh & _ & _ & _ & _ & _ & -> & ->).
    split; [done|]. exists v. simpl. rewrite lookup_insert_ne; [done|congruence].
  - apply issue_err in Hrun as [->|[? ->]]; split; try done; by exists v.
  - apply connect_state in Hrun as [->|[? ->]]; split; try done; by exists v.
  - apply authorize_task_state in Hrun as [->|[? ->]]; split; try done; by exists v.
  - apply revoke_credentials_state in Hrun as ->. split; [done|]. eexists. simpl.
    rewrite lookup_update_where, Hk. split; [done|]. by destruct (of_member m v).
Qed.

Lemma registry_steps_keep r r' k v :
  rtc registry_step r r' -> r.(CredentialRegistry.records) !! k = Some v ->
  r'.(CredentialRegistry.brain_id) = r.(CredentialRegistry.brain_id) /\
  exists v', r'.(CredentialRegistry.records) !! k = Some v' /\ same_credential v v'.
Proof.
  intros Hsteps. revert v. induction Hsteps as [r|r1 r2 r3 Hstep _ IH]; intros v Hk.
  { split; [done|]. by exists v. }
  destruct (registry_step_keeps _ _ _ _ Hstep Hk) as (Hb & v2 & Hk2 & ? & ? & ? & ?).
  destruct (IH _ Hk2) as (Hb3 & v3 & Hk3 & ? & ? & ? & ?).
  split; [congruence|]. exists v3. split; [done|]. split_and!; congruence.
Qed.

Lemma registry_steps_wf r r' : rtc registry_step r r' -> registry_wf r -> registry_wf r'.
Proof. induction 1; eauto using registry_step_wf. Qed.

(** The outcome of [connect] once the clock accepts [now]. *)
Lemma connect_run b secret now r :
  observable r now ->
  connect b secret now r =
  (match r.(CredentialRegistry.records) !! b.(CredentialBinding.node_id) with
   | Some v =>
     if record_refused r b now v
        || negb (token_matches secret v.(StoredCredential.verifier) NodeCredential)
     then Err Rejected
     else Ok (ConnectionIdentity.mk b v.(StoredCredential.verifier))
   | None => Err Rejected
   end, at_time now r).
Proof.
  intros Hobs. unfold connect, mbind, M_bind. rewrite (active_record_run _ _ _ Hobs).
  destruct (_ !! _) as [v|]; [|done]. destruct (record_refused r b now v); [done|]. simpl.
  by destruct (token_matches _ _ _).
Qed.

Lemma connect_not b secret now r :
  ~ observable r now -> connect b secret now r = (Err Rejected, r).
Proof. intros Hn. unfold connect. apply bind_err. by apply active_record_not. Qed.

Lemma connect_ok_live b secret now r c r' :
  connect b secret now r = (Ok c, r') ->
  session_live r c now /\ c.(ConnectionIdentity.binding) = b /\
  c.(ConnectionIdentity.verifier) = token_digest secret NodeCredential /\
  observable r now /\ r' = at_time now r.
Proof.
  destruct (decide (observable r now)) as [Hobs|Hn]; last by rewrite connect_not.
  rewrite (connect_run _ _ _ _ Hobs). destruct (_ !! _) as [v|] eqn:Hk; [|done].
  destruct (record_refused r b now v) eqn:Href; [done|]. simpl.
  destruct (token_matches _ _ _) eqn:Hm; [|done]. intros [= <- <-]. simpl.
  apply record_refused_false in Href as (Hb & Hbind & Hrev & Ht1 & Ht2).
  apply str_eqb_true in Hm. split; [|done]. exists v. by split_and!.
Qed.

(** [authorize_task] accepts a session exactly when the clock may move to
    [now] and the session's Node holds an unrevoked credential of this Brain with the
    same binding and verifier whose lifetime contains [now]; it then only advances the
    clock, and every refusal is [Rejected]. *)
Theorem authorize_task_iff s now r :
  (authorize_task s now r = (Ok tt, at_time now r) <-> observable r now /\ session_live r s now) /\
  ((authorize_task s now r).1 = Ok tt \/ (authorize_task s now r).1 = Err Rejected).
Proof.
  split; [split|].
  - intros (?&_&?)%authorize_task_ok. done.
  - intros [? ?]. by apply authorize_task_live.
  - destruct (authorize_task s now r) as [[[]|e] r'] eqn:Hrun; [by left|right].
    by apply authorize_task_err in Hrun as [-> _].
Qed.

(** A credential issued at [t0] opens a session at [now], after any
    sequence of registry operations in between, exactly while its member is not revoked
    and [now < t0 + 86400]; the session it opens is authorized at that time. *)
Theorem issued_credential_lifetime b t0 d r c r1 r2 now :
  registry_wf r -> issue b t0 d r = (Ok c, r1) -> rtc registry_step r1 r2 ->
  observable r2 now -> (t0 <= now)%Z ->
  let secret := c.(IssuedCredential.secret) in
  let session := ConnectionIdentity.mk b (token_digest secret NodeCredential) in
  if bool_decide (is_revoked r2 b.(CredentialBinding.member_id) = false /\
                  (now < t0 + 86400)%Z)
  then connect b secret now r2 = (Ok session, at_time now r2) /\
       authorize_task session now (at_time now r2) = (Ok tt, at_time now r2)
  else (connect b secret now r2).1 = Err Rejected /\
       (authorize_task session now r2).1 = Err Rejected.
Proof.
  intros Hwf Hissue Hsteps Hobs Ht0 secret session.
  pose proof (issue_wf _ _ _ _ _ _ Hwf Hissue) as Hwf1.
  pose proof (registry_steps_wf _ _ Hsteps Hwf1) as Hwf2.
  apply issue_ok in Hissue as (t & Ho & Hb & _ & _ & _ & _ & _ & _ & Ht & -> & ->).
  destruct (registry_steps_keep _ _ b.(CredentialBinding.node_id) (issued_record b t0 t) Hsteps)
    as (Hbr & v & Hk & Hbind & His & Hexp & Hver); [apply lookup_insert_eq|].
  simpl in *. pose proof (rwf_members _ Hwf2 _ _ Hk) as Hrev. unfold StoredCredential.member in Hrev.
  rewrite Hbind in Hrev.
  assert (record_refused r2 b now v =
    negb (bool_decide (is_revoked r2 b.(CredentialBinding.member_id) = false /\
                       (now < t0 + 86400)%Z))) as Href.
  { unfold CREDENTIAL_TTL_SECONDS in Hexp. case_bool_decide as Hc; simpl.
    - apply record_refused_false. rewrite Hrev, Hexp, His. intuition congruence || lia.
    - apply not_false_iff_true. rewrite record_refused_false, Hrev, Hexp, His. naive_solver. }
  rewrite (connect_run _ _ _ _ Hobs), Hk, Href, Hver. unfold token_matches.
  rewrite str_eqb_refl, orb_false_r.
  case_bool_decide as Hc; simpl.
  - split; [done|]. apply authorize_task_live.
    + split; [apply Hobs|unfold cred_high_water; simpl; lia].
    + exists v. unfold CREDENTIAL_TTL_SECONDS in Hexp. rewrite Hrev, Hexp, His. simpl.
      destruct Hc. split_and!; first [done|congruence|lia].
  - split; [done|]. rewrite (authorize_task_run _ _ _ Hobs). simpl. by rewrite Hk, Href.
Qed.

(** Once a member is revoked, no sequence of registry operations lets it
    in again: every connection and every task of the member is rejected, and no new
    credential is issued to it. *)
Theorem revoked_forever m r r' :
  registry_wf r -> is_revoked r m = true -> rtc registry_step r r' ->
  (forall s now, s.(ConnectionIdentity.binding).(CredentialBinding.member_id) = m ->
     (authorize_task s now r').1 = Err Rejected) /\
  (forall b secret now, b.(CredentialBinding.member_id) = m ->
     (connect b secret now r').1 = Err Rejected) /\
  (forall b now d, b.(CredentialBinding.member_id) = m ->
     (issue b now d r').1 = Err Rejected).
Proof.
  intros Hwf Hrev Hsteps. destruct (registry_steps _ _ _ Hsteps Hwf Hrev) as [Hwf' Hrev'].
  split_and!.
  - intros s now Hm. destruct (authorize_task s now r') as [u r2] eqn:Hrun.
    destruct u as [u|e]; [|by apply authorize_task_err in Hrun as [-> _]].
    apply authorize_task_ok in Hrun as (_ & _ & Hlive).
    apply session_live_not_revoked in Hlive; congruence.
  - intros b secret now Hm. destruct (decide (observable r' now)) as [Hobs|Hn];
      last by rewrite connect_not.
    destruct (connect b secret now r') as [[c|e] r2] eqn:Hrun.
    + apply connect_ok_live in Hrun as (Hlive & Hb & _).
      apply session_live_not_revoked in Hlive; [congruence|done].
    + rewrite (connect_run _ _ _ _ Hobs) in Hrun. repeat case_match; naive_solver.
  - intros b now d Hm. unfold issue, mbind at 1, M_bind at 1.
    destruct (decide (observable r' now)) as [Hobs|Hn];
      [rewrite observe_registry_run by done|by rewrite observe_registry_not].
    unfold mbind at 1, M_bind at 1, get. simpl.
    unfold is_revoked in Hrev'. rewrite Hm, Hrev', orb_true_r. done.
Qed.
End Lifetime.
