(* ===== verification/Invitation.v ===== *)
(** * Invitations (collaboration/invitation.rs)

    The pending invitations of a Brain: creation, one-time redemption into a member
    and a credential, cancellation, and the checks of [TryFrom<InvitationSnapshot>].
    [redeem] works on two objects, so its state is the pair of both registries. *)

From S2P Require Import Prelude Protocol Credential.

Definition MAX_PENDING_INVITATIONS : nat := 32.
Definition INVITATION_TTL_SECONDS : Z := 10 * 60.

Module IssuedInvitation.
Record t := mk {
  brain_id : string;
  invitation_id : string;
  expires_at : Z;
  secret : SecretToken;
}.
End IssuedInvitation.

Module JoinRequest.
Record t := mk {
  brain_id : string;
  invitation_id : string;
  secret : SecretToken;
  identity_id : string;
  device_id : string;
  display_name : string;
}.
End JoinRequest.

Module JoinedRole.
Inductive t := Member.
End JoinedRole.

Module JoinedMember.
Record t := mk {
  member_id : string;
  identity_id : string;
  display_name : string;
  role : JoinedRole.t;
}.
End JoinedMember.

Module Enrollment.
Record t := mk { member : JoinedMember.t; credential : IssuedCredential.t }.
End Enrollment.

Module PendingInvitation.
Record t := mk { verifier : string; issued_at : Z; expires_at : Z }.
#[global] Instance eq_dec : EqDecision t.
Proof. solve_decision. Defined.
End PendingInvitation.

Module InvitationRegistry.
Record t := mk {
  brain_id : string;
  clock : Clock;
  pending : gmap string PendingInvitation.t;
}.
#[global] Instance eq_dec : EqDecision t.
Proof. solve_decision. Defined.
Definition set_clock (c : Clock) (r : t) : t := mk r.(brain_id) c r.(pending).
Definition set_pending (m : gmap string PendingInvitation.t) (r : t) : t :=
  mk r.(brain_id) r.(clock) m.
End InvitationRegistry.

Definition inv_high_water (r : InvitationRegistry.t) : Z :=
  high_water_at r.(InvitationRegistry.clock).

Definition pending_valid (high_water : Z) (key : string) (i : PendingInvitation.t) : bool :=
  is_ok (token_parse key)
  && timestamp i.(PendingInvitation.issued_at)
  && (i.(PendingInvitation.issued_at) <=? high_water)%Z
  && timestamp i.(PendingInvitation.expires_at)
  && bool_decide (i64_checked_add i.(PendingInvitation.issued_at) INVITATION_TTL_SECONDS
                  = Some i.(PendingInvitation.expires_at)).

Definition invitations_try_from (value : InvitationRegistry.t)
    : result AccessError InvitationRegistry.t :=
  _ ← refuse (negb (id value.(InvitationRegistry.brain_id))
              || negb (timestamp (inv_high_water value))) Rejected;
  _ ← refuse (negb (forallb (fun '(key, i) => pending_valid (inv_high_water value) key i)
                     (entries value.(InvitationRegistry.pending)))) Rejected;
  Ok value.

Definition invitations_new (brain_id : string) : result AccessError InvitationRegistry.t :=
  _ ← refuse (negb (id brain_id)) Rejected;
  Ok (InvitationRegistry.mk brain_id Clock_default ∅).

Definition observe_invitations (now : Z) : M InvitationRegistry.t AccessError unit :=
  zoom InvitationRegistry.clock InvitationRegistry.set_clock (fun e => e) (clock_observe now).

(** [self.pending.retain(|_, invitation| now < invitation.expires_at)] *)
Definition retain_unexpired (now : Z) (m : gmap string PendingInvitation.t)
    : gmap string PendingInvitation.t :=
  filter (fun kv => (now < kv.2.(PendingInvitation.expires_at))%Z) m.

Section Operations.
Context `{Sha256}.

(** [create]; [d1] and [d2] are the random draws of the public id and of the secret. *)
Definition create (now : Z) (d1 d2 : draw)
    : M InvitationRegistry.t AccessError IssuedInvitation.t :=
  _ ← observe_invitations now;
  expires_at ← lift (ok_or
    (opt_filter timestamp (i64_checked_add now INVITATION_TTL_SECONDS)) Rejected);
  _ ← modify (fun r => InvitationRegistry.set_pending
        (retain_unexpired now r.(InvitationRegistry.pending)) r);
  r ← get;
  let pending := r.(InvitationRegistry.pending) in
  _ ← reject_if (MAX_PENDING_INVITATIONS <=? size pending)%nat Capacity;
  token ← lift (token_generate d1);
  let invitation_id := token.(expose_secret) in
  _ ← reject_if (contains_key invitation_id pending) Rejected;
  secret ← lift (token_generate d2);
  let invitation := {| PendingInvitation.verifier := token_digest secret Invitation;
                       PendingInvitation.issued_at := now;
                       PendingInvitation.expires_at := expires_at |} in
  _ ← modify (InvitationRegistry.set_pending (<[invitation_id := invitation]> pending));
  mret (IssuedInvitation.mk r.(InvitationRegistry.brain_id) invitation_id expires_at secret).

Definition request_refused (r : InvitationRegistry.t) (request : JoinRequest.t) : bool :=
  negb (str_eqb request.(JoinRequest.brain_id) r.(InvitationRegistry.brain_id))
  || negb (forallb id [request.(JoinRequest.invitation_id); request.(JoinRequest.identity_id);
                       request.(JoinRequest.device_id)])
  || (256 <? len request.(JoinRequest.display_name))%N
  || trim_is_empty request.(JoinRequest.display_name)
  || has_control request.(JoinRequest.display_name).

Definition invitation_refused (request : JoinRequest.t) (now : Z)
    (i : PendingInvitation.t) : bool :=
  (now <? i.(PendingInvitation.issued_at))%Z
  || (i.(PendingInvitation.expires_at) <=? now)%Z
  || negb (token_matches request.(JoinRequest.secret) i.(PendingInvitation.verifier) Invitation).

(** [redeem]; [dm], [dn] and [ds] are the draws of the member id, of the Node id and of
    the credential secret. *)
Definition redeem (request : JoinRequest.t) (now : Z) (dm dn ds : draw)
    : M (InvitationRegistry.t * CredentialRegistry.t) AccessError Enrollment.t :=
  _ ← zoom fst (fun r s => (r, s.2)) (fun e => e) (observe_invitations now);
  r ← gets fst;
  _ ← reject_if (request_refused r request) Rejected;
  invitation ← lift (ok_or
    (r.(InvitationRegistry.pending) !! request.(JoinRequest.invitation_id)) Rejected);
  _ ← reject_if (invitation_refused request now invitation) Rejected;
  member_token ← lift (token_generate dm);
  let member_id := "member-" +:+ member_token.(expose_secret) in
  node_token ← lift (token_generate dn);
  let node_id := "node-" +:+ node_token.(expose_secret) in
  let binding := {| CredentialBinding.brain_id := r.(InvitationRegistry.brain_id);
                    CredentialBinding.member_id := member_id;
                    CredentialBinding.node_id := node_id;
                    CredentialBinding.device_id := request.(JoinRequest.device_id) |} in
  credential ← zoom snd (fun c s => (s.1, c)) (fun e => e) (issue binding now ds);
  let member := {| JoinedMember.member_id := member_id;
                   JoinedMember.identity_id := request.(JoinRequest.identity_id);
                   JoinedMember.display_name := request.(JoinRequest.display_name);
                   JoinedMember.role := JoinedRole.Member |} in
  _ ← modify (fun s =>
        (InvitationRegistry.set_pending
           (delete request.(JoinRequest.invitation_id) s.1.(InvitationRegistry.pending)) s.1,
         s.2));
  mret (Enrollment.mk member credential).

Definition cancel (invitation_id : string) : M InvitationRegistry.t AccessError unit :=
  r ← get;
  let pending := r.(InvitationRegistry.pending) in
  _ ← modify (InvitationRegistry.set_pending (delete invitation_id pending));
  lift (ok_or (const tt <$> pending !! invitation_id) Rejected).
End Operations.

(** ** Invariant *)

Record invitations_wf (r : InvitationRegistry.t) : Prop := {
  iwf_brain : id r.(InvitationRegistry.brain_id) = true;
  iwf_clock : timestamp (inv_high_water r) = true;
  iwf_pending : map_Forall (fun key i => pending_valid (inv_high_water r) key i = true)
    r.(InvitationRegistry.pending);
  iwf_capacity : size r.(InvitationRegistry.pending) <= MAX_PENDING_INVITATIONS;
}.

(** [try_from] accepts exactly the well-formed registries within capacity. *)
Lemma invitations_try_from_wf r :
  size r.(InvitationRegistry.pending) <= MAX_PENDING_INVITATIONS ->
  invitations_try_from r = Ok r <-> invitations_wf r.
Proof.
  intros Hsize. unfold invitations_try_from. rewrite result_bind_ok. setoid_rewrite refuse_ok.
  setoid_rewrite result_bind_ok. setoid_rewrite refuse_ok. split.
  - intros (_ & Hg & _ & Hp & _). bool_hyps. split; try done.
    rewrite forallb_entries in Hp. done.
  - intros [Hb Hc Hp _]. exists tt. rewrite Hb, Hc. split; [done|]. exists tt.
    split; [|done]. apply negb_false_iff, forallb_entries, Hp.
Qed.

Lemma observe_invitations_ok now r u r' :
  observe_invitations now r = (Ok u, r') ->
  timestamp now = true /\ (inv_high_water r <= now)%Z /\
  r' = InvitationRegistry.set_clock (mkClock now) r.
Proof.
  unfold observe_invitations, zoom, inv_high_water. rewrite clock_observe_spec.
  destruct (timestamp now) eqn:Ht, (_ <=? now)%Z eqn:Hh; simpl; try done.
  intros [= _ <-]. apply Z.leb_le in Hh. done.
Qed.

Lemma observe_invitations_err now r e r' :
  observe_invitations now r = (Err e, r') -> r' = r.
Proof.
  unfold observe_invitations, zoom. rewrite clock_observe_spec. destruct r as [b c m].
  simpl. destruct (_ && _); simpl; naive_solver.
Qed.

(** The registry after the clock moved to [now]. *)
Definition inv_at_time (now : Z) (r : InvitationRegistry.t) : InvitationRegistry.t :=
  InvitationRegistry.set_clock (mkClock now) r.
#[global] Arguments inv_at_time _ _ /.

Lemma pending_valid_later hw hw' key i :
  (hw <= hw')%Z -> pending_valid hw key i = true -> pending_valid hw' key i = true.
Proof.
  unfold pending_valid. intros Hle. repeat rewrite andb_true_iff. intuition lia.
Qed.

(** Moving the clock forward and dropping invitations keeps a registry well formed. *)
Lemma invitations_wf_shrink now m r :
  invitations_wf r -> timestamp now = true -> (inv_high_water r <= now)%Z ->
  m ⊆ r.(InvitationRegistry.pending) ->
  invitations_wf (InvitationRegistry.set_pending m (inv_at_time now r)).
Proof.
  intros [Hb Hc Hp Hcap] Ht Hle Hsub. split; try done.
  - intros k i Hk. eapply pending_valid_later; [exact Hle|]. apply Hp.
    by eapply lookup_weaken.
  - simpl. etrans; [by apply map_subseteq_size|done].
Qed.

Lemma inv_at_time_wf now r :
  invitations_wf r -> timestamp now = true -> (inv_high_water r <= now)%Z ->
  invitations_wf (inv_at_time now r).
Proof.
  intros Hwf Ht Hle.
  exact (invitations_wf_shrink now r.(InvitationRegistry.pending) r Hwf Ht Hle (reflexivity _)).
Qed.

Section Facts.
Context `{Sha256}.

Lemma create_ok now d1 d2 r c r' :
  create now d1 d2 r = (Ok c, r') ->
  exists tid tsec,
    timestamp now = true /\ (inv_high_water r <= now)%Z /\
    timestamp (now + INVITATION_TTL_SECONDS) = true /\
    i64_checked_add now INVITATION_TTL_SECONDS = Some (now + INVITATION_TTL_SECONDS)%Z /\
    size (retain_unexpired now r.(InvitationRegistry.pending)) < MAX_PENDING_INVITATIONS /\
    token_generate d1 = Ok tid /\ token_generate d2 = Ok tsec /\
    retain_unexpired now r.(InvitationRegistry.pending) !! tid.(expose_secret) = None /\
    c = IssuedInvitation.mk r.(InvitationRegistry.brain_id) tid.(expose_secret)
          (now + INVITATION_TTL_SECONDS) tsec /\
    r' = InvitationRegistry.set_pending
      (<[tid.(expose_secret) :=
           PendingInvitation.mk (token_digest tsec Invitation) now (now + INVITATION_TTL_SECONDS)]>
         (retain_unexpired now r.(InvitationRegistry.pending))) (inv_at_time now r).
Proof.
  unfold create. intros Hrun. run_inv Hrun.
  apply observe_invitations_ok in Hrun0 as (Ht & Hle & ->).
  bool_hyps. simpl in *. apply checked_ttl in Hrun as (-> & Hts & Hadd).
  eexists _, _. by split_and!.
Qed.

Lemma create_wf now d1 d2 r c r' :
  invitations_wf r -> create now d1 d2 r = (Ok c, r') -> invitations_wf r'.
Proof.
  intros Hwf Hrun. apply create_ok in Hrun as
    (tid & tsec & Ht & Hle & Hts & Hadd & Hsize & Hg1 & Hg2 & Hfresh & -> & ->).
  destruct (invitations_wf_shrink now (retain_unexpired now r.(InvitationRegistry.pending)) r
    Hwf Ht Hle (map_filter_subseteq _ _)) as [Hb Hc Hp Hcap].
  split; [done|done| |].
  - intros k i Hk. simpl in Hk. apply lookup_insert_Some in Hk as [[<- <-]|[_ Hk]].
    + unfold pending_valid, inv_high_water. simpl.
      rewrite (token_generate_parse _ _ Hg1), Ht, Hts, Hadd, Z.leb_refl. simpl.
      by rewrite bool_decide_eq_true_2.
    + by apply (Hp k i).
  - simpl. rewrite map_size_insert_None by done. lia.
Qed.

Lemma cancel_ok i r u r' :
  cancel i r = (Ok u, r') ->
  is_Some (r.(InvitationRegistry.pending) !! i) /\
  r' = InvitationRegistry.set_pending (delete i r.(InvitationRegistry.pending)) r.
Proof.
  unfold cancel, mbind, M_bind, get, modify, lift. simpl.
  destruct (_ !! _) as [x|]; naive_solver.
Qed.

Lemma cancel_wf i r u r' : invitations_wf r -> cancel i r = (Ok u, r') -> invitations_wf r'.
Proof.
  intros Hwf [_ ->]%cancel_ok.
  destruct r as [b [hw] p]. apply (invitations_wf_shrink hw (delete i p)) in Hwf; simpl in *.
  - done.
  - apply Hwf.
  - done.
  - apply delete_subseteq.
Qed.

(** The binding under which a redeemed invitation is enrolled. *)
Definition joined_binding (brain_id : string) (request : JoinRequest.t)
    (tm tn : SecretToken) : CredentialBinding.t :=
  {| CredentialBinding.brain_id := brain_id;
     CredentialBinding.member_id := "member-" +:+ tm.(expose_secret);
     CredentialBinding.node_id := "node-" +:+ tn.(expose_secret);
     CredentialBinding.device_id := request.(JoinRequest.device_id) |}.

Lemma redeem_ok request now dm dn ds r c e r' c' :
  redeem request now dm dn ds (r, c) = (Ok e, (r', c')) ->
  exists i tm tn cred,
    timestamp now = true /\ (inv_high_water r <= now)%Z /\
    request_refused r request = false /\
    r.(InvitationRegistry.pending) !! request.(JoinRequest.invitation_id) = Some i /\
    invitation_refused request now i = false /\
    token_generate dm = Ok tm /\ token_generate dn = Ok tn /\
    issue (joined_binding r.(InvitationRegistry.brain_id) request tm tn) now ds c
      = (Ok cred, c') /\
    e = Enrollment.mk
          (JoinedMember.mk ("member-" +:+ tm.(expose_secret)) request.(JoinRequest.identity_id)
             request.(JoinRequest.display_name) JoinedRole.Member) cred /\
    r' = InvitationRegistry.set_pending
           (delete request.(JoinRequest.invitation_id) r.(InvitationRegistry.pending))
           (inv_at_time now r).
Proof.
  unfold redeem. intros Hrun. run_inv Hrun. bool_hyps.
  match goal with H : observe_invitations now _ = _ |- _ =>
    apply observe_invitations_ok in H as (Ht & Hle & ->) end.
  simpl in *. simplify_eq/=. eexists _, _, _, _. split_and!; try done.
Qed.

(** What a refused redemption leaves behind: at most both clocks moved. *)
Lemma redeem_err request now dm dn ds r c e r' c' :
  redeem request now dm dn ds (r, c) = (Err e, (r', c')) ->
  (r' = r \/ timestamp now = true /\ (inv_high_water r <= now)%Z /\ r' = inv_at_time now r) /\
  (c' = c \/ observable c now /\ c' = at_time now c).
Proof.
  unfold redeem. intros Hrun. err_inv Hrun; simpl in *; simplify_eq/=;
    try match goal with H : observe_invitations now _ = (Ok _, _) |- _ =>
      apply observe_invitations_ok in H as (Ht & Hle & ->) end; auto.
  - apply observe_invitations_err in Hrun as ->. auto.
  - match goal with H : issue _ _ _ _ = _ |- _ => apply issue_err in H end. auto 6.
Qed.

Lemma redeem_wf request now dm dn ds r c e r' c' :
  invitations_wf r -> registry_wf c ->
  redeem request now dm dn ds (r, c) = (Ok e, (r', c')) ->
  invitations_wf r' /\ registry_wf c'.
Proof.
  intros Hr Hc (i & tm & tn & cred & Ht & Hle & _ & _ & _ & _ & _ & Hissue & _ & ->)%redeem_ok.
  split; [|by eapply issue_wf].
  apply invitations_wf_shrink; try done. apply delete_subseteq.
Qed.
End Facts.

(** ** Invitations across any sequence of operations *)

Section Lifetime.
Context `{Sha256}.

(** Any operation on the two registries, except a creation that draws [k] as its new
    public id. *)
Inductive invitation_step (k : string)
    : InvitationRegistry.t * CredentialRegistry.t ->
      InvitationRegistry.t * CredentialRegistry.t -> Prop :=
| step_create now d1 d2 res r r' c :
    create now d1 d2 r = (res, r') ->
    (forall i, res = Ok i -> i.(IssuedInvitation.invitation_id) <> k) ->
    invitation_step k (r, c) (r', c)
| step_redeem request now dm dn ds res s s' :
    redeem request now dm dn ds s = (res, s') -> invitation_step k s s'
| step_cancel i res r r' c : cancel i r = (res, r') -> invitation_step k (r, c) (r', c)
| step_credentials r c c' : registry_step c c' -> invitation_step k (r, c) (r, c').

Lemma retain_unexpired_None now m (k : string) :
  m !! k = None -> retain_unexpired now m !! k = None.
Proof. intros Hk. apply map_lookup_filter_None. by left. Qed.

Lemma create_absent k now d1 d2 r res r' :
  create now d1 d2 r = (res, r') ->
  (forall i, res = Ok i -> i.(IssuedInvitation.invitation_id) <> k) ->
  r.(InvitationRegistry.pending) !! k = None -> r'.(InvitationRegistry.pending) !! k = None.
Proof.
  intros Hrun Hne Hk. destruct res as [i|e].
  - apply create_ok in Hrun as (tid & tsec & _ & _ & _ & _ & _ & _ & _ & _ & -> & ->). simpl.
    rewrite lookup_insert_ne by (by apply (Hne _ eq_refl)). by apply retain_unexpired_None.
  - unfold create in Hrun. err_inv Hrun;
      try match goal with H : observe_invitations now _ = (Ok _, _) |- _ =>
        apply observe_invitations_ok in H as (Ht & Hle & ->) end; simpl;
      auto using retain_unexpired_None.
    by apply observe_invitations_err in Hrun as ->.
Qed.

Lemma invitation_step_absent k s s' :
  invitation_step k s s' -> s.1.(InvitationRegistry.pending) !! k = None ->
  s'.1.(InvitationRegistry.pending) !! k = None.
Proof.
  intros Hstep Hk. destruct Hstep as [now d1 d2 res r r' c Hrun Hne
    |request now dm dn ds [e|e] [r c] [r' c'] Hrun|i res r r' c Hrun|r c c' Hstep];
    cbn [fst snd] in *.
  - by eapply create_absent.
  - apply redeem_ok in Hrun as (i & tm & tn & cred & _ & _ & _ & _ & _ & _ & _ & _ & _ & ->).
    simpl. rewrite lookup_delete_None. auto.
  - apply redeem_err in Hrun as [[->|(_ & _ & ->)] _]; done.
  - assert (r' = InvitationRegistry.set_pending (delete i r.(InvitationRegistry.pending)) r) as ->.
    { revert Hrun. unfold cancel, mbind, M_bind, get, modify, lift. naive_solver. }
    simpl. rewrite lookup_delete_None. auto.
  - done.
Qed.

Lemma redeem_absent request now dm dn ds r c :
  r.(InvitationRegistry.pending) !! request.(JoinRequest.invitation_id) = None ->
  (redeem request now dm dn ds (r, c)).1 = Err Rejected.
Proof.
  intros Hk. unfold redeem, mbind, M_bind, zoom. cbn [fst snd].
  destruct (observe_invitations now r) as [[u|e] r1] eqn:Hobs; simpl.
  - apply observe_invitations_ok in Hobs as (_ & _ & ->).
    unfold gets, reject_if, lift. simpl. rewrite Hk. by destruct (request_refused _ _).
  - unfold observe_invitations, zoom in Hobs. rewrite clock_observe_spec in Hobs.
    destruct (_ && _); simpl in Hobs; congruence.
Qed.

(** C26: an invitation is redeemed at most once. After a successful redemption,
    and any sequence of operations in which no new invitation draws the same public id,
    every redemption with that id is rejected, whatever secret and profile it carries. *)
Theorem invitation_redeemed_once request now dm dn ds s e s1 s2 request' now' dm' dn' ds' :
  redeem request now dm dn ds s = (Ok e, s1) ->
  rtc (invitation_step request.(JoinRequest.invitation_id)) s1 s2 ->
  request'.(JoinRequest.invitation_id) = request.(JoinRequest.invitation_id) ->
  (redeem request' now' dm' dn' ds' s2).1 = Err Rejected.
Proof.
  intros Hrun Hsteps Hid. destruct s as [r c], s1 as [r1 c1].
  apply redeem_ok in Hrun as (i & tm & tn & cred & _ & _ & _ & _ & _ & _ & _ & _ & _ & ->).
  assert (s2.1.(InvitationRegistry.pending) !! request.(JoinRequest.invitation_id) = None) as Hk.
  { remember (InvitationRegistry.set_pending _ _, c1) as s1 eqn:E.
    assert (s1.1.(InvitationRegistry.pending) !! request.(JoinRequest.invitation_id) = None)
      as Hk by (by subst s1; simpl; rewrite lookup_delete_eq).
    clear E. induction Hsteps; eauto using invitation_step_absent. }
  destruct s2 as [r2 c2]. apply redeem_absent. by rewrite Hid.
Qed.

(** A failed redemption consumes nothing: every pending invitation and every
    credential is as before, so the same invitation can still be redeemed. *)
Theorem failed_redeem_keeps request now dm dn ds r c e r' c' :
  redeem request now dm dn ds (r, c) = (Err e, (r', c')) ->
  r'.(InvitationRegistry.pending) = r.(InvitationRegistry.pending) /\
  c'.(CredentialRegistry.records) = c.(CredentialRegistry.records).
Proof.
  intros [Hr Hc]%redeem_err.
  destruct Hr as [->|(_ & _ & ->)], Hc as [->|[_ ->]]; done.
Qed.

(** What the code needs besides a live invitation to enrol a member at [now]. *)
Record enrollable (c : CredentialRegistry.t) (b : CredentialBinding.t) (now : Z) : Prop := {
  enr_clock : observable c now;
  enr_brain : b.(CredentialBinding.brain_id) = c.(CredentialRegistry.brain_id);
  enr_ids : binding_valid b = true;
  enr_fresh : c.(CredentialRegistry.records) !! b.(CredentialBinding.node_id) = None;
  enr_member : is_revoked c b.(CredentialBinding.member_id) = false;
  enr_room : size c.(CredentialRegistry.records) < MAX_CREDENTIALS;
  enr_expiry : timestamp (now + CREDENTIAL_TTL_SECONDS) = true;
}.

Lemma issue_run c b now d t :
  enrollable c b now -> token_generate d = Ok t ->
  (issue b now d c).1 = Ok (IssuedCredential.mk b (now + CREDENTIAL_TTL_SECONDS) t).
Proof.
  intros [Hobs Hb Hids Hfresh Hrev Hroom Hexp] Ht. unfold issue.
  erewrite bind_ok by (by apply observe_registry_run).
  erewrite bind_ok by done. cbn [CredentialRegistry.records CredentialRegistry.brain_id
    CredentialRegistry.set_clock]. apply contains_key_false in Hfresh as Hck.
  unfold is_revoked in Hrev. rewrite Hb, Hck, Hrev, Hids, str_eqb_refl. cbn [negb orb].
  erewrite bind_ok by done. apply Nat.leb_gt in Hroom. rewrite Hroom.
  erewrite bind_ok by done.
  assert (i64_checked_add now CREDENTIAL_TTL_SECONDS = Some (now + CREDENTIAL_TTL_SECONDS)%Z) as ->.
  { unfold i64_checked_add. rewrite bool_decide_eq_true_2; [done|].
    destruct Hobs as [Hts _]. unfold timestamp in Hts, Hexp. unfold i64_max. lia. }
  simpl. rewrite Hexp, Ht. done.
Qed.

(** An invitation created at [t0] is redeemable for exactly ten minutes: with
    its id and secret, a well-formed profile and a registry that can enrol the member,
    redemption at [now] succeeds if and only if [now < t0 + 600]. *)
Theorem invitation_lifetime t0 d1 d2 r inv r1 c now dm dn ds tm tn ts device identity name :
  create t0 d1 d2 r = (Ok inv, r1) -> (t0 <= now)%Z -> timestamp now = true ->
  token_generate dm = Ok tm -> token_generate dn = Ok tn -> token_generate ds = Ok ts ->
  let request := JoinRequest.mk inv.(IssuedInvitation.brain_id)
    inv.(IssuedInvitation.invitation_id) inv.(IssuedInvitation.secret) identity device name in
  id identity = true -> id device = true ->
  (len name <= 256)%N -> trim_is_empty name = false -> has_control name = false ->
  enrollable c (joined_binding r.(InvitationRegistry.brain_id) request tm tn) now ->
  is_ok (redeem request now dm dn ds (r1, c)).1 = (now <? t0 + 600)%Z.
Proof.
  intros Hcreate Hle Hts Hdm Hdn Hds request Hident Hdev Hlen Htrim Hctl Henr.
  apply create_ok in Hcreate as
    (tid & tsec & Ht0 & _ & _ & _ & _ & Hg1 & _ & _ & -> & ->).
  unfold redeem, mbind, M_bind, zoom, observe_invitations, zoom. cbn [fst snd].
  rewrite clock_observe_spec, Hts. simpl.
  assert ((t0 <=? now)%Z = true) as -> by lia. simpl.
  assert (request_refused (InvitationRegistry.mk r.(InvitationRegistry.brain_id) (mkClock now)
    (InvitationRegistry.pending (InvitationRegistry.set_pending
      (<[tid.(expose_secret) := PendingInvitation.mk (token_digest tsec Invitation) t0
          (t0 + INVITATION_TTL_SECONDS)]> (retain_unexpired t0 r.(InvitationRegistry.pending)))
      (inv_at_time t0 r)))) request = false) as Hreq.
  { unfold request_refused. simpl. rewrite str_eqb_refl, Hident, Hdev, Htrim, Hctl.
    apply token_generate_shape in Hg1 as [Hl Hx]. unfold id. rewrite Hl.
    rewrite (bytes_all_impl is_lower_hex) by
      (done || intros b; unfold is_lower_hex, is_ascii_alphanumeric, is_ascii_digit, in_range; lia).
    apply N.ltb_ge in Hlen. rewrite Hlen. unfold is_empty.
    destruct (expose_secret tid); done. }
  unfold gets, reject_if, lift, InvitationRegistry.set_clock. simpl in *. rewrite Hreq. simpl.
  rewrite lookup_insert_eq. simpl. unfold invitation_refused, token_matches. simpl.
  rewrite str_eqb_refl, Hdm, Hdn. assert ((now <? t0)%Z = false) as -> by lia. simpl.
  rewrite orb_false_r. unfold INVITATION_TTL_SECONDS. destruct (Z.ltb_spec now (t0 + 600)).
  - assert ((t0 + 10 * 60 <=? now)%Z = false) as -> by lia. simpl.
    pose proof (issue_run _ _ _ _ _ Henr Hds) as Hissue. unfold joined_binding in Hissue.
    simpl in Hissue. destruct (issue _ now ds c) as [[cred|e] c']; done.
  - assert ((t0 + 10 * 60 <=? now)%Z = true) as -> by lia. done.
Qed.
End Lifetime.
