(* ===== verification/Brain.v ===== *)
(** * The Brain (collaboration/brain.rs, collaboration/brain_tasks.rs)

    The authority's whole state and every operation on it: bootstrap, connection,
    invitations, joining, revocation, presence, replay-protected admission of messages,
    the task status machine, and the validation that guards the snapshot boundary. *)

From S2P Require Import Prelude Protocol Credential Invitation.

Definition MAX_BRAIN_BYTES : N := 2 * 1024 * 1024.
Definition PRESENCE_TTL_SECONDS : Z := 30.
Definition MAX_TASKS : nat := 64.
Definition MAX_REPLAYS : nat := 256.

Inductive BrainError := Invalid | Conflict | BrainCapacity | Access (e : AccessError).
#[global] Instance BrainError_eq_dec : EqDecision BrainError.
Proof. solve_decision. Defined.

Module OwnerProfile.
Record t := mk { identity_id : string; device_id : string; display_name : string }.
End OwnerProfile.

Module MemberRecord.
Record t := mk {
  identity_id : string;
  display_name : string;
  revoked : bool;
  revision : N;
}.
#[global] Instance eq_dec : EqDecision t.
Proof. solve_decision. Defined.
(** [member.revoked = true; member.revision = revision] *)
Definition revoke (rev : N) (m : t) : t := mk m.(identity_id) m.(display_name) true rev.
End MemberRecord.

Module NodeRecord.
Record t := mk {
  member_id : string;
  device_id : string;
  last_seen_at : option Z;
  online : bool;
  revision : N;
  announcement : option Message;
}.
#[global] Instance eq_dec : EqDecision t.
Proof. solve_decision. Defined.
(** [node.online = false; node.revision = revision] *)
Definition offline (rev : N) (n : t) : t :=
  mk n.(member_id) n.(device_id) n.(last_seen_at) false rev n.(announcement).
(** [node.last_seen_at = Some(now); node.online = true; node.revision = revision] *)
Definition seen (now : Z) (rev : N) (n : t) : t :=
  mk n.(member_id) n.(device_id) (Some now) true rev n.(announcement).
Definition set_announcement (m : Message) (n : t) : t :=
  mk n.(member_id) n.(device_id) n.(last_seen_at) n.(online) n.(revision) (Some m).
End NodeRecord.

Module TaskRecord.
Record t := mk { source : Message; status : TaskStatus.t; revision : N }.
#[global] Instance eq_dec : EqDecision t.
Proof. solve_decision. Defined.
(** [task.status = next; task.revision = revision] *)
Definition update (next : TaskStatus.t) (rev : N) (r : t) : t := mk r.(source) next rev.
End TaskRecord.

Module ReplayRecord.
Record t := mk {
  sender_node_id : string;
  key : string;
  fingerprint : string;
  revision : N;
}.
#[global] Instance eq_dec : EqDecision t.
Proof. solve_decision. Defined.
End ReplayRecord.

Module Brain.
Record t := mk {
  version : N;
  brain_id : string;
  owner_member_id : string;
  revision : N;
  clock : Clock;
  credentials : CredentialRegistry.t;
  invitations : InvitationRegistry.t;
  members : gmap string MemberRecord.t;
  nodes : gmap string NodeRecord.t;
  tasks : gmap string TaskRecord.t;
  replays : list ReplayRecord.t;
}.
#[global] Instance eq_dec : EqDecision t.
Proof. solve_decision. Defined.
Definition set_revision (v : N) (s : t) : t :=
  mk s.(version) s.(brain_id) s.(owner_member_id) v s.(clock) s.(credentials)
     s.(invitations) s.(members) s.(nodes) s.(tasks) s.(replays).
Definition set_clock (v : Clock) (s : t) : t :=
  mk s.(version) s.(brain_id) s.(owner_member_id) s.(revision) v s.(credentials)
     s.(invitations) s.(members) s.(nodes) s.(tasks) s.(replays).
Definition set_credentials (v : CredentialRegistry.t) (s : t) : t :=
  mk s.(version) s.(brain_id) s.(owner_member_id) s.(revision) s.(clock) v
     s.(invitations) s.(members) s.(nodes) s.(tasks) s.(replays).
Definition set_invitations (v : InvitationRegistry.t) (s : t) : t :=
  mk s.(version) s.(brain_id) s.(owner_member_id) s.(revision) s.(clock) s.(credentials)
     v s.(members) s.(nodes) s.(tasks) s.(replays).
Definition set_members (v : gmap string MemberRecord.t) (s : t) : t :=
  mk s.(version) s.(brain_id) s.(owner_member_id) s.(revision) s.(clock) s.(credentials)
     s.(invitations) v s.(nodes) s.(tasks) s.(replays).
Definition set_nodes (v : gmap string NodeRecord.t) (s : t) : t :=
  mk s.(version) s.(brain_id) s.(owner_member_id) s.(revision) s.(clock) s.(credentials)
     s.(invitations) s.(members) v s.(tasks) s.(replays).
Definition set_tasks (v : gmap string TaskRecord.t) (s : t) : t :=
  mk s.(version) s.(brain_id) s.(owner_member_id) s.(revision) s.(clock) s.(credentials)
     s.(invitations) s.(members) s.(nodes) v s.(replays).
Definition set_replays (v : list ReplayRecord.t) (s : t) : t :=
  mk s.(version) s.(brain_id) s.(owner_member_id) s.(revision) s.(clock) s.(credentials)
     s.(invitations) s.(members) s.(nodes) s.(tasks) v.
End Brain.

Inductive PresenceReset := Expired | Restart.

Definition BrainM (A : Type) : Type := M Brain.t BrainError A.

Definition brain_high_water (s : Brain.t) : Z := high_water_at s.(Brain.clock).

Definition display_name_ok (name : string) : bool :=
  (len name <=? 80)%N && negb (trim_is_empty name) && negb (has_control name).

Section Operations.
Context `{Sha256, ProtocolJson}.

(** ** brain.rs *)

(** [Brain::bootstrap]; [dm], [dn] and [ds] are the draws of the owner's member id, of
    the Node id and of the credential secret. *)
Definition bootstrap (brain_id : string) (owner : OwnerProfile.t) (now : Z) (dm dn ds : draw)
    : result BrainError (Brain.t * IssuedCredential.t) :=
  _ ← refuse (negb (id owner.(OwnerProfile.identity_id))
              || negb (id owner.(OwnerProfile.device_id))
              || negb (display_name_ok owner.(OwnerProfile.display_name))) Invalid;
  let (observed, clock) := clock_observe now Clock_default in
  _ ← map_err Access observed;
  credentials ← map_err Access (registry_new brain_id);
  invitations ← map_err Access (invitations_new brain_id);
  member_token ← map_err Access (token_generate dm);
  let owner_member_id := "member-" +:+ member_token.(expose_secret) in
  node_token ← map_err Access (token_generate dn);
  let node_id := "node-" +:+ node_token.(expose_secret) in
  let binding := {| CredentialBinding.brain_id := brain_id;
                    CredentialBinding.member_id := owner_member_id;
                    CredentialBinding.node_id := node_id;
                    CredentialBinding.device_id := owner.(OwnerProfile.device_id) |} in
  let (issued, credentials) := issue binding now ds credentials in
  credential ← map_err Access issued;
  let member := {| MemberRecord.identity_id := owner.(OwnerProfile.identity_id);
                   MemberRecord.display_name := owner.(OwnerProfile.display_name);
                   MemberRecord.revoked := false;
                   MemberRecord.revision := 1 |} in
  let node := {| NodeRecord.member_id := owner_member_id;
                 NodeRecord.device_id := owner.(OwnerProfile.device_id);
                 NodeRecord.last_seen_at := None;
                 NodeRecord.online := false;
                 NodeRecord.revision := 1;
                 NodeRecord.announcement := None |} in
  Ok ({| Brain.version := 1;
         Brain.brain_id := brain_id;
         Brain.owner_member_id := owner_member_id;
         Brain.revision := 1;
         Brain.clock := clock;
         Brain.credentials := credentials;
         Brain.invitations := invitations;
         Brain.members := {[ owner_member_id := member ]};
         Brain.nodes :=
           {[ credential.(IssuedCredential.binding).(CredentialBinding.node_id) := node ]};
         Brain.tasks := ∅;
         Brain.replays := [] |}, credential).

Definition observe (now : Z) : BrainM unit :=
  zoom Brain.clock Brain.set_clock Access (clock_observe now).

Definition brain_connect (binding : CredentialBinding.t) (secret : SecretToken) (now : Z)
    : BrainM ConnectionIdentity.t :=
  _ ← observe now;
  zoom Brain.credentials Brain.set_credentials Access (connect binding secret now).

Definition check_revision (expected : N) : BrainM unit :=
  s ← get;
  reject_if (negb (expected =? s.(Brain.revision))%N) Conflict.

Definition next_revision : BrainM N :=
  s ← get;
  lift (ok_or (opt_filter (fun v => v <=? MAX_REVISION)%N
                 (u64_checked_add s.(Brain.revision) 1)) BrainCapacity).

Definition create_invitation (now : Z) (d1 d2 : draw) : BrainM IssuedInvitation.t :=
  _ ← observe now;
  revision ← next_revision;
  invitation ← zoom Brain.invitations Brain.set_invitations Access (create now d1 d2);
  _ ← modify (Brain.set_revision revision);
  mret invitation.

Definition cancel_invitation (invitation_id : string) (now : Z) : BrainM unit :=
  _ ← observe now;
  revision ← next_revision;
  _ ← zoom Brain.invitations Brain.set_invitations Access (cancel invitation_id);
  modify (Brain.set_revision revision).

Definition join (request : JoinRequest.t) (now : Z) (dm dn ds : draw)
    : BrainM Enrollment.t :=
  _ ← observe now;
  _ ← reject_if (negb (display_name_ok request.(JoinRequest.display_name))) Invalid;
  revision ← next_revision;
  enrollment ← zoom (fun s => (s.(Brain.invitations), s.(Brain.credentials)))
    (fun rc s => Brain.set_credentials rc.2 (Brain.set_invitations rc.1 s)) Access
    (redeem request now dm dn ds);
  let binding := enrollment.(Enrollment.credential).(IssuedCredential.binding) in
  s ← get;
  _ ← reject_if (contains_key binding.(CredentialBinding.member_id) s.(Brain.members)) Conflict;
  let member :=
    {| MemberRecord.identity_id := enrollment.(Enrollment.member).(JoinedMember.identity_id);
       MemberRecord.display_name := enrollment.(Enrollment.member).(JoinedMember.display_name);
       MemberRecord.revoked := false;
       MemberRecord.revision := revision |} in
  let node := {| NodeRecord.member_id := binding.(CredentialBinding.member_id);
                 NodeRecord.device_id := binding.(CredentialBinding.device_id);
                 NodeRecord.last_seen_at := None;
                 NodeRecord.online := false;
                 NodeRecord.revision := revision;
                 NodeRecord.announcement := None |} in
  _ ← modify (fun s => Brain.set_members
        (<[binding.(CredentialBinding.member_id) := member]> s.(Brain.members)) s);
  _ ← modify (fun s => Brain.set_nodes
        (<[binding.(CredentialBinding.node_id) := node]> s.(Brain.nodes)) s);
  _ ← modify (Brain.set_revision revision);
  mret enrollment.

Definition revoke_member (member_id : string) (expected_revision : N) (now : Z) : BrainM N :=
  _ ← observe now;
  _ ← check_revision expected_revision;
  s ← get;
  member ← lift (ok_or (s.(Brain.members) !! member_id) Invalid);
  _ ← reject_if (str_eqb member_id s.(Brain.owner_member_id)) Invalid;
  if member.(MemberRecord.revoked) then mret s.(Brain.revision) else
  revision ← next_revision;
  _ ← zoom Brain.credentials Brain.set_credentials Access (revoke_credentials member_id);
  s ← get;
  member ← lift (ok_or (s.(Brain.members) !! member_id) Invalid);
  _ ← modify (Brain.set_members
        (<[member_id := MemberRecord.revoke revision member]> s.(Brain.members)));
  _ ← modify (fun s => Brain.set_nodes
        (update_where (fun node => str_eqb node.(NodeRecord.member_id) member_id)
           (NodeRecord.offline revision) s.(Brain.nodes)) s);
  _ ← modify (Brain.set_revision revision);
  mret revision.

Definition authorize (session : ConnectionIdentity.t) (now : Z) : BrainM unit :=
  zoom Brain.credentials Brain.set_credentials Access (authorize_task session now).

Definition heartbeat (session : ConnectionIdentity.t) (expected_revision : N) (now : Z)
    : BrainM N :=
  let node_id := session.(ConnectionIdentity.binding).(CredentialBinding.node_id) in
  _ ← observe now;
  _ ← authorize session now;
  _ ← check_revision expected_revision;
  revision ← next_revision;
  s ← get;
  node ← lift (ok_or (s.(Brain.nodes) !! node_id) Invalid);
  _ ← modify (Brain.set_nodes
        (<[node_id := NodeRecord.seen now revision node]> s.(Brain.nodes)));
  _ ← modify (Brain.set_revision revision);
  mret revision.

Definition presence_expired (now : Z) (reason : PresenceReset) (node : NodeRecord.t) : bool :=
  node.(NodeRecord.online)
  && match reason with
     | Restart => true
     | Expired =>
       is_none_or (fun seen => PRESENCE_TTL_SECONDS <=? i64_saturating_sub now seen)%Z
         node.(NodeRecord.last_seen_at)
     end.

Definition reset_presence (now : Z) (reason : PresenceReset) : BrainM N :=
  _ ← observe now;
  s ← get;
  _ ← (if existsb (presence_expired now reason) (values s.(Brain.nodes)) then
         revision ← next_revision;
         _ ← modify (fun s => Brain.set_nodes
               (update_where (presence_expired now reason) (NodeRecord.offline revision)
                  s.(Brain.nodes)) s);
         modify (Brain.set_revision revision)
       else mret tt);
  gets Brain.revision.

(** ** brain_tasks.rs *)

Definition replay_matches (node_id key : string) (record : ReplayRecord.t) : bool :=
  str_eqb record.(ReplayRecord.sender_node_id) node_id
  && str_eqb record.(ReplayRecord.key) key.

(** The body of [apply] after the replay check, the [match admission.payload]. *)
Definition apply_payload (session : ConnectionIdentity.t) (message : Message) (now : Z)
    (revision : N) : BrainM unit :=
  let binding := session.(ConnectionIdentity.binding) in
  match (admission message).(adm_payload) with
  | ViewNode node_id member_id device_id =>
    _ ← reject_if
      (negb (str_eqb node_id binding.(CredentialBinding.node_id))
       || negb (str_eqb member_id binding.(CredentialBinding.member_id))
       || negb (str_eqb device_id binding.(CredentialBinding.device_id))) Invalid;
    _ ← heartbeat session (admission message).(adm_revision) now;
    s ← get;
    node ← lift (ok_or (s.(Brain.nodes) !! node_id) Invalid);
    modify (Brain.set_nodes
      (<[node_id := NodeRecord.set_announcement message node]> s.(Brain.nodes)))
  | ViewTask task_id member_id status =>
    _ ← reject_if
      (negb (str_eqb member_id binding.(CredentialBinding.member_id))
       || negb (bool_decide (status = TaskStatus.Draft))) Invalid;
    s ← get;
    _ ← reject_if (contains_key task_id s.(Brain.tasks)) Conflict;
    _ ← reject_if (MAX_TASKS <=? size s.(Brain.tasks))%nat BrainCapacity;
    _ ← modify (Brain.set_tasks
          (<[task_id := TaskRecord.mk message TaskStatus.Draft revision]> s.(Brain.tasks)));
    modify (Brain.set_revision revision)
  | Unsupported => throw Invalid
  end.

Definition apply (session : ConnectionIdentity.t) (message : Message) (now : Z) : BrainM N :=
  let binding := session.(ConnectionIdentity.binding) in
  let adm := admission message in
  let node_id := binding.(CredentialBinding.node_id) in
  _ ← observe now;
  _ ← authorize session now;
  s ← get;
  _ ← reject_if (negb (str_eqb adm.(adm_brain_id) s.(Brain.brain_id))
                 || negb (str_eqb adm.(adm_sender_node_id) node_id)) Invalid;
  fingerprint ← lift (map_err (fun _ => Invalid) (payload_hash message));
  match find (replay_matches node_id adm.(adm_key)) s.(Brain.replays) with
  | Some previous =>
    if str_eqb previous.(ReplayRecord.fingerprint) fingerprint
    then mret previous.(ReplayRecord.revision) else throw Conflict
  | None =>
    _ ← check_revision adm.(adm_revision);
    _ ← reject_if (MAX_REPLAYS <=? length s.(Brain.replays))%nat BrainCapacity;
    revision ← next_revision;
    _ ← apply_payload session message now revision;
    _ ← modify (fun s => Brain.set_replays
          (s.(Brain.replays) ++ [ReplayRecord.mk node_id adm.(adm_key) fingerprint revision]) s);
    mret revision
  end.

Definition status_allowed (status next : TaskStatus.t) : bool :=
  match status with
  | TaskStatus.Draft => bool_decide (next ∈ [TaskStatus.Offered; TaskStatus.Cancelled])
  | TaskStatus.Offered =>
    bool_decide (next ∈ [TaskStatus.Accepted; TaskStatus.Rejected; TaskStatus.Cancelled])
  | TaskStatus.Accepted =>
    bool_decide (next ∈ [TaskStatus.Running; TaskStatus.Cancelled; TaskStatus.OutcomeUnknown])
  | TaskStatus.Running =>
    bool_decide (next ∈ [TaskStatus.AwaitingReview; TaskStatus.Failed; TaskStatus.Cancelled;
                         TaskStatus.OutcomeUnknown])
  | TaskStatus.AwaitingReview =>
    bool_decide (next ∈ [TaskStatus.Approved; TaskStatus.Rejected])
  | TaskStatus.OutcomeUnknown =>
    bool_decide (next ∈ [TaskStatus.AwaitingReview; TaskStatus.Failed; TaskStatus.Cancelled])
  | TaskStatus.Approved | TaskStatus.Rejected | TaskStatus.Cancelled | TaskStatus.Failed => false
  end.

Definition set_task_status (task_id : string) (expected_revision : N) (next : TaskStatus.t)
    (now : Z) : BrainM N :=
  _ ← observe now;
  _ ← check_revision expected_revision;
  s ← get;
  task ← lift (ok_or (s.(Brain.tasks) !! task_id) Invalid);
  if bool_decide (task.(TaskRecord.status) = next) then mret s.(Brain.revision) else
  _ ← reject_if (negb (status_allowed task.(TaskRecord.status) next)) Invalid;
  revision ← next_revision;
  s ← get;
  task ← lift (ok_or (s.(Brain.tasks) !! task_id) Invalid);
  _ ← modify (Brain.set_tasks
        (<[task_id := TaskRecord.update next revision task]> s.(Brain.tasks)));
  _ ← modify (Brain.set_revision revision);
  mret revision.
End Operations.

(** ** Validation *)

Section Validation.
Context `{Sha256, ProtocolJson}.

(** The loop over the replay log, with the keys and revisions seen so far. *)
Fixpoint check_replays (s : Brain.t) (keys : gset (string * string)) (revisions : gset N)
    (l : list ReplayRecord.t) : result BrainError unit :=
  match l with
  | [] => Ok tt
  | record :: l =>
    let key := (record.(ReplayRecord.sender_node_id), record.(ReplayRecord.key)) in
    let revision := record.(ReplayRecord.revision) in
    if negb (id record.(ReplayRecord.key))
       || negb (contains_key record.(ReplayRecord.sender_node_id) s.(Brain.nodes))
       || (revision =? 0)%N
       || (s.(Brain.revision) <? revision)%N
       || bool_decide (key ∈ keys)
       || bool_decide (revision ∈ revisions)
    then Err Invalid
    else check_replays s ({[ key ]} ∪ keys) ({[ revision ]} ∪ revisions) l
  end.

(** The replay record that admitted a stored task. *)
Definition admitted_by (source : Message) (record : ReplayRecord.t) : bool :=
  let adm := admission source in
  str_eqb record.(ReplayRecord.sender_node_id) adm.(adm_sender_node_id)
  && str_eqb record.(ReplayRecord.key) adm.(adm_key)
  && (record.(ReplayRecord.revision) =? adm.(adm_revision) + 1)%N
  && match payload_hash source with
     | Ok hash => str_eqb hash record.(ReplayRecord.fingerprint)
     | Err _ => false
     end.

Definition check_task (s : Brain.t) (entry : string * TaskRecord.t) : result BrainError unit :=
  let (key, task) := entry in
  let source := admission task.(TaskRecord.source) in
  match source.(adm_payload) with
  | ViewTask task_id member_id status =>
    refuse
      (negb (str_eqb key task_id)
       || negb (bool_decide (status = TaskStatus.Draft))
       || negb (str_eqb source.(adm_brain_id) s.(Brain.brain_id))
       || (s.(Brain.revision) <? task.(TaskRecord.revision))%N
       || (task.(TaskRecord.revision) <=? source.(adm_revision))%N
       || negb (is_some_and (fun node => str_eqb node.(NodeRecord.member_id) member_id)
                  (s.(Brain.nodes) !! source.(adm_sender_node_id)))
       || negb (existsb (admitted_by task.(TaskRecord.source)) s.(Brain.replays))) Invalid
  | _ => Err Invalid
  end.

Definition check_announcement (s : Brain.t) (entry : string * NodeRecord.t)
    : result BrainError unit :=
  let (key, node) := entry in
  match node.(NodeRecord.announcement) with
  | None => Ok tt
  | Some message =>
    let source := admission message in
    match source.(adm_payload) with
    | ViewNode node_id member_id device_id =>
      refuse
        (negb (str_eqb key node_id)
         || negb (str_eqb source.(adm_sender_node_id) node_id)
         || negb (str_eqb source.(adm_brain_id) s.(Brain.brain_id))
         || negb (str_eqb member_id node.(NodeRecord.member_id))
         || negb (str_eqb device_id node.(NodeRecord.device_id))
         || (node.(NodeRecord.revision) <=? source.(adm_revision))%N) Invalid
    | _ => Err Invalid
    end
  end.

Definition validate_tasks_and_replays (s : Brain.t) : result BrainError unit :=
  _ ← refuse ((MAX_TASKS <? size s.(Brain.tasks))%nat
              || (MAX_REPLAYS <? length s.(Brain.replays))%nat) BrainCapacity;
  _ ← check_replays s ∅ ∅ s.(Brain.replays);
  _ ← for_each (check_task s) (entries s.(Brain.tasks));
  for_each (check_announcement s) (entries s.(Brain.nodes)).

Definition check_header (s : Brain.t) : bool :=
  (s.(Brain.version) =? 1)%N
  && id s.(Brain.brain_id)
  && negb (s.(Brain.revision) =? 0)%N
  && (s.(Brain.revision) <=? MAX_REVISION)%N
  && timestamp (brain_high_water s)
  && str_eqb s.(Brain.credentials).(CredentialRegistry.brain_id) s.(Brain.brain_id)
  && str_eqb s.(Brain.invitations).(InvitationRegistry.brain_id) s.(Brain.brain_id)
  && (cred_high_water s.(Brain.credentials) <=? brain_high_water s)%Z
  && (inv_high_water s.(Brain.invitations) <=? brain_high_water s)%Z
  && negb (size s.(Brain.members) =? 0)%nat
  && (size s.(Brain.members) <=? 64)%nat
  && (size s.(Brain.nodes) <=? 64)%nat
  && is_some_and (fun member => negb member.(MemberRecord.revoked))
       (s.(Brain.members) !! s.(Brain.owner_member_id))
  && (length (bindings s.(Brain.credentials)) =? size s.(Brain.nodes))%nat.

Definition check_member (s : Brain.t) (entry : string * MemberRecord.t)
    : result BrainError unit :=
  let (key, member) := entry in
  refuse
    (negb (id key)
     || negb (id member.(MemberRecord.identity_id))
     || negb (display_name_ok member.(MemberRecord.display_name))
     || (member.(MemberRecord.revision) =? 0)%N
     || (s.(Brain.revision) <? member.(MemberRecord.revision))%N
     || negb (existsb (fun b => str_eqb b.(CredentialBinding.member_id) key)
                (bindings s.(Brain.credentials)))
     || negb (Bool.eqb member.(MemberRecord.revoked) (is_revoked s.(Brain.credentials) key)))
    Invalid.

Definition check_binding (s : Brain.t) (b : CredentialBinding.t) : result BrainError unit :=
  node ← ok_or (s.(Brain.nodes) !! b.(CredentialBinding.node_id)) Invalid;
  member ← ok_or (s.(Brain.members) !! b.(CredentialBinding.member_id)) Invalid;
  refuse
    (negb (str_eqb node.(NodeRecord.member_id) b.(CredentialBinding.member_id))
     || negb (str_eqb node.(NodeRecord.device_id) b.(CredentialBinding.device_id))
     || (node.(NodeRecord.revision) =? 0)%N
     || (s.(Brain.revision) <? node.(NodeRecord.revision))%N
     || (member.(MemberRecord.revoked) && node.(NodeRecord.online))
     || (node.(NodeRecord.online) && is_none node.(NodeRecord.last_seen_at))
     || is_some_and (fun seen => negb (timestamp seen) || (brain_high_water s <? seen)%Z)
          node.(NodeRecord.last_seen_at)) Invalid.

Definition validate (s : Brain.t) : result BrainError unit :=
  _ ← refuse (negb (check_header s)) Invalid;
  _ ← for_each (check_member s) (entries s.(Brain.members));
  _ ← for_each (check_binding s) (bindings s.(Brain.credentials));
  validate_tasks_and_replays s.
End Validation.
