(* ===== verification/BrainValid.v ===== *)
(** * The Brain's validity predicate

    The declarative meaning of [Brain::validate], the equivalence of the two, and the
    full invariant of a Brain in memory: valid, with well-formed registries, holding
    only messages that passed [Message::try_from]. *)

From S2P Require Import Prelude Protocol Credential Invitation Brain.

Section Predicates.
Context `{Sha256, ProtocolJson}.

Definition member_ok (rev : N) (c : CredentialRegistry.t) (k : string)
    (m : MemberRecord.t) : Prop :=
  id k = true /\ id m.(MemberRecord.identity_id) = true /\
  display_name_ok m.(MemberRecord.display_name) = true /\
  (0 < m.(MemberRecord.revision) <= rev)%N /\
  (exists n v, c.(CredentialRegistry.records) !! n = Some v /\ StoredCredential.member v = k) /\
  m.(MemberRecord.revoked) = is_revoked c k.

(** A Node's presence is consistent with the clock and with its member. *)
Definition node_ok (rev : N) (hw : Z) (m : MemberRecord.t) (n : NodeRecord.t) : Prop :=
  (0 < n.(NodeRecord.revision) <= rev)%N /\
  (n.(NodeRecord.online) = true ->
     m.(MemberRecord.revoked) = false /\ is_Some n.(NodeRecord.last_seen_at)) /\
  (forall seen, n.(NodeRecord.last_seen_at) = Some seen ->
     timestamp seen = true /\ (seen <= hw)%Z).

Definition binding_ok (s : Brain.t) (b : CredentialBinding.t) : Prop :=
  exists n m,
    s.(Brain.nodes) !! b.(CredentialBinding.node_id) = Some n /\
    s.(Brain.members) !! b.(CredentialBinding.member_id) = Some m /\
    n.(NodeRecord.member_id) = b.(CredentialBinding.member_id) /\
    n.(NodeRecord.device_id) = b.(CredentialBinding.device_id) /\
    node_ok s.(Brain.revision) (brain_high_water s) m n.

Definition replay_ok (rev : N) (nodes : gmap string NodeRecord.t) (r : ReplayRecord.t) : Prop :=
  id r.(ReplayRecord.key) = true /\ is_Some (nodes !! r.(ReplayRecord.sender_node_id)) /\
  (0 < r.(ReplayRecord.revision) <= rev)%N.

Definition replay_key (r : ReplayRecord.t) : string * string :=
  (r.(ReplayRecord.sender_node_id), r.(ReplayRecord.key)).

(** A stored task is the draft its source message announced, admitted by a recorded
    replay entry of the same payload, from a Node of the member who created it. *)
Definition task_ok (brain_id : string) (rev : N) (nodes : gmap string NodeRecord.t)
    (replays : list ReplayRecord.t) (k : string) (t : TaskRecord.t) : Prop :=
  let source := admission t.(TaskRecord.source) in
  exists member_id n r,
    source.(adm_payload) = ViewTask k member_id TaskStatus.Draft /\
    source.(adm_brain_id) = brain_id /\
    (source.(adm_revision) < t.(TaskRecord.revision) <= rev)%N /\
    nodes !! source.(adm_sender_node_id) = Some n /\ n.(NodeRecord.member_id) = member_id /\
    r ∈ replays /\ replay_key r = (source.(adm_sender_node_id), source.(adm_key)) /\
    r.(ReplayRecord.revision) = (source.(adm_revision) + 1)%N /\
    payload_hash t.(TaskRecord.source) = Ok r.(ReplayRecord.fingerprint).

Definition announcement_ok (brain_id : string) (k : string) (n : NodeRecord.t) : Prop :=
  forall message, n.(NodeRecord.announcement) = Some message ->
  let source := admission message in
  source.(adm_payload) = ViewNode k n.(NodeRecord.member_id) n.(NodeRecord.device_id) /\
  source.(adm_sender_node_id) = k /\ source.(adm_brain_id) = brain_id /\
  (source.(adm_revision) < n.(NodeRecord.revision))%N.

Record header_ok (s : Brain.t) : Prop := {
  h_version : s.(Brain.version) = 1%N;
  h_brain : id s.(Brain.brain_id) = true;
  h_revision : (0 < s.(Brain.revision) <= MAX_REVISION)%N;
  h_clock : timestamp (brain_high_water s) = true;
  h_cbrain : s.(Brain.credentials).(CredentialRegistry.brain_id) = s.(Brain.brain_id);
  h_ibrain : s.(Brain.invitations).(InvitationRegistry.brain_id) = s.(Brain.brain_id);
  h_cclock : (cred_high_water s.(Brain.credentials) <= brain_high_water s)%Z;
  h_iclock : (inv_high_water s.(Brain.invitations) <= brain_high_water s)%Z;
  h_members : size s.(Brain.members) <= 64;
  h_nodes : size s.(Brain.nodes) <= 64;
  h_owner : exists m, s.(Brain.members) !! s.(Brain.owner_member_id) = Some m /\
                      m.(MemberRecord.revoked) = false;
  h_count : size s.(Brain.credentials).(CredentialRegistry.records) = size s.(Brain.nodes);
}.

Record valid (s : Brain.t) : Prop := {
  v_header : header_ok s;
  v_members : map_Forall (member_ok s.(Brain.revision) s.(Brain.credentials)) s.(Brain.members);
  v_bindings : map_Forall (fun _ v => binding_ok s v.(StoredCredential.binding))
    s.(Brain.credentials).(CredentialRegistry.records);
  v_tasks_cap : size s.(Brain.tasks) <= MAX_TASKS;
  v_replays_cap : length s.(Brain.replays) <= MAX_REPLAYS;
  v_replays : Forall (replay_ok s.(Brain.revision) s.(Brain.nodes)) s.(Brain.replays);
  v_replay_keys : NoDup (replay_key <$> s.(Brain.replays));
  v_replay_revisions : NoDup (ReplayRecord.revision <$> s.(Brain.replays));
  v_tasks : map_Forall
    (task_ok s.(Brain.brain_id) s.(Brain.revision) s.(Brain.nodes) s.(Brain.replays))
    s.(Brain.tasks);
  v_announcements : map_Forall (announcement_ok s.(Brain.brain_id)) s.(Brain.nodes);
}.

(** Every message kept in the state passed [Message::try_from]. *)
Definition messages_ok (s : Brain.t) : Prop :=
  map_Forall (fun _ n => forall m, n.(NodeRecord.announcement) = Some m -> message_ok m = true)
    s.(Brain.nodes) /\
  map_Forall (fun _ t => message_ok t.(TaskRecord.source) = true) s.(Brain.tasks).

Record brain_wf (s : Brain.t) : Prop := {
  bw_valid : valid s;
  bw_credentials : registry_wf s.(Brain.credentials);
  bw_invitations : invitations_wf s.(Brain.invitations);
  bw_messages : messages_ok s;
}.
End Predicates.

(** ** [validate] decides [valid] *)

Section Equivalence.
Context `{Sha256, ProtocolJson}.

Lemma check_header_ok s : check_header s = true <-> header_ok s.
Proof.
  unfold check_header, str_eqb, bindings. rewrite length_fmap, length_values. split.
  - intros Hc. repeat rewrite andb_true_iff in Hc. rewrite !bool_decide_eq_true in Hc.
    destruct Hc as [[[[[[[[[[[[[H1 H2] H3] H4] H5] H6] H7] H8] H9] H10] H11] H12] H13] H14].
    apply Nat.leb_le in H11, H12. apply Nat.eqb_eq in H14.
    destruct (_ !! _) as [m|] eqn:Hm in H13; [|done]. apply negb_true_iff in H13.
    split; eauto; lia.
  - intros [H1 H2 H3 H4 H5 H6 H7 H8 H9 H10 (m & H11 & H11') H12].
    repeat rewrite andb_true_iff. rewrite !bool_decide_eq_true, H11. simpl. rewrite H11'.
    assert (size s.(Brain.members) <> 0) as Hne.
    { intros Hz. apply map_size_empty_inv in Hz. by rewrite Hz, lookup_empty in H11. }
    apply Nat.eqb_neq in Hne. rewrite Hne.
    repeat match goal with |- _ /\ _ => split end; try done; try lia; by apply Nat.leb_le || by apply Nat.eqb_eq.
Qed.

Lemma check_member_ok s k m :
  check_member s (k, m) = Ok tt <-> member_ok s.(Brain.revision) s.(Brain.credentials) k m.
Proof.
  unfold check_member, member_ok. rewrite refuse_ok. repeat rewrite orb_false_iff.
  rewrite !negb_false_iff, Bool.eqb_true_iff, existsb_exists. unfold bindings.
  assert ((exists x, In x (StoredCredential.binding <$> values s.(Brain.credentials).(CredentialRegistry.records))
            /\ str_eqb x.(CredentialBinding.member_id) k = true) <->
          exists n v, s.(Brain.credentials).(CredentialRegistry.records) !! n = Some v /\
            StoredCredential.member v = k) as ->.
  { setoid_rewrite <- list_elem_of_In. setoid_rewrite list_elem_of_fmap.
    setoid_rewrite elem_of_values. setoid_rewrite str_eqb_true. unfold StoredCredential.member.
    naive_solver. }
  rewrite N.eqb_neq, N.ltb_ge. split.
  - intros ((((((?&?)&?)&?)&?)&?)&?). split_and!; try done; lia.
  - intros (?&?&?&[??]&?&?). split_and!; try done; lia.
Qed.

Lemma check_binding_ok s b : check_binding s b = Ok tt <-> binding_ok s b.
Proof.
  unfold check_binding, binding_ok. setoid_rewrite result_bind_ok.
  setoid_rewrite result_bind_ok. setoid_rewrite ok_or_ok. setoid_rewrite refuse_ok.
  assert (forall n m,
    negb (str_eqb n.(NodeRecord.member_id) b.(CredentialBinding.member_id))
     || negb (str_eqb n.(NodeRecord.device_id) b.(CredentialBinding.device_id))
     || (n.(NodeRecord.revision) =? 0)%N
     || (s.(Brain.revision) <? n.(NodeRecord.revision))%N
     || (m.(MemberRecord.revoked) && n.(NodeRecord.online))
     || (n.(NodeRecord.online) && is_none n.(NodeRecord.last_seen_at))
     || is_some_and (fun seen => negb (timestamp seen) || (brain_high_water s <? seen)%Z)
          n.(NodeRecord.last_seen_at) = false <->
    n.(NodeRecord.member_id) = b.(CredentialBinding.member_id) /\
    n.(NodeRecord.device_id) = b.(CredentialBinding.device_id) /\
    node_ok s.(Brain.revision) (brain_high_water s) m n) as Hiff.
  { intros n m. unfold node_ok. repeat rewrite orb_false_iff. rewrite !negb_false_iff, !str_eqb_true.
    rewrite N.eqb_neq, N.ltb_ge.
    destruct n.(NodeRecord.last_seen_at) as [seen|], n.(NodeRecord.online), m.(MemberRecord.revoked);
      simpl; rewrite ?orb_false_iff, ?negb_false_iff, ?Z.ltb_ge; split; intros Hc;
      repeat match goal with H : _ /\ _ |- _ => destruct H end; split_and!;
      try done; try lia; naive_solver lia. }
  split.
  - intros (n & Hn & m & Hm & Hc). apply Hiff in Hc. exists n, m. naive_solver.
  - intros (n & m & Hn & Hm & Hc). exists n. split; [done|]. exists m. split; [done|].
    apply Hiff. naive_solver.
Qed.

Lemma check_replays_ok s keys revs l :
  check_replays s keys revs l = Ok tt <->
  Forall (replay_ok s.(Brain.revision) s.(Brain.nodes)) l /\
  NoDup (replay_key <$> l) /\ NoDup (ReplayRecord.revision <$> l) /\
  (forall r, r ∈ l -> (replay_key r ∉ keys) /\ (ReplayRecord.revision r ∉ revs)).
Proof.
  revert keys revs. induction l as [|r l IH]; intros keys revs; cbn [check_replays].
  { split; [|done]. intros _. split_and!; try constructor; set_solver. }
  fold (replay_key r). case_match eqn:Hc.
  - split; [done|]. intros (Hall & _ & _ & Hnew). exfalso.
    apply list.Forall_cons in Hall as [(Hk & Hn & Hrev) _].
    destruct (Hnew r) as [Hkey Hr]; [set_solver|].
    apply not_false_iff_true in Hc. apply Hc. repeat rewrite orb_false_iff.
    unfold contains_key. destruct Hn as [n ->]. rewrite Hk, !bool_decide_eq_false. simpl.
    split_and!; try done; lia.
  - repeat rewrite orb_false_iff in Hc. rewrite !negb_false_iff, !bool_decide_eq_false in Hc.
    destruct Hc as (((((Hk & Hn) & Hz) & Hle) & Hkey) & Hr).
    apply contains_key_true in Hn. assert (replay_ok s.(Brain.revision) s.(Brain.nodes) r)
      by (unfold replay_ok; destruct Hn as [n ->]; split_and!; done || lia). rewrite IH. rewrite !fmap_cons, !list.NoDup_cons, list.Forall_cons.
    rewrite !list_elem_of_fmap. setoid_rewrite not_elem_of_union.
    setoid_rewrite not_elem_of_singleton. split.
    + intros (Hall & Hnk & Hnr & Hnew). split_and!; try done.
      * intros (r' & Heq & Hin). destruct (Hnew r' Hin). intuition congruence.
      * intros (r' & Heq & Hin). destruct (Hnew r' Hin). intuition congruence.
      * intros r' Hin. apply elem_of_cons in Hin as [->|Hin]; [done|]. destruct (Hnew r' Hin). tauto.
    + intros ((_ & Hall) & (Hk1 & Hnk) & (Hr1 & Hnr) & Hnew). split_and!; try done.
      intros r' Hin. destruct (Hnew r') as [Hk' Hr']; [by right|].
      split; (split; [|done]); intros Heq; [apply Hk1|apply Hr1]; eauto.
Qed.

Lemma admitted_by_true source r :
  admitted_by source r = true <->
  replay_key r = ((admission source).(adm_sender_node_id), (admission source).(adm_key)) /\
  r.(ReplayRecord.revision) = ((admission source).(adm_revision) + 1)%N /\
  payload_hash source = Ok r.(ReplayRecord.fingerprint).
Proof.
  unfold admitted_by, replay_key. repeat rewrite andb_true_iff. rewrite !str_eqb_true, N.eqb_eq.
  destruct (payload_hash source) as [h|e]; [rewrite str_eqb_true|].
  - split.
    + intros (((-> & ->) & ->) & ->). done.
    + intros ([= -> ->] & -> & [= ->]). done.
  - split; [intros [_ ?]|intros (_ & _ & ?)]; discriminate.
Qed.

Lemma check_task_ok s k t :
  check_task s (k, t) = Ok tt <->
  task_ok s.(Brain.brain_id) s.(Brain.revision) s.(Brain.nodes) s.(Brain.replays) k t.
Proof.
  unfold check_task, task_ok. set (source := admission t.(TaskRecord.source)).
  destruct source.(adm_payload) as [?|tid mid st|] eqn:Hp; [naive_solver| |naive_solver].
  rewrite refuse_ok. repeat rewrite orb_false_iff. rewrite !negb_false_iff, !str_eqb_true.
  rewrite bool_decide_eq_true, N.ltb_ge, N.leb_gt, existsb_exists.
  setoid_rewrite admitted_by_true. setoid_rewrite <- list_elem_of_In. fold source. split.
  - intros ((((((-> & ->) & Hb) & Hr) & Hs) & Hn) & r & Hin & Hk & Hrev & Hh).
    destruct (_ !! _) as [n|]; [|done]. simpl in Hn. apply str_eqb_true in Hn.
    exists mid, n, r. by split_and!.
  - intros (mid' & n & r & [= -> -> ->] & Hb & (Hs & Hr) & Hn & Hm & Hin & Hk & Hrev & Hh).
    rewrite Hn. simpl. rewrite str_eqb_true. split_and!; try done. by exists r.
Qed.

Lemma check_announcement_ok s k n :
  check_announcement s (k, n) = Ok tt <-> announcement_ok s.(Brain.brain_id) k n.
Proof.
  unfold check_announcement, announcement_ok.
  destruct n.(NodeRecord.announcement) as [m|]; [|naive_solver].
  destruct (admission m).(adm_payload) as [nid mid did|?|] eqn:Hp;
    [|split; [done|]; intros Hc; destruct (Hc m eq_refl); congruence
     |split; [done|]; intros Hc; destruct (Hc m eq_refl); congruence].
  rewrite refuse_ok. repeat rewrite orb_false_iff. rewrite !negb_false_iff, !str_eqb_true.
  rewrite N.leb_gt. split.
  - intros (((((-> & Hs) & Hb) & ->) & ->) & Hr) m' [= <-]. by split_and!.
  - intros Hc. destruct (Hc m eq_refl) as (Heq & Hs & Hb & Hr). rewrite Hp in Heq.
    injection Heq as -> -> ->. by split_and!.
Qed.

(** A loop over a map checks a property of all its entries. *)
Lemma for_each_entries {E V} (f : string * V -> result E unit) (P : string -> V -> Prop) m :
  (forall k v, f (k, v) = Ok tt <-> P k v) ->
  for_each f (entries m) = Ok tt <-> map_Forall P m.
Proof.
  intros Hf. rewrite for_each_ok, list.Forall_forall. split.
  - intros Hall k v Hk. apply Hf, Hall, elem_of_entries, Hk.
  - intros Hall [k v] Hin. apply Hf, Hall, elem_of_entries, Hin.
Qed.

Lemma for_each_bindings c (f : CredentialBinding.t -> result BrainError unit) P :
  (forall b, f b = Ok tt <-> P b) ->
  for_each f (bindings c) = Ok tt <->
  map_Forall (fun _ v => P v.(StoredCredential.binding)) c.(CredentialRegistry.records).
Proof.
  intros Hf. rewrite for_each_ok, list.Forall_forall. unfold bindings. split.
  - intros Hall k v Hk. apply Hf, Hall, list_elem_of_fmap. exists v. split; [done|].
    apply elem_of_values. eauto.
  - intros Hall b Hb. apply list_elem_of_fmap in Hb as (v & -> & Hv).
    apply elem_of_values in Hv as [k Hk]. apply Hf. by apply (Hall k v).
Qed.

Lemma validate_tasks_and_replays_ok s :
  validate_tasks_and_replays s = Ok tt <->
  size s.(Brain.tasks) <= MAX_TASKS /\ length s.(Brain.replays) <= MAX_REPLAYS /\
  Forall (replay_ok s.(Brain.revision) s.(Brain.nodes)) s.(Brain.replays) /\
  NoDup (replay_key <$> s.(Brain.replays)) /\
  NoDup (ReplayRecord.revision <$> s.(Brain.replays)) /\
  map_Forall (task_ok s.(Brain.brain_id) s.(Brain.revision) s.(Brain.nodes) s.(Brain.replays))
    s.(Brain.tasks) /\
  map_Forall (announcement_ok s.(Brain.brain_id)) s.(Brain.nodes).
Proof.
  unfold validate_tasks_and_replays. rewrite !result_seq_ok, refuse_ok.
  rewrite check_replays_ok, orb_false_iff, !Nat.ltb_ge.
  rewrite (for_each_entries _ _ _ (check_task_ok s)).
  rewrite (for_each_entries _ _ _ (check_announcement_ok s)). split.
  - intros ((? & ?) & (? & ? & ? & _) & ? & ?). by split_and!.
  - intros (? & ? & ? & ? & ? & ? & ?). split_and!; try done; set_solver.
Qed.

Lemma validate_ok s : validate s = Ok tt <-> valid s.
Proof.
  unfold validate. rewrite !result_seq_ok, refuse_ok.
  rewrite negb_false_iff, check_header_ok, validate_tasks_and_replays_ok.
  rewrite (for_each_entries _ _ _ (check_member_ok s)).
  rewrite (for_each_bindings _ _ _ (check_binding_ok s)). split.
  - intros (? & ? & ? & ? & ? & ? & ? & ? & ? & ?). by split.
  - intros []. by split_and!.
Qed.
End Equivalence.
