(* ===== verification/BrainInv.v ===== *)
(** * The Brain's invariant

    Inversion lemmas for the operations of [Brain], how a state may evolve without
    losing validity, and the preservation of [brain_wf] by every operation. *)

From S2P Require Import Prelude Protocol Credential Invitation Brain BrainValid.

(** ** Inversion of the shared statements *)

Lemma observe_ok now s u s' :
  observe now s = (Ok u, s') ->
  timestamp now = true /\ (brain_high_water s <= now)%Z /\
  s' = Brain.set_clock (mkClock now) s.
Proof.
  unfold observe, zoom, brain_high_water. rewrite clock_observe_spec.
  destruct (timestamp now) eqn:Ht, (_ <=? now)%Z eqn:Hh; simpl; try done.
  intros [= _ <-]. apply Z.leb_le in Hh. done.
Qed.

Lemma observe_run now s :
  timestamp now = true -> (brain_high_water s <= now)%Z ->
  observe now s = (Ok tt, Brain.set_clock (mkClock now) s).
Proof.
  unfold observe, zoom, brain_high_water. rewrite clock_observe_spec.
  intros -> H%Z.leb_le. by rewrite H.
Qed.

Lemma observe_err now s e s' : observe now s = (Err e, s') -> e = Access Rejected /\ s' = s.
Proof.
  unfold observe, zoom. rewrite clock_observe_spec. destruct s.
  simpl. destruct (_ && _); simpl; naive_solver.
Qed.

Lemma check_revision_ok e s u s' :
  check_revision e s = (Ok u, s') -> e = s.(Brain.revision) /\ s' = s.
Proof.
  unfold check_revision. intros Hrun. run_inv Hrun. bool_hyps. by apply N.eqb_eq in Hguard.
Qed.

Lemma check_revision_run s : check_revision s.(Brain.revision) s = (Ok tt, s).
Proof. unfold check_revision, mbind, M_bind, get. by rewrite N.eqb_refl. Qed.

Lemma check_revision_err e s x s' :
  check_revision e s = (Err x, s') -> x = Conflict /\ e <> s.(Brain.revision) /\ s' = s.
Proof.
  unfold check_revision, mbind, M_bind, get, reject_if, throw, mret, M_ret.
  destruct (N.eqb_spec e s.(Brain.revision)); naive_solver.
Qed.

Lemma next_revision_ok s r s' :
  next_revision s = (Ok r, s') ->
  r = (s.(Brain.revision) + 1)%N /\ (r <= MAX_REVISION)%N /\ s' = s.
Proof.
  unfold next_revision, mbind, M_bind, get, lift, u64_checked_add.
  case_bool_decide; simpl; [|done]. destruct (_ <=? _)%N eqn:Hle; simpl; [|done].
  intros [= <- <-]. apply N.leb_le in Hle. done.
Qed.

Lemma next_revision_run s :
  (s.(Brain.revision) < MAX_REVISION)%N ->
  next_revision s = (Ok (s.(Brain.revision) + 1)%N, s).
Proof.
  intros Hlt. unfold next_revision, mbind, M_bind, get, lift, u64_checked_add, MAX_REVISION in *.
  rewrite bool_decide_eq_true_2 by (unfold u64_max; lia). simpl.
  by rewrite (proj2 (N.leb_le _ _)) by lia.
Qed.

Lemma next_revision_err s e s' : next_revision s = (Err e, s') -> e = BrainCapacity /\ s' = s.
Proof.
  unfold next_revision, mbind, M_bind, get, lift, u64_checked_add.
  destruct (opt_filter _ _); simpl; naive_solver.
Qed.

(** ** How a valid state evolves *)

Section Evolution.
Context `{Sha256, ProtocolJson}.

(** A Node of a valid Brain has a credential, which agrees with it, and a member. *)
Lemma lookup_node s k n :
  valid s -> registry_wf s.(Brain.credentials) -> s.(Brain.nodes) !! k = Some n ->
  exists v m,
    s.(Brain.credentials).(CredentialRegistry.records) !! k = Some v /\
    v.(StoredCredential.binding) = CredentialBinding.mk s.(Brain.brain_id)
      n.(NodeRecord.member_id) k n.(NodeRecord.device_id) /\
    s.(Brain.members) !! n.(NodeRecord.member_id) = Some m /\
    node_ok s.(Brain.revision) (brain_high_water s) m n.
Proof.
  intros Hv Hr Hk.
  assert (forall k v, s.(Brain.credentials).(CredentialRegistry.records) !! k = Some v ->
    k = v.(StoredCredential.binding).(CredentialBinding.node_id) /\
    v.(StoredCredential.binding).(CredentialBinding.brain_id) = s.(Brain.brain_id)) as Hkey.
  { intros k' v' Hv'. apply (rwf_records _ Hr) in Hv'. unfold record_valid in Hv'. bool_hyps.
    rewrite (h_cbrain _ (v_header _ Hv)) in *. done. }
  assert (dom s.(Brain.credentials).(CredentialRegistry.records) = dom s.(Brain.nodes)) as Hdom.
  { apply dom_eq_of_size; [|apply Hv]. intros k' [v' Hk']%elem_of_dom. apply elem_of_dom.
    destruct (v_bindings _ Hv _ _ Hk') as (n' & m' & Hn' & _).
    apply Hkey in Hk' as [-> _]. by exists n'. }
  assert (is_Some (s.(Brain.credentials).(CredentialRegistry.records) !! k)) as [v Hkv].
  { apply elem_of_dom. rewrite Hdom. apply elem_of_dom. by exists n. }
  destruct (v_bindings _ Hv _ _ Hkv) as (n' & m & Hn' & Hm & Hnm & Hnd & Hok).
  destruct (Hkey _ _ Hkv) as [Hk1 Hb]. rewrite <- Hk1, Hk in Hn'. injection Hn' as <-.
  exists v, m. rewrite Hnm, Hnd. split_and!; try done.
  destruct v.(StoredCredential.binding). simpl in *. congruence.
Qed.

(** One state follows another without losing members, Nodes, tasks or replay records:
    revisions and clocks move forward, and what changed in a member or a Node is
    consistent with the new state. *)
Record evolves (s s' : Brain.t) : Prop := {
  ev_version : s'.(Brain.version) = s.(Brain.version);
  ev_brain : s'.(Brain.brain_id) = s.(Brain.brain_id);
  ev_owner : s'.(Brain.owner_member_id) = s.(Brain.owner_member_id);
  ev_revision : (s.(Brain.revision) <= s'.(Brain.revision) <= MAX_REVISION)%N;
  ev_clock : timestamp (brain_high_water s') = true;
  ev_cbrain : s'.(Brain.credentials).(CredentialRegistry.brain_id)
              = s.(Brain.credentials).(CredentialRegistry.brain_id);
  ev_ibrain : s'.(Brain.invitations).(InvitationRegistry.brain_id)
              = s.(Brain.invitations).(InvitationRegistry.brain_id);
  ev_cclock : (cred_high_water s'.(Brain.credentials) <= brain_high_water s')%Z;
  ev_iclock : (inv_high_water s'.(Brain.invitations) <= brain_high_water s')%Z;
  ev_records : forall k,
    StoredCredential.binding <$> s'.(Brain.credentials).(CredentialRegistry.records) !! k =
    StoredCredential.binding <$> s.(Brain.credentials).(CredentialRegistry.records) !! k;
  ev_members_dom : dom s'.(Brain.members) = dom s.(Brain.members);
  ev_members : forall k m', s'.(Brain.members) !! k = Some m' -> exists m,
    s.(Brain.members) !! k = Some m /\
    m'.(MemberRecord.identity_id) = m.(MemberRecord.identity_id) /\
    m'.(MemberRecord.display_name) = m.(MemberRecord.display_name) /\
    (0 < m'.(MemberRecord.revision) <= s'.(Brain.revision))%N /\
    m'.(MemberRecord.revoked) = is_revoked s'.(Brain.credentials) k;
  ev_owner_live : is_revoked s'.(Brain.credentials) s.(Brain.owner_member_id) = false;
  ev_nodes_dom : dom s'.(Brain.nodes) = dom s.(Brain.nodes);
  ev_nodes : forall k n', s'.(Brain.nodes) !! k = Some n' -> exists n,
    s.(Brain.nodes) !! k = Some n /\
    n'.(NodeRecord.member_id) = n.(NodeRecord.member_id) /\
    n'.(NodeRecord.device_id) = n.(NodeRecord.device_id) /\
    (forall m', s'.(Brain.members) !! n.(NodeRecord.member_id) = Some m' ->
       node_ok s'.(Brain.revision) (brain_high_water s') m' n') /\
    announcement_ok s.(Brain.brain_id) k n';
  ev_tasks : s'.(Brain.tasks) = s.(Brain.tasks);
  ev_replays : s'.(Brain.replays) = s.(Brain.replays);
}.

(** Looking a key up on both sides of an evolution. *)
Lemma evolves_node s s' k n :
  evolves s s' -> s.(Brain.nodes) !! k = Some n ->
  exists n', s'.(Brain.nodes) !! k = Some n' /\
    n'.(NodeRecord.member_id) = n.(NodeRecord.member_id) /\
    n'.(NodeRecord.device_id) = n.(NodeRecord.device_id) /\
    (forall m', s'.(Brain.members) !! n.(NodeRecord.member_id) = Some m' ->
       node_ok s'.(Brain.revision) (brain_high_water s') m' n').
Proof.
  intros Hev Hn. assert (is_Some (s'.(Brain.nodes) !! k)) as [n' Hn'].
  { apply elem_of_dom. rewrite (ev_nodes_dom _ _ Hev). by apply elem_of_dom; exists n. }
  destruct (ev_nodes _ _ Hev _ _ Hn') as (n0 & Hn0 & ? & ? & ? & _).
  rewrite Hn in Hn0. injection Hn0 as <-. by exists n'.
Qed.

Lemma evolves_member s s' k :
  evolves s s' -> is_Some (s.(Brain.members) !! k) -> is_Some (s'.(Brain.members) !! k).
Proof. intros Hev. rewrite <- !elem_of_dom. by rewrite (ev_members_dom _ _ Hev). Qed.

Lemma evolves_record s s' k v' :
  evolves s s' -> s'.(Brain.credentials).(CredentialRegistry.records) !! k = Some v' ->
  exists v, s.(Brain.credentials).(CredentialRegistry.records) !! k = Some v /\
            v'.(StoredCredential.binding) = v.(StoredCredential.binding).
Proof.
  intros Hev Hk. pose proof (ev_records _ _ Hev k) as Heq. rewrite Hk in Heq.
  destruct (_ !! k) as [v|] in Heq |- *; [|done]. injection Heq as Heq. eauto.
Qed.

Lemma evolves_record_inv s s' k v :
  evolves s s' -> s.(Brain.credentials).(CredentialRegistry.records) !! k = Some v ->
  exists v', s'.(Brain.credentials).(CredentialRegistry.records) !! k = Some v' /\
             v'.(StoredCredential.binding) = v.(StoredCredential.binding).
Proof.
  intros Hev Hk. pose proof (ev_records _ _ Hev k) as Heq. rewrite Hk in Heq.
  destruct (_ !! k) as [v'|] in Heq |- *; [|done]. injection Heq as Heq. eauto.
Qed.

Lemma evolves_header s s' : header_ok s -> evolves s s' -> header_ok s'.
Proof.
  intros [H1 H2 H3 H4 H5 H6 H7 H8 H9 H10 (m & Hm & _) H12] Hev.
  pose proof Hev as [E1 E2 E3 E4 E5 E6 E7 E8 E9 E10 E11 E12 E13 E14 E15 E16 E17].
  split; try congruence; try done.
  - lia.
  - rewrite <- size_dom, E11, size_dom. done.
  - rewrite <- size_dom, E14, size_dom. done.
  - destruct (evolves_member s s' s.(Brain.owner_member_id) Hev) as [m' Hm']; [by exists m|].
    exists m'. rewrite E3. split; [done|].
    destruct (E12 _ _ Hm') as (_ & _ & _ & _ & _ & ->). done.
  - rewrite <- (size_dom s'.(Brain.nodes)), E14, (size_dom s.(Brain.nodes)), <- H12.
    rewrite <- !(size_dom (_ : gmap string StoredCredential.t)). f_equal.
    apply set_eq. intros k. rewrite !elem_of_dom. split; intros [v Hv].
    + apply (evolves_record _ _ _ _ Hev) in Hv as (? & ? & _). by eexists.
    + apply (evolves_record_inv _ _ _ _ Hev) in Hv as (? & ? & _). by eexists.
Qed.

Lemma task_ok_mono b rev rev' nodes nodes' replays replays' k t :
  task_ok b rev nodes replays k t -> (rev <= rev')%N ->
  (forall x n, nodes !! x = Some n ->
     exists n', nodes' !! x = Some n' /\ n'.(NodeRecord.member_id) = n.(NodeRecord.member_id)) ->
  replays ⊆ replays' ->
  task_ok b rev' nodes' replays' k t.
Proof.
  intros (mid & n & r & Hp & Hb & (Hs & Hr) & Hn & Hm & Hin & ? & ? & ?) Hle Hnodes Hsub.
  destruct (Hnodes _ _ Hn) as (n' & Hn' & Hm'). exists mid, n', r.
  split_and!; try done; [lia|congruence|set_solver].
Qed.

Lemma replay_ok_mono rev rev' nodes nodes' r :
  replay_ok rev nodes r -> (rev <= rev')%N ->
  (forall x, is_Some (nodes !! x) -> is_Some (nodes' !! x)) ->
  replay_ok rev' nodes' r.
Proof. intros (? & ? & ? & ?) Hle Hn. unfold replay_ok. split_and!; auto; lia. Qed.

Lemma valid_evolves s s' : valid s -> evolves s s' -> valid s'.
Proof.
  intros [V1 V2 V3 V4 V5 V6 V7 V8 V9 V10] Hev.
  pose proof Hev as [E1 E2 E3 E4 E5 E6 E7 E8 E9 E10 E11 E12 E13 E14 E15 E16 E17].
  split; rewrite ?E16, ?E17, ?E2; try done.
  - by eapply evolves_header.
  - intros k m' Hk. destruct (E12 _ _ Hk) as (m & Hm & Hi & Hd & (? & ?) & Hrev).
    destruct (V2 _ _ Hm) as (? & ? & ? & _ & (x & v & Hx & Hmem) & _).
    destruct (evolves_record_inv _ _ _ _ Hev Hx) as (v' & Hx' & Hb).
    unfold member_ok. rewrite Hi, Hd. split_and!; try done.
    exists x, v'. split; [done|]. unfold StoredCredential.member in *. by rewrite Hb.
  - intros k v' Hk. apply (evolves_record _ _ _ _ Hev) in Hk as (v & Hk & ->).
    destruct (V3 _ _ Hk) as (n & m & Hn & Hm & Hnm & Hnd & _).
    destruct (evolves_node _ _ _ _ Hev Hn) as (n' & Hn' & Hm' & Hd' & Hok).
    destruct (evolves_member _ _ _ Hev (mk_is_Some _ _ Hm)) as [m' Hmm'].
    exists n', m'. split_and!; try congruence. apply Hok. congruence.
  - eapply list.Forall_impl; [done|]. intros r Hr. eapply replay_ok_mono; [done|lia|].
    intros x. rewrite <- !elem_of_dom. congruence.
  - intros k t Hk. eapply task_ok_mono; [by apply V9|lia| |done].
    intros x n Hn. destruct (evolves_node _ _ _ _ Hev Hn) as (n' & ? & ? & _). eauto.
  - intros k n' Hk. by destruct (E15 _ _ Hk) as (n & _ & _ & _ & _ & ?).
Qed.
End Evolution.

(** ** Advancing clocks, revisions and Nodes *)

Section Advance.
Context `{Sha256, ProtocolJson}.

(** Everything but clocks, the revision, pending invitations and Nodes is unchanged. *)
Record advances (s s' : Brain.t) : Prop := {
  ad_version : s'.(Brain.version) = s.(Brain.version);
  ad_brain : s'.(Brain.brain_id) = s.(Brain.brain_id);
  ad_owner : s'.(Brain.owner_member_id) = s.(Brain.owner_member_id);
  ad_revision : (s.(Brain.revision) <= s'.(Brain.revision) <= MAX_REVISION)%N;
  ad_clock : timestamp (brain_high_water s') = true;
  ad_time : (brain_high_water s <= brain_high_water s')%Z;
  ad_cbrain : s'.(Brain.credentials).(CredentialRegistry.brain_id)
              = s.(Brain.credentials).(CredentialRegistry.brain_id);
  ad_ibrain : s'.(Brain.invitations).(InvitationRegistry.brain_id)
              = s.(Brain.invitations).(InvitationRegistry.brain_id);
  ad_cclock : (cred_high_water s'.(Brain.credentials) <= brain_high_water s')%Z;
  ad_iclock : (inv_high_water s'.(Brain.invitations) <= brain_high_water s')%Z;
  ad_records : s'.(Brain.credentials).(CredentialRegistry.records)
               = s.(Brain.credentials).(CredentialRegistry.records);
  ad_members : s'.(Brain.members) = s.(Brain.members);
  ad_tasks : s'.(Brain.tasks) = s.(Brain.tasks);
  ad_replays : s'.(Brain.replays) = s.(Brain.replays);
}.

Lemma is_revoked_records c c' m :
  c'.(CredentialRegistry.records) = c.(CredentialRegistry.records) ->
  is_revoked c' m = is_revoked c m.
Proof. unfold is_revoked. by intros ->. Qed.

Lemma owner_live s : valid s -> is_revoked s.(Brain.credentials) s.(Brain.owner_member_id) = false.
Proof.
  intros Hv. destruct (h_owner _ (v_header _ Hv)) as (m & Hm & Hrev).
  destruct (v_members _ Hv _ _ Hm) as (_ & _ & _ & _ & _ & <-). done.
Qed.

Lemma node_ok_mono rev rev' hw hw' m n :
  (rev <= rev')%N -> (hw <= hw')%Z -> node_ok rev hw m n -> node_ok rev' hw' m n.
Proof.
  intros Hr Hh ((? & ?) & Hon & Hseen). unfold node_ok. split_and!; try done; try lia.
  intros seen Hs. destruct (Hseen _ Hs). split; [done|lia].
Qed.

Lemma node_ok_offline rev rev' hw hw' m m' n :
  (rev < rev')%N -> (hw <= hw')%Z -> node_ok rev hw m n ->
  node_ok rev' hw' m' (NodeRecord.offline rev' n).
Proof.
  intros Hr Hh (_ & _ & Hseen). unfold node_ok. simpl. split_and!; try done; try lia.
  intros seen Hs. destruct (Hseen _ Hs). split; [done|lia].
Qed.

Lemma node_ok_seen rev m n now :
  (0 < rev)%N -> timestamp now = true -> m.(MemberRecord.revoked) = false ->
  node_ok rev now m (NodeRecord.seen now rev n).
Proof. intros. unfold node_ok. simpl. split_and!; try done; try lia. by intros ? [= <-]. Qed.

Lemma announcement_ok_mono b k n n' :
  n'.(NodeRecord.announcement) = n.(NodeRecord.announcement) ->
  n'.(NodeRecord.member_id) = n.(NodeRecord.member_id) ->
  n'.(NodeRecord.device_id) = n.(NodeRecord.device_id) ->
  (n.(NodeRecord.revision) <= n'.(NodeRecord.revision))%N ->
  announcement_ok b k n -> announcement_ok b k n'.
Proof.
  intros Ha Hm Hd Hle Hok message Hmsg. rewrite Ha in Hmsg.
  destruct (Hok _ Hmsg) as (Hp & ? & ? & ?). cbv zeta. rewrite Hm, Hd. split_and!; try done. lia.
Qed.

Lemma evolves_nodes s s' :
  valid s -> registry_wf s.(Brain.credentials) -> advances s s' ->
  dom s'.(Brain.nodes) = dom s.(Brain.nodes) ->
  (forall k n n', s.(Brain.nodes) !! k = Some n -> s'.(Brain.nodes) !! k = Some n' ->
     n'.(NodeRecord.member_id) = n.(NodeRecord.member_id) /\
     n'.(NodeRecord.device_id) = n.(NodeRecord.device_id) /\
     (forall m, s.(Brain.members) !! n.(NodeRecord.member_id) = Some m ->
        node_ok s.(Brain.revision) (brain_high_water s) m n ->
        node_ok s'.(Brain.revision) (brain_high_water s') m n') /\
     (announcement_ok s.(Brain.brain_id) k n -> announcement_ok s.(Brain.brain_id) k n')) ->
  evolves s s'.
Proof.
  intros Hv Hr [A1 A2 A3 A4 A5 A6 A7 A8 A9 A10 A11 A12 A13 A14] Hdom Hnodes.
  split; rewrite ?A11, ?A12; try done.
  - intros k m Hk. destruct (v_members _ Hv _ _ Hk) as (_ & _ & _ & (? & ?) & _ & Hrev).
    exists m. rewrite (is_revoked_records _ _ _ A11). split_and!; try done. lia.
  - rewrite (is_revoked_records _ _ _ A11). by apply owner_live.
  - intros k n' Hk. assert (is_Some (s.(Brain.nodes) !! k)) as [n Hn].
    { apply elem_of_dom. rewrite <- Hdom. apply elem_of_dom. by exists n'. }
    destruct (Hnodes _ _ _ Hn Hk) as (? & ? & Hok & Hann).
    destruct (lookup_node _ _ _ Hv Hr Hn) as (v & m & _ & _ & Hm & Hnok).
    exists n. split_and!; try done.
    + intros m' Hm'. rewrite Hm in Hm'. injection Hm' as <-. by apply Hok.
    + apply Hann. by apply (v_announcements _ Hv).
Qed.

Lemma evolves_same_nodes s s' :
  valid s -> registry_wf s.(Brain.credentials) -> advances s s' ->
  s'.(Brain.nodes) = s.(Brain.nodes) -> evolves s s'.
Proof.
  intros Hv Hr Had Hn. apply evolves_nodes; try done; rewrite Hn; [done|].
  intros k n n' -> [= <-]. split_and!; try done. intros m _. apply node_ok_mono; apply Had.
Qed.

Lemma messages_ok_same s s' :
  s'.(Brain.nodes) = s.(Brain.nodes) -> s'.(Brain.tasks) = s.(Brain.tasks) ->
  messages_ok s -> messages_ok s'.
Proof. unfold messages_ok. by intros -> ->. Qed.

(** A new time and possibly the next revision: the frame of every operation. *)
Lemma brain_wf_advance s s' :
  brain_wf s -> advances s s' -> s'.(Brain.nodes) = s.(Brain.nodes) ->
  registry_wf s'.(Brain.credentials) -> invitations_wf s'.(Brain.invitations) -> brain_wf s'.
Proof.
  intros [Hv Hc Hi Hm] Had Hn Hc' Hi'. split; try done.
  - eapply valid_evolves; [done|]. by apply evolves_same_nodes.
  - eapply messages_ok_same; [..|done]; [done|apply Had].
Qed.
End Advance.
