(* ===== verification/BrainOps.v ===== *)
(** * Every operation of the Brain keeps its invariant

    For each operation, what a successful run did (an inversion lemma) and that it
    keeps [brain_wf]; then the step relation of the Brain and its reachable states. *)

From S2P Require Import Prelude Protocol Credential Invitation Brain BrainValid BrainInv.

Section Authorization.
Context `{Sha256}.

Lemma authorize_ok session now s u s' :
  authorize session now s = (Ok u, s') ->
  observable s.(Brain.credentials) now /\ session_live s.(Brain.credentials) session now /\
  s' = Brain.set_credentials (at_time now s.(Brain.credentials)) s.
Proof.
  unfold authorize. intros (c & Hrun & ->)%zoom_ok. apply authorize_task_ok in Hrun as (? & -> & ?).
  done.
Qed.

Lemma authorize_run session now s :
  observable s.(Brain.credentials) now -> session_live s.(Brain.credentials) session now ->
  authorize session now s =
  (Ok tt, Brain.set_credentials (at_time now s.(Brain.credentials)) s).
Proof. intros Hobs Hlive. unfold authorize, zoom. by rewrite authorize_task_live. Qed.

End Authorization.

(** Replaces the runs of the shared statements by what they did. *)
Ltac brain_inv :=
  repeat match goal with
  | H : observe _ _ = (Ok _, _) |- _ =>
    let Ht := fresh "Ht" in let Hle := fresh "Hle" in
    apply observe_ok in H; destruct H as (Ht & Hle & ->)
  | H : authorize _ _ _ = (Ok _, _) |- _ =>
    let Hlive := fresh "Hlive" in
    apply authorize_ok in H; destruct H as (_ & Hlive & ->)
  | H : check_revision _ _ = (Ok _, _) |- _ =>
    apply check_revision_ok in H; destruct H as [-> ->]
  | H : next_revision _ = (Ok _, _) |- _ =>
    let Hmax := fresh "Hmax" in
    apply next_revision_ok in H; destruct H as (-> & Hmax & ->)
  end.

Section Operations.
Context `{Sha256, ProtocolJson}.

(** The state once [now] was observed and a session authorized. *)
Definition authorized_at (now : Z) (s : Brain.t) : Brain.t :=
  Brain.set_credentials (at_time now s.(Brain.credentials)) (Brain.set_clock (mkClock now) s).
#[local] Arguments authorized_at _ _ /.

(** ** Frames: a valid time, and possibly the next revision *)

Lemma advances_refl s : valid s -> advances s s.
Proof. intros Hv. pose proof (v_header _ Hv) as Hh. split; try done; try apply Hh. split; [lia|apply Hh]. Qed.

Lemma advances_time now s :
  valid s -> timestamp now = true -> (brain_high_water s <= now)%Z ->
  advances s (Brain.set_clock (mkClock now) s).
Proof.
  intros Hv Ht Hle. pose proof (v_header _ Hv) as [? ? [? ?] ? ? ? ? ? ? ? ? ?].
  unfold brain_high_water in *. split; simpl; try done; try (unfold brain_high_water; simpl; lia).
Qed.

Lemma advances_authorized now s :
  valid s -> timestamp now = true -> (brain_high_water s <= now)%Z ->
  advances s (authorized_at now s).
Proof.
  intros Hv Ht Hle. pose proof (v_header _ Hv) as [? ? [? ?] ? ? ? ? ? ? ? ? ?].
  unfold brain_high_water in *.
  split; simpl; try done; try (unfold brain_high_water, cred_high_water; simpl; lia).
Qed.

Lemma advances_revision s s' :
  advances s s' -> (s'.(Brain.revision) + 1 <= MAX_REVISION)%N ->
  advances s (Brain.set_revision (s'.(Brain.revision) + 1) s').
Proof. intros []. split; simpl; try done. lia. Qed.

Lemma advances_invitations s s' i :
  advances s s' -> i.(InvitationRegistry.brain_id) = s.(Brain.invitations).(InvitationRegistry.brain_id) ->
  (inv_high_water i <= brain_high_water s')%Z ->
  advances s (Brain.set_invitations i s').
Proof. intros [] ? ?. by split; simpl. Qed.

Lemma observed_wf now s :
  brain_wf s -> timestamp now = true -> (brain_high_water s <= now)%Z ->
  brain_wf (Brain.set_clock (mkClock now) s).
Proof.
  intros Hwf Ht Hle. eapply brain_wf_advance; [done|apply advances_time|..]; try done; apply Hwf.
Qed.

Lemma authorized_wf now s :
  brain_wf s -> timestamp now = true -> (brain_high_water s <= now)%Z ->
  brain_wf (authorized_at now s).
Proof.
  intros Hwf Ht Hle. eapply brain_wf_advance; [done|apply advances_authorized|..]; try done;
    try apply Hwf. apply at_time_wf; [apply Hwf|]. split; [done|].
  pose proof (h_cclock _ (v_header _ (bw_valid _ Hwf))). lia.
Qed.

Lemma next_revision_wf s :
  brain_wf s -> (s.(Brain.revision) + 1 <= MAX_REVISION)%N ->
  brain_wf (Brain.set_revision (s.(Brain.revision) + 1) s).
Proof.
  intros Hwf Hle. eapply brain_wf_advance; [done|apply advances_revision; [apply advances_refl|]|..];
    try done; apply Hwf.
Qed.

(** ** Connection and invitations *)

Lemma brain_connect_wf b secret now s c s' :
  brain_wf s -> brain_connect b secret now s = (Ok c, s') -> brain_wf s'.
Proof.
  intros Hwf Hrun. unfold brain_connect in Hrun. run_inv Hrun.
  apply observe_ok in Hrun0 as (Ht & Hle & ->).
  apply connect_ok_live in Hrun1 as (_ & _ & _ & _ & ->).
  exact (authorized_wf _ _ Hwf Ht Hle).
Qed.

Lemma create_invitation_ok now d1 d2 s i s' :
  create_invitation now d1 d2 s = (Ok i, s') ->
  exists inv',
    timestamp now = true /\ (brain_high_water s <= now)%Z /\
    (s.(Brain.revision) + 1 <= MAX_REVISION)%N /\
    create now d1 d2 s.(Brain.invitations) = (Ok i, inv') /\
    s' = Brain.set_revision (s.(Brain.revision) + 1)
           (Brain.set_invitations inv' (Brain.set_clock (mkClock now) s)).
Proof.
  unfold create_invitation. intros Hrun. run_inv Hrun.
  apply observe_ok in Hrun0 as (Ht & Hle & ->). apply next_revision_ok in Hrun as (-> & Hmax & ->).
  eexists. by split_and!.
Qed.

Lemma create_invitation_wf now d1 d2 s i s' :
  brain_wf s -> create_invitation now d1 d2 s = (Ok i, s') -> brain_wf s'.
Proof.
  intros Hwf Hrun. apply create_invitation_ok in Hrun as (inv' & Ht & Hle & Hmax & Hc & ->).
  pose proof (create_wf _ _ _ _ _ _ (bw_invitations _ Hwf) Hc) as Hi'.
  apply create_ok in Hc as (tid & tsec & _ & _ & _ & _ & _ & _ & _ & _ & _ & ->).
  eapply brain_wf_advance; [done| |done|apply Hwf|done].
  refine (advances_revision _ (Brain.set_invitations _ (Brain.set_clock (mkClock now) s)) _ Hmax).
  apply advances_invitations; [apply advances_time; [apply Hwf|done|done]|done|].
  unfold inv_high_water, brain_high_water. simpl. lia.
Qed.

Lemma cancel_invitation_ok i now s u s' :
  cancel_invitation i now s = (Ok u, s') ->
  timestamp now = true /\ (brain_high_water s <= now)%Z /\
  (s.(Brain.revision) + 1 <= MAX_REVISION)%N /\
  is_Some (s.(Brain.invitations).(InvitationRegistry.pending) !! i) /\
  s' = Brain.set_revision (s.(Brain.revision) + 1)
         (Brain.set_invitations
            (InvitationRegistry.set_pending
               (delete i s.(Brain.invitations).(InvitationRegistry.pending)) s.(Brain.invitations))
            (Brain.set_clock (mkClock now) s)).
Proof.
  unfold cancel_invitation. intros Hrun. run_inv Hrun.
  apply observe_ok in Hrun0 as (Ht & Hle & ->). apply next_revision_ok in Hrun as (-> & Hmax & ->).
  apply cancel_ok in Hrun1 as [Hi ->]. by split_and!.
Qed.

Lemma cancel_invitation_wf i now s u s' :
  brain_wf s -> cancel_invitation i now s = (Ok u, s') -> brain_wf s'.
Proof.
  intros Hwf Hrun. apply cancel_invitation_ok in Hrun as (Ht & Hle & Hmax & [p Hp] & ->).
  eapply brain_wf_advance; [done| |done|apply Hwf|].
  - refine (advances_revision _ (Brain.set_invitations _ (Brain.set_clock (mkClock now) s)) _ Hmax).
    apply advances_invitations; [apply advances_time; [apply Hwf|done|done]|done|].
    pose proof (h_iclock _ (v_header _ (bw_valid _ Hwf))).
    unfold inv_high_water, brain_high_water in *. simpl. lia.
  - eapply (cancel_wf i s.(Brain.invitations) tt); [apply Hwf|].
    unfold cancel, mbind, M_bind, get, modify, lift. by rewrite Hp.
Qed.

(** ** Presence *)

(** The state a successful heartbeat leaves. *)
Definition heartbeat_state (now : Z) (node_id : string) (n : NodeRecord.t) (s : Brain.t)
    : Brain.t :=
  Brain.set_revision (s.(Brain.revision) + 1)
    (Brain.set_nodes
       (<[node_id := NodeRecord.seen now (s.(Brain.revision) + 1) n]> s.(Brain.nodes))
       (authorized_at now s)).
#[local] Arguments heartbeat_state _ _ _ _ /.

Lemma heartbeat_ok session expected now s r s' :
  heartbeat session expected now s = (Ok r, s') ->
  let node_id := session.(ConnectionIdentity.binding).(CredentialBinding.node_id) in
  exists n,
    timestamp now = true /\ (brain_high_water s <= now)%Z /\
    session_live s.(Brain.credentials) session now /\
    expected = s.(Brain.revision) /\ r = (s.(Brain.revision) + 1)%N /\ (r <= MAX_REVISION)%N /\
    s.(Brain.nodes) !! node_id = Some n /\ s' = heartbeat_state now node_id n s.
Proof.
  unfold heartbeat. intros Hrun. run_inv Hrun.
  apply observe_ok in Hrun0 as (Ht & Hle & ->).
  apply authorize_ok in Hrun as (_ & Hlive & ->).
  apply check_revision_ok in Hrun1 as [-> ->].
  apply next_revision_ok in Hrun2 as (-> & Hmax & ->). bool_hyps. simpl in *.
  eexists. by split_and!.
Qed.

(** The member behind a live session exists and is not revoked. *)
Lemma session_member s session now k n m :
  brain_wf s -> session_live s.(Brain.credentials) session now ->
  session.(ConnectionIdentity.binding).(CredentialBinding.node_id) = k ->
  s.(Brain.nodes) !! k = Some n -> s.(Brain.members) !! n.(NodeRecord.member_id) = Some m ->
  session.(ConnectionIdentity.binding) =
    CredentialBinding.mk s.(Brain.brain_id) n.(NodeRecord.member_id) k n.(NodeRecord.device_id) /\
  m.(MemberRecord.revoked) = false.
Proof.
  intros Hwf Hlive Hid Hn Hm.
  pose proof (session_live_not_revoked _ _ _ (bw_credentials _ Hwf) Hlive) as Hrev.
  destruct Hlive as (v & Hk & _ & Hb & _). rewrite Hid in Hk.
  destruct (lookup_node _ _ _ (bw_valid _ Hwf) (bw_credentials _ Hwf) Hn)
    as (v' & m' & Hk' & Hb' & _). rewrite Hk in Hk'. injection Hk' as <-.
  split; [congruence|].
  destruct (v_members _ (bw_valid _ Hwf) _ _ Hm) as (_ & _ & _ & _ & _ & ->).
  by rewrite <- Hb, Hb' in Hrev.
Qed.

Lemma heartbeat_state_wf session now s n :
  let node_id := session.(ConnectionIdentity.binding).(CredentialBinding.node_id) in
  brain_wf s -> timestamp now = true -> (brain_high_water s <= now)%Z ->
  session_live s.(Brain.credentials) session now ->
  (s.(Brain.revision) + 1 <= MAX_REVISION)%N ->
  s.(Brain.nodes) !! node_id = Some n ->
  brain_wf (heartbeat_state now node_id n s).
Proof.
  intros node_id Hwf Ht Hle Hlive Hmax Hn.
  assert (advances s (heartbeat_state now node_id n s)) as Had.
  { destruct (advances_revision s _ (advances_authorized now s (bw_valid _ Hwf) Ht Hle) Hmax).
    by split. }
  pose proof (authorized_wf now s Hwf Ht Hle) as [_ Hc' Hi' _].
  pose proof (bw_messages _ Hwf) as [Hm1 Hm2]. split; try done.
  - eapply valid_evolves; [apply Hwf|]. apply evolves_nodes; try apply Hwf; [done| |].
    + simpl. by rewrite dom_insert_lookup_L by (by exists n).
    + intros k n0 n' Hk Hk'. simpl in Hk'.
      apply lookup_insert_Some in Hk' as [[<- <-]|[? Hk']].
      * rewrite Hn in Hk. injection Hk as <-. split_and!; try done.
        -- intros m Hm _. apply node_ok_seen; simpl; [lia|done|].
           by eapply session_member.
        -- apply announcement_ok_mono; try done. simpl.
           destruct (lookup_node _ _ _ (bw_valid _ Hwf) (bw_credentials _ Hwf) Hn)
             as (_ & m & _ & _ & _ & (? & _)). lia.
      * rewrite Hk in Hk'. injection Hk' as <-. split_and!; try done.
        intros m _. apply node_ok_mono; apply Had.
  - split; [|done]. intros k n' Hk. simpl in Hk.
    apply lookup_insert_Some in Hk as [[<- <-]|[? Hk]]; [by apply (Hm1 _ _ Hn)|by apply (Hm1 k)].
Qed.

Lemma heartbeat_wf session expected now s r s' :
  brain_wf s -> heartbeat session expected now s = (Ok r, s') -> brain_wf s'.
Proof.
  intros Hwf (n & Ht & Hle & Hlive & _ & -> & Hmax & Hn & ->)%heartbeat_ok.
  by eapply heartbeat_state_wf.
Qed.

(** Taking a set of Nodes offline under the next revision. *)
Definition offline_state (now : Z) (p : NodeRecord.t -> bool) (s : Brain.t) : Brain.t :=
  Brain.set_revision (s.(Brain.revision) + 1)
    (Brain.set_nodes (update_where p (NodeRecord.offline (s.(Brain.revision) + 1)) s.(Brain.nodes))
       (Brain.set_clock (mkClock now) s)).
#[local] Arguments offline_state _ _ _ /.

Lemma messages_ok_offline p rev nodes :
  map_Forall (fun _ n => forall m, n.(NodeRecord.announcement) = Some m -> message_ok m = true)
    nodes ->
  map_Forall (fun _ n => forall m, n.(NodeRecord.announcement) = Some m -> message_ok m = true)
    (update_where p (NodeRecord.offline rev) nodes).
Proof.
  intros Hm k n Hk. rewrite lookup_update_where in Hk. apply fmap_Some in Hk as (n0 & Hk & ->).
  destruct (p n0); by apply (Hm k n0).
Qed.

Lemma node_offline s k n rev' hw' :
  brain_wf s -> s.(Brain.nodes) !! k = Some n -> (s.(Brain.revision) < rev')%N ->
  (brain_high_water s <= hw')%Z ->
  (forall m', node_ok rev' hw' m' (NodeRecord.offline rev' n)) /\
  announcement_ok s.(Brain.brain_id) k (NodeRecord.offline rev' n).
Proof.
  intros Hwf Hk Hlt Hle.
  destruct (lookup_node _ _ _ (bw_valid _ Hwf) (bw_credentials _ Hwf) Hk) as (_ & m & _ & _ & _ & Hok).
  split; [intros m'; by eapply node_ok_offline|].
  eapply announcement_ok_mono; [..|by apply (v_announcements _ (bw_valid _ Hwf))]; try done.
  destruct Hok as ((? & ?) & _). simpl. lia.
Qed.

Lemma offline_state_wf now p s :
  brain_wf s -> timestamp now = true -> (brain_high_water s <= now)%Z ->
  (s.(Brain.revision) + 1 <= MAX_REVISION)%N -> brain_wf (offline_state now p s).
Proof.
  intros Hwf Ht Hle Hmax.
  assert (advances s (offline_state now p s)) as Had.
  { destruct (advances_revision s _ (advances_time now s (bw_valid _ Hwf) Ht Hle) Hmax).
    by split. }
  pose proof (bw_messages _ Hwf) as [Hm1 Hm2]. split; try apply Hwf.
  - eapply valid_evolves; [apply Hwf|]. apply evolves_nodes; try apply Hwf; [done| |].
    + unfold offline_state, update_where. simpl. apply dom_fmap_L.
    + intros k n n' Hk Hk'. simpl in Hk'. rewrite lookup_update_where, Hk in Hk'.
      injection Hk' as <-. destruct (p n).
      * destruct (node_offline s k n (s.(Brain.revision) + 1) now Hwf Hk) as [? ?]; [lia|done|].
        by split_and!.
      * split_and!; try done. intros m _. apply node_ok_mono; apply Had.
  - split; [by apply messages_ok_offline|done].
Qed.

Lemma reset_presence_ok now reason s r s' :
  reset_presence now reason s = (Ok r, s') ->
  timestamp now = true /\ (brain_high_water s <= now)%Z /\ r = s'.(Brain.revision) /\
  if existsb (presence_expired now reason) (values s.(Brain.nodes))
  then (s.(Brain.revision) + 1 <= MAX_REVISION)%N /\
       s' = offline_state now (presence_expired now reason) s
  else s' = Brain.set_clock (mkClock now) s.
Proof.
  unfold reset_presence. intros Hrun. apply bind_ok_iff in Hrun as (u & s1 & Ho & Hrun).
  brain_inv. apply bind_ok_iff in Hrun as (s2 & s3 & [= <- <-] & Hrun).
  cbn [Brain.nodes Brain.set_clock] in *. destruct (existsb _ _); run_inv Hrun; brain_inv; done.
Qed.

Lemma reset_presence_wf now reason s r s' :
  brain_wf s -> reset_presence now reason s = (Ok r, s') -> brain_wf s'.
Proof.
  intros Hwf (Ht & Hle & _ & Hs)%reset_presence_ok. destruct (existsb _ _).
  - destruct Hs as [Hmax ->]. by apply offline_state_wf.
  - subst s'. by apply observed_wf.
Qed.

(** ** Revocation *)

(** The state a first revocation of a member leaves. *)
Definition revoke_state (now : Z) (mid : string) (m : MemberRecord.t) (s : Brain.t) : Brain.t :=
  let rev := (s.(Brain.revision) + 1)%N in
  let c := s.(Brain.credentials) in
  Brain.set_revision rev
    (Brain.set_nodes
       (update_where (fun n => str_eqb n.(NodeRecord.member_id) mid) (NodeRecord.offline rev)
          s.(Brain.nodes))
       (Brain.set_members (<[mid := MemberRecord.revoke rev m]> s.(Brain.members))
          (Brain.set_credentials
             (CredentialRegistry.set_records
                (update_where (of_member mid) StoredCredential.revoke c.(CredentialRegistry.records))
                c)
             (Brain.set_clock (mkClock now) s)))).
#[local] Arguments revoke_state _ _ _ _ /.

Lemma revoke_member_ok mid expected now s r s' :
  revoke_member mid expected now s = (Ok r, s') ->
  exists m,
    timestamp now = true /\ (brain_high_water s <= now)%Z /\ expected = s.(Brain.revision) /\
    s.(Brain.members) !! mid = Some m /\ mid <> s.(Brain.owner_member_id) /\
    r = s'.(Brain.revision) /\
    if m.(MemberRecord.revoked) then s' = Brain.set_clock (mkClock now) s
    else (s.(Brain.revision) + 1 <= MAX_REVISION)%N /\ s' = revoke_state now mid m s.
Proof.
  unfold revoke_member. intros Hrun. run_inv Hrun; brain_inv; bool_hyps;
    try match goal with H : revoke_credentials _ _ = _ |- _ =>
      apply revoke_credentials_state in H as -> end;
    simpl in *; simplify_eq; eexists; (split_and!; [done..|]); by rewrite Hif.
Qed.

Lemma revoke_state_evolves now mid m s :
  brain_wf s -> timestamp now = true -> (brain_high_water s <= now)%Z ->
  (s.(Brain.revision) + 1 <= MAX_REVISION)%N ->
  s.(Brain.members) !! mid = Some m -> mid <> s.(Brain.owner_member_id) ->
  evolves s (revoke_state now mid m s).
Proof.
  intros Hwf Ht Hle Hmax Hm Hown. pose proof (bw_valid _ Hwf) as Hv.
  pose proof (v_header _ Hv) as Hh. pose proof (h_cclock _ Hh). pose proof (h_iclock _ Hh).
  destruct (v_members _ Hv _ _ Hm) as (_ & _ & _ & _ & (x & v & Hx & Hxm) & _).
  assert (existsb (of_member mid) (values s.(Brain.credentials).(CredentialRegistry.records)) = true)
    as Hex by (apply existsb_values; exists x, v; split; [done|by apply str_eqb_true]).
  split; simpl; try done; try (unfold brain_high_water, cred_high_water, inv_high_water in *; simpl; lia).
  - intros k. rewrite lookup_update_where. destruct (_ !! k) as [r|]; [|done]. simpl.
    by destruct (of_member mid r).
  - by rewrite dom_insert_lookup_L by (by exists m).
  - intros k m' Hk. rewrite is_revoked_revoke, Hex, andb_true_r.
    apply lookup_insert_Some in Hk as [[<- <-]|[Hne Hk]].
    + exists m. simpl. rewrite str_eqb_refl, orb_true_r. split_and!; try done; lia.
    + exists m'. destruct (v_members _ Hv _ _ Hk) as (_ & _ & _ & (? & ?) & _ & ->).
      rewrite (proj2 (str_eqb_false k mid)) by done. rewrite orb_false_r.
      split_and!; try done; lia.
  - rewrite is_revoked_revoke, (owner_live _ Hv). simpl.
    by rewrite (proj2 (str_eqb_false _ _)) by done.
  - unfold update_where. apply dom_fmap_L.
  - intros k n' Hk. rewrite lookup_update_where in Hk. apply fmap_Some in Hk as (n & Hk & ->).
    exists n. destruct (str_eqb n.(NodeRecord.member_id) mid) eqn:Hmid.
    + destruct (node_offline s k n (s.(Brain.revision) + 1) now Hwf Hk) as [? ?]; [lia|done|].
      by split_and!.
    + apply str_eqb_false in Hmid. split_and!; try done; [|by apply (v_announcements _ Hv)].
      intros m' Hm'. rewrite lookup_insert_ne in Hm' by done.
      destruct (lookup_node _ _ _ Hv (bw_credentials _ Hwf) Hk) as (_ & m0 & _ & _ & Hm0 & Hok).
      rewrite Hm0 in Hm'. injection Hm' as <-. eapply node_ok_mono; [..|exact Hok]; [lia|done].
Qed.

Lemma revoke_member_wf mid expected now s r s' :
  brain_wf s -> revoke_member mid expected now s = (Ok r, s') -> brain_wf s'.
Proof.
  intros Hwf (m & Ht & Hle & _ & Hm & Hown & _ & Hs)%revoke_member_ok.
  destruct m.(MemberRecord.revoked); [subst s'; by apply observed_wf|].
  destruct Hs as [Hmax ->]. pose proof (bw_messages _ Hwf) as [Hm1 Hm2].
  split; try apply Hwf.
  - eapply valid_evolves; [apply Hwf|]. by apply revoke_state_evolves.
  - destruct (revoke_credentials mid s.(Brain.credentials)) as [res c'] eqn:Hrun.
    pose proof (revoke_credentials_state _ _ _ _ Hrun) as Hc'. simpl. rewrite <- Hc'.
    eapply revoke_credentials_wf; [apply Hwf|done].
  - split; [by apply messages_ok_offline|done].
Qed.

(** ** Joining *)

(** Every member holds a credential, so there are at most as many members. *)
Lemma members_le_records s :
  valid s ->
  size s.(Brain.members) <= size s.(Brain.credentials).(CredentialRegistry.records).
Proof.
  intros Hv. rewrite <- length_entries, <- (length_fmap fst).
  rewrite <- length_values, <- (length_fmap StoredCredential.member).
  apply submseteq_length, NoDup_submseteq; [apply NoDup_entries_keys|].
  intros k Hk. apply list_elem_of_fmap in Hk as ([k' m] & -> & Hk). apply elem_of_entries in Hk.
  destruct (v_members _ Hv _ _ Hk) as (_ & _ & _ & _ & (x & v & Hx & <-) & _).
  apply list_elem_of_fmap. exists v. split; [done|]. apply elem_of_values. eauto.
Qed.

(** The state a successful join leaves. *)
Definition join_state (now : Z) (inv : InvitationRegistry.t) (c : CredentialRegistry.t)
    (b : CredentialBinding.t) (identity name : string) (s : Brain.t) : Brain.t :=
  let rev := (s.(Brain.revision) + 1)%N in
  let mid := b.(CredentialBinding.member_id) in
  Brain.set_revision rev
    (Brain.set_nodes
       (<[b.(CredentialBinding.node_id) :=
            NodeRecord.mk mid b.(CredentialBinding.device_id) None false rev None]> s.(Brain.nodes))
       (Brain.set_members (<[mid := MemberRecord.mk identity name false rev]> s.(Brain.members))
          (Brain.set_credentials c (Brain.set_invitations inv (Brain.set_clock (mkClock now) s))))).
#[local] Arguments join_state _ _ _ _ _ _ _ /.

Lemma join_ok request now dm dn ds s e s' :
  join request now dm dn ds s = (Ok e, s') ->
  let b := e.(Enrollment.credential).(IssuedCredential.binding) in
  exists inv c,
    timestamp now = true /\ (brain_high_water s <= now)%Z /\
    display_name_ok request.(JoinRequest.display_name) = true /\
    (s.(Brain.revision) + 1 <= MAX_REVISION)%N /\
    redeem request now dm dn ds (s.(Brain.invitations), s.(Brain.credentials)) = (Ok e, (inv, c)) /\
    s.(Brain.members) !! b.(CredentialBinding.member_id) = None /\
    s' = join_state now inv c b request.(JoinRequest.identity_id)
           request.(JoinRequest.display_name) s.
Proof.
  unfold join. intros Hrun. run_inv Hrun. brain_inv. bool_hyps. simpl in *.
  destruct t as [inv c].
  match goal with H : redeem _ _ _ _ _ _ = _ |- _ => pose proof H as Hredeem end.
  apply redeem_ok in Hredeem as (i & tm & tn & cred & _ & _ & _ & _ & _ & _ & _ & _ & -> & _).
  exists inv, c. by split_and!.
Qed.

(** Adding one member with one Node and its credential keeps a Brain valid. *)
Lemma join_state_valid now inv c t b identity name s :
  brain_wf s -> timestamp now = true -> (brain_high_water s <= now)%Z ->
  (s.(Brain.revision) + 1 <= MAX_REVISION)%N ->
  inv.(InvitationRegistry.brain_id) = s.(Brain.brain_id) -> (inv_high_water inv <= now)%Z ->
  c = CredentialRegistry.set_records
        (<[b.(CredentialBinding.node_id) := issued_record b now t]>
           s.(Brain.credentials).(CredentialRegistry.records)) (at_time now s.(Brain.credentials)) ->
  s.(Brain.credentials).(CredentialRegistry.records) !! b.(CredentialBinding.node_id) = None ->
  size s.(Brain.credentials).(CredentialRegistry.records) < MAX_CREDENTIALS ->
  is_revoked s.(Brain.credentials) b.(CredentialBinding.member_id) = false ->
  s.(Brain.members) !! b.(CredentialBinding.member_id) = None ->
  id b.(CredentialBinding.member_id) = true -> id identity = true -> display_name_ok name = true ->
  valid (join_state now inv c b identity name s).
Proof.
  intros Hwf Ht Hle Hmax Hib Hih Hc Hfresh Hroom Hrev Hnew Hid Hident Hname.
  pose proof (bw_valid _ Hwf) as Hv.
  assert (s.(Brain.nodes) !! b.(CredentialBinding.node_id) = None) as Hnode.
  { apply eq_None_not_Some. intros [n Hn].
    destruct (lookup_node _ _ _ Hv (bw_credentials _ Hwf) Hn) as (v & _ & Hk & _). congruence. }
  pose proof (members_le_records _ Hv) as Hcount. unfold MAX_CREDENTIALS in Hroom.
  destruct Hv as [[H1 H2 H3 H4 H5 H6 H7 H8 H9 H10 (mo & Ho & Hor) H12] V2 V3 V4 V5 V6 V7 V8 V9 V10].
  subst c. split; [split|..]; simpl; try done; try lia.
  - by rewrite map_size_insert_None by done; lia.
  - by rewrite map_size_insert_None by done; lia.
  - exists mo. rewrite lookup_insert_ne by congruence. done.
  - rewrite !map_size_insert_None by done. lia.
  - intros k m Hk. apply lookup_insert_Some in Hk as [[<- <-]|[Hne Hk]]; unfold member_ok.
    + simpl. rewrite is_revoked_issued by done. split_and!; try done; try lia.
      eexists _, _. split; [apply lookup_insert_eq|done].
    + rewrite is_revoked_issued by done.
      destruct (V2 _ _ Hk) as (? & ? & ? & (? & ?) & (x & v & Hx & Hxm) & ?).
      split_and!; try done; try lia. exists x, v. simpl.
      split; [rewrite lookup_insert_ne; [done|congruence]|done].
  - intros k v Hk. apply lookup_insert_Some in Hk as [[<- <-]|[Hne Hk]].
    + eexists _, _. simpl. rewrite !lookup_insert_eq. split_and!; try done.
      unfold node_ok. simpl. split_and!; done || lia.
    + destruct (V3 _ _ Hk) as (n & m & Hn & Hm & ? & ? & Hok). exists n, m. simpl.
      rewrite !lookup_insert_ne by congruence. split_and!; try done.
      eapply node_ok_mono; [..|exact Hok]; [lia|done].
  - eapply list.Forall_impl; [done|]. intros r Hr. eapply replay_ok_mono; [done|lia|].
    intros x [n Hx]. rewrite lookup_insert_ne by congruence. by exists n.
  - intros k tk Hk. eapply task_ok_mono; [by apply V9|lia| |done].
    intros x n Hx. exists n. rewrite lookup_insert_ne by congruence. done.
  - intros k n Hk. apply lookup_insert_Some in Hk as [[<- <-]|[Hne Hk]]; [done|by apply V10].
Qed.

Lemma join_wf request now dm dn ds s e s' :
  brain_wf s -> join request now dm dn ds s = (Ok e, s') -> brain_wf s'.
Proof.
  intros Hwf Hrun. apply join_ok in Hrun as (inv & c & Ht & Hle & Hname & Hmax & Hredeem & Hnew & ->).
  pose proof (h_ibrain _ (v_header _ (bw_valid _ Hwf))) as Hib.
  destruct (redeem_wf _ _ _ _ _ _ _ _ _ _ (bw_invitations _ Hwf) (bw_credentials _ Hwf) Hredeem)
    as [Hinv' Hc'].
  apply redeem_ok in Hredeem as
    (i & tm & tn & cred & _ & _ & Hreq & _ & _ & Hdm & _ & Hissue & -> & Heq). simpl in *.
  apply issue_ok in Hissue as (t & Hobs & _ & Hbv & Hfresh & Hrev & Hroom & _ & _ & _ & -> & Hc).
  simpl in *. split; try done.
  - apply (join_state_valid now inv c t (joined_binding
      s.(Brain.invitations).(InvitationRegistry.brain_id) request tm tn)
      request.(JoinRequest.identity_id) request.(JoinRequest.display_name) s);
      try done; subst inv; try done.
    + by apply (id_prefix_token _ dm).
    + unfold request_refused in Hreq. bool_hyps. simpl in *. bool_hyps. done.
  - pose proof (bw_messages _ Hwf) as [Hm1 Hm2]. split; [|done]. intros k n Hk. simpl in Hk.
    apply lookup_insert_Some in Hk as [[<- <-]|[Hne Hk]]; [done|by apply (Hm1 k)].
Qed.

(** ** Replay-protected admission *)

Lemma push_replay_wf r s :
  brain_wf s -> replay_ok s.(Brain.revision) s.(Brain.nodes) r ->
  length s.(Brain.replays) < MAX_REPLAYS ->
  Forall (fun x => x.(ReplayRecord.revision) < r.(ReplayRecord.revision))%N s.(Brain.replays) ->
  Forall (fun x => replay_key x <> replay_key r) s.(Brain.replays) ->
  brain_wf (Brain.set_replays (s.(Brain.replays) ++ [r]) s).
Proof.
  intros [Hv Hc Hi Hm] Hr Hlen Hrevs Hkeys. split; try done.
  destruct Hv as [V1 V2 V3 V4 V5 V6 V7 V8 V9 V10]. rewrite list.Forall_forall in Hrevs, Hkeys.
  split; simpl; try done.
  - destruct V1. by split.
  - rewrite length_app. simpl. lia.
  - apply list.Forall_app. split; [done|]. by apply list.Forall_singleton.
  - rewrite fmap_app. apply list.NoDup_app. split_and!; [done| |apply NoDup_singleton].
    intros x Hx. apply list_elem_of_fmap in Hx as (y & -> & Hy).
    intros Heq. apply list_elem_of_singleton in Heq. by apply (Hkeys y).
  - rewrite fmap_app. apply list.NoDup_app. split_and!; [done| |apply NoDup_singleton].
    intros x Hx. apply list_elem_of_fmap in Hx as (y & -> & Hy).
    intros Heq. apply list_elem_of_singleton in Heq. apply Hrevs in Hy. lia.
  - intros k t Hk. eapply task_ok_mono; [by apply V9|done|eauto|]. set_solver.
Qed.

Lemma insert_task_wf k t s :
  brain_wf s ->
  task_ok s.(Brain.brain_id) s.(Brain.revision) s.(Brain.nodes) s.(Brain.replays) k t ->
  message_ok t.(TaskRecord.source) = true ->
  size s.(Brain.tasks) < MAX_TASKS \/ is_Some (s.(Brain.tasks) !! k) ->
  brain_wf (Brain.set_tasks (<[k := t]> s.(Brain.tasks)) s).
Proof.
  intros [Hv Hc Hi [Hm1 Hm2]] Ht Hmsg Hroom. split; try done.
  - destruct Hv as [V1 V2 V3 V4 V5 V6 V7 V8 V9 V10]. split; simpl; try done.
    + destruct V1. by split.
    + rewrite map_size_insert. destruct (_ !! k); simpl; [done|].
      destruct Hroom as [?|[? ?]]; [lia|done].
    + by apply map_Forall_insert_2.
  - split; [done|]. by apply map_Forall_insert_2.
Qed.

Lemma announce_wf k n message s :
  brain_wf s -> s.(Brain.nodes) !! k = Some n -> message_ok message = true ->
  announcement_ok s.(Brain.brain_id) k (NodeRecord.set_announcement message n) ->
  brain_wf (Brain.set_nodes
    (<[k := NodeRecord.set_announcement message n]> s.(Brain.nodes)) s).
Proof.
  intros Hwf Hn Hmsg Hann. pose proof (bw_messages _ Hwf) as [Hm1 Hm2]. split; try apply Hwf.
  - eapply valid_evolves; [apply Hwf|]. apply evolves_nodes; try apply Hwf.
    + destruct (advances_refl _ (bw_valid _ Hwf)). by split.
    + simpl. by rewrite dom_insert_lookup_L by (by exists n).
    + intros k' n0 n' Hk Hk'. simpl in Hk'.
      apply lookup_insert_Some in Hk' as [[<- <-]|[? Hk']].
      * rewrite Hn in Hk. injection Hk as <-. by split_and!.
      * rewrite Hk in Hk'. injection Hk' as <-. by split_and!.
  - split; [|done]. intros k' n' Hk. simpl in Hk.
    apply lookup_insert_Some in Hk as [[<- <-]|[? Hk]]; [|by apply (Hm1 k')].
    by intros m [= <-].
Qed.

Definition session_node (session : ConnectionIdentity.t) : string :=
  session.(ConnectionIdentity.binding).(CredentialBinding.node_id).

Lemma admit_ok session message now rev s u s1 :
  apply_payload session message now rev s = (Ok u, s1) ->
  let b := session.(ConnectionIdentity.binding) in
  let node_id := session_node session in
  (exists n,
     (admission message).(adm_payload) =
       ViewNode node_id b.(CredentialBinding.member_id) b.(CredentialBinding.device_id) /\
     (admission message).(adm_revision) = s.(Brain.revision) /\
     s.(Brain.nodes) !! node_id = Some n /\ session_live s.(Brain.credentials) session now /\
     (s.(Brain.revision) + 1 <= MAX_REVISION)%N /\
     timestamp now = true /\ (brain_high_water s <= now)%Z /\
     s1 = Brain.set_nodes
            (<[node_id := NodeRecord.set_announcement message
                            (NodeRecord.seen now (s.(Brain.revision) + 1) n)]>
               (heartbeat_state now node_id n s).(Brain.nodes))
            (heartbeat_state now node_id n s)) \/
  (exists task_id,
     (admission message).(adm_payload) =
       ViewTask task_id b.(CredentialBinding.member_id) TaskStatus.Draft /\
     s.(Brain.tasks) !! task_id = None /\ size s.(Brain.tasks) < MAX_TASKS /\
     s1 = Brain.set_revision rev
            (Brain.set_tasks
               (<[task_id := TaskRecord.mk message TaskStatus.Draft rev]> s.(Brain.tasks)) s)).
Proof.
  unfold apply_payload. destruct (adm_payload _) as [nid mid did|tid mid st|] eqn:Hp; intros Hrun.
  - left. run_inv Hrun. bool_hyps. subst.
    match goal with H : heartbeat _ _ _ _ = _ |- _ =>
      apply heartbeat_ok in H as (n & ? & ? & ? & ? & -> & ? & Hn & ->) end.
    exists n. fold (session_node session) in *. simpl in *.
    match goal with H : <[_ := _]> _ !! _ = Some _ |- _ =>
      rewrite lookup_insert_eq in H; injection H as <- end. by split_and!.
  - right. run_inv Hrun. bool_hyps. subst. by exists tid; split_and!.
  - done.
Qed.

Lemma apply_ok session message now s r s' :
  apply session message now s = (Ok r, s') ->
  let node_id := session_node session in
  let adm := admission message in
  exists fp,
    timestamp now = true /\ (brain_high_water s <= now)%Z /\
    session_live s.(Brain.credentials) session now /\
    adm.(adm_brain_id) = s.(Brain.brain_id) /\ adm.(adm_sender_node_id) = node_id /\
    payload_hash message = Ok fp /\
    match find (replay_matches node_id adm.(adm_key)) s.(Brain.replays) with
    | Some previous =>
      fp = previous.(ReplayRecord.fingerprint) /\ r = previous.(ReplayRecord.revision) /\
      s' = authorized_at now s
    | None =>
      adm.(adm_revision) = s.(Brain.revision) /\ length s.(Brain.replays) < MAX_REPLAYS /\
      r = (s.(Brain.revision) + 1)%N /\ (r <= MAX_REVISION)%N /\
      exists s1, apply_payload session message now r (authorized_at now s) = (Ok tt, s1) /\
        s' = Brain.set_replays
               (s1.(Brain.replays) ++ [ReplayRecord.mk node_id adm.(adm_key) fp r]) s1
    end.
Proof.
  unfold apply. intros Hrun. run_inv Hrun. brain_inv. bool_hyps. simpl in *.
  destruct (payload_hash message) as [fp|] eqn:Hfp; [|done]. simpl in *. simplify_eq.
  eexists. split_and!; try done. fold (session_node session) in *.
  destruct (find _ _) as [prev|].
  - match goal with H : (if _ then _ else _) _ = _ |- _ => run_inv H end; bool_hyps; done.
  - match goal with H : (_ ≫= _) _ = _ |- _ => run_inv H end. brain_inv. bool_hyps. simpl in *.
    split_and!; try done. match goal with u : () |- _ => destruct u end. eexists. done.
Qed.

Lemma find_None_Forall {A} (f : A -> bool) l : find f l = None <-> Forall (fun x => f x = false) l.
Proof.
  induction l as [|x l IH]; simpl; [done|]. rewrite list.Forall_cons, <- IH.
  destruct (f x); naive_solver.
Qed.

Lemma replay_matches_true node_id key r :
  replay_matches node_id key r = true <-> replay_key r = (node_id, key).
Proof.
  unfold replay_matches, replay_key. rewrite andb_true_iff, !str_eqb_true.
  split; [by intros [-> ->]|by intros [= -> ->]].
Qed.

Lemma replay_fresh node_id key replays :
  find (replay_matches node_id key) replays = None ->
  Forall (fun x => replay_key x <> (node_id, key)) replays.
Proof.
  intros Hf%find_None_Forall. eapply list.Forall_impl; [done|]. intros x Hx Heq.
  apply replay_matches_true in Heq. congruence.
Qed.

Lemma replays_below s :
  valid s -> Forall (fun x => x.(ReplayRecord.revision) < s.(Brain.revision) + 1)%N s.(Brain.replays).
Proof.
  intros Hv. eapply list.Forall_impl; [apply (v_replays _ Hv)|]. intros x (_ & _ & ? & ?). lia.
Qed.

Lemma apply_node_wf session message now s n fp :
  brain_wf s -> message_ok message = true ->
  let node_id := session_node session in
  let b := session.(ConnectionIdentity.binding) in
  let adm := admission message in
  timestamp now = true -> (brain_high_water s <= now)%Z ->
  session_live s.(Brain.credentials) session now ->
  adm.(adm_brain_id) = s.(Brain.brain_id) -> adm.(adm_sender_node_id) = node_id ->
  adm.(adm_payload) = ViewNode node_id b.(CredentialBinding.member_id) b.(CredentialBinding.device_id) ->
  adm.(adm_revision) = s.(Brain.revision) -> length s.(Brain.replays) < MAX_REPLAYS ->
  (s.(Brain.revision) + 1 <= MAX_REVISION)%N ->
  find (replay_matches node_id adm.(adm_key)) s.(Brain.replays) = None ->
  s.(Brain.nodes) !! node_id = Some n ->
  let s1 := Brain.set_nodes
              (<[node_id := NodeRecord.set_announcement message
                              (NodeRecord.seen now (s.(Brain.revision) + 1) n)]>
                 (heartbeat_state now node_id n s).(Brain.nodes))
              (heartbeat_state now node_id n s) in
  brain_wf (Brain.set_replays
    (s1.(Brain.replays) ++ [ReplayRecord.mk node_id adm.(adm_key) fp (s.(Brain.revision) + 1)]) s1).
Proof.
  intros Hwf Hmsg node_id b adm Ht Hle Hlive Hbrain Hsender Hp Hrev Hlen Hmax Hfind Hn s1.
  assert (brain_wf s1) as Hwf1.
  { apply announce_wf; [by apply heartbeat_state_wf| |done|].
    - simpl. apply lookup_insert_eq.
    - intros m [= <-]. fold adm. cbv zeta. rewrite Hp, Hsender, Hbrain, Hrev. simpl.
      destruct (lookup_node _ _ _ (bw_valid _ Hwf) (bw_credentials _ Hwf) Hn) as (v & m & _ & _ & Hm & _).
      destruct (session_member _ _ _ _ _ _ Hwf Hlive eq_refl Hn Hm) as [Hb _].
      unfold b. rewrite Hb. simpl. split_and!; done || lia. }
  apply push_replay_wf; try done.
  - split_and!; simpl; try lia.
    + apply message_ok_spec in Hmsg as [Hok _]. apply (eok_key _ Hok).
    + rewrite lookup_insert_eq. by eexists.
  - simpl. apply replays_below, Hwf.
  - simpl. by apply replay_fresh.
Qed.

Lemma apply_task_wf session message now s task_id fp :
  brain_wf s -> message_ok message = true ->
  let node_id := session_node session in
  let b := session.(ConnectionIdentity.binding) in
  let adm := admission message in
  session_live s.(Brain.credentials) session now ->
  adm.(adm_brain_id) = s.(Brain.brain_id) -> adm.(adm_sender_node_id) = node_id ->
  adm.(adm_payload) = ViewTask task_id b.(CredentialBinding.member_id) TaskStatus.Draft ->
  adm.(adm_revision) = s.(Brain.revision) -> length s.(Brain.replays) < MAX_REPLAYS ->
  (s.(Brain.revision) + 1 <= MAX_REVISION)%N -> payload_hash message = Ok fp ->
  find (replay_matches node_id adm.(adm_key)) s.(Brain.replays) = None ->
  size s.(Brain.tasks) < MAX_TASKS ->
  let rev := (s.(Brain.revision) + 1)%N in
  brain_wf
    (Brain.set_tasks (<[task_id := TaskRecord.mk message TaskStatus.Draft rev]> s.(Brain.tasks))
       (Brain.set_replays (s.(Brain.replays) ++ [ReplayRecord.mk node_id adm.(adm_key) fp rev])
          (Brain.set_revision rev s))).
Proof.
  intros Hwf Hmsg node_id b adm Hlive Hbrain Hsender Hp Hrev Hlen Hmax Hfp Hfind Hroom rev.
  assert (exists n, s.(Brain.nodes) !! node_id = Some n /\
                    n.(NodeRecord.member_id) = b.(CredentialBinding.member_id)) as (n & Hn & Hnm).
  { destruct Hlive as (v & Hk & _ & Hb & _).
    destruct (v_bindings _ (bw_valid _ Hwf) _ _ Hk) as (n & m & Hn & _ & Hnm & _).
    rewrite Hb in Hn, Hnm. by exists n. }
  apply (insert_task_wf task_id (TaskRecord.mk message TaskStatus.Draft rev)
    (Brain.set_replays (s.(Brain.replays) ++ [ReplayRecord.mk node_id adm.(adm_key) fp rev])
       (Brain.set_revision rev s))).
  - apply (push_replay_wf _ (Brain.set_revision rev s)); simpl; try done.
    + by apply next_revision_wf.
    + split_and!; simpl; try lia; [|by exists n].
      apply message_ok_spec in Hmsg as [Hok _]. apply (eok_key _ Hok).
    + apply replays_below, Hwf.
    + by apply replay_fresh.
  - exists b.(CredentialBinding.member_id), n, (ReplayRecord.mk node_id adm.(adm_key) fp rev).
    fold adm. cbn [TaskRecord.source TaskRecord.revision Brain.brain_id Brain.revision Brain.nodes
      Brain.replays Brain.set_replays Brain.set_revision ReplayRecord.revision
      ReplayRecord.fingerprint]. fold adm. rewrite Hp, Hsender, Hrev.
    split_and!; try done; try lia. set_solver.
  - done.
  - by left.
Qed.

Lemma apply_wf session message now s r s' :
  brain_wf s -> message_ok message = true ->
  apply session message now s = (Ok r, s') -> brain_wf s'.
Proof.
  intros Hwf Hmsg Hrun.
  apply apply_ok in Hrun as (fp & Ht & Hle & Hlive & Hbrain & Hsender & Hfp & Hcase).
  pose proof (authorized_wf now s Hwf Ht Hle) as Hwf0.
  destruct (find _ _) as [prev|] eqn:Hfind; [by destruct Hcase as (_ & _ & ->)|].
  destruct Hcase as (Hrev & Hlen & -> & Hmax & s1 & Hadmit & ->).
  assert (session_live (authorized_at now s).(Brain.credentials) session now) as Hlive0 by done.
  apply admit_ok in Hadmit as [(n & Hp & _ & Hn & _ & _ & _ & _ & ->)
                              |(task_id & Hp & Hnew & Hroom & ->)].
  - apply (apply_node_wf session message now (authorized_at now s) n fp); try done.
  - exact (apply_task_wf session message now (authorized_at now s) task_id fp Hwf0 Hmsg Hlive0
      Hbrain Hsender Hp Hrev Hlen Hmax Hfp Hfind Hroom).
Qed.

(** ** Task status *)

Lemma set_task_status_ok tid expected next now s r s' :
  set_task_status tid expected next now s = (Ok r, s') ->
  exists t,
    timestamp now = true /\ (brain_high_water s <= now)%Z /\ expected = s.(Brain.revision) /\
    s.(Brain.tasks) !! tid = Some t /\ r = s'.(Brain.revision) /\
    if bool_decide (t.(TaskRecord.status) = next) then s' = Brain.set_clock (mkClock now) s
    else status_allowed t.(TaskRecord.status) next = true /\
         (s.(Brain.revision) + 1 <= MAX_REVISION)%N /\
         s' = Brain.set_revision (s.(Brain.revision) + 1)
                (Brain.set_tasks
                   (<[tid := TaskRecord.update next (s.(Brain.revision) + 1) t]> s.(Brain.tasks))
                   (Brain.set_clock (mkClock now) s)).
Proof.
  unfold set_task_status. intros Hrun. run_inv Hrun; brain_inv; simpl in *.
  - match goal with H : ok_or _ _ = Ok _ |- _ => apply ok_or_ok in H end.
    eexists. split_and!; try done. by rewrite Hif.
  - repeat match goal with H : ok_or _ _ = Ok _ |- _ => apply ok_or_ok in H end.
    bool_hyps. simplify_eq/=. eexists. split_and!; try done.
    rewrite bool_decide_eq_false_2 by done. done.
Qed.

Lemma set_task_status_wf tid expected next now s r s' :
  brain_wf s -> set_task_status tid expected next now s = (Ok r, s') -> brain_wf s'.
Proof.
  intros Hwf (t & Ht & Hle & _ & Hk & _ & Hs)%set_task_status_ok.
  pose proof (observed_wf now s Hwf Ht Hle) as Hwf0.
  case_bool_decide; [by subst s'|]. destruct Hs as (_ & Hmax & ->).
  apply (insert_task_wf tid (TaskRecord.update next (s.(Brain.revision) + 1) t)
    (Brain.set_revision (s.(Brain.revision) + 1) (Brain.set_clock (mkClock now) s))).
  - by apply (next_revision_wf (Brain.set_clock (mkClock now) s)).
  - destruct (v_tasks _ (bw_valid _ Hwf) _ _ Hk) as (mid & n & rp & ? & ? & (? & ?) & ? & ? & ? & ? & ? & ?).
    exists mid, n, rp. cbn [TaskRecord.update TaskRecord.source TaskRecord.revision]. simpl in *.
    split_and!; try done; try lia.
  - apply (proj2 (bw_messages _ Hwf) _ _ Hk).
  - right. by exists t.
Qed.

(** ** Bootstrap *)

Lemma bootstrap_ok brain_id owner now dm dn ds s c :
  bootstrap brain_id owner now dm dn ds = Ok (s, c) ->
  exists tm tn creds,
    let mid := "member-" +:+ tm.(expose_secret) in
    let b := CredentialBinding.mk brain_id mid ("node-" +:+ tn.(expose_secret))
               owner.(OwnerProfile.device_id) in
    id owner.(OwnerProfile.identity_id) = true /\
    display_name_ok owner.(OwnerProfile.display_name) = true /\
    timestamp now = true /\ id brain_id = true /\
    token_generate dm = Ok tm /\
    issue b now ds (CredentialRegistry.mk brain_id Clock_default ∅) = (Ok c, creds) /\
    s = Brain.mk 1 brain_id mid 1 (mkClock now) creds
          (InvitationRegistry.mk brain_id Clock_default ∅)
          {[ mid := MemberRecord.mk owner.(OwnerProfile.identity_id)
                      owner.(OwnerProfile.display_name) false 1 ]}
          {[ b.(CredentialBinding.node_id) :=
               NodeRecord.mk mid owner.(OwnerProfile.device_id) None false 1 None ]} ∅ [].
Proof.
  unfold bootstrap. rewrite result_seq_ok, refuse_ok, clock_observe_spec.
  intros [Hg Hrun]. bool_hyps. destruct (timestamp now) eqn:Ht; [|done]. simpl in Hrun.
  assert ((0 <=? now)%Z = true) as Hz by (unfold timestamp in Ht; lia). rewrite Hz in Hrun.
  unfold registry_new, invitations_new, refuse in Hrun.
  destruct (id brain_id) eqn:Hid; [|done]. simpl in Hrun.
  destruct (token_generate dm) as [tm|] eqn:Hdm; [|done]. simpl in Hrun.
  destruct (token_generate dn) as [tn|]; [|done]. simpl in Hrun.
  match type of Hrun with context [issue ?b now ds ?r] =>
    destruct (issue b now ds r) as [[c'|] creds] eqn:Hissue; [|done] end.
  simpl in Hrun. injection Hrun as <- <-. exists tm, tn, creds. simpl. split_and!; try done.
  apply issue_ok in Hissue as (? & _ & _ & _ & _ & _ & _ & _ & _ & _ & -> & _). done.
Qed.

Lemma bootstrap_wf brain_id owner now dm dn ds s c :
  bootstrap brain_id owner now dm dn ds = Ok (s, c) -> brain_wf s.
Proof.
  intros Hrun. apply bootstrap_ok in Hrun as
    (tm & tn & creds & Hident & Hname & Ht & Hid & Hdm & Hissue & ->).
  assert (registry_wf (CredentialRegistry.mk brain_id Clock_default ∅)) as Hwf0.
  { split; try done. simpl. rewrite map_size_empty. unfold MAX_CREDENTIALS. lia. }
  pose proof (issue_wf _ _ _ _ _ _ Hwf0 Hissue) as Hcreds.
  apply issue_ok in Hissue as (t & _ & _ & _ & _ & _ & _ & _ & _ & _ & -> & ->).
  assert (0 <= now)%Z as Hnow by (unfold timestamp in Ht; lia).
  simpl in *. split; try done.
  - split; [split|..]; simpl; try done; try (rewrite ?map_size_singleton; lia).
    + by eexists; rewrite lookup_singleton_eq.
    + rewrite map_size_insert_None, map_size_empty, map_size_singleton by done. done.
    + intros k m Hk. apply lookup_singleton_Some in Hk as [<- <-]. unfold member_ok. simpl.
      split_and!; try done.
      * by apply (id_prefix_token _ dm).
      * eexists _, _. by rewrite lookup_insert_eq.
      * symmetry. apply not_true_iff_false. rewrite is_revoked_true. simpl.
        intros (k & v & Hk & _ & Hr). apply lookup_insert_Some in Hk as [[<- <-]|[_ Hk]]; [done|].
        by rewrite lookup_empty in Hk.
    + intros k v Hk. apply lookup_insert_Some in Hk as [[<- <-]|[_ Hk]];
        [|by rewrite lookup_empty in Hk].
      eexists _, _. simpl. rewrite !lookup_singleton_eq. split_and!; try done.
    + rewrite map_size_empty. unfold MAX_TASKS. lia.
    + constructor.
    + constructor.
    + intros k n Hk. apply lookup_singleton_Some in Hk as [<- <-]. done.
  - split; simpl; try done. rewrite map_size_empty. unfold MAX_PENDING_INVITATIONS. lia.
  - split; [|done]. intros k n Hk. simpl in Hk. apply lookup_singleton_Some in Hk as [<- <-]. done.
Qed.
End Operations.
