(* ===== verification/BrainThm.v ===== *)
(** * What the Brain guarantees

    The committed steps of a Brain, its reachable states, and the properties that hold
    across any sequence of steps: validity, revisions, exactly-once admission, task
    histories, revocation and presence. *)

From S2P Require Import Prelude Protocol Credential Invitation Brain BrainValid BrainInv BrainOps.

Section Steps.
Context `{Sha256, ProtocolJson}.

(** A state that the store commits after another. When an operation returns a result, the
    store keeps the operation's state; when it fails, the store discards that state and
    keeps the old one at the observed time, which is [bs_observe] (storage.rs, [transact]).
    [bs_authorize] is what the host does before every operation of a session; with
    [bs_reset_presence] it makes up [Brain::reconcile], whose other parts only read. The
    message of [apply] is a [Message], so it passed [try_from]. *)
Inductive brain_step : Brain.t -> Brain.t -> Prop :=
| bs_connect b secret now c s s' :
    brain_connect b secret now s = (Ok c, s') -> brain_step s s'
| bs_create_invitation now d1 d2 i s s' :
    create_invitation now d1 d2 s = (Ok i, s') -> brain_step s s'
| bs_cancel_invitation i now u s s' :
    cancel_invitation i now s = (Ok u, s') -> brain_step s s'
| bs_join request now dm dn ds e s s' :
    join request now dm dn ds s = (Ok e, s') -> brain_step s s'
| bs_revoke_member mid expected now r s s' :
    revoke_member mid expected now s = (Ok r, s') -> brain_step s s'
| bs_heartbeat session expected now r s s' :
    heartbeat session expected now s = (Ok r, s') -> brain_step s s'
| bs_reset_presence now reason r s s' :
    reset_presence now reason s = (Ok r, s') -> brain_step s s'
| bs_apply session message now r s s' :
    message_ok message = true ->
    apply session message now s = (Ok r, s') -> brain_step s s'
| bs_set_task_status tid expected next now r s s' :
    set_task_status tid expected next now s = (Ok r, s') -> brain_step s s'
| bs_observe now u s s' :
    observe now s = (Ok u, s') -> brain_step s s'
| bs_authorize session now u s s' :
    (_ ← observe now; authorize session now) s = (Ok u, s') -> brain_step s s'.

Lemma observed_authorize_ok session now s u s' :
  (_ ← observe now; authorize session now) s = (Ok u, s') ->
  timestamp now = true /\ (brain_high_water s <= now)%Z /\
  session_live s.(Brain.credentials) session now /\ s' = authorized_at now s.
Proof. intros Hrun. run_inv Hrun. brain_inv. by split_and!. Qed.

Definition reachable (s : Brain.t) : Prop :=
  exists brain_id owner now dm dn ds s0 c,
    bootstrap brain_id owner now dm dn ds = Ok (s0, c) /\ rtc brain_step s0 s.

Lemma brain_step_wf s s' : brain_wf s -> brain_step s s' -> brain_wf s'.
Proof.
  intros Hwf Hstep. destruct Hstep.
  - by eapply brain_connect_wf.
  - by eapply create_invitation_wf.
  - by eapply cancel_invitation_wf.
  - by eapply join_wf.
  - by eapply revoke_member_wf.
  - by eapply heartbeat_wf.
  - by eapply reset_presence_wf.
  - by eapply apply_wf.
  - by eapply set_task_status_wf.
  - destruct (observe_ok _ _ _ _ H1) as (Ht & Hle & ->). by apply observed_wf.
  - destruct (observed_authorize_ok _ _ _ _ _ H1) as (Ht & Hle & _ & ->). by apply authorized_wf.
Qed.

Lemma brain_steps_wf s s' : rtc brain_step s s' -> brain_wf s -> brain_wf s'.
Proof. induction 1; eauto using brain_step_wf. Qed.

Lemma reachable_wf s : reachable s -> brain_wf s.
Proof.
  intros (brain_id & owner & now & dm & dn & ds & s0 & c & Hboot & Hsteps).
  eapply brain_steps_wf; [done|]. by eapply bootstrap_wf.
Qed.

(** ** What one step does to the shared content *)

(** The content that Nodes synchronise: everything but the two clocks' positions. *)
Definition same_content (s s' : Brain.t) : Prop :=
  s'.(Brain.members) = s.(Brain.members) /\ s'.(Brain.nodes) = s.(Brain.nodes) /\
  s'.(Brain.tasks) = s.(Brain.tasks) /\ s'.(Brain.replays) = s.(Brain.replays) /\
  s'.(Brain.invitations).(InvitationRegistry.pending)
    = s.(Brain.invitations).(InvitationRegistry.pending).

(** How the tasks of a later state descend from those of an earlier one. *)
Definition tasks_descend (s s' : Brain.t) : Prop :=
  forall k t, s.(Brain.tasks) !! k = Some t ->
  exists t', s'.(Brain.tasks) !! k = Some t' /\ t'.(TaskRecord.source) = t.(TaskRecord.source) /\
    rtc (fun a b => status_allowed a b = true) t.(TaskRecord.status) t'.(TaskRecord.status).

(** A member's revocation, its Nodes offline. *)
Definition revoked_offline (m : string) (s : Brain.t) : Prop :=
  is_revoked s.(Brain.credentials) m = true /\
  (exists mr, s.(Brain.members) !! m = Some mr /\ mr.(MemberRecord.revoked) = true) /\
  forall k n, s.(Brain.nodes) !! k = Some n -> n.(NodeRecord.member_id) = m ->
    n.(NodeRecord.online) = false.

(** One step at a glance. *)
Record step_summary (s s' : Brain.t) : Prop := {
  ss_brain : s'.(Brain.brain_id) = s.(Brain.brain_id);
  ss_owner : s'.(Brain.owner_member_id) = s.(Brain.owner_member_id);
  ss_time : (brain_high_water s <= brain_high_water s')%Z;
  ss_revision : s'.(Brain.revision) = s.(Brain.revision) /\ same_content s s' \/
                s'.(Brain.revision) = (s.(Brain.revision) + 1)%N /\
                (s'.(Brain.revision) <= MAX_REVISION)%N;
  ss_tasks : tasks_descend s s';
  ss_replays : exists l, s'.(Brain.replays) = s.(Brain.replays) ++ l;
  ss_nodes : dom s.(Brain.nodes) ⊆ dom s'.(Brain.nodes);
  ss_revoked : forall m, is_revoked s.(Brain.credentials) m = true ->
                         is_revoked s'.(Brain.credentials) m = true;
}.

Lemma tasks_descend_same s s' : s'.(Brain.tasks) = s.(Brain.tasks) -> tasks_descend s s'.
Proof. intros Heq k t Hk. exists t. rewrite Heq. by split_and!. Qed.

Lemma summary_clock now s :
  (brain_high_water s <= now)%Z -> step_summary s (Brain.set_clock (mkClock now) s).
Proof.
  intros Hle. split; simpl; try done.
  - left. by split_and!.
  - by apply tasks_descend_same.
  - exists []. by rewrite app_nil_r.
Qed.

Lemma summary_authorized now s :
  (brain_high_water s <= now)%Z -> step_summary s (authorized_at now s).
Proof.
  intros Hle. split; simpl; try done.
  - left. by split_and!.
  - by apply tasks_descend_same.
  - exists []. by rewrite app_nil_r.
Qed.

(** A new revision that leaves tasks and replays alone. *)
Lemma summary_revision s s' :
  s'.(Brain.brain_id) = s.(Brain.brain_id) ->
  s'.(Brain.owner_member_id) = s.(Brain.owner_member_id) ->
  (brain_high_water s <= brain_high_water s')%Z ->
  s'.(Brain.revision) = (s.(Brain.revision) + 1)%N -> (s'.(Brain.revision) <= MAX_REVISION)%N ->
  s'.(Brain.tasks) = s.(Brain.tasks) -> s'.(Brain.replays) = s.(Brain.replays) ->
  dom s.(Brain.nodes) ⊆ dom s'.(Brain.nodes) ->
  (forall m, is_revoked s.(Brain.credentials) m = true ->
             is_revoked s'.(Brain.credentials) m = true) ->
  step_summary s s'.
Proof.
  intros. split; try done; [by right|by apply tasks_descend_same|].
  exists []. by rewrite app_nil_r.
Qed.

Lemma summary_join request now dm dn ds s e s' :
  join request now dm dn ds s = (Ok e, s') -> step_summary s s'.
Proof.
  intros Hrun. apply join_ok in Hrun as (inv & c & Ht & Hle & _ & Hmax & Hredeem & _ & ->).
  apply redeem_ok in Hredeem as (i & tm & tn & cred & _ & _ & _ & _ & _ & _ & _ & Hissue & -> & ->).
  apply summary_revision; simpl; try done.
  - rewrite dom_insert_L. set_solver.
  - intros m Hm. eapply is_revoked_step; [by eapply step_issue|done].
Qed.

Lemma summary_apply session message now s r s' :
  apply session message now s = (Ok r, s') -> step_summary s s'.
Proof.
  intros Hrun. apply apply_ok in Hrun as (fp & Ht & Hle & Hlive & _ & _ & _ & Hcase).
  destruct (find _ _) as [prev|].
  { destruct Hcase as (_ & _ & ->). by apply summary_authorized. }
  destruct Hcase as (Hrev & _ & -> & Hmax & s1 & Hadmit & ->).
  apply admit_ok in Hadmit as [(n & _ & _ & Hn & _ & _ & _ & _ & ->)|(task_id & _ & Hnew & _ & ->)].
  - split; simpl; try done; [by right|by apply tasks_descend_same|by eexists|].
    rewrite !dom_insert_L. set_solver.
  - split; simpl; try done; [by right| |by eexists].
    intros k t Hk. exists t. simpl. rewrite lookup_insert_ne by (simpl in Hnew; congruence).
    by split_and!.
Qed.

Lemma brain_step_summary s s' : brain_step s s' -> step_summary s s'.
Proof.
  intros Hstep.
  destruct Hstep as [b secret now c s s' Hrun|now d1 d2 i s s' Hrun|i now u s s' Hrun
    |request now dm dn ds e s s' Hrun|mid expected now r s s' Hrun|session expected now r s s' Hrun
    |now reason r s s' Hrun|session message now r s s' Hm Hrun|tid expected next now r s s' Hrun
    |now u s s' Hrun|session now u s s' Hrun].
  - unfold brain_connect in Hrun. run_inv Hrun. apply observe_ok in Hrun0 as (_ & Hle & ->).
    apply connect_ok_live in Hrun1 as (_ & _ & _ & _ & ->). exact (summary_authorized now s Hle).
  - apply create_invitation_ok in Hrun as (inv & _ & Hle & Hmax & _ & ->). by apply summary_revision.
  - apply cancel_invitation_ok in Hrun as (_ & Hle & Hmax & _ & ->). by apply summary_revision.
  - by eapply summary_join.
  - apply revoke_member_ok in Hrun as (m & _ & Hle & _ & _ & _ & _ & Hs).
    destruct m.(MemberRecord.revoked); [subst s'; by apply summary_clock|].
    destruct Hs as [Hmax ->]. apply summary_revision; simpl; try done.
    + unfold update_where. by rewrite dom_fmap_L.
    + intros m' Hm'. by rewrite is_revoked_revoke, Hm'.
  - apply heartbeat_ok in Hrun as (n & _ & Hle & _ & _ & -> & Hmax & _ & ->).
    apply summary_revision; simpl; try done. rewrite dom_insert_L. set_solver.
  - apply reset_presence_ok in Hrun as (_ & Hle & _ & Hs). destruct (existsb _ _).
    + destruct Hs as [Hmax ->]. apply summary_revision; simpl; try done.
      unfold update_where. by rewrite dom_fmap_L.
    + subst s'. by apply summary_clock.
  - by eapply summary_apply.
  - apply set_task_status_ok in Hrun as (t & _ & Hle & _ & Hk & _ & Hs).
    case_bool_decide; [subst s'; by apply summary_clock|]. destruct Hs as (Hallow & Hmax & ->).
    split; simpl; try done; [by right| |by exists []; rewrite app_nil_r].
    intros k t' Hk'. simpl. destruct (decide (tid = k)) as [<-|Hne].
    + rewrite Hk in Hk'. injection Hk' as <-. rewrite lookup_insert_eq. eexists. split; [done|].
      split; [done|]. by apply rtc_once.
    + rewrite lookup_insert_ne by done. exists t'. by split_and!.
  - apply observe_ok in Hrun as (_ & Hle & ->). by apply summary_clock.
  - apply observed_authorize_ok in Hrun as (_ & Hle & _ & ->). by apply summary_authorized.
Qed.
End Steps.

Section Histories.
Context `{Sha256, ProtocolJson}.

(** ** Validity *)

(** C7: every state a Brain can reach from its bootstrap by committed
    operations passes [Brain::validate], and its credential and invitation registries
    pass the checks that guard their deserialization. *)
Theorem reachable_validates s :
  reachable s ->
  validate s = Ok tt /\ registry_try_from s.(Brain.credentials) = Ok s.(Brain.credentials) /\
  invitations_try_from s.(Brain.invitations) = Ok s.(Brain.invitations).
Proof.
  intros [Hv Hc Hi _]%reachable_wf. split_and!.
  - by apply validate_ok.
  - apply registry_try_from_wf; [apply Hc|done].
  - apply invitations_try_from_wf; [apply Hi|done].
Qed.

(** ** Revisions *)

Lemma same_content_trans s1 s2 s3 :
  same_content s1 s2 -> same_content s2 s3 -> same_content s1 s3.
Proof. unfold same_content. intuition congruence. Qed.

Lemma steps_revision s s' :
  rtc brain_step s s' ->
  (s.(Brain.revision) <= s'.(Brain.revision))%N /\
  (s'.(Brain.revision) = s.(Brain.revision) -> same_content s s') /\
  (s'.(Brain.revision) = s.(Brain.revision) \/ s'.(Brain.revision) <= MAX_REVISION)%N.
Proof.
  induction 1 as [s|s1 s2 s3 Hstep _ (IH1 & IH2 & IH3)]; [by split_and!; auto|].
  destruct (ss_revision _ _ (brain_step_summary _ _ Hstep)) as [[Heq Hsame]|[Heq Hmax]].
  - rewrite Heq in *. split_and!; [done| |done]. intros Hr.
    eapply same_content_trans; [done|auto].
  - split_and!; [lia|intros; lia|]. destruct IH3; [right|by right]. lia.
Qed.

(** C25: along any execution the revision never decreases and never exceeds
    2^53 - 1, and it identifies the synchronised content: two states with the same
    revision hold the same members, Nodes, tasks, replay log and invitations. *)
Theorem revision_identifies_content s0 s s' :
  reachable s0 -> rtc brain_step s0 s -> rtc brain_step s s' ->
  (s.(Brain.revision) <= s'.(Brain.revision) <= 9007199254740991)%N /\
  (s'.(Brain.revision) = s.(Brain.revision) -> same_content s s').
Proof.
  intros Hreach H1 H2. destruct (steps_revision _ _ H2) as (Hle & Hsame & _).
  split; [|done]. split; [done|].
  assert (brain_wf s') as Hwf by eauto using brain_steps_wf, reachable_wf.
  apply (h_revision _ (v_header _ (bw_valid _ Hwf))).
Qed.

(** ** Exactly-once admission *)

Lemma find_app_some {A} (f : A -> bool) l l' x :
  find f l = Some x -> find f (l ++ l') = Some x.
Proof. induction l as [|y l IH]; simpl; [done|]. by destruct (f y). Qed.

Lemma find_app_none {A} (f : A -> bool) l l' : find f l = None -> find f (l ++ l') = find f l'.
Proof. induction l as [|y l IH]; simpl; [done|]. by destruct (f y). Qed.

Lemma steps_replays s s' :
  rtc brain_step s s' -> exists l, s'.(Brain.replays) = s.(Brain.replays) ++ l.
Proof.
  induction 1 as [s|s1 s2 s3 Hstep _ [l IH]]; [exists []; by rewrite app_nil_r|].
  destruct (ss_replays _ _ (brain_step_summary _ _ Hstep)) as [l' ->] in IH.
  exists (l' ++ l). by rewrite app_assoc.
Qed.

(** An admitted message is on record, under its sender and key. *)
Lemma apply_recorded session message now s r s' :
  apply session message now s = (Ok r, s') ->
  exists rec fp,
    find (replay_matches (session_node session) (admission message).(adm_key)) s'.(Brain.replays)
      = Some rec /\
    payload_hash message = Ok fp /\ rec.(ReplayRecord.fingerprint) = fp /\
    rec.(ReplayRecord.revision) = r.
Proof.
  intros Hrun. apply apply_ok in Hrun as (fp & _ & _ & _ & _ & _ & Hfp & Hcase).
  destruct (find _ _) as [prev|] eqn:Hfind.
  - destruct Hcase as (-> & -> & ->). by exists prev, prev.(ReplayRecord.fingerprint).
  - destruct Hcase as (_ & _ & -> & _ & s1 & Hadmit & ->).
    assert (s1.(Brain.replays) = s.(Brain.replays)) as Hreplays.
    { by apply admit_ok in Hadmit as [(n & _ & _ & _ & _ & _ & _ & _ & ->)|(t & _ & _ & _ & ->)]. }
    eexists _, fp. simpl. rewrite Hreplays, find_app_none by done. simpl.
    unfold replay_matches. simpl. by rewrite !str_eqb_refl.
Qed.

(** What [apply] answers when the sender's key is already on record. *)
Lemma apply_replayed session message now s rec fp :
  timestamp now = true -> (brain_high_water s <= now)%Z ->
  (cred_high_water s.(Brain.credentials) <= now)%Z ->
  session_live s.(Brain.credentials) session now ->
  (admission message).(adm_brain_id) = s.(Brain.brain_id) ->
  (admission message).(adm_sender_node_id) = session_node session ->
  payload_hash message = Ok fp ->
  find (replay_matches (session_node session) (admission message).(adm_key)) s.(Brain.replays)
    = Some rec ->
  apply session message now s =
  (if str_eqb rec.(ReplayRecord.fingerprint) fp then Ok rec.(ReplayRecord.revision)
   else Err Conflict, authorized_at now s).
Proof.
  intros Ht Hle Hcle Hlive Hbrain Hsender Hfp Hfind. unfold apply.
  erewrite bind_ok by (by apply observe_run).
  erewrite bind_ok by (apply authorize_run; done).
  erewrite bind_ok by done. cbn [Brain.brain_id Brain.set_credentials Brain.set_clock Brain.replays].
  unfold session_node in *. rewrite Hbrain, Hsender, !str_eqb_refl.
  erewrite bind_ok by done. rewrite Hfp. erewrite bind_ok by done.
  rewrite Hfind. by destruct (str_eqb _ _).
Qed.

(** C2: a message is admitted exactly once. After [apply] returned revision [r],
    in every later state, any message of the same Node under the same idempotency key is
    answered without changing the content: with [r] again when its payload hash is the
    same, with [Conflict] when it is not. *)
Theorem apply_exactly_once session message now s r s1 s2 session' message' now' fp' :
  apply session message now s = (Ok r, s1) -> rtc brain_step s1 s2 ->
  session_node session' = session_node session ->
  (admission message').(adm_key) = (admission message).(adm_key) ->
  (admission message').(adm_brain_id) = s2.(Brain.brain_id) ->
  (admission message').(adm_sender_node_id) = session_node session' ->
  payload_hash message' = Ok fp' ->
  session_live s2.(Brain.credentials) session' now' ->
  timestamp now' = true -> (brain_high_water s2 <= now')%Z ->
  (cred_high_water s2.(Brain.credentials) <= now')%Z ->
  exists s3, same_content s2 s3 /\ s3.(Brain.revision) = s2.(Brain.revision) /\
    apply session' message' now' s2 =
    (if bool_decide (payload_hash message' = payload_hash message) then Ok r else Err Conflict, s3).
Proof.
  intros Happly Hsteps Hnode Hkey Hbrain Hsender Hfp' Hlive Ht Hle Hcle.
  destruct (apply_recorded _ _ _ _ _ _ Happly) as (rec & fp & Hfind & Hfp & Hrf & Hrr).
  destruct (steps_replays _ _ Hsteps) as [l Hl].
  assert (find (replay_matches (session_node session') (admission message').(adm_key))
    s2.(Brain.replays) = Some rec) as Hfind2.
  { rewrite Hnode, Hkey, Hl. by apply find_app_some. }
  exists (authorized_at now' s2). split; [by split_and!|]. split; [done|].
  rewrite (apply_replayed _ _ _ _ rec fp') by done. f_equal. rewrite Hfp', Hfp, Hrf, Hrr.
  unfold str_eqb. by do 2 case_bool_decide; simplify_eq.
Qed.

(** ** Tasks *)

Definition status_rank (t : TaskStatus.t) : nat :=
  match t with
  | TaskStatus.Draft => 0 | TaskStatus.Offered => 1 | TaskStatus.Accepted => 2
  | TaskStatus.Running => 3 | TaskStatus.OutcomeUnknown => 4 | TaskStatus.AwaitingReview => 5
  | TaskStatus.Approved | TaskStatus.Rejected | TaskStatus.Cancelled | TaskStatus.Failed => 6
  end.

Lemma status_allowed_rank a b : status_allowed a b = true -> status_rank a < status_rank b.
Proof. destruct a, b; vm_compute; first [discriminate|lia]. Qed.

Lemma status_allowed_rank_rtc a b :
  rtc (fun a b => status_allowed a b = true) a b -> a = b \/ status_rank a < status_rank b.
Proof.
  induction 1 as [|a b c Hab _ IH]; [by left|right]. apply status_allowed_rank in Hab.
  destruct IH as [->|?]; lia.
Qed.

Lemma tasks_descend_trans s1 s2 s3 :
  tasks_descend s1 s2 -> tasks_descend s2 s3 -> tasks_descend s1 s3.
Proof.
  intros H12 H23 k t Hk. destruct (H12 _ _ Hk) as (t2 & Hk2 & Hs2 & Hr2).
  destruct (H23 _ _ Hk2) as (t3 & Hk3 & Hs3 & Hr3). exists t3.
  split_and!; [done|congruence|by etrans].
Qed.

Lemma steps_tasks s s' : rtc brain_step s s' -> tasks_descend s s'.
Proof.
  induction 1 as [s|s1 s2 s3 Hstep _ IH]; [by apply tasks_descend_same|].
  eapply tasks_descend_trans; [apply (ss_tasks _ _ (brain_step_summary _ _ Hstep))|done].
Qed.

(** A task is never removed and its source message never changes; its status
    moves only along the allowed transitions, so it never returns to an earlier status,
    and an approved, rejected, cancelled or failed task keeps its status for good. *)
Theorem task_history s s' k t :
  rtc brain_step s s' -> s.(Brain.tasks) !! k = Some t ->
  exists t', s'.(Brain.tasks) !! k = Some t' /\
    t'.(TaskRecord.source) = t.(TaskRecord.source) /\
    (t'.(TaskRecord.status) = t.(TaskRecord.status) \/
     status_rank t.(TaskRecord.status) < status_rank t'.(TaskRecord.status)) /\
    (t.(TaskRecord.status) ∈ [TaskStatus.Approved; TaskStatus.Rejected; TaskStatus.Cancelled;
                              TaskStatus.Failed] ->
     t'.(TaskRecord.status) = t.(TaskRecord.status)).
Proof.
  intros Hsteps Hk. destruct (steps_tasks _ _ Hsteps _ _ Hk) as (t' & Hk' & Hsrc & Hrtc).
  exists t'. pose proof (status_allowed_rank_rtc _ _ Hrtc) as Hrank. split_and!; try done.
  - destruct Hrank; auto.
  - intros Hterm. destruct Hrank as [->|Hlt]; [done|]. exfalso.
    assert (status_rank t.(TaskRecord.status) = 6) as Hsix.
    { repeat (apply elem_of_cons in Hterm as [->|Hterm]; [done|]).
      by apply not_elem_of_nil in Hterm. }
    rewrite Hsix in Hlt. destruct t'.(TaskRecord.status); simpl in Hlt; lia.
Qed.
End Histories.

Section Revocation.
Context `{Sha256, ProtocolJson}.

Lemma revoke_member_revokes mid expected now s r s1 :
  brain_wf s -> revoke_member mid expected now s = (Ok r, s1) ->
  is_revoked s1.(Brain.credentials) mid = true.
Proof.
  intros Hwf (m & _ & _ & _ & Hm & _ & _ & Hs)%revoke_member_ok.
  destruct (v_members _ (bw_valid _ Hwf) _ _ Hm) as (_ & _ & _ & _ & (x & v & Hx & Hxm) & Hrev).
  destruct m.(MemberRecord.revoked); [by subst s1|]. destruct Hs as [_ ->]. simpl.
  rewrite is_revoked_revoke, str_eqb_refl. simpl. apply orb_true_iff. right.
  apply existsb_values. exists x, v. split; [done|]. by apply str_eqb_true.
Qed.

Lemma steps_revoked s s' m :
  rtc brain_step s s' -> is_revoked s.(Brain.credentials) m = true ->
  is_revoked s'.(Brain.credentials) m = true.
Proof.
  induction 1 as [|s1 s2 s3 Hstep _ IH]; [done|]. intros Hr.
  apply IH, (ss_revoked _ _ (brain_step_summary _ _ Hstep)), Hr.
Qed.

(** The Nodes of a revoked member are offline. *)
Lemma revoked_nodes_offline s m k n :
  brain_wf s -> is_revoked s.(Brain.credentials) m = true ->
  s.(Brain.nodes) !! k = Some n -> n.(NodeRecord.member_id) = m -> n.(NodeRecord.online) = false.
Proof.
  intros Hwf Hrev Hk <-.
  destruct (lookup_node _ _ _ (bw_valid _ Hwf) (bw_credentials _ Hwf) Hk)
    as (_ & mr & _ & _ & Hm & (_ & Hon & _)).
  destruct (v_members _ (bw_valid _ Hwf) _ _ Hm) as (_ & _ & _ & _ & _ & Hmr).
  apply not_true_iff_false. intros Honline. apply Hon in Honline as [Hf _]. congruence.
Qed.

Lemma authorize_revoked session now s :
  brain_wf s ->
  is_revoked s.(Brain.credentials)
    session.(ConnectionIdentity.binding).(CredentialBinding.member_id) = true ->
  (authorize session now s).1 = Err (Access Rejected).
Proof.
  intros Hwf Hrev. unfold authorize, zoom.
  destruct (authorize_task session now s.(Brain.credentials)) as [[u|e] c] eqn:Hrun.
  - apply authorize_task_ok in Hrun as (_ & _ & Hlive).
    apply session_live_not_revoked in Hlive; [congruence|apply Hwf].
  - apply authorize_task_err in Hrun as [-> _]. done.
Qed.

(** Anything guarded by [observe] and [authorize] is closed to a revoked member. *)
Lemma guarded_revoked {A} session now (k : unit -> BrainM A) s :
  brain_wf s ->
  is_revoked s.(Brain.credentials)
    session.(ConnectionIdentity.binding).(CredentialBinding.member_id) = true ->
  ((_ ← observe now; u ← authorize session now; k u) s).1 = Err (Access Rejected).
Proof.
  intros Hwf Hrev. unfold mbind, M_bind.
  destruct (observe now s) as [[u|e] s1] eqn:Ho.
  - apply observe_ok in Ho as (Ht & Hle & ->).
    pose proof (authorize_revoked session now _ (observed_wf now s Hwf Ht Hle) Hrev) as Ha.
    destruct (authorize _ _ _) as [[?|?] ?]; simpl in *; congruence.
  - by apply observe_err in Ho as [-> _].
Qed.

(** C11: after a member is revoked, in every later state its Nodes are offline
    and each of its connections, heartbeats and messages is rejected. *)
Theorem revoked_member_locked_out mid expected now s r s1 s2 :
  reachable s -> revoke_member mid expected now s = (Ok r, s1) -> rtc brain_step s1 s2 ->
  (forall k n, s2.(Brain.nodes) !! k = Some n -> n.(NodeRecord.member_id) = mid ->
     n.(NodeRecord.online) = false) /\
  (forall b secret t, b.(CredentialBinding.member_id) = mid ->
     (brain_connect b secret t s2).1 = Err (Access Rejected)) /\
  (forall session message e t,
     session.(ConnectionIdentity.binding).(CredentialBinding.member_id) = mid ->
     (heartbeat session e t s2).1 = Err (Access Rejected) /\
     (apply session message t s2).1 = Err (Access Rejected)).
Proof.
  intros Hreach Hrun Hsteps. pose proof (reachable_wf _ Hreach) as Hwf.
  pose proof (revoke_member_revokes _ _ _ _ _ _ Hwf Hrun) as Hrev1.
  pose proof (steps_revoked _ _ _ Hsteps Hrev1) as Hrev.
  assert (brain_wf s2) as Hwf2 by eauto using brain_steps_wf, revoke_member_wf.
  split_and!.
  - intros k n. by apply revoked_nodes_offline.
  - intros b secret t <-. unfold brain_connect, mbind, M_bind.
    destruct (observe t s2) as [[u|e] s3] eqn:Ho; [|by apply observe_err in Ho as [-> _]].
    apply observe_ok in Ho as (_ & _ & ->). unfold zoom. simpl.
    destruct (connect b secret t s2.(Brain.credentials)) as [[c|e] c'] eqn:Hc; simpl.
    + apply connect_ok_live in Hc as (Hlive & Hb & _).
      apply session_live_not_revoked in Hlive; [congruence|apply Hwf2].
    + destruct (decide (observable s2.(Brain.credentials) t)) as [Hobs|Hn].
      * rewrite (connect_run _ _ _ _ Hobs) in Hc. repeat case_match; naive_solver.
      * rewrite connect_not in Hc by done. naive_solver.
  - intros session message e t <-. unfold heartbeat, apply.
    split; exact (guarded_revoked session t _ s2 Hwf2 Hrev).
Qed.
End Revocation.

Section Presence.
Context `{Sha256, ProtocolJson}.

(** After a restart no Node is online; after an expiry sweep at [now] a
    Node is online exactly when it was online and had been seen less than 30 seconds
    before [now]. Nothing but presence changes. *)
Theorem reset_presence_spec now reason s r s' :
  brain_wf s -> reset_presence now reason s = (Ok r, s') ->
  s'.(Brain.tasks) = s.(Brain.tasks) /\ s'.(Brain.members) = s.(Brain.members) /\
  forall k n', s'.(Brain.nodes) !! k = Some n' -> exists n,
    s.(Brain.nodes) !! k = Some n /\
    n'.(NodeRecord.last_seen_at) = n.(NodeRecord.last_seen_at) /\
    n'.(NodeRecord.announcement) = n.(NodeRecord.announcement) /\
    n'.(NodeRecord.online) =
      match reason with
      | Restart => false
      | Expired => n.(NodeRecord.online) &&
                   is_some_and (fun seen => now - seen <? 30)%Z n.(NodeRecord.last_seen_at)
      end.
Proof.
  intros Hwf Hrun. apply reset_presence_ok in Hrun as (Ht & Hle & _ & Hs).
  assert (forall k n, s.(Brain.nodes) !! k = Some n ->
    (if presence_expired now reason n then false else n.(NodeRecord.online)) =
    match reason with
    | Restart => false
    | Expired => n.(NodeRecord.online) &&
                 is_some_and (fun seen => now - seen <? 30)%Z n.(NodeRecord.last_seen_at)
    end) as Honline.
  { intros k n Hk. unfold presence_expired, PRESENCE_TTL_SECONDS.
    destruct n.(NodeRecord.online); simpl; [|by destruct reason].
    destruct reason; simpl; [|done].
    destruct n.(NodeRecord.last_seen_at) as [seen|] eqn:Hseen; simpl; [|done].
    destruct (lookup_node _ _ _ (bw_valid _ Hwf) (bw_credentials _ Hwf) Hk)
      as (_ & m & _ & _ & _ & (_ & _ & Hs')).
    destruct (Hs' _ Hseen) as [Hts _]. unfold timestamp in Hts, Ht.
    unfold i64_saturating_sub, i64_max. set (c := (30 <=? _)%Z).
    change (negb c = (now - seen <? 30)%Z). unfold c. lia. }
  destruct (existsb _ _) eqn:Hex.
  - destruct Hs as [_ ->]. split_and!; try done. intros k n' Hk. simpl in Hk.
    rewrite lookup_update_where in Hk. apply fmap_Some in Hk as (n & Hk & ->). exists n.
    rewrite <- (Honline _ _ Hk). by destruct (presence_expired now reason n).
  - subst s'. split_and!; try done. intros k n Hk. exists n. split_and!; try done.
    rewrite <- (Honline _ _ Hk). apply existsb_values_false in Hex.
    by rewrite (Hex _ _ Hk).
Qed.
End Presence.
