(* ===== verification/Snapshot.v ===== *)
(** * The snapshot boundary (collaboration/snapshot.rs, Brain::encode, Brain::decode)

    A snapshot as serde_json reads it, before the checks of the code: maps are lists of
    entries that may repeat keys, messages are unchecked envelopes. [unique_map], the
    [TryFrom] conversions and [Brain::validate] turn it into a Brain. *)

From S2P Require Import Prelude Protocol Credential Invitation Brain BrainValid BrainInv BrainOps BrainThm.

(** ** [unique_map] *)

(** The loop of [visit_map]; [next_value] deserializes a value. *)
Fixpoint unique_map_from {R T} (next_value : R -> option T) (limit : nat)
    (values : gmap string T) (input : list (string * R)) : option (gmap string T) :=
  match input with
  | [] => Some values
  | (key, raw) :: input =>
    if (128 <? len key)%N || (limit <=? size values)%nat || contains_key key values then None
    else value ← next_value raw; unique_map_from next_value limit (<[key := value]> values) input
  end.

Definition unique_map {R T} (next_value : R -> option T) (limit : nat)
    (input : list (string * R)) : option (gmap string T) :=
  unique_map_from next_value limit ∅ input.

Definition to_option {E A} (r : result E A) : option A :=
  match r with Ok a => Some a | Err _ => None end.

(** ** The unchecked snapshot *)

Record RawCredentials := mkRawCredentials {
  rc_brain_id : string;
  rc_clock : Clock;
  rc_records : list (string * StoredCredential.t);
}.

Record RawInvitations := mkRawInvitations {
  ri_brain_id : string;
  ri_clock : Clock;
  ri_pending : list (string * PendingInvitation.t);
}.

Record RawNode := mkRawNode {
  rn_member_id : string;
  rn_device_id : string;
  rn_last_seen_at : option Z;
  rn_online : bool;
  rn_revision : N;
  rn_announcement : option Envelope.t;
}.

Record RawTask := mkRawTask {
  rt_source : Envelope.t;
  rt_status : TaskStatus.t;
  rt_revision : N;
}.

Record RawBrain := mkRawBrain {
  rb_version : N;
  rb_brain_id : string;
  rb_owner_member_id : string;
  rb_revision : N;
  rb_clock : Clock;
  rb_credentials : RawCredentials;
  rb_invitations : RawInvitations;
  rb_members : list (string * MemberRecord.t);
  rb_nodes : list (string * RawNode);
  rb_tasks : list (string * RawTask);
  rb_replays : list ReplayRecord.t;
}.

(** serde_json on the snapshot. *)
Class SnapshotJson := {
  snapshot_to_vec : RawBrain -> option string;
  snapshot_from_slice : string -> option RawBrain;
}.
Class SnapshotJsonLaws `{SnapshotJson} : Prop :=
  snapshot_from_to raw bytes :
    snapshot_to_vec raw = Some bytes -> snapshot_from_slice bytes = Some raw.

Section Conversion.
Context `{Sha256, ProtocolJson}.

(** The derived serializers walk the maps in key order. *)
Definition node_to_raw (n : NodeRecord.t) : RawNode :=
  {| rn_member_id := n.(NodeRecord.member_id);
     rn_device_id := n.(NodeRecord.device_id);
     rn_last_seen_at := n.(NodeRecord.last_seen_at);
     rn_online := n.(NodeRecord.online);
     rn_revision := n.(NodeRecord.revision);
     rn_announcement := message_envelope <$> n.(NodeRecord.announcement) |}.

Definition task_to_raw (t : TaskRecord.t) : RawTask :=
  {| rt_source := t.(TaskRecord.source).(message_envelope);
     rt_status := t.(TaskRecord.status);
     rt_revision := t.(TaskRecord.revision) |}.

Definition to_raw (s : Brain.t) : RawBrain :=
  {| rb_version := s.(Brain.version);
     rb_brain_id := s.(Brain.brain_id);
     rb_owner_member_id := s.(Brain.owner_member_id);
     rb_revision := s.(Brain.revision);
     rb_clock := s.(Brain.clock);
     rb_credentials := mkRawCredentials s.(Brain.credentials).(CredentialRegistry.brain_id)
       s.(Brain.credentials).(CredentialRegistry.clock)
       (entries s.(Brain.credentials).(CredentialRegistry.records));
     rb_invitations := mkRawInvitations s.(Brain.invitations).(InvitationRegistry.brain_id)
       s.(Brain.invitations).(InvitationRegistry.clock)
       (entries s.(Brain.invitations).(InvitationRegistry.pending));
     rb_members := entries s.(Brain.members);
     rb_nodes := prod_map (fun k => k) node_to_raw <$> entries s.(Brain.nodes);
     rb_tasks := prod_map (fun k => k) task_to_raw <$> entries s.(Brain.tasks);
     rb_replays := s.(Brain.replays) |}.

Definition message_of_raw (e : Envelope.t) : option Message := to_option (message_try_from e).

Definition node_of_raw (n : RawNode) : option NodeRecord.t :=
  announcement ← match n.(rn_announcement) with
                 | None => Some None
                 | Some e => Some <$> message_of_raw e
                 end;
  Some {| NodeRecord.member_id := n.(rn_member_id);
          NodeRecord.device_id := n.(rn_device_id);
          NodeRecord.last_seen_at := n.(rn_last_seen_at);
          NodeRecord.online := n.(rn_online);
          NodeRecord.revision := n.(rn_revision);
          NodeRecord.announcement := announcement |}.

Definition task_of_raw (t : RawTask) : option TaskRecord.t :=
  source ← message_of_raw t.(rt_source);
  Some {| TaskRecord.source := source;
          TaskRecord.status := t.(rt_status);
          TaskRecord.revision := t.(rt_revision) |}.

Definition credentials_of_raw (r : RawCredentials) : option CredentialRegistry.t :=
  records ← unique_map Some 64 r.(rc_records);
  to_option (registry_try_from (CredentialRegistry.mk r.(rc_brain_id) r.(rc_clock) records)).

Definition invitations_of_raw (r : RawInvitations) : option InvitationRegistry.t :=
  pending ← unique_map Some 32 r.(ri_pending);
  to_option (invitations_try_from (InvitationRegistry.mk r.(ri_brain_id) r.(ri_clock) pending)).

(** [Deserialize for BrainSnapshot] *)
Definition of_raw (r : RawBrain) : option Brain.t :=
  credentials ← credentials_of_raw r.(rb_credentials);
  invitations ← invitations_of_raw r.(rb_invitations);
  members ← unique_map Some 64 r.(rb_members);
  nodes ← unique_map node_of_raw 64 r.(rb_nodes);
  tasks ← unique_map task_of_raw 64 r.(rb_tasks);
  Some {| Brain.version := r.(rb_version);
          Brain.brain_id := r.(rb_brain_id);
          Brain.owner_member_id := r.(rb_owner_member_id);
          Brain.revision := r.(rb_revision);
          Brain.clock := r.(rb_clock);
          Brain.credentials := credentials;
          Brain.invitations := invitations;
          Brain.members := members;
          Brain.nodes := nodes;
          Brain.tasks := tasks;
          Brain.replays := r.(rb_replays) |}.
End Conversion.

Section Codec.
Context `{Sha256, ProtocolJson, SnapshotJson}.

Definition brain_encode (s : Brain.t) : result BrainError string :=
  _ ← validate s;
  bytes ← ok_or (snapshot_to_vec (to_raw s)) Invalid;
  _ ← refuse (MAX_BRAIN_BYTES <? len bytes)%N BrainCapacity;
  Ok bytes.

Definition brain_decode (bytes : string) (brain_id : string) : result BrainError Brain.t :=
  _ ← refuse (MAX_BRAIN_BYTES <? len bytes)%N BrainCapacity;
  state ← ok_or (snapshot_from_slice bytes ≫= of_raw) Invalid;
  _ ← validate state;
  _ ← refuse (negb (str_eqb state.(Brain.brain_id) brain_id)) Invalid;
  Ok state.
End Codec.

(** ** Facts *)

Section UniqueMap.
Context {R T : Type}.
Implicit Types (f : R -> option T) (g : T -> R).

Lemma unique_map_from_entries f g limit l values :
  NoDup l.*1 -> (forall k, k ∈ l.*1 -> values !! k = None) ->
  (forall k v, (k, v) ∈ l -> f (g v) = Some v /\ (len k <= 128)%N) ->
  length l + size values <= limit ->
  unique_map_from f limit values (prod_map (fun k => k) g <$> l) = Some (list_to_map l ∪ values).
Proof.
  revert values. induction l as [|[k v] l IH]; intros values Hnd Hfresh Hval Hlen.
  { by rewrite list_to_map_nil, map_empty_union. }
  cbn [list_fmap fmap prod_map unique_map_from fst snd]. apply list.NoDup_cons in Hnd as [Hk Hnd].
  destruct (Hval k v) as [Hf Hkl]; [by left|]. simpl in Hlen.
  assert (values !! k = None) as Hvk by (apply Hfresh; by left).
  assert ((128 <? len k)%N || (limit <=? size values)%nat || contains_key k values = false) as ->.
  { repeat rewrite orb_false_iff. rewrite contains_key_false, N.ltb_ge, Nat.leb_gt.
    split_and!; try done; lia. }
  simpl. rewrite Hf. simpl. etrans; [apply IH; try done|].
  - intros k' Hk'. rewrite lookup_insert_ne; [apply Hfresh; by right|]. by intros ->.
  - intros k' v' Hin. apply Hval. by right.
  - rewrite map_size_insert_None by done. lia.
  - f_equal. rewrite <- insert_union_l, <- insert_union_r; [done|].
    by apply not_elem_of_list_to_map_1.
Qed.

(** A map is read back from its entries. *)
Lemma unique_map_entries f g limit (m : gmap string T) :
  (forall k v, m !! k = Some v -> f (g v) = Some v /\ (len k <= 128)%N) -> size m <= limit ->
  unique_map f limit (prod_map (fun k => k) g <$> entries m) = Some m.
Proof.
  intros Hm Hsize. unfold unique_map. rewrite unique_map_from_entries.
  - by rewrite map_union_empty, list_to_map_entries.
  - apply NoDup_entries_keys.
  - intros. apply lookup_empty.
  - intros k v Hin%elem_of_entries. auto.
  - rewrite length_entries, map_size_empty. lia.
Qed.

Lemma unique_map_from_sound f limit values l m :
  unique_map_from f limit values l = Some m -> size values <= limit ->
  size m <= limit /\
  forall k v, m !! k = Some v -> values !! k = Some v \/ exists r, (k, r) ∈ l /\ f r = Some v.
Proof.
  revert values. induction l as [|[k r] l IH]; intros values; simpl.
  { intros [= <-] Hsize. auto. }
  destruct ((_ || _) || _) eqn:Hg; [done|]. repeat rewrite orb_false_iff in Hg.
  destruct Hg as ((_ & Hsz%Nat.leb_gt) & Hk%contains_key_false).
  destruct (f r) as [v|] eqn:Hf; simpl; [|done]. intros Hrun Hsize.
  destruct (IH _ Hrun) as [Hm Hall]; [rewrite map_size_insert_None by done; lia|].
  split; [done|]. intros k' v' Hk'. destruct (Hall _ _ Hk') as [Hins|(r' & Hin & Hr')].
  - apply lookup_insert_Some in Hins as [[<- <-]|[_ ?]]; [right|by left].
    exists r. split; [by left|done].
  - right. exists r'. split; [by right|done].
Qed.

Lemma unique_map_sound f limit l m :
  unique_map f limit l = Some m ->
  size m <= limit /\ forall k v, m !! k = Some v -> exists r, (k, r) ∈ l /\ f r = Some v.
Proof.
  intros Hrun. destruct (unique_map_from_sound _ _ _ _ _ Hrun) as [Hm Hall];
    [rewrite map_size_empty; lia|].
  split; [done|]. intros k v Hk. destruct (Hall _ _ Hk) as [He|?]; [|done].
  by rewrite lookup_empty in He.
Qed.

(** The map reader accepts no repeated key: an input with two entries for
    the same key is refused, so no authority record is silently replaced. *)
Lemma unique_map_rejects_duplicates f limit l1 l2 l3 k r1 r2 :
  unique_map f limit (l1 ++ (k, r1) :: l2 ++ (k, r2) :: l3) = None.
Proof.
  unfold unique_map. generalize (∅ : gmap string T).
  assert (forall l values v, values !! k = Some v ->
    unique_map_from f limit values (l ++ (k, r2) :: l3) = None) as Hdup.
  { induction l as [|[k' r'] l IH]; intros values v Hk; simpl.
    - unfold contains_key. rewrite Hk. simpl. by rewrite orb_true_r.
    - destruct (_ || contains_key k' values) eqn:Hg; [done|].
      apply orb_false_iff in Hg as [_ Hk'%contains_key_false].
      destruct (f r') as [v'|]; simpl; [|done]. apply (IH _ v).
      rewrite lookup_insert_ne; [done|congruence]. }
  induction l1 as [|[k' r'] l1 IH]; intros values; simpl.
  - destruct (_ || _); [done|]. destruct (f r1) as [v|]; simpl; [|done].
    eapply Hdup, lookup_insert_eq.
  - destruct (_ || _); [done|]. destruct (f r') as [v'|]; simpl; [|done]. apply IH.
Qed.
End UniqueMap.

Section RoundTrip.
Context `{Sha256, ProtocolJson}.

Lemma id_len k : id k = true -> (len k <= 128)%N.
Proof. unfold id. intros Hid. bool_hyps. by apply N.leb_le. Qed.

Lemma message_of_raw_envelope m :
  message_ok m = true -> message_of_raw m.(message_envelope) = Some m.
Proof. intros Hm. unfold message_of_raw. by rewrite message_ok_try_from. Qed.

Lemma message_of_raw_ok e m : message_of_raw e = Some m -> message_ok m = true.
Proof.
  unfold message_of_raw. destruct (message_try_from e) eqn:Htf; [|done]. intros [= <-].
  by eapply message_try_from_message_ok.
Qed.

Lemma node_of_to_raw n :
  (forall m, n.(NodeRecord.announcement) = Some m -> message_ok m = true) ->
  node_of_raw (node_to_raw n) = Some n.
Proof.
  unfold node_of_raw, node_to_raw. destruct n as [? ? ? ? ? [m|]]; simpl; intros Hm; [|done].
  by rewrite message_of_raw_envelope by (by apply Hm).
Qed.

Lemma task_of_to_raw t :
  message_ok t.(TaskRecord.source) = true -> task_of_raw (task_to_raw t) = Some t.
Proof.
  unfold task_of_raw, task_to_raw. destruct t as [m ? ?]; simpl; intros Hm.
  by rewrite message_of_raw_envelope.
Qed.

(** The keys of every map of a Brain are short enough for the map reader. *)
Lemma task_key_id s k t :
  brain_wf s -> s.(Brain.tasks) !! k = Some t -> id k = true.
Proof.
  intros Hwf Hk. destruct (v_tasks _ (bw_valid _ Hwf) _ _ Hk) as (mid & _ & _ & Hp & _).
  pose proof (proj2 (bw_messages _ Hwf) _ _ Hk) as Hm. simpl in Hm.
  apply message_ok_spec in Hm as [Hok _]. pose proof (eok_payload _ Hok) as Hpay.
  unfold admission in Hp. simpl in Hp. destruct (Envelope.payload _) as [| |tk| | |]; try done.
  injection Hp as <- _ _. unfold payload_valid in Hpay. by bool_hyps.
Qed.

Lemma node_binding_valid s k n :
  brain_wf s -> s.(Brain.nodes) !! k = Some n ->
  binding_valid (CredentialBinding.mk s.(Brain.brain_id) n.(NodeRecord.member_id) k
    n.(NodeRecord.device_id)) = true.
Proof.
  intros Hwf Hk.
  destruct (lookup_node _ _ _ (bw_valid _ Hwf) (bw_credentials _ Hwf) Hk) as (v & _ & Hv & <- & _).
  apply (rwf_records _ (bw_credentials _ Hwf)) in Hv. unfold record_valid in Hv. by bool_hyps.
Qed.

Lemma node_key_id s k n : brain_wf s -> s.(Brain.nodes) !! k = Some n -> id k = true.
Proof.
  intros Hwf Hk. pose proof (node_binding_valid _ _ _ Hwf Hk) as Hb.
  unfold binding_valid in Hb. simpl in Hb. by bool_hyps.
Qed.

Lemma unique_map_identity {T} limit (m : gmap string T) :
  (forall k v, m !! k = Some v -> (len k <= 128)%N) -> size m <= limit ->
  unique_map Some limit (entries m) = Some m.
Proof.
  intros Hm Hsize. rewrite <- (unique_map_entries Some (fun v => v) limit m) at 1 by (eauto || done).
  f_equal. rewrite <- (list_fmap_id (entries m)) at 1. apply list_fmap_ext. by intros _ [k v] _.
Qed.

Lemma of_to_raw s : brain_wf s -> of_raw (to_raw s) = Some s.
Proof.
  intros Hwf. pose proof Hwf as [Hv Hc Hi [Hm1 Hm2]]. unfold of_raw, to_raw.
  unfold credentials_of_raw, invitations_of_raw. simpl.
  rewrite (unique_map_identity 64 s.(Brain.credentials).(CredentialRegistry.records));
    [|intros k v Hk|apply Hc].
  2: { apply (rwf_records _ Hc) in Hk. unfold record_valid, binding_valid in Hk.
       cbn [forallb] in Hk. bool_hyps. subst. by apply id_len. }
  simpl. replace (CredentialRegistry.mk _ _ _) with s.(Brain.credentials) by by destruct s as [? ? ? ? ? []].
  rewrite (proj2 (registry_try_from_wf _ (rwf_capacity _ Hc)) Hc). simpl.
  rewrite (unique_map_identity 32); [|intros k v Hk|apply Hi].
  2: { apply (iwf_pending _ Hi) in Hk. unfold pending_valid in Hk. bool_hyps.
       unfold token_parse, mbind, result_bind, refuse in *.
       destruct (len k =? 64)%N eqn:Hl; [|done]. lia. }
  simpl. replace (InvitationRegistry.mk _ _ _) with s.(Brain.invitations) by by destruct s as [? ? ? ? ? ? []].
  rewrite (proj2 (invitations_try_from_wf _ (iwf_capacity _ Hi)) Hi). simpl.
  rewrite (unique_map_identity 64 s.(Brain.members)); [|intros k v Hk|apply (v_header _ Hv)].
  2: { apply id_len. by destruct (v_members _ Hv _ _ Hk). }
  simpl. rewrite (unique_map_entries node_of_raw node_to_raw 64 s.(Brain.nodes));
    [|intros k v Hk|apply (v_header _ Hv)].
  2: { split; [apply node_of_to_raw, (Hm1 _ _ Hk)|]. by eapply id_len, node_key_id. }
  simpl. rewrite (unique_map_entries task_of_raw task_to_raw 64 s.(Brain.tasks));
    [|intros k v Hk|apply (v_tasks_cap _ Hv)].
  2: { split; [apply task_of_to_raw, (Hm2 _ _ Hk)|]. by eapply id_len, task_key_id. }
  simpl. by destruct s.
Qed.

Lemma credentials_of_raw_wf r c : credentials_of_raw r = Some c -> registry_wf c.
Proof.
  unfold credentials_of_raw. intros (m & [Hsize _]%unique_map_sound & Hrun)%bind_Some.
  destruct (registry_try_from _) as [c'|] eqn:Htf; [|done]. simpl in Hrun. injection Hrun as <-.
  pose proof Htf as Htf'. unfold registry_try_from in Htf'.
  rewrite !result_seq_ok in Htf'. destruct Htf' as (_ & _ & [= <-]).
  by apply registry_try_from_wf in Htf.
Qed.

Lemma invitations_of_raw_wf r i : invitations_of_raw r = Some i -> invitations_wf i.
Proof.
  unfold invitations_of_raw. intros (m & [Hsize _]%unique_map_sound & Hrun)%bind_Some.
  destruct (invitations_try_from _) as [i'|] eqn:Htf; [|done]. simpl in Hrun. injection Hrun as <-.
  pose proof Htf as Htf'. unfold invitations_try_from in Htf'.
  rewrite !result_seq_ok in Htf'. destruct Htf' as (_ & _ & [= <-]).
  by apply invitations_try_from_wf in Htf.
Qed.

Lemma of_raw_wf r s : of_raw r = Some s -> validate s = Ok tt -> brain_wf s.
Proof.
  unfold of_raw. intros Hrun Hv%validate_ok.
  apply bind_Some in Hrun as (c & Hc & Hrun). apply bind_Some in Hrun as (i & Hi & Hrun).
  apply bind_Some in Hrun as (ms & _ & Hrun). apply bind_Some in Hrun as (ns & Hns & Hrun).
  apply bind_Some in Hrun as (ts & Hts & [= <-]).
  apply unique_map_sound in Hns as [_ Hns], Hts as [_ Hts]. split; [done|..]; simpl.
  - by eapply credentials_of_raw_wf.
  - by eapply invitations_of_raw_wf.
  - split; simpl.
    + intros k n Hk m Hm. destruct (Hns _ _ Hk) as (rn & _ & Hrn). unfold node_of_raw in Hrn.
      apply bind_Some in Hrn as (a & Ha & [= <-]). simpl in Hm. subst a.
      destruct (rn_announcement rn) as [e|]; [|done].
      apply fmap_Some in Ha as (m' & Hm' & [= ->]). by eapply message_of_raw_ok.
    + intros k t Hk. destruct (Hts _ _ Hk) as (rt & _ & Hrt). unfold task_of_raw in Hrt.
      apply bind_Some in Hrt as (m & Hm & [= <-]). by eapply message_of_raw_ok.
Qed.
End RoundTrip.

Section CodecFacts.
Context `{Sha256, ProtocolJson, SnapshotJson}.

Lemma brain_decode_ok bytes brain_id s :
  brain_decode bytes brain_id = Ok s ->
  brain_wf s /\ s.(Brain.brain_id) = brain_id /\ (len bytes <= MAX_BRAIN_BYTES)%N.
Proof.
  unfold brain_decode. rewrite result_seq_ok, refuse_ok, N.ltb_ge, result_bind_ok.
  intros (Hlen & s' & Hraw & Hrest). rewrite !result_seq_ok, refuse_ok in Hrest.
  destruct Hrest as (Hv & Hb & [= <-]). bool_hyps.
  apply bind_Some in Hraw as (r & _ & Hr). split_and!; try done. by eapply of_raw_wf.
Qed.

Lemma brain_encode_ok s bytes :
  brain_encode s = Ok bytes <->
  validate s = Ok tt /\ snapshot_to_vec (to_raw s) = Some bytes /\
  (len bytes <= MAX_BRAIN_BYTES)%N.
Proof.
  unfold brain_encode. rewrite result_seq_ok, result_bind_ok. setoid_rewrite ok_or_ok.
  setoid_rewrite result_seq_ok. setoid_rewrite refuse_ok. setoid_rewrite N.ltb_ge. naive_solver.
Qed.

Lemma brain_decode_encode (Hlaws : SnapshotJsonLaws) s bytes :
  brain_wf s -> brain_encode s = Ok bytes -> brain_decode bytes s.(Brain.brain_id) = Ok s.
Proof.
  intros Hwf (Hv & Hb & Hlen)%brain_encode_ok. unfold brain_decode.
  rewrite result_seq_ok, refuse_ok, N.ltb_ge, result_bind_ok. split; [done|]. exists s.
  rewrite (snapshot_from_to _ _ Hb). simpl. rewrite (of_to_raw s Hwf). split; [done|].
  rewrite !result_seq_ok, refuse_ok, str_eqb_refl. done.
Qed.

(** C32: a snapshot restores the Brain it was taken of. For every reachable Brain,
    decoding its encoding under its own id gives the same Brain back, and under any other
    id is refused. Whatever the bytes, what [decode] accepts is at most 2 MiB, is
    a well-formed Brain and has the id that was asked for. *)
Theorem snapshot_roundtrip (Hlaws : SnapshotJsonLaws) s bytes :
  reachable s -> brain_encode s = Ok bytes ->
  brain_decode bytes s.(Brain.brain_id) = Ok s /\
  (forall brain_id, brain_id <> s.(Brain.brain_id) -> brain_decode bytes brain_id = Err Invalid) /\
  (forall bytes' brain_id s', brain_decode bytes' brain_id = Ok s' ->
     brain_wf s' /\ s'.(Brain.brain_id) = brain_id /\ (len bytes' <= MAX_BRAIN_BYTES)%N).
Proof.
  intros Hwf%reachable_wf Henc. pose proof (brain_decode_encode Hlaws _ _ Hwf Henc) as Hdec.
  split_and!; [done| |by eauto using brain_decode_ok]. intros brain_id Hne.
  unfold brain_decode in *. rewrite result_seq_ok, result_bind_ok in Hdec.
  destruct Hdec as (-> & s' & -> & Hrest). rewrite !result_seq_ok in Hrest.
  destruct Hrest as (Hv & _ & [= ->]). simpl. rewrite Hv. simpl.
  rewrite (proj2 (str_eqb_false _ _)) by done. done.
Qed.
End CodecFacts.
