(* ===== verification/Storage.v ===== *)
(** * Durable storage (collaboration/storage.rs)

    One file holds the Brain inside a hashed document. The file system is explicit: the
    state of the file, and for each write whether it failed before or after the file was
    replaced. [transact] stages an operation on a decoded copy and commits the whole
    snapshot before it releases a result. *)

From S2P Require Import Prelude Protocol Credential Invitation Brain BrainValid BrainInv BrainOps BrainThm Snapshot.

Definition MAX_FILE_BYTES : N := MAX_BRAIN_BYTES * 2 + 1024.

Module StorageError.
Inductive t :=
| Read | Write | Invalid | Existing | Locked | Changed | Unavailable | State (e : BrainError).
#[global] Instance eq_dec : EqDecision t.
Proof. solve_decision. Defined.
End StorageError.

Module Document.
Record t := mk { version : N; payload : string; sha256 : string }.
End Document.

(** serde_json on the document. *)
Class DocumentJson := {
  document_to_vec : Document.t -> option string;
  document_from_slice : string -> option Document.t;
}.
Class DocumentJsonLaws `{DocumentJson} : Prop :=
  document_from_to d bytes : document_to_vec d = Some bytes -> document_from_slice bytes = Some d.

(** What the path names: nothing, a file, or something the code refuses to read. *)
Inductive FileState := Missing | Regular (bytes : string) | NotRegular | Unreadable.

(** How one replacement of the file ends. *)
Inductive WriteOutcome := Committed | FailedBefore | FailedAfter.

Module BrainStore.
Record t := mk { brain : Brain.t; disk_hash : string; poisoned : bool }.
Definition poison (s : t) : t := mk s.(brain) s.(disk_hash) true.
End BrainStore.

(** The store and the file it writes. *)
Record Disk := mkDisk { store : BrainStore.t; file : FileState }.
Definition set_store (s : BrainStore.t) (d : Disk) : Disk := mkDisk s d.(file).
Definition set_file (f : FileState) (d : Disk) : Disk := mkDisk d.(store) f.

Definition read (f : FileState) : result StorageError.t string :=
  match f with
  | Missing | Unreadable => Err StorageError.Read
  | NotRegular => Err StorageError.Invalid
  | Regular bytes =>
    _ ← refuse (MAX_FILE_BYTES <? len bytes)%N StorageError.Invalid;
    Ok bytes
  end.

Section Operations.
Context `{Sha256, ProtocolJson, SnapshotJson, DocumentJson}.

Definition document (brain : Brain.t) : result StorageError.t string :=
  payload ← map_err StorageError.State (brain_encode brain);
  _ ← refuse (negb (is_utf8 payload)) StorageError.Invalid;
  bytes ← ok_or (document_to_vec (Document.mk 1 payload (sha256_digest payload)))
            StorageError.Invalid;
  _ ← refuse (MAX_FILE_BYTES <? len bytes)%N StorageError.Invalid;
  Ok bytes.

(** [write]: the temporary file's nonce is drawn first. *)
Definition write (bytes : string) (nonce : draw) (outcome : WriteOutcome)
    : M FileState StorageError.t unit :=
  _ ← lift (map_err (fun e => StorageError.State (Access e)) (token_generate nonce));
  match outcome with
  | Committed => modify (fun _ => Regular bytes)
  | FailedBefore => throw StorageError.Write
  | FailedAfter => _ ← modify (fun _ => Regular bytes); throw StorageError.Write
  end.

(** [candidate.observe(now)?] on a staged copy *)
Definition staged_observe (now : Z) (candidate : Brain.t) : result StorageError.t Brain.t :=
  let (r, candidate) := observe now candidate in
  _ ← map_err StorageError.State r;
  Ok candidate.

(** The staged operation with the document of its final state. *)
Definition stage {R} (operation : BrainM R) (candidate : Brain.t)
    : result StorageError.t (R * string * Brain.t) :=
  let (r, candidate) := operation candidate in
  value ← map_err StorageError.State r;
  bytes ← document candidate;
  Ok (value, bytes, candidate).

(** The commit point of [transact]. *)
Definition commit {R} (result : result StorageError.t R) (bytes : string) (candidate : Brain.t)
    (nonce : draw) (outcome : WriteOutcome) : M Disk StorageError.t R :=
  d ← get;
  let hash := sha256_digest bytes in
  let (written, file') :=
    if negb (str_eqb hash d.(store).(BrainStore.disk_hash))
    then write bytes nonce outcome d.(file) else (Ok tt, d.(file)) in
  _ ← modify (set_file file');
  match written with
  | Err _ => _ ← modify (fun d => set_store (BrainStore.poison d.(store)) d);
             throw StorageError.Write
  | Ok _ => _ ← modify (set_store (BrainStore.mk candidate hash false));
            lift result
  end.

Definition transact {R} (now : Z) (operation : BrainM R) (nonce : draw)
    (outcome : WriteOutcome) : M Disk StorageError.t R :=
  d ← get;
  let s := d.(store) in
  _ ← reject_if s.(BrainStore.poisoned) StorageError.Unavailable;
  if negb (match read d.(file) with
           | Ok bytes => str_eqb (sha256_digest bytes) s.(BrainStore.disk_hash)
           | Err _ => false
           end)
  then _ ← modify (fun d => set_store (BrainStore.poison d.(store)) d);
       throw StorageError.Changed
  else
  let brain_id := s.(BrainStore.brain).(Brain.brain_id) in
  baseline ← lift (map_err StorageError.State (brain_encode s.(BrainStore.brain)));
  candidate ← lift (map_err StorageError.State (brain_decode baseline brain_id));
  candidate ← lift (staged_observe now candidate);
  match stage operation candidate with
  | Ok (value, bytes, candidate) => commit (Ok value) bytes candidate nonce outcome
  | Err error =>
    candidate ← lift (map_err StorageError.State (brain_decode baseline brain_id));
    candidate ← lift (staged_observe now candidate);
    bytes ← lift (document candidate);
    commit (Err error) bytes candidate nonce outcome
  end.

(** [BrainStore::create]; [lock] is the outcome of [lock_directory] in mode [Create]. *)
Definition store_create (brain_id : string) (owner : OwnerProfile.t) (now : Z)
    (dm dn ds : draw) (lock : result StorageError.t unit) (nonce : draw)
    (outcome : WriteOutcome) : M FileState StorageError.t (BrainStore.t * IssuedCredential.t) :=
  booted ← lift (map_err StorageError.State (bootstrap brain_id owner now dm dn ds));
  let (brain, credential) := (booted : Brain.t * IssuedCredential.t) in
  _ ← lift lock;
  f ← get;
  _ ← reject_if (match f with Missing => false | _ => true end) StorageError.Existing;
  bytes ← lift (document brain);
  _ ← write bytes nonce outcome;
  mret (BrainStore.mk brain (sha256_digest bytes) false, credential).

(** The part of [open] that turns file contents into a Brain. *)
Definition load (bytes : string) (brain_id : string) : result StorageError.t Brain.t :=
  document ← ok_or (document_from_slice bytes) StorageError.Invalid;
  _ ← refuse
    (negb (document.(Document.version) =? 1)%N
     || (MAX_BRAIN_BYTES <? len document.(Document.payload))%N
     || negb (str_eqb (sha256_digest document.(Document.payload)) document.(Document.sha256)))
    StorageError.Invalid;
  map_err StorageError.State (brain_decode document.(Document.payload) brain_id).

(** [BrainStore::open]; [lock] is the outcome of [lock_directory] in mode [Existing]. *)
Definition store_open (brain_id : string) (now : Z) (lock : result StorageError.t unit)
    (nonce : draw) (outcome : WriteOutcome) (f : FileState)
    : result StorageError.t BrainStore.t * FileState :=
  match (_ ← lock; bytes ← read f; brain ← load bytes brain_id; Ok (bytes, brain)) with
  | Err e => (Err e, f)
  | Ok (bytes, brain) =>
    let store0 := BrainStore.mk brain (sha256_digest bytes) false in
    let (r, d) := transact now (reset_presence now Restart) nonce outcome (mkDisk store0 f) in
    ((fun _ => d.(store)) <$> r, d.(file))
  end.
End Operations.

(** ** Facts *)

Section Facts.
Context `{Sha256, ProtocolJson, SnapshotJson, DocumentJson}.
Context (Hsnap : SnapshotJsonLaws) (Hdoc : DocumentJsonLaws).

Lemma document_ok brain bytes :
  document brain = Ok bytes ->
  exists payload, brain_encode brain = Ok payload /\
    document_to_vec (Document.mk 1 payload (sha256_digest payload)) = Some bytes /\
    (len bytes <= MAX_FILE_BYTES)%N.
Proof.
  unfold document. rewrite result_bind_ok. intros (payload & Hp & Hrest).
  rewrite result_seq_ok, result_bind_ok in Hrest. destruct Hrest as (_ & b & Hb & Hl).
  rewrite result_seq_ok, refuse_ok, N.ltb_ge in Hl. destruct Hl as [Hl [= <-]].
  exists payload. destruct (brain_encode brain); simplify_eq/=. apply ok_or_ok in Hb. done.
Qed.

(** What was written is what a later process reads. *)
Lemma load_document brain bytes :
  brain_wf brain -> document brain = Ok bytes -> load bytes brain.(Brain.brain_id) = Ok brain.
Proof.
  intros Hwf (payload & Hp & Hb & _)%document_ok. unfold load.
  rewrite (document_from_to _ _ Hb). simpl. apply brain_encode_ok in Hp as Hp'.
  destruct Hp' as (_ & _ & Hl). rewrite result_seq_ok, refuse_ok, str_eqb_refl. simpl.
  rewrite orb_false_r. split; [by apply N.ltb_ge|].
  by rewrite (brain_decode_encode Hsnap _ _ Hwf Hp).
Qed.

Lemma load_ok bytes brain_id brain :
  load bytes brain_id = Ok brain -> brain_wf brain /\ brain.(Brain.brain_id) = brain_id.
Proof.
  unfold load. rewrite result_bind_ok. intros (doc & _ & Hrest).
  rewrite result_seq_ok in Hrest. destruct Hrest as [_ Hd].
  destruct (brain_decode _ _) as [b|] eqn:Hdec; simplify_eq/=.
  apply brain_decode_ok in Hdec as (? & ? & _). done.
Qed.

(** The store serves, and its file holds exactly the Brain it serves. *)
Record in_sync (d : Disk) : Prop := {
  sync_serving : d.(store).(BrainStore.poisoned) = false;
  sync_wf : brain_wf d.(store).(BrainStore.brain);
  sync_file : exists bytes, d.(file) = Regular bytes /\ (len bytes <= MAX_FILE_BYTES)%N /\
    sha256_digest bytes = d.(store).(BrainStore.disk_hash) /\
    load bytes d.(store).(BrainStore.brain).(Brain.brain_id) = Ok d.(store).(BrainStore.brain);
}.

(** The document of this candidate is another one than the file's, with the same hash. *)
Definition collides (d : Disk) (candidate : Brain.t) : Prop :=
  exists bytes bytes', d.(file) = Regular bytes /\ document candidate = Ok bytes' /\
    bytes' <> bytes /\ sha256_digest bytes' = sha256_digest bytes.

(** The file of an interrupted commit: the old one, or the complete new document. *)
Definition old_or_new (d d' : Disk) (candidate : Brain.t) : Prop :=
  d'.(file) = d.(file) \/
  exists bytes, d'.(file) = Regular bytes /\
    load bytes candidate.(Brain.brain_id) = Ok candidate.

Lemma commit_spec {R} (result : result StorageError.t R) bytes candidate nonce outcome d res d' :
  in_sync d -> brain_wf candidate ->
  candidate.(Brain.brain_id) = d.(store).(BrainStore.brain).(Brain.brain_id) ->
  document candidate = Ok bytes ->
  commit result bytes candidate nonce outcome d = (res, d') ->
  (res = result /\ in_sync d' /\ d'.(store).(BrainStore.brain) = candidate) \/
  (res = Err StorageError.Write /\ d'.(store).(BrainStore.poisoned) = true /\
   old_or_new d d' candidate /\ d'.(store).(BrainStore.brain) = d.(store).(BrainStore.brain)) \/
  (d'.(store).(BrainStore.brain) = candidate /\ collides d candidate).
Proof.
  intros [Hserve Hwf (old & Hfile & Hlen & Hhash & Hload)] Hcand Hid Hdocu.
  pose proof (load_document _ _ Hcand Hdocu) as Hnew.
  pose proof (document_ok _ _ Hdocu) as (_ & _ & _ & Hblen).
  unfold commit, mbind, M_bind, get, modify, throw, lift.
  destruct (str_eqb (sha256_digest bytes) _) eqn:Hsame; simpl.
  - intros [= <- <-]. apply str_eqb_true in Hsame. destruct (decide (bytes = old)) as [->|Hne].
    + left. split_and!; try done. split; simpl; try done. exists old. by split_and!.
    + right. right. split; [done|]. exists old, bytes. split_and!; congruence.
  - unfold write, mbind, M_bind, lift, modify, throw. destruct (token_generate nonce); simpl.
    + destruct outcome; simpl; intros [= <- <-].
      * left. split_and!; try done. split; simpl; try done. exists bytes. by split_and!.
      * right. left. split_and!; try done. by left.
      * right. left. split_and!; try done. right. by exists bytes.
    + intros [= <- <-]. right. left. split_and!; try done. by left.
Qed.

(** An operation that keeps the invariant and the Brain's identity, on a Brain whose
    clock stands at the time of the transaction. *)
Definition sound_operation {R} (now : Z) (operation : BrainM R) : Prop :=
  forall s v s', brain_wf s -> brain_high_water s = now -> operation s = (Ok v, s') ->
    brain_wf s' /\ s'.(Brain.brain_id) = s.(Brain.brain_id).

(** A state that a transaction may write: the observed baseline, or the result of the
    operation on it. *)
Definition staged {R} (now : Z) (operation : BrainM R) (brain candidate : Brain.t) : Prop :=
  observe now brain = (Ok tt, candidate) \/
  exists brain1 v, observe now brain = (Ok tt, brain1) /\ operation brain1 = (Ok v, candidate).

(** The three ways a transaction ends. *)
Inductive transacted {R} (now : Z) (operation : BrainM R) (d d' : Disk)
    : result StorageError.t R -> Prop :=
| tx_done v brain1 :
    observe now d.(store).(BrainStore.brain) = (Ok tt, brain1) ->
    operation brain1 = (Ok v, d'.(store).(BrainStore.brain)) ->
    in_sync d' -> transacted now operation d d' (Ok v)
| tx_refused e :
    in_sync d' ->
    d'.(store).(BrainStore.brain) = d.(store).(BrainStore.brain) \/
    observe now d.(store).(BrainStore.brain) = (Ok tt, d'.(store).(BrainStore.brain)) ->
    transacted now operation d d' (Err e)
| tx_unconfirmed candidate :
    d'.(store).(BrainStore.poisoned) = true ->
    staged now operation d.(store).(BrainStore.brain) candidate ->
    candidate.(Brain.brain_id) = d.(store).(BrainStore.brain).(Brain.brain_id) ->
    old_or_new d d' candidate ->
    d'.(store).(BrainStore.brain) = d.(store).(BrainStore.brain) ->
    transacted now operation d d' (Err StorageError.Write).

Lemma staged_observe_ok now s c :
  staged_observe now s = Ok c -> observe now s = (Ok tt, c).
Proof.
  unfold staged_observe. destruct (observe now s) as [[[]|] s'] eqn:Ho; simpl; naive_solver.
Qed.

Lemma observe_sound now s u s' :
  brain_wf s -> observe now s = (Ok u, s') ->
  brain_wf s' /\ s'.(Brain.brain_id) = s.(Brain.brain_id) /\ brain_high_water s' = now.
Proof.
  intros Hwf (Ht & Hle & ->)%observe_ok. split_and!; [by apply observed_wf|done..].
Qed.

(** A transaction, without any assumption on the hash. *)
Lemma transact_cases {R} now (operation : BrainM R) nonce outcome d res d' :
  in_sync d -> sound_operation now operation ->
  transact now operation nonce outcome d = (res, d') ->
  transacted now operation d d' res \/
  (staged now operation d.(store).(BrainStore.brain) d'.(store).(BrainStore.brain) /\
   collides d d'.(store).(BrainStore.brain)).
Proof.
  intros Hsync Hop. pose proof Hsync as [Hserve Hwf (bytes & Hfile & Hlen & Hhash & Hload)].
  unfold transact, mbind at 1, M_bind at 1, get. rewrite Hserve. erewrite bind_ok by done.
  rewrite Hfile. cbn [read]. apply N.ltb_ge in Hlen. rewrite Hlen. simpl. rewrite Hhash, str_eqb_refl.
  simpl. unfold mbind, M_bind, lift.
  destruct (brain_encode _) as [baseline|e] eqn:Henc; simpl;
    [|intros [= <- <-]; left; apply tx_refused; auto].
  rewrite (brain_decode_encode Hsnap _ _ Hwf Henc). simpl.
  destruct (staged_observe now _) as [c1|e] eqn:Hobs; simpl;
    [|intros [= <- <-]; left; apply tx_refused; auto].
  apply staged_observe_ok in Hobs as Ho. destruct (observe_sound _ _ _ _ Hwf Ho) as (Hwf1 & Hid1 & Hhw1).
  destruct (stage operation c1) as [[[v new] c2]|e] eqn:Hstage.
  - unfold stage in Hstage. destruct (operation c1) as [[v'|] c2'] eqn:Hrun; simpl in Hstage; [|done].
    destruct (document c2') as [new'|] eqn:Hd; simpl in Hstage; [|done]. injection Hstage as -> -> ->.
    destruct (Hop _ _ _ Hwf1 Hhw1 Hrun) as [Hwf2 Hid2].
    intros Hcommit. eapply commit_spec in Hcommit as [(-> & Hs' & <-)|[(-> & Hp & Hon & ?)|[<- Hcol]]];
      [left; by eapply tx_done
      |left; eapply tx_unconfirmed; [done|right; eauto|congruence|done|done]
      |right; split; [right; eauto|done]|done..|congruence|done].
  - destruct (document c1) as [new|e'] eqn:Hd; simpl; [|intros [= <- <-]; left; apply tx_refused; auto].
    intros Hcommit. eapply commit_spec in Hcommit as [(-> & Hs' & <-)|[(-> & Hp & Hon & ?)|[<- Hcol]]];
      [left; by eapply tx_refused; auto|left; eapply tx_unconfirmed; [done|by left|done|done|done]
      |right; split; [by left|done]|done..].
Qed.

Lemma transact_spec {R} now (operation : BrainM R) nonce outcome d res d' :
  in_sync d -> sound_operation now operation ->
  transact now operation nonce outcome d = (res, d') ->
  (collides d d'.(store).(BrainStore.brain) -> False) -> transacted now operation d d' res.
Proof. intros Hsync Hop Hrun Hcol. by destruct (transact_cases _ _ _ _ _ _ _ Hsync Hop Hrun) as [|[_ ?]]. Qed.

(** Every operation of the Brain may run inside a transaction. *)
Lemma step_sound {R} now (operation : BrainM R) :
  (forall s v s', operation s = (Ok v, s') -> brain_step s s') -> sound_operation now operation.
Proof.
  intros Hstep s v s' Hwf _ Hrun. apply Hstep in Hrun.
  split; [by eapply brain_step_wf|]. apply (ss_brain _ _ (brain_step_summary _ _ Hrun)).
Qed.

(** C1: a transaction on a store in sync with its file is all or nothing, as long
    as the document it ends with does not collide with the one on disk. If it
    returns a value, the operation ran on the baseline at the observed time and the file
    holds its result; if it returns an error and the store still serves, at most the clock
    moved; and whatever happened, a failed or interrupted write included, the file loads
    to the old Brain, to the old Brain at the new time, or to the operation's result. *)
Theorem transact_atomic {R} now (operation : BrainM R) nonce outcome d res d' :
  in_sync d -> sound_operation now operation ->
  transact now operation nonce outcome d = (res, d') ->
  ~ collides d d'.(store).(BrainStore.brain) ->
  let old := d.(store).(BrainStore.brain) in
  let new := d'.(store).(BrainStore.brain) in
  (forall v, res = Ok v -> in_sync d' /\ exists brain1,
     observe now old = (Ok tt, brain1) /\ operation brain1 = (Ok v, new)) /\
  (forall e, res = Err e -> d'.(store).(BrainStore.poisoned) = false ->
     in_sync d' /\ (new = old \/ observe now old = (Ok tt, new))) /\
  exists bytes brain, d'.(file) = Regular bytes /\ load bytes old.(Brain.brain_id) = Ok brain /\
    (brain = old \/ staged now operation old brain).
Proof.
  intros Hsync Hop Hrun Hcol old new.
  assert (forall s', in_sync s' -> s'.(store).(BrainStore.brain).(Brain.brain_id) = old.(Brain.brain_id) ->
    exists bytes brain, s'.(file) = Regular bytes /\ load bytes old.(Brain.brain_id) = Ok brain /\
      brain = s'.(store).(BrainStore.brain)) as Hfile.
  { intros s' [_ _ (bytes & Hf & _ & _ & Hl)] Hid. rewrite Hid in Hl. eauto. }
  destruct (transact_spec _ _ _ _ _ _ _ Hsync Hop Hrun Hcol)
    as [v b1 Ho Hr Hs'|e Hs' Hb|c Hp Hstaged Hid Hon].
  - split_and!; [intros v' [= <-]; eauto|done|].
    destruct (observe_sound _ _ _ _ (sync_wf _ Hsync) Ho) as (Hwf1 & Hid1 & Hhw1).
    destruct (Hop _ _ _ Hwf1 Hhw1 Hr) as [_ Hid2].
    destruct (Hfile _ Hs') as (bytes & b & ? & ? & ->); [unfold old; congruence|].
    exists bytes, new. split_and!; try done. right. right. eauto.
  - split_and!; [done|intros e' _ _; eauto|].
    destruct (Hfile _ Hs') as (bytes & b & ? & ? & ->).
    { destruct Hb as [->|Hb]; [done|]. apply (observe_sound _ _ _ _ (sync_wf _ Hsync) Hb). }
    exists bytes, new. split_and!; try done. destruct Hb; [by left|right; by left].
  - split_and!; [done|intros; congruence|]. destruct Hon as [Heq|(bytes & Hf & Hl)].
    + destruct (sync_file _ Hsync) as (bytes & Hf & _ & _ & Hl). exists bytes, old.
      rewrite Heq. by split_and!; auto.
    + exists bytes, c. unfold old. rewrite <- Hid. by split_and!; auto.
Qed.

(** A store whose file changed under it, or whose last commit could not be
    confirmed, never serves again: the transaction fails without touching the file or
    running the operation, and so does every later one. *)
Theorem transact_fenced {R} now (operation : BrainM R) nonce outcome d :
  d.(store).(BrainStore.poisoned) = true \/
  ~ (exists bytes, read d.(file) = Ok bytes /\
       sha256_digest bytes = d.(store).(BrainStore.disk_hash)) ->
  exists e d', transact now operation nonce outcome d = (Err e, d') /\
    (e = StorageError.Unavailable \/ e = StorageError.Changed) /\
    d'.(file) = d.(file) /\ d'.(store).(BrainStore.brain) = d.(store).(BrainStore.brain) /\
    forall R' now' (operation' : BrainM R') nonce' outcome' f,
      transact now' operation' nonce' outcome' (set_file f d')
      = (Err StorageError.Unavailable, set_file f d').
Proof.
  intros Hcase. unfold transact at 1, mbind at 1, M_bind at 1, get.
  destruct (BrainStore.poisoned _) eqn:Hp.
  - eexists _, d. split; [done|]. split_and!; auto. intros. unfold transact, mbind, M_bind, get.
    simpl. by rewrite Hp.
  - destruct Hcase as [?|Hne]; [done|]. erewrite bind_ok by done.
    assert (match read (file d) with
      | Ok bytes => str_eqb (sha256_digest bytes) d.(store).(BrainStore.disk_hash)
      | Err _ => false end = false) as ->.
    { destruct (read (file d)) as [bytes|] eqn:Hr; [|done]. apply str_eqb_false.
      intros Heq. apply Hne. eauto. }
    simpl. eexists _, _. split; [done|]. by split_and!; auto.
Qed.

Lemma reset_presence_sound now reason : sound_operation now (reset_presence now reason).
Proof. apply step_sound. intros. by eapply bs_reset_presence. Qed.

(** After a restart no Node is online. *)
Lemma restart_offline now s r s' k n :
  reset_presence now Restart s = (Ok r, s') -> s'.(Brain.nodes) !! k = Some n ->
  n.(NodeRecord.online) = false.
Proof.
  intros (_ & _ & _ & Hs)%reset_presence_ok Hk. destruct (existsb _ _) eqn:Hex.
  - destruct Hs as [_ ->]. simpl in Hk. rewrite lookup_update_where in Hk.
    apply fmap_Some in Hk as (n0 & Hk & ->). unfold presence_expired.
    by destruct n0.(NodeRecord.online) eqn:Hon; simpl.
  - subst s'. apply existsb_values_false in Hex. pose proof (Hex _ _ Hk) as Hn.
    unfold presence_expired in Hn. by destruct n.(NodeRecord.online).
Qed.

(** A store that opens serves the Brain its file holds, at the observed time
    and with every Node offline, and is in sync with the file (if the new document does not
    collide with the file's); a store that does not open
    leaves a file that still loads to the same Brain or to that Brain after the restart. *)
Theorem open_restores brain_id now nonce outcome f res f' bytes :
  f = Regular bytes ->
  (forall old brain, load bytes brain_id = Ok old ->
     staged now (reset_presence now Restart) old brain ->
     ~ collides (mkDisk (BrainStore.mk old (sha256_digest bytes) false) f) brain) ->
  store_open brain_id now (Ok tt) nonce outcome f = (res, f') ->
  match res with
  | Ok st =>
    in_sync (mkDisk st f') /\ st.(BrainStore.brain).(Brain.brain_id) = brain_id /\
    (exists old, load bytes brain_id = Ok old /\
       staged now (reset_presence now Restart) old st.(BrainStore.brain)) /\
    forall k n, st.(BrainStore.brain).(Brain.nodes) !! k = Some n ->
      n.(NodeRecord.online) = false
  | Err _ =>
    f' = f \/ exists old bytes' brain, load bytes brain_id = Ok old /\ f' = Regular bytes' /\
      load bytes' brain_id = Ok brain /\
      (brain = old \/ staged now (reset_presence now Restart) old brain)
  end.
Proof.
  intros -> Hcol. unfold store_open. simpl.
  destruct (MAX_FILE_BYTES <? len bytes)%N eqn:Hlen; simpl; [intros [= <- <-]; by left|].
  destruct (load bytes brain_id) as [old|e] eqn:Hload; simpl; [|intros [= <- <-]; by left].
  destruct (load_ok _ _ _ Hload) as [Hwf Hid].
  set (d := mkDisk (BrainStore.mk old (sha256_digest bytes) false) (Regular bytes)).
  assert (in_sync d) as Hsync.
  { split; simpl; try done. exists bytes. rewrite Hid. apply N.ltb_ge in Hlen. by split_and!. }
  destruct (transact _ _ _ _ d) as [r d'] eqn:Hrun. intros [= <- <-].
  destruct (transact_cases _ _ _ _ _ _ _ Hsync (reset_presence_sound now Restart) Hrun)
    as [Htx|[Hst Hc]]; [|by destruct (Hcol _ _ eq_refl Hst)].
  destruct Htx as [v b1 Ho Hr Hs'|e Hs' Hb|c Hp Hstaged Hcid Hon]; simpl in *.
  - destruct (observe_sound _ _ _ _ Hwf Ho) as (Hwf1 & Hid1 & Hhw1).
    destruct (reset_presence_sound _ _ _ _ _ Hwf1 Hhw1 Hr) as [_ Hid2]. split_and!.
    + by destruct d'.
    + congruence.
    + exists old. split; [done|]. right. eauto.
    + intros k n. by apply (restart_offline now b1 v).
  - right. destruct (sync_file _ Hs') as (bytes' & Hf & _ & _ & Hl).
    assert (Brain.brain_id (BrainStore.brain (store d')) = brain_id) as Hid'.
    { destruct Hb as [->|Hb]; [done|]. destruct (observe_sound _ _ _ _ Hwf Hb) as (_ & ? & _). congruence. }
    rewrite Hid' in Hl. exists old, bytes', (BrainStore.brain (store d')).
    split_and!; try done. destruct Hb; [by left|right; by left].
  - destruct Hon as [Heq|(bytes' & Hf & Hl)]; [by left|right]. exists old, bytes', c.
    rewrite Hcid, Hid in Hl. by split_and!; auto.
Qed.

(** A Brain that was created is on disk when its owner's credential is
    handed out: the file loads to exactly that Brain, and the store is in sync. An
    existing file is never overwritten. *)
Theorem create_is_durable brain_id owner now dm dn ds lock nonce outcome f res f' :
  store_create brain_id owner now dm dn ds lock nonce outcome f = (res, f') ->
  (f <> Missing -> f' = f /\ is_ok res = false) /\
  (forall st c, res = Ok (st, c) -> in_sync (mkDisk st f') /\
     bootstrap brain_id owner now dm dn ds = Ok (st.(BrainStore.brain), c)).
Proof.
  unfold store_create. intros Hrun. destruct res as [[st c]|e].
  - run_inv Hrun. destruct (bootstrap _ _ _ _ _ _) as [[b c']|] eqn:Hboot; simpl in *; [|done].
    simplify_eq. run_inv Hrun1. simplify_eq.
    assert (f = Missing) as -> by (by destruct f).
    split; [done|]. intros st' c'' [= <- <-]. split; [|done].
    pose proof (bootstrap_wf _ _ _ _ _ _ _ _ Hboot) as Hwf.
    match goal with H : document _ = Ok ?x |- _ => rename x into bytes; rename H into Hdocu end.
    match goal with H : write _ _ _ _ = (_, ?g) |- _ => assert (g = Regular bytes) as -> end.
    { match goal with H : write _ _ _ _ = _ |- _ => revert H end.
      unfold write, mbind, M_bind, lift, modify, throw. destruct (token_generate nonce); [|done].
      destruct outcome; naive_solver. }
    split; simpl; try done. exists bytes. split_and!; try done.
    + by apply document_ok in Hdocu as (_ & _ & _ & ?).
    + by apply load_document.
  - split; [|done]. intros Hf. split; [|done]. revert Hrun.
    unfold mbind, M_bind, lift, get, reject_if, throw, mret, M_ret.
    destruct (bootstrap _ _ _ _ _ _) as [[b c']|]; simpl; [|naive_solver].
    destruct lock; simpl; [|naive_solver]. destruct f; simpl; naive_solver.
Qed.

(** ** What the store serves, whatever becomes of its file *)

(** A commit installs the candidate or leaves the Brain alone, and a value is the operation's. *)
Lemma commit_serves {R} (result : result StorageError.t R) bytes candidate nonce outcome d res d' :
  commit result bytes candidate nonce outcome d = (res, d') ->
  (res = result /\ d'.(store).(BrainStore.brain) = candidate) \/
  (res = Err StorageError.Write /\ d'.(store).(BrainStore.brain) = d.(store).(BrainStore.brain)).
Proof.
  unfold commit, mbind, M_bind, get, modify, throw, lift. repeat case_match; naive_solver.
Qed.

Lemma transact_serves {R} now (operation : BrainM R) nonce outcome d res d' :
  brain_wf d.(store).(BrainStore.brain) -> transact now operation nonce outcome d = (res, d') ->
  match res with
  | Ok v => exists brain1, observe now d.(store).(BrainStore.brain) = (Ok tt, brain1) /\
              operation brain1 = (Ok v, d'.(store).(BrainStore.brain))
  | Err _ => d'.(store).(BrainStore.brain) = d.(store).(BrainStore.brain) \/
             observe now d.(store).(BrainStore.brain) = (Ok tt, d'.(store).(BrainStore.brain))
  end.
Proof.
  intros Hwf. unfold transact, mbind at 1, M_bind at 1, get.
  destruct (BrainStore.poisoned _); [by intros [= <- <-]; left|]. erewrite bind_ok by done.
  destruct (negb _); [by intros [= <- <-]; left|]. unfold mbind, M_bind, lift.
  destruct (brain_encode _) as [baseline|e] eqn:Henc; simpl; [|by intros [= <- <-]; left].
  rewrite (brain_decode_encode Hsnap _ _ Hwf Henc). simpl.
  destruct (staged_observe now _) as [c1|e] eqn:Hobs; simpl; [|by intros [= <- <-]; left].
  apply staged_observe_ok in Hobs. destruct (stage operation c1) as [[[v new] c2]|e] eqn:Hstage.
  - unfold stage in Hstage. destruct (operation c1) as [[v'|] c2'] eqn:Hrun; simpl in Hstage; [|done].
    destruct (document c2') as [new'|]; simpl in Hstage; [|done]. injection Hstage as -> -> ->.
    intros [(-> & <-)|(-> & Hsame)]%commit_serves; [by eauto|by left].
  - destruct (document c1) as [new|e'] eqn:Hd; simpl; [|by intros [= <- <-]; left].
    intros [(-> & <-)|(-> & Hsame)]%commit_serves; [by right|by left].
Qed.

(** The store serves, and finds in its file what it last wrote there. *)
Definition serving (d : Disk) : Prop :=
  d.(store).(BrainStore.poisoned) = false /\
  exists bytes, read d.(file) = Ok bytes /\ sha256_digest bytes = d.(store).(BrainStore.disk_hash).

Lemma in_sync_serving d : in_sync d -> serving d.
Proof.
  intros [Hserve _ (bytes & Hf & Hlen%N.ltb_ge & Hhash & _)]. split; [done|]. exists bytes.
  rewrite Hf. simpl. by rewrite Hlen.
Qed.

(** A transaction whose operation succeeds and whose documents can be written returns its value. *)
Lemma transact_runs {R} now (operation : BrainM R) nonce token d old brain1 v brain2 new :
  serving d -> brain_wf d.(store).(BrainStore.brain) ->
  document d.(store).(BrainStore.brain) = Ok old ->
  observe now d.(store).(BrainStore.brain) = (Ok tt, brain1) -> operation brain1 = (Ok v, brain2) ->
  document brain2 = Ok new -> token_generate nonce = Ok token ->
  exists d', transact now operation nonce Committed d = (Ok v, d') /\ serving d' /\
    d'.(store).(BrainStore.brain) = brain2.
Proof.
  intros [Hserve (bytes & Hread & Hhash)] Hwf (payload & Henc & _)%document_ok Ho Hop Hnew Htoken.
  unfold transact, mbind at 1, M_bind at 1, get. rewrite Hserve. erewrite bind_ok by done.
  rewrite Hread, Hhash, str_eqb_refl. cbn [negb]. unfold mbind at 1, M_bind at 1, lift at 1. rewrite Henc. simpl map_err. cbv iota beta.
  unfold mbind at 1, M_bind at 1, lift at 1. rewrite (brain_decode_encode Hsnap _ _ Hwf Henc). simpl map_err. cbv iota beta.
  unfold mbind at 1, M_bind at 1, lift at 1, staged_observe at 1. rewrite Ho. simpl map_err. cbn.
  unfold stage. rewrite Hop. cbn. rewrite Hnew. cbn.
  unfold commit, mbind, M_bind, get, modify, lift, write. rewrite Htoken. pose proof (document_ok _ _ Hnew) as (_ & _ & _ & Hlen%N.ltb_ge).
  destruct (str_eqb _ _) eqn:Hsame; simpl; (eexists; split; [done|]; split; [|done]; split; [done|]); simpl.
  - apply str_eqb_true in Hsame. exists bytes. split; [done|congruence].
  - exists new. by rewrite Hlen.
Qed.
End Facts.
