(* ===== verification/Reconcile.v ===== *)
(** * Reconciliation (collaboration/reconcile.rs)

    A Node reads the shared records that changed after the revision it has, one record
    per page, all pages at one revision. *)

From S2P Require Import Prelude Protocol Credential Invitation Brain BrainValid BrainInv BrainOps BrainThm Snapshot.

Definition MAX_CONTROL_BYTES : N := 64 * 1024.
Definition MAX_SHARED_RECORDS : N := 192.

Module ReconcileRequest.
Record t := mk { after : N; at_ : option N; offset : N }.
#[global] Instance eq_dec : EqDecision t.
Proof. solve_decision. Defined.
End ReconcileRequest.

Module SharedData.
Inductive t :=
| Member (member_id identity_id display_name : string) (owner revoked : bool)
| Node (node_id member_id device_id : string) (online : bool) (last_seen_at : option Z)
    (announcement : option Message)
| Task (task_id : string) (status : TaskStatus.t) (source : Message).
#[global] Instance eq_dec : EqDecision t.
Proof. solve_decision. Defined.
End SharedData.

Module SharedRecord.
Record t := mk { revision : N; data : SharedData.t }.
#[global] Instance eq_dec : EqDecision t.
Proof. solve_decision. Defined.
End SharedRecord.

Module Page.
Record t := mk {
  version : N;
  brain_id : string;
  member_id : string;
  after : N;
  at_ : N;
  offset : N;
  next : option N;
  records : list SharedRecord.t;
}.
#[global] Instance eq_dec : EqDecision t.
Proof. solve_decision. Defined.
End Page.

(** The messages of a record passed [Message::try_from]. *)
Definition data_messages_ok `{Sha256, ProtocolJson} (d : SharedData.t) : Prop :=
  match d with
  | SharedData.Member _ _ _ _ _ => True
  | SharedData.Node _ _ _ _ _ announcement =>
    forall m, announcement = Some m -> message_ok m = true
  | SharedData.Task _ _ source => message_ok source = true
  end.
Definition page_messages_ok `{Sha256, ProtocolJson} (p : Page.t) : Prop :=
  Forall (fun r => data_messages_ok r.(SharedRecord.data)) p.(Page.records).

(** serde_json on a page; the messages inside are read through [Message::try_from]. *)
Class PageJson := {
  page_to_vec : Page.t -> option string;
  page_from_slice : string -> option Page.t;
}.
Class PageJsonLaws `{Sha256, ProtocolJson, PageJson} : Prop := {
  page_from_to p bytes :
    page_messages_ok p -> page_to_vec p = Some bytes -> page_from_slice bytes = Some p;
  page_from_messages bytes p : page_from_slice bytes = Some p -> page_messages_ok p;
}.

(** ** [Page] *)

Definition announcement_shared (brain_id node_id member_id device_id : string) (revision : N)
    (message : Message) : bool :=
  let a := admission message in
  str_eqb a.(adm_brain_id) brain_id
  && str_eqb a.(adm_sender_node_id) node_id
  && (a.(adm_revision) <? revision)%N
  && match a.(adm_payload) with
     | ViewNode n m d => str_eqb n node_id && str_eqb m member_id && str_eqb d device_id
     | _ => false
     end.

Definition data_valid (page : Page.t) (revision : N) (data : SharedData.t) : bool :=
  match data with
  | SharedData.Member member_id identity_id display_name _ _ =>
    id member_id && id identity_id && (len display_name <=? 80)%N
    && negb (trim_is_empty display_name) && negb (has_control display_name)
  | SharedData.Node node_id member_id device_id online last_seen_at announcement =>
    id node_id && id member_id && id device_id
    && (negb online || is_some last_seen_at)
    && is_none_or timestamp last_seen_at
    && is_none_or
         (announcement_shared page.(Page.brain_id) node_id member_id device_id revision)
         announcement
  | SharedData.Task task_id _ source =>
    let a := admission source in
    id task_id && str_eqb a.(adm_brain_id) page.(Page.brain_id)
    && (a.(adm_revision) <? revision)%N
    && match a.(adm_payload) with
       | ViewTask t m TaskStatus.Draft => str_eqb t task_id && str_eqb m page.(Page.member_id)
       | _ => false
       end
  end.

Definition check_record (page : Page.t) (record : SharedRecord.t) : result BrainError unit :=
  _ ← refuse ((record.(SharedRecord.revision) <=? page.(Page.after))%N
              || (page.(Page.at_) <? record.(SharedRecord.revision))%N) Invalid;
  refuse (negb (data_valid page record.(SharedRecord.revision) record.(SharedRecord.data))) Invalid.

Definition page_validate (page : Page.t) : result BrainError unit :=
  _ ← refuse
    (negb (page.(Page.version) =? 1)%N
     || negb (id page.(Page.brain_id))
     || negb (id page.(Page.member_id))
     || (page.(Page.at_) =? 0)%N
     || (MAX_REVISION <? page.(Page.at_))%N
     || (page.(Page.at_) <? page.(Page.after))%N
     || (MAX_SHARED_RECORDS <=? page.(Page.offset))%N
     || (1 <? length page.(Page.records))%nat
     || is_some_and (fun next => negb (next =? page.(Page.offset) + 1)%N
                                 || (MAX_SHARED_RECORDS <=? next)%N) page.(Page.next)
     || (match page.(Page.records) with [] => true | _ => false end
         && (negb (page.(Page.offset) =? 0)%N || is_some page.(Page.next)))) Invalid;
  for_each (check_record page) page.(Page.records).

Section Codec.
Context `{PageJson}.

Definition page_encode (page : Page.t) : result BrainError string :=
  _ ← page_validate page;
  bytes ← ok_or (page_to_vec page) Invalid;
  _ ← refuse (MAX_CONTROL_BYTES <? len bytes)%N BrainCapacity;
  Ok bytes.

Definition page_decode (bytes : string) : result BrainError Page.t :=
  _ ← refuse (MAX_CONTROL_BYTES <? len bytes)%N BrainCapacity;
  page ← ok_or (page_from_slice bytes) Invalid;
  _ ← page_validate page;
  Ok page.
End Codec.

(** ** [Brain::reconcile] *)

Definition member_shared (s : Brain.t) (entry : string * MemberRecord.t) : SharedRecord.t :=
  let (key, member) := entry in
  {| SharedRecord.revision := member.(MemberRecord.revision);
     SharedRecord.data := SharedData.Member key member.(MemberRecord.identity_id)
       member.(MemberRecord.display_name) (str_eqb key s.(Brain.owner_member_id))
       member.(MemberRecord.revoked) |}.

Definition node_shared (entry : string * NodeRecord.t) : SharedRecord.t :=
  let (key, node) := entry in
  {| SharedRecord.revision := node.(NodeRecord.revision);
     SharedRecord.data := SharedData.Node key node.(NodeRecord.member_id)
       node.(NodeRecord.device_id) node.(NodeRecord.online) node.(NodeRecord.last_seen_at)
       node.(NodeRecord.announcement) |}.

Definition task_shared (entry : string * TaskRecord.t) : SharedRecord.t :=
  let (key, task) := entry in
  {| SharedRecord.revision := task.(TaskRecord.revision);
     SharedRecord.data := SharedData.Task key task.(TaskRecord.status) task.(TaskRecord.source) |}.

(** [PayloadView::Task { member_id: creator, .. } if creator == member_id] *)
Definition created_by (member_id : string) (entry : string * TaskRecord.t) : bool :=
  match (admission entry.2.(TaskRecord.source)).(adm_payload) with
  | ViewTask _ creator _ => str_eqb creator member_id
  | _ => false
  end.

(** Everything the Brain shares with a member: all members, all Nodes, its own tasks. *)
Definition shared_records (s : Brain.t) (member_id : string) : list SharedRecord.t :=
  (member_shared s <$> entries s.(Brain.members))
  ++ (node_shared <$> entries s.(Brain.nodes))
  ++ (task_shared <$> List.filter (created_by member_id) (entries s.(Brain.tasks))).

Definition changes (s : Brain.t) (member_id : string) (after : N) : list SharedRecord.t :=
  List.filter (fun r => after <? r.(SharedRecord.revision))%N (shared_records s member_id).

Definition make_page (s : Brain.t) (member_id : string) (request : ReconcileRequest.t) : Page.t :=
  let l := changes s member_id request.(ReconcileRequest.after) in
  let offset := N.to_nat request.(ReconcileRequest.offset) in
  {| Page.version := 1;
     Page.brain_id := s.(Brain.brain_id);
     Page.member_id := member_id;
     Page.after := request.(ReconcileRequest.after);
     Page.at_ := s.(Brain.revision);
     Page.offset := request.(ReconcileRequest.offset);
     Page.next := if (offset + 1 <? length l)%nat
                  then Some (request.(ReconcileRequest.offset) + 1)%N else None;
     Page.records := take 1 (drop offset l) |}.

Section Reconcile.
Context `{Sha256, ProtocolJson, PageJson}.

Definition reconcile (session : ConnectionIdentity.t) (request : ReconcileRequest.t) (now : Z)
    : BrainM Page.t :=
  _ ← observe now;
  _ ← authorize session now;
  _ ← reset_presence now Expired;
  s ← get;
  _ ← reject_if
    ((s.(Brain.revision) <? request.(ReconcileRequest.after))%N
     || (MAX_SHARED_RECORDS <=? request.(ReconcileRequest.offset))%N
     || (is_none request.(ReconcileRequest.at_)
         && negb (request.(ReconcileRequest.offset) =? 0)%N)) Invalid;
  _ ← reject_if (is_some_and (fun at_ => negb (at_ =? s.(Brain.revision))%N)
                   request.(ReconcileRequest.at_)) Conflict;
  let member_id := session.(ConnectionIdentity.binding).(CredentialBinding.member_id) in
  let l := changes s member_id request.(ReconcileRequest.after) in
  let offset := N.to_nat request.(ReconcileRequest.offset) in
  _ ← reject_if ((length l <? offset)%nat || ((offset =? length l)%nat && negb (offset =? 0)%nat))
        Invalid;
  let page := make_page s member_id request in
  _ ← lift (page_encode page);
  mret page.
End Reconcile.
