(* ===== verification/Node.v ===== *)
(** * The Node's local view (collaboration/node.rs)

    The completed projection of the Brain's records, the batch being received, tasks
    whose outcome is uncertain after a disconnect, and the one confirmed message that is
    retried until it is acknowledged. *)

From S2P Require Import Prelude Protocol Credential Invitation Brain BrainValid BrainInv BrainOps BrainThm Snapshot Reconcile.

Module NodeError.
Inductive t := Invalid | Busy | Unavailable.
#[global] Instance eq_dec : EqDecision t.
Proof. solve_decision. Defined.
End NodeError.

Module PendingSync.
Record t := mk {
  request : ReconcileRequest.t;
  records : gmap string SharedRecord.t;
  seen : gset string;
}.
#[global] Instance eq_dec : EqDecision t.
Proof. solve_decision. Defined.
End PendingSync.

Module Node.
Record t := mk {
  binding : CredentialBinding.t;
  revision : N;
  records : gmap string SharedRecord.t;
  sync : option PendingSync.t;
  ready : bool;
  uncertain_tasks : gset string;
  pending_message : option Message;
}.
#[global] Instance eq_dec : EqDecision t.
Proof. solve_decision. Defined.
Definition set_sync (v : option PendingSync.t) (n : t) : t :=
  mk n.(binding) n.(revision) n.(records) v n.(ready) n.(uncertain_tasks) n.(pending_message).
Definition set_ready (v : bool) (n : t) : t :=
  mk n.(binding) n.(revision) n.(records) n.(sync) v n.(uncertain_tasks) n.(pending_message).
Definition set_revision (v : N) (n : t) : t :=
  mk n.(binding) v n.(records) n.(sync) n.(ready) n.(uncertain_tasks) n.(pending_message).
Definition set_records (v : gmap string SharedRecord.t) (n : t) : t :=
  mk n.(binding) n.(revision) v n.(sync) n.(ready) n.(uncertain_tasks) n.(pending_message).
Definition set_uncertain (v : gset string) (n : t) : t :=
  mk n.(binding) n.(revision) n.(records) n.(sync) n.(ready) v n.(pending_message).
Definition set_pending (v : option Message) (n : t) : t :=
  mk n.(binding) n.(revision) n.(records) n.(sync) n.(ready) n.(uncertain_tasks) v.
End Node.

Definition NodeM (A : Type) : Type := M Node.t NodeError.t A.

(** [serde_json::to_vec(&pending.records)] *)
Class RecordsJson := records_to_vec : gmap string SharedRecord.t -> option string.

Definition node_new (binding : CredentialBinding.t) : result NodeError.t Node.t :=
  _ ← refuse (existsb (fun v => negb (id v))
        [binding.(CredentialBinding.brain_id); binding.(CredentialBinding.member_id);
         binding.(CredentialBinding.node_id); binding.(CredentialBinding.device_id)])
        NodeError.Invalid;
  Ok (Node.mk binding 0 ∅ None false ∅ None).

Definition first_request (revision : N) : ReconcileRequest.t := ReconcileRequest.mk revision None 0.

Definition reconcile_request (n : Node.t) : ReconcileRequest.t :=
  match n.(Node.sync) with
  | Some sync => sync.(PendingSync.request)
  | None => first_request n.(Node.revision)
  end.

Definition member_key (k : string) : string := "member:" +:+ k.
Definition node_key (k : string) : string := "node:" +:+ k.
Definition task_key (k : string) : string := "task:" +:+ k.

Definition record_key (data : SharedData.t) : string :=
  match data with
  | SharedData.Member member_id _ _ _ _ => member_key member_id
  | SharedData.Node node_id _ _ _ _ _ => node_key node_id
  | SharedData.Task task_id _ _ => task_key task_id
  end.

(** The loop over [page.records]. *)
Fixpoint receive (pending : PendingSync.t) (records : list SharedRecord.t)
    : result NodeError.t PendingSync.t :=
  match records with
  | [] => Ok pending
  | record :: records =>
    let key := record_key record.(SharedRecord.data) in
    if bool_decide (key ∈ pending.(PendingSync.seen)) then Err NodeError.Invalid else
    receive (PendingSync.mk pending.(PendingSync.request)
               (<[key := record]> pending.(PendingSync.records))
               ({[ key ]} ∪ pending.(PendingSync.seen))) records
  end.

Definition is_member (d : SharedData.t) : bool :=
  match d with SharedData.Member _ _ _ _ _ => true | _ => false end.
Definition is_node (d : SharedData.t) : bool :=
  match d with SharedData.Node _ _ _ _ _ _ => true | _ => false end.
Definition is_task (d : SharedData.t) : bool :=
  match d with SharedData.Task _ _ _ => true | _ => false end.
Definition is_owner (d : SharedData.t) : bool :=
  match d with SharedData.Member _ _ _ owner revoked => owner && negb revoked | _ => false end.

(** [counts] and [owners] of the completion check. *)
Definition count (p : SharedData.t -> bool) (records : gmap string SharedRecord.t) : nat :=
  length (List.filter (fun r => p r.(SharedRecord.data)) (values records)).

Definition data_at (records : gmap string SharedRecord.t) (key : string) : option SharedData.t :=
  SharedRecord.data <$> records !! key.

(** The reference each record makes to another one: a Node to its member, a task to the
    Node that sent it. *)
Definition reference_ok (records : gmap string SharedRecord.t) (own_member : string)
    (record : SharedRecord.t) : bool :=
  match record.(SharedRecord.data) with
  | SharedData.Member _ _ _ _ _ => true
  | SharedData.Node _ member_id _ online _ _ =>
    match data_at records (member_key member_id) with
    | Some (SharedData.Member _ _ _ _ revoked) => negb online || negb revoked
    | _ => false
    end
  | SharedData.Task _ _ source =>
    match data_at records (node_key (admission source).(adm_sender_node_id)) with
    | Some (SharedData.Node _ member_id _ _ _ _) => str_eqb member_id own_member
    | _ => false
    end
  end.

(** The checks of a completed batch, in [accept_page] after the last page. *)
Definition check_complete (b : CredentialBinding.t) (records : gmap string SharedRecord.t)
    : result NodeError.t unit :=
  _ ← refuse (negb (forallb (reference_ok records b.(CredentialBinding.member_id))
                      (values records))) NodeError.Invalid;
  refuse
    (negb (count is_owner records =? 1)%nat
     || existsb (fun n => 64 <? n)%nat
          [count is_member records; count is_node records; count is_task records]
     || negb (match data_at records (member_key b.(CredentialBinding.member_id)) with
              | Some (SharedData.Member _ _ _ _ false) => true
              | _ => false
              end)
     || negb (match data_at records (node_key b.(CredentialBinding.node_id)) with
              | Some (SharedData.Node _ member_id device_id _ _ _) =>
                str_eqb member_id b.(CredentialBinding.member_id)
                && str_eqb device_id b.(CredentialBinding.device_id)
              | _ => false
              end)) NodeError.Invalid.

Section Operations.
Context `{Sha256, ProtocolJson, RecordsJson}.

Definition accept_page (page : Page.t) : NodeM (option ReconcileRequest.t) :=
  _ ← modify (Node.set_ready false);
  n ← get;
  let pending := match n.(Node.sync) with
                 | Some sync => sync
                 | None => PendingSync.mk (first_request n.(Node.revision)) n.(Node.records) ∅
                 end in
  _ ← modify (Node.set_sync None);
  _ ← lift (map_err (fun _ => NodeError.Invalid) (page_validate page));
  let request := pending.(PendingSync.request) in
  _ ← reject_if
    (negb (str_eqb page.(Page.brain_id) n.(Node.binding).(CredentialBinding.brain_id))
     || negb (str_eqb page.(Page.member_id) n.(Node.binding).(CredentialBinding.member_id))
     || negb (page.(Page.after) =? request.(ReconcileRequest.after))%N
     || negb (page.(Page.offset) =? request.(ReconcileRequest.offset))%N
     || is_some_and (fun at_ => negb (at_ =? page.(Page.at_))%N) request.(ReconcileRequest.at_))
    NodeError.Invalid;
  pending ← lift (receive pending page.(Page.records));
  _ ← reject_if (MAX_SHARED_RECORDS <? N.of_nat (size pending.(PendingSync.records)))%N
        NodeError.Invalid;
  bytes ← lift (ok_or (records_to_vec pending.(PendingSync.records)) NodeError.Invalid);
  _ ← reject_if (3 * 1024 * 1024 <? len bytes)%N NodeError.Invalid;
  match page.(Page.next) with
  | Some offset =>
    let request := ReconcileRequest.mk page.(Page.after) (Some page.(Page.at_)) offset in
    _ ← modify (Node.set_sync
          (Some (PendingSync.mk request pending.(PendingSync.records) pending.(PendingSync.seen))));
    mret (Some request)
  | None =>
    _ ← lift (check_complete n.(Node.binding) pending.(PendingSync.records));
    _ ← modify (Node.set_records pending.(PendingSync.records));
    _ ← modify (Node.set_revision page.(Page.at_));
    _ ← modify (Node.set_ready true);
    mret None
  end.

(** The tasks a Node knows as running. *)
Definition running_task (d : SharedData.t) : option string :=
  match d with
  | SharedData.Task task_id TaskStatus.Running _ => Some task_id
  | _ => None
  end.

Definition disconnect (n : Node.t) : Node.t :=
  let n := Node.set_sync None (Node.set_ready false n) in
  Node.set_uncertain
    (foldr (fun r set => match running_task r.(SharedRecord.data) with
                         | Some task_id => {[ task_id ]} ∪ set
                         | None => set
                         end) n.(Node.uncertain_tasks) (values n.(Node.records))) n.

Definition task_status (n : Node.t) (task_id : string) : option TaskStatus.t :=
  record ← n.(Node.records) !! task_key task_id;
  match record.(SharedRecord.data) with
  | SharedData.Task _ status _ =>
    if bool_decide (status = TaskStatus.Running)
       && (negb n.(Node.ready) || bool_decide (task_id ∈ n.(Node.uncertain_tasks)))
    then Some TaskStatus.OutcomeUnknown else Some status
  | _ => None
  end.

Definition queue_allowed (b : CredentialBinding.t) (message : Message) : bool :=
  match (admission message).(adm_payload) with
  | ViewNode node_id member_id device_id =>
    str_eqb node_id b.(CredentialBinding.node_id)
    && str_eqb member_id b.(CredentialBinding.member_id)
    && str_eqb device_id b.(CredentialBinding.device_id)
  | ViewTask _ member_id status =>
    str_eqb member_id b.(CredentialBinding.member_id) && bool_decide (status = TaskStatus.Draft)
  | Unsupported => is_receipt_from message b.(CredentialBinding.node_id)
  end.

Definition queue_confirmed (message : Message) : NodeM unit :=
  n ← get;
  let a := admission message in
  let b := n.(Node.binding) in
  _ ← reject_if
    (negb (str_eqb a.(adm_brain_id) b.(CredentialBinding.brain_id))
     || negb (str_eqb a.(adm_sender_node_id) b.(CredentialBinding.node_id))
     || negb (queue_allowed b message)) NodeError.Invalid;
  match n.(Node.pending_message) with
  | Some pending =>
    if str_eqb (admission pending).(adm_key) a.(adm_key)
       && bool_decide (payload_hash pending = payload_hash message)
    then mret tt else throw NodeError.Busy
  | None => modify (Node.set_pending (Some message))
  end.

Definition outgoing (n : Node.t) : result NodeError.t Message :=
  _ ← refuse (negb n.(Node.ready)) NodeError.Unavailable;
  message ← ok_or n.(Node.pending_message) NodeError.Unavailable;
  map_err (fun _ => NodeError.Invalid) (with_revision message n.(Node.revision)).

Definition acknowledge (key : string) (revision : N) : NodeM unit :=
  n ← get;
  _ ← reject_if
    ((revision =? 0)%N || (MAX_REVISION <? revision)%N
     || negb (is_some_and (fun message => str_eqb (admission message).(adm_key) key)
                n.(Node.pending_message))) NodeError.Invalid;
  _ ← modify (Node.set_pending None);
  _ ← modify (Node.set_ready false);
  modify (Node.set_sync None).
End Operations.

(** ** What a Node guarantees *)

Section Facts.
Context `{Sha256, ProtocolJson, RecordsJson}.

(** Any operation of the Node, with any outcome. *)
Inductive node_step : Node.t -> Node.t -> Prop :=
| ns_accept page res n n' : accept_page page n = (res, n') -> node_step n n'
| ns_disconnect n : node_step n (disconnect n)
| ns_queue message res n n' : queue_confirmed message n = (res, n') -> node_step n n'
| ns_acknowledge key revision res n n' :
    acknowledge key revision n = (res, n') -> node_step n n'.

(** What a page leaves untouched unless it completes a batch. *)
Definition same_projection (n n' : Node.t) : Prop :=
  n'.(Node.binding) = n.(Node.binding) /\ n'.(Node.revision) = n.(Node.revision) /\
  n'.(Node.records) = n.(Node.records) /\
  n'.(Node.uncertain_tasks) = n.(Node.uncertain_tasks) /\
  n'.(Node.pending_message) = n.(Node.pending_message).

Lemma accept_page_err page n e n' :
  accept_page page n = (Err e, n') ->
  same_projection n n' /\ n'.(Node.ready) = false /\ n'.(Node.sync) = None.
Proof.
  unfold accept_page. intros Hrun.
  err_inv Hrun; try by split_and!.
  destruct (Page.next page);
    match goal with H : (_ ≫= _) _ = (Err _, _) |- _ => err_inv H end; by split_and!.
Qed.

Lemma accept_page_more_ok page n q n' :
  accept_page page n = (Ok (Some q), n') ->
  same_projection n n' /\ n'.(Node.ready) = false.
Proof.
  unfold accept_page. intros Hrun. run_inv Hrun.
  destruct (Page.next page);
    match goal with H : (_ ≫= _) _ = (Ok (Some _), _) |- _ => run_inv H end; by split_and!.
Qed.

Lemma accept_page_done page n n' :
  accept_page page n = (Ok None, n') ->
  page_validate page = Ok tt /\
  check_complete n.(Node.binding) n'.(Node.records) = Ok tt /\
  n'.(Node.binding) = n.(Node.binding) /\ n'.(Node.revision) = page.(Page.at_) /\
  n'.(Node.ready) = true /\ n'.(Node.sync) = None /\
  n'.(Node.uncertain_tasks) = n.(Node.uncertain_tasks) /\
  n'.(Node.pending_message) = n.(Node.pending_message).
Proof.
  unfold accept_page. intros Hrun. run_inv Hrun.
  destruct (page_validate page) as [[]|] eqn:Hpv; simpl in *; [|done].
  destruct (Page.next page);
    match goal with H : (_ ≫= _) _ = (Ok None, _) |- _ => run_inv H end.
  match goal with H : check_complete _ _ = Ok ?u |- _ => destruct u end. simpl in *. by split_and!.
Qed.

(** A batch is installed completely or not at all. A page that is refused or
    is not the last leaves the projection and its revision as they were and the Node not
    ready; a page that completes the batch installs records in which every reference
    resolves, with exactly one live owner and the Node's own member and Node. *)
Theorem accept_page_atomic page n res n' :
  accept_page page n = (res, n') ->
  match res with
  | Ok None => check_complete n.(Node.binding) n'.(Node.records) = Ok tt /\
               n'.(Node.revision) = page.(Page.at_) /\ n'.(Node.ready) = true
  | _ => same_projection n n' /\ n'.(Node.ready) = false
  end.
Proof.
  destruct res as [[q|]|e]; intros Hrun.
  - by apply accept_page_more_ok in Hrun.
  - apply accept_page_done in Hrun as (_ & ? & _ & ? & ? & _). done.
  - apply accept_page_err in Hrun as (? & ? & _). done.
Qed.

(** Running tasks of the projection are recorded as uncertain. *)
Lemma disconnect_uncertain n :
  n.(Node.uncertain_tasks) ⊆ (disconnect n).(Node.uncertain_tasks) /\
  forall k r, n.(Node.records) !! k = Some r ->
    forall t, running_task r.(SharedRecord.data) = Some t ->
    t ∈ (disconnect n).(Node.uncertain_tasks).
Proof.
  unfold disconnect. cbn [Node.uncertain_tasks Node.set_uncertain Node.set_sync Node.set_ready
    Node.records]. split.
  - induction (values n.(Node.records)) as [|x l IH]; simpl; [done|].
    destruct (running_task _); set_solver.
  - intros k r Hk t Ht. assert (r ∈ values n.(Node.records)) as Hin by (apply elem_of_values; eauto).
    induction (values n.(Node.records)) as [|x l IH]; [by apply not_elem_of_nil in Hin|].
    apply elem_of_cons in Hin as [<-|Hin]; simpl.
    + rewrite Ht. set_solver.
    + specialize (IH Hin). destruct (running_task x.(SharedRecord.data)); set_solver.
Qed.

Lemma queue_confirmed_ok message n res n' :
  queue_confirmed message n = (res, n') ->
  n' = n \/ n.(Node.pending_message) = None /\ n' = Node.set_pending (Some message) n.
Proof.
  unfold queue_confirmed, mbind, M_bind, get, reject_if, throw, mret, M_ret, modify.
  intros Hrun. repeat case_match; naive_solver.
Qed.

Lemma acknowledge_ok key revision n res n' :
  acknowledge key revision n = (res, n') ->
  n' = n \/ (exists message, n.(Node.pending_message) = Some message /\
               (admission message).(adm_key) = key) /\
            n' = Node.set_sync None (Node.set_ready false (Node.set_pending None n)).
Proof.
  unfold acknowledge. intros Hrun. destruct res as [u|e].
  - run_inv Hrun. right. bool_hyps. destruct (Node.pending_message n) as [message|]; [|done].
    simpl in *. bool_hyps. eauto.
  - left. err_inv Hrun. done.
Qed.

Lemma node_step_uncertain n n' :
  node_step n n' -> n.(Node.uncertain_tasks) ⊆ n'.(Node.uncertain_tasks).
Proof.
  intros Hstep. destruct Hstep as [page res n n' Hrun|n|message res n n' Hrun|key rev res n n' Hrun].
  - destruct res as [[q|]|e].
    + by apply accept_page_more_ok in Hrun as ((_ & _ & _ & -> & _) & _).
    + by apply accept_page_done in Hrun as (_ & _ & _ & _ & _ & _ & -> & _).
    + by apply accept_page_err in Hrun as ((_ & _ & _ & -> & _) & _).
  - apply disconnect_uncertain.
  - by apply queue_confirmed_ok in Hrun as [->|[_ ->]].
  - by apply acknowledge_ok in Hrun as [->|[_ ->]].
Qed.

Lemma node_steps_uncertain n n' :
  rtc node_step n n' -> n.(Node.uncertain_tasks) ⊆ n'.(Node.uncertain_tasks).
Proof.
  induction 1 as [|x y z Hxy _ IH]; [done|]. etrans; [by eapply node_step_uncertain|done].
Qed.

(** A task that was running when the connection was lost is never reported
    as running again, whatever the Node does afterwards: its status is [OutcomeUnknown]
    until the Brain reports another one. *)
Theorem lost_task_never_running n n' k r task_id source :
  n.(Node.records) !! k = Some r ->
  r.(SharedRecord.data) = SharedData.Task task_id TaskStatus.Running source ->
  rtc node_step (disconnect n) n' ->
  task_status n' task_id <> Some TaskStatus.Running.
Proof.
  intros Hk Hd Hsteps.
  assert (task_id ∈ n'.(Node.uncertain_tasks)) as Hin.
  { apply (node_steps_uncertain _ _ Hsteps). eapply disconnect_uncertain; [done|]. by rewrite Hd. }
  unfold task_status. destruct (n'.(Node.records) !! _) as [r'|]; [|done]. simpl.
  destruct r'.(SharedRecord.data) as [| |t' status src]; try done.
  rewrite (bool_decide_eq_true_2 (task_id ∈ _)) by done. rewrite orb_true_r, andb_true_r.
  case_bool_decide; [done|congruence].
Qed.

(** The pending message only goes away when its own key is acknowledged. *)
Definition pending_kept (key : string) (n n' : Node.t) : Prop :=
  node_step n n' /\ forall rev res, acknowledge key rev n = (Ok res, n') -> False.

Lemma pending_step n n' m :
  pending_kept (admission m).(adm_key) n n' -> n.(Node.pending_message) = Some m ->
  n'.(Node.pending_message) = Some m.
Proof.
  intros [Hstep Hack] Hm.
  destruct Hstep as [page res n n' Hrun|n|message res n n' Hrun|key rev res n n' Hrun].
  - destruct res as [[q|]|e].
    + apply accept_page_more_ok in Hrun as ((_ & _ & _ & _ & ->) & _). done.
    + apply accept_page_done in Hrun as (_ & _ & _ & _ & _ & _ & _ & ->). done.
    + apply accept_page_err in Hrun as ((_ & _ & _ & _ & ->) & _). done.
  - done.
  - apply queue_confirmed_ok in Hrun as [->|[Hn _]]; [done|congruence].
  - destruct res as [u|e].
    + apply acknowledge_ok in Hrun as Hcase. destruct Hcase as [->|[(m' & Hm' & Hkey) _]]; [done|].
      rewrite Hm in Hm'. injection Hm' as <-. rewrite <- Hkey in Hrun. by apply Hack in Hrun.
    + unfold acknowledge in Hrun. err_inv Hrun. done.
Qed.

(** A confirmed message is retried unchanged. After [queue_confirmed] accepted
    it, every message the Node offers to send, through any operations but the
    acknowledgement of its key, has the same idempotency key and payload hash; another
    message is refused as [Busy] in the meantime. *)
Theorem confirmed_message_retried m n n1 n2 m' :
  n.(Node.pending_message) = None -> queue_confirmed m n = (Ok tt, n1) ->
  rtc (pending_kept (admission m).(adm_key)) n1 n2 -> outgoing n2 = Ok m' ->
  (admission m').(adm_key) = (admission m).(adm_key) /\ payload_hash m' = payload_hash m /\
  (admission m').(adm_revision) = n2.(Node.revision) /\
  forall m2, (admission m2).(adm_key) <> (admission m).(adm_key) \/ payload_hash m2 <> payload_hash m ->
    is_ok (queue_confirmed m2 n2).1 = false.
Proof.
  intros Hnone Hqueue Hsteps Hout.
  assert (n1.(Node.pending_message) = Some m) as Hm1.
  { apply queue_confirmed_ok in Hqueue as Hq. destruct Hq as [->|[_ ->]]; [|done]. exfalso.
    revert Hqueue. unfold queue_confirmed, mbind, M_bind, get, reject_if. rewrite Hnone.
    destruct (_ || _); [done|]. unfold modify. simpl. intros [= Heq]. by rewrite <- Heq in Hnone. }
  assert (n2.(Node.pending_message) = Some m) as Hm2.
  { clear Hqueue Hout. induction Hsteps; eauto using pending_step. }
  unfold outgoing in Hout. rewrite result_seq_ok, Hm2 in Hout. destruct Hout as [_ Hrev].
  simpl in Hrev. destruct (with_revision m n2.(Node.revision)) as [m0|] eqn:Hwr; simplify_eq/=.
  unfold with_revision in Hwr. apply message_try_from_ok in Hwr as (-> & _ & _).
  split_and!; try done. intros m2 Hdiff.
  unfold queue_confirmed, mbind, M_bind, get, reject_if. rewrite Hm2.
  destruct (_ || _); [done|]. unfold throw, mret, M_ret.
  destruct (str_eqb _ _) eqn:Hk; simpl; [|done]. case_bool_decide as Hh; [|done]. exfalso.
  apply str_eqb_true in Hk. destruct Hdiff as [Hd|Hd]; apply Hd; symmetry; assumption.
Qed.
End Facts.
