(* ===== verification/Delta.v ===== *)
(** * Deltas

    What a Brain shares with a member, as a map, and why the records changed after a
    revision are enough to bring an older copy up to date: an unchanged record keeps its
    revision, a changed one carries a newer revision, and nothing is removed. *)

From S2P Require Import Prelude Protocol Credential Invitation Brain BrainValid BrainInv BrainOps BrainThm Snapshot Reconcile Node.

(** Entries only grow, and an entry that differs has a revision above [rev]. *)
Definition entries_delta {V} (revision : V -> N) (rev : N) (m m' : gmap string V) : Prop :=
  dom m ⊆ dom m' /\
  forall k v', m' !! k = Some v' -> m !! k = Some v' \/ (rev < revision v')%N.

Record delta (s s' : Brain.t) : Prop := {
  dl_brain : s'.(Brain.brain_id) = s.(Brain.brain_id);
  dl_owner : s'.(Brain.owner_member_id) = s.(Brain.owner_member_id);
  dl_revision : (s.(Brain.revision) <= s'.(Brain.revision))%N;
  dl_members : entries_delta MemberRecord.revision s.(Brain.revision)
                 s.(Brain.members) s'.(Brain.members);
  dl_nodes : entries_delta NodeRecord.revision s.(Brain.revision) s.(Brain.nodes) s'.(Brain.nodes);
  dl_tasks : entries_delta TaskRecord.revision s.(Brain.revision) s.(Brain.tasks) s'.(Brain.tasks);
  (** a task keeps the message that created it *)
  dl_sources : forall k t t', s.(Brain.tasks) !! k = Some t -> s'.(Brain.tasks) !! k = Some t' ->
    t'.(TaskRecord.source) = t.(TaskRecord.source);
}.

Section Entries.
Context {V : Type} (revision : V -> N).

Lemma entries_delta_refl rev (m : gmap string V) : entries_delta revision rev m m.
Proof. split; [done|]. intros. by left. Qed.

Lemma entries_delta_trans rev1 rev2 (m1 m2 m3 : gmap string V) :
  (rev1 <= rev2)%N -> entries_delta revision rev1 m1 m2 -> entries_delta revision rev2 m2 m3 ->
  entries_delta revision rev1 m1 m3.
Proof.
  intros Hle [Hd12 H12] [Hd23 H23]. split; [by etrans|]. intros k v Hk.
  destruct (H23 _ _ Hk) as [Hk2|Hlt]; [by apply H12|]. right. lia.
Qed.

Lemma entries_delta_insert rev k v (m : gmap string V) :
  (rev < revision v)%N -> entries_delta revision rev m (<[k := v]> m).
Proof.
  intros Hlt. split; [rewrite dom_insert_L; set_solver|].
  intros k' v' Hk'. apply lookup_insert_Some in Hk' as [[<- <-]|[_ ?]]; auto.
Qed.

Lemma entries_delta_update rev p f (m : gmap string V) :
  (forall v, rev < revision (f v))%N -> entries_delta revision rev m (update_where p f m).
Proof.
  intros Hlt. split; [unfold update_where; by rewrite dom_fmap_L|].
  intros k v' Hk. rewrite lookup_update_where in Hk. apply fmap_Some in Hk as (v & Hk & ->).
  destruct (p v); auto.
Qed.
End Entries.

Create HintDb delta.
#[export] Hint Resolve entries_delta_refl entries_delta_insert entries_delta_update : delta.

(** Solves a [delta] goal whose maps were inserted into or updated. *)
Ltac solve_delta :=
  split; simpl; try done; try lia; eauto with delta;
  first [apply entries_delta_insert | apply entries_delta_update | intros; congruence | idtac];
  simpl; intros; lia.

Lemma delta_refl s : delta s s.
Proof. split; auto with delta; congruence. Qed.

Lemma delta_trans s1 s2 s3 : delta s1 s2 -> delta s2 s3 -> delta s1 s3.
Proof.
  intros [A1 A2 A3 A4 A5 A6 A7] [B1 B2 B3 B4 B5 B6 B7].
  split; [congruence|congruence|lia|by eapply entries_delta_trans..|].
  intros k t t' Hk Hk'. assert (is_Some (s2.(Brain.tasks) !! k)) as [t2 Hk2].
  { apply elem_of_dom, (proj1 A6), elem_of_dom. by exists t. }
  rewrite (B7 _ _ _ Hk2 Hk'). by apply (A7 k).
Qed.

Lemma delta_same_content s s' :
  s'.(Brain.brain_id) = s.(Brain.brain_id) ->
  s'.(Brain.owner_member_id) = s.(Brain.owner_member_id) ->
  s'.(Brain.revision) = s.(Brain.revision) -> s'.(Brain.members) = s.(Brain.members) ->
  s'.(Brain.nodes) = s.(Brain.nodes) -> s'.(Brain.tasks) = s.(Brain.tasks) -> delta s s'.
Proof.
  intros ? ? Hr Hm Hn Ht. split; rewrite ?Hr, ?Hm, ?Hn, ?Ht; auto with delta; congruence.
Qed.

Section Steps.
Context `{Sha256, ProtocolJson}.

Lemma delta_apply session message now s r s' :
  apply session message now s = (Ok r, s') -> delta s s'.
Proof.
  intros Hrun. apply apply_ok in Hrun as (fp & Ht & Hle & Hlive & _ & _ & _ & Hcase).
  destruct (find _ _) as [prev|].
  { destruct Hcase as (_ & _ & ->). by apply delta_same_content. }
  destruct Hcase as (Hrev & _ & -> & Hmax & s1 & Hadmit & ->).
  apply admit_ok in Hadmit as [(n & _ & _ & Hn & _ & _ & _ & _ & ->)|(task_id & _ & Hnew & _ & ->)].
  - split; simpl; try done; auto with delta; [lia| |congruence].
    eapply entries_delta_trans; [reflexivity|apply entries_delta_insert|apply entries_delta_insert];
      simpl; lia.
  - split; simpl; try done; auto with delta; [lia|apply entries_delta_insert; simpl; lia|].
    intros k t t' Hk. simpl in Hnew. rewrite lookup_insert_ne by congruence. congruence.
Qed.

Lemma delta_reset_presence now reason s r s' :
  reset_presence now reason s = (Ok r, s') -> delta s s'.
Proof.
  intros (_ & Hle & _ & Hs)%reset_presence_ok. destruct (existsb _ _).
  - destruct Hs as [Hmax ->]. solve_delta.
  - subst s'. by apply delta_same_content.
Qed.

Lemma delta_step s s' : brain_step s s' -> delta s s'.
Proof.
  intros Hstep.
  destruct Hstep as [b secret now c s s' Hrun|now d1 d2 i s s' Hrun|i now u s s' Hrun
    |request now dm dn ds e s s' Hrun|mid expected now r s s' Hrun|session expected now r s s' Hrun
    |now reason r s s' Hrun|session message now r s s' Hm Hrun|tid expected next now r s s' Hrun
    |now u s s' Hrun|session now u s s' Hrun].
  - unfold brain_connect in Hrun. run_inv Hrun. apply observe_ok in Hrun0 as (_ & Hle & ->).
    by apply delta_same_content.
  - apply create_invitation_ok in Hrun as (inv & _ & Hle & Hmax & _ & ->). solve_delta.
  - apply cancel_invitation_ok in Hrun as (_ & Hle & Hmax & _ & ->). solve_delta.
  - apply join_ok in Hrun as (inv & c & _ & _ & _ & _ & _ & _ & ->). solve_delta.
  - apply revoke_member_ok in Hrun as (m & _ & Hle & _ & _ & _ & _ & Hs).
    destruct m.(MemberRecord.revoked); [subst s'; by apply delta_same_content|].
    destruct Hs as [Hmax ->]. solve_delta.
  - apply heartbeat_ok in Hrun as (n & _ & Hle & _ & _ & -> & Hmax & _ & ->). solve_delta.
  - by eapply delta_reset_presence.
  - by eapply delta_apply.
  - apply set_task_status_ok in Hrun as (t & _ & Hle & _ & Hk & _ & Hs).
    case_bool_decide; [subst s'; by apply delta_same_content|]. destruct Hs as (_ & Hmax & ->).
    split; simpl; try done; auto with delta; [lia|apply entries_delta_insert; simpl; lia|].
    intros k t1 t2 Hk1. destruct (decide (tid = k)) as [<-|Hne].
    + rewrite lookup_insert_eq. rewrite Hk in Hk1. by intros [= <-]; simplify_eq.
    + rewrite lookup_insert_ne by done. congruence.
  - apply observe_ok in Hrun as (_ & _ & ->). by apply delta_same_content.
  - apply observed_authorize_ok in Hrun as (_ & _ & _ & ->). by apply delta_same_content.
Qed.

Lemma delta_steps s s' : rtc brain_step s s' -> delta s s'.
Proof. induction 1; eauto using delta_refl, delta_trans, delta_step. Qed.
End Steps.

(** ** The shared view *)

Definition keyed (r : SharedRecord.t) : string * SharedRecord.t :=
  (record_key r.(SharedRecord.data), r).

(** What the Brain shares with a member, by record key. *)
Definition view (s : Brain.t) (member_id : string) : gmap string SharedRecord.t :=
  list_to_map (keyed <$> shared_records s member_id).

Lemma append_inj p s t : p +:+ s = p +:+ t -> s = t.
Proof. induction p as [|a p IH]; simpl; [done|]. intros [= ?]. auto. Qed.

#[global] Instance member_key_inj : Inj (=) (=) member_key.
Proof. intros k k'. apply append_inj. Qed.
#[global] Instance node_key_inj : Inj (=) (=) node_key.
Proof. intros k k'. apply append_inj. Qed.
#[global] Instance task_key_inj : Inj (=) (=) task_key.
Proof. intros k k'. apply append_inj. Qed.

Lemma elem_of_filter_list {A} (f : A -> bool) l x : x ∈ List.filter f l <-> x ∈ l /\ f x = true.
Proof. by rewrite !list_elem_of_In, filter_In. Qed.

Lemma elem_of_shared_records s m r :
  r ∈ shared_records s m <->
  (exists k v, s.(Brain.members) !! k = Some v /\ r = member_shared s (k, v)) \/
  (exists k v, s.(Brain.nodes) !! k = Some v /\ r = node_shared (k, v)) \/
  (exists k v, s.(Brain.tasks) !! k = Some v /\ created_by m (k, v) = true /\ r = task_shared (k, v)).
Proof.
  unfold shared_records. rewrite !elem_of_app, !list_elem_of_fmap. split.
  - intros [([k v] & -> & Hin)|[([k v] & -> & Hin)|([k v] & -> & Hin)]].
    + left. exists k, v. by rewrite <- elem_of_entries.
    + right; left. exists k, v. by rewrite <- elem_of_entries.
    + right; right. apply elem_of_filter_list in Hin as [Hin Hc].
      exists k, v. by rewrite <- elem_of_entries.
  - intros [(k & v & Hk & ->)|[(k & v & Hk & ->)|(k & v & Hk & Hc & ->)]].
    + left. exists (k, v). by rewrite elem_of_entries.
    + right; left. exists (k, v). by rewrite elem_of_entries.
    + right; right. exists (k, v). by rewrite elem_of_filter_list, elem_of_entries.
Qed.

Lemma NoDup_filter_fst {V} (f : string * V -> bool) (m : gmap string V) :
  NoDup (List.filter f (entries m)).*1.
Proof.
  generalize (NoDup_entries_keys m). induction (entries m) as [|[k v] l IH]; simpl; [done|].
  rewrite list.NoDup_cons. intros [Hk Hnd]. destruct (f (k, v)); [|auto]. simpl.
  apply list.NoDup_cons. split; [|auto]. intros Hin. apply Hk.
  apply list_elem_of_fmap in Hin as (x & -> & Hx). apply elem_of_filter_list in Hx as [Hx _].
  by apply list_elem_of_fmap_2.
Qed.

(** No two shared records have the same key. *)
Lemma NoDup_shared_keys s m : NoDup (keyed <$> shared_records s m).*1.
Proof.
  assert ((keyed <$> shared_records s m).*1 =
    (member_key <$> (entries s.(Brain.members)).*1) ++ (node_key <$> (entries s.(Brain.nodes)).*1)
    ++ (task_key <$> (List.filter (created_by m) (entries s.(Brain.tasks))).*1)) as ->.
  { unfold shared_records. rewrite !fmap_app, <- !list_fmap_compose.
    f_equal; [|f_equal]; apply list_fmap_ext; by intros _ [k v] _. }
  apply list.NoDup_app. split_and!; [apply NoDup_fmap_2, NoDup_entries_keys; apply _| |].
  - intros x Hx. apply list_elem_of_fmap in Hx as (k & -> & _). rewrite elem_of_app, !list_elem_of_fmap.
    intros [(k' & Heq & _)|(k' & Heq & _)]; discriminate.
  - apply list.NoDup_app. split_and!; [apply NoDup_fmap_2, NoDup_entries_keys; apply _| |].
    + intros x Hx. apply list_elem_of_fmap in Hx as (k & -> & _). rewrite !list_elem_of_fmap.
      intros (k' & Heq & _). discriminate.
    + apply NoDup_fmap_2, NoDup_filter_fst; apply _.
Qed.

Lemma lookup_view s m k r :
  view s m !! k = Some r <-> r ∈ shared_records s m /\ record_key r.(SharedRecord.data) = k.
Proof.
  unfold view. rewrite <- elem_of_list_to_map by apply NoDup_shared_keys.
  rewrite list_elem_of_fmap. split.
  - intros (r' & [= -> ->] & Hin). done.
  - intros [Hin <-]. by exists r.
Qed.

(** ** Exactness *)

Lemma entries_delta_old {V} (revision : V -> N) rev (m m' : gmap string V) k v' :
  entries_delta revision rev m m' -> m' !! k = Some v' -> (revision v' <= rev)%N ->
  m !! k = Some v'.
Proof. intros [_ H] Hk Hle. destruct (H _ _ Hk); [done|lia]. Qed.

(** A record that is not newer than the older state was already shared by it. *)
Lemma shared_old s s' m r :
  delta s s' -> r ∈ shared_records s' m ->
  (r.(SharedRecord.revision) <= s.(Brain.revision))%N -> r ∈ shared_records s m.
Proof.
  intros [D1 D2 D3 D4 D5 D6 D7]. rewrite !elem_of_shared_records.
  intros [(k & v & Hk & ->)|[(k & v & Hk & ->)|(k & v & Hk & Hc & ->)]] Hle; simpl in Hle.
  - left. exists k, v. unfold member_shared. rewrite D2. split; [|done].
    by eapply entries_delta_old.
  - right; left. exists k, v. split; [|done]. by eapply entries_delta_old.
  - right; right. exists k, v. split; [|done]. by eapply entries_delta_old.
Qed.

(** Every key the older state shared is still shared. *)
Lemma shared_key_kept s s' m r :
  delta s s' -> r ∈ shared_records s m -> exists r', r' ∈ shared_records s' m /\
    record_key r'.(SharedRecord.data) = record_key r.(SharedRecord.data).
Proof.
  intros [D1 D2 D3 D4 D5 D6 D7].
  setoid_rewrite elem_of_shared_records.
  intros [(k & v & Hk & ->)|[(k & v & Hk & ->)|(k & v & Hk & Hc & ->)]].
  - assert (is_Some (s'.(Brain.members) !! k)) as [v' Hk'].
    { apply elem_of_dom, (proj1 D4), elem_of_dom. by exists v. }
    eexists. split; [left; by exists k, v'|done].
  - assert (is_Some (s'.(Brain.nodes) !! k)) as [v' Hk'].
    { apply elem_of_dom, (proj1 D5), elem_of_dom. by exists v. }
    eexists. split; [right; left; by exists k, v'|done].
  - assert (is_Some (s'.(Brain.tasks) !! k)) as [v' Hk'].
    { apply elem_of_dom, (proj1 D6), elem_of_dom. by exists v. }
    eexists. split; [right; right; exists k, v'; split_and!; [done| |done]|done].
    unfold created_by in *. simpl in *. by rewrite (D7 _ _ _ Hk Hk').
Qed.

Definition apply_changes (l : list SharedRecord.t) (base : gmap string SharedRecord.t)
    : gmap string SharedRecord.t := list_to_map (keyed <$> l) ∪ base.

Lemma NoDup_changes_keys s m after : NoDup (keyed <$> changes s m after).*1.
Proof.
  unfold changes. generalize (NoDup_shared_keys s m).
  induction (shared_records s m) as [|r l IH]; simpl; [done|].
  rewrite list.NoDup_cons. intros [Hk Hnd]. destruct (_ <? _)%N; [|auto]. simpl.
  apply list.NoDup_cons. split; [|auto]. intros Hin. apply Hk.
  rewrite <- list_fmap_compose in *. apply list_elem_of_fmap in Hin as (x & Heq & Hx).
  apply elem_of_filter_list in Hx as [Hx _]. apply list_elem_of_fmap. by exists x.
Qed.

Lemma lookup_changes s m after k r :
  list_to_map (M := gmap string SharedRecord.t) (keyed <$> changes s m after) !! k = Some r <->
  r ∈ shared_records s m /\ (after < r.(SharedRecord.revision))%N /\
  record_key r.(SharedRecord.data) = k.
Proof.
  rewrite <- elem_of_list_to_map by apply NoDup_changes_keys. rewrite list_elem_of_fmap.
  unfold changes. setoid_rewrite elem_of_filter_list. setoid_rewrite N.ltb_lt. split.
  - intros (r' & [= -> ->] & Hin & Hlt). done.
  - intros (Hin & Hlt & <-). by exists r.
Qed.

(** Applying the changes after a copy's revision to that copy gives the current view. *)
Lemma changes_exact s s' m :
  delta s s' -> apply_changes (changes s' m s.(Brain.revision)) (view s m) = view s' m.
Proof.
  intros Hd. apply map_eq. intros k. unfold apply_changes. apply option_eq. intros r.
  rewrite lookup_union_Some_raw, lookup_changes, !lookup_view. split.
  - intros [(Hin & _ & Hk)|[Hnone [Hin Hk]]]; [done|].
    destruct (shared_key_kept _ _ _ _ Hd Hin) as (r' & Hin' & Hk').
    destruct (N.lt_ge_cases s.(Brain.revision) r'.(SharedRecord.revision)) as [Hlt|Hge].
    + exfalso. assert (list_to_map (M := gmap string SharedRecord.t)
        (keyed <$> changes s' m s.(Brain.revision)) !! k = Some r') as Hs.
      { apply lookup_changes. split_and!; [done|done|congruence]. }
      congruence.
    + pose proof (shared_old _ _ _ _ Hd Hin' Hge) as Hold.
      assert (Some r = Some r') as [= ->].
      { rewrite <- (proj2 (lookup_view s m k r)) by done.
        apply lookup_view. split; [done|congruence]. }
      done.
  - intros [Hin Hk]. destruct (N.lt_ge_cases s.(Brain.revision) r.(SharedRecord.revision)) as [Hlt|Hge].
    + by left.
    + right. split; [|split; [by eapply shared_old|done]].
      apply eq_None_not_Some. intros [r' Hr']. apply lookup_changes in Hr' as (Hin' & Hlt & Hk').
      assert (Some r = Some r') as [= ->]; [|lia].
      rewrite <- (proj2 (lookup_view s' m k r)) by done. by apply lookup_view.
Qed.

Section Revisions.
Context `{Sha256, ProtocolJson}.

(** All shared records of a valid Brain have a positive revision at most its own. *)
Lemma shared_revision s m r :
  valid s -> registry_wf s.(Brain.credentials) -> r ∈ shared_records s m ->
  (0 < r.(SharedRecord.revision) <= s.(Brain.revision))%N.
Proof.
  intros Hv Hc. rewrite elem_of_shared_records.
  intros [(k & v & Hk & ->)|[(k & v & Hk & ->)|(k & v & Hk & _ & ->)]]; simpl.
  - destruct (v_members _ Hv _ _ Hk) as (_ & _ & _ & ? & _). done.
  - destruct (lookup_node _ _ _ Hv Hc Hk) as (_ & _ & _ & _ & _ & ? & _). done.
  - destruct (v_tasks _ Hv _ _ Hk) as (_ & _ & _ & _ & _ & [? ?] & _). lia.
Qed.

(** A Node that has nothing gets everything. *)
Lemma changes_from_zero s m :
  valid s -> registry_wf s.(Brain.credentials) -> apply_changes (changes s m 0) ∅ = view s m.
Proof.
  intros Hv Hc. apply map_eq. intros k. unfold apply_changes. rewrite map_union_empty.
  apply option_eq. intros r. rewrite lookup_changes, lookup_view. split; [tauto|].
  intros [Hin Hk]. split_and!; try done. apply (shared_revision _ _ _ Hv Hc) in Hin. lia.
Qed.
End Revisions.
