(* ===== verification/Wire.v ===== *)
(** * The control protocol (collaboration/wire.rs)

    Requests and responses between a Node's client and the Brain's host, with their
    bounded codecs. serde_json on the derived serializers is a parameter. *)

From S2P Require Import Prelude Protocol Credential Invitation Brain Reconcile.

Module WireError.
Inductive t := Rejected | Conflict | Busy | Unavailable | Invalid.
#[global] Instance eq_dec : EqDecision t.
Proof. solve_decision. Defined.
End WireError.

Module Operation.
Inductive t :=
| Authenticate (binding : CredentialBinding.t) (secret : SecretToken)
| Join (brain_id invitation_id : string) (secret : SecretToken)
    (identity_id device_id display_name : string)
| Sync (request : ReconcileRequest.t)
| Submit (message : Message)
| Pulse
| Invite
| CancelInvite (invitation_id : string)
| Revoke (member_id : string) (revision : N).
End Operation.

Module Request.
Record t := mk { version : N; id : string; operation : Operation.t }.
End Request.

Module Reply.
Inductive t :=
| Authenticated
| Joined (binding : CredentialBinding.t) (expires_at : Z) (secret : SecretToken)
| Page (page : Page.t)
| Applied (key : string) (revision : N)
| Pulsed (revision : N)
| Invited (brain_id invitation_id : string) (expires_at : Z) (secret : SecretToken)
| Administered (revision : N)
| Error (error : WireError.t).
End Reply.

Module Response.
Record t := mk { version : N; id : string; result : Reply.t }.
End Response.

(** serde_json on requests and responses; a secret is read through [SecretToken::parse]
    and a message through [Message::try_from]. *)
Class WireJson := {
  request_to_vec : Request.t -> option string;
  request_from_slice : string -> option Request.t;
  response_to_vec : Response.t -> option string;
  response_from_slice : string -> option Response.t;
}.

Section Codec.
Context `{WireJson}.

Definition request_decode (bytes : string) : result WireError.t Request.t :=
  _ ← refuse (MAX_CONTROL_BYTES <? len bytes)%N WireError.Invalid;
  request ← ok_or (request_from_slice bytes) WireError.Invalid;
  _ ← refuse (negb (request.(Request.version) =? 1)%N || negb (id request.(Request.id)))
        WireError.Invalid;
  Ok request.

Definition request_encode (request : Request.t) : result WireError.t string :=
  bytes ← ok_or (request_to_vec request) WireError.Invalid;
  _ ← request_decode bytes;
  Ok bytes.

Definition response_decode (bytes request_id : string) : result WireError.t Response.t :=
  _ ← refuse (MAX_CONTROL_BYTES <? len bytes)%N WireError.Invalid;
  response ← ok_or (response_from_slice bytes) WireError.Invalid;
  _ ← refuse (negb (response.(Response.version) =? 1)%N
              || negb (str_eqb response.(Response.id) request_id)
              || negb (id response.(Response.id))) WireError.Invalid;
  _ ← match response.(Response.result) with
      | Reply.Page page => map_err (fun _ => WireError.Invalid) (page_validate page)
      | _ => Ok tt
      end;
  Ok response.

Definition response_encode (response : Response.t) : result WireError.t string :=
  bytes ← ok_or (response_to_vec response) WireError.Invalid;
  _ ← response_decode bytes response.(Response.id);
  Ok bytes.
End Codec.
