(* ===== verification/Client.v ===== *)
(** * The Node's client (collaboration/client.rs)

    The client owns a Node view and at most one channel. What is on the other side of the
    channel, transport included, is a parameter: [exchange] sends one operation and
    returns the reply, in the peer's own state. *)

From S2P Require Import Prelude Protocol Credential Invitation Brain Reconcile Node Wire.

(** The local vault is a parameter too; only the kinds of its failures matter here. *)
Module ClientError.
Inductive t (V : Type) :=
| Invalid | Transport | Peer (e : WireError.t) | Node (e : NodeError.t) | Vault (e : V).
Arguments Invalid {V}.
Arguments Transport {V}.
Arguments Peer {V} e.
Arguments Node {V} e.
Arguments Vault {V} e.
End ClientError.

Module Client.
Record t := mk { binding : CredentialBinding.t; node : Node.t; channel : bool }.
Definition set_node (n : Node.t) (c : t) : t := mk c.(binding) n c.(channel).
Definition set_channel (b : bool) (c : t) : t := mk c.(binding) c.(node) b.
End Client.

Section Client.
Context `{Sha256, ProtocolJson, RecordsJson}.
(** The peer: its state and one exchange over an open channel. *)
Context {V P : Type} (exchange : Operation.t -> M P (ClientError.t V) Reply.t).

#[local] Notation "'ClientM'" := (M (Client.t * P) (ClientError.t V)) (only parsing).

Definition client_disconnect (c : Client.t) : Client.t :=
  Client.set_node (disconnect c.(Client.node)) (Client.set_channel false c).

Definition on_client (f : Client.t -> Client.t) : ClientM unit := modify (fun s => (f s.1, s.2)).

Definition fail {A} (error : ClientError.t V) : ClientM A :=
  _ ← on_client client_disconnect;
  throw error.

Definition request (operation : Operation.t) : ClientM Reply.t :=
  s ← get;
  if negb s.1.(Client.channel) then fail ClientError.Transport else
  let (r, p) := exchange operation s.2 in
  _ ← modify (fun s => (s.1, p));
  match r with
  | Ok reply => mret reply
  | Err error => fail error
  end.

(** A call on [self.node] whose error is returned with [?], without disconnecting. *)
Definition on_node {A} (m : NodeM A) : ClientM A :=
  zoom (fun s => s.1.(Client.node)) (fun n s => (Client.set_node n s.1, s.2)) ClientError.Node m.

(** A call on [self.node] whose error ends the connection. *)
Definition on_node_or_fail {A} (m : NodeM A) : ClientM A :=
  s ← get;
  let (r, n) := m s.1.(Client.node) in
  _ ← on_client (Client.set_node n);
  match r with
  | Ok a => mret a
  | Err error => fail (ClientError.Node error)
  end.

(** [for _ in 0..MAX_SHARED_RECORDS]: [fuel] iterations are left. *)
Fixpoint reconcile_loop (fuel : nat) : ClientM unit :=
  match fuel with
  | O => fail ClientError.Invalid
  | S fuel =>
    s ← get;
    reply ← request (Operation.Sync (reconcile_request s.1.(Client.node)));
    match reply with
    | Reply.Page page =>
      next ← on_node_or_fail (accept_page page);
      match next with
      | None => mret tt
      | Some _ => reconcile_loop fuel
      end
    | _ => fail ClientError.Invalid
    end
  end.

Definition client_reconcile : ClientM unit := reconcile_loop (N.to_nat MAX_SHARED_RECORDS).

Definition revision_in_range (revision : N) : bool :=
  (1 <=? revision)%N && (revision <=? MAX_REVISION)%N.

Definition authenticate (credential : IssuedCredential.t) : ClientM unit :=
  reply ← request (Operation.Authenticate credential.(IssuedCredential.binding)
                     credential.(IssuedCredential.secret));
  match reply with
  | Reply.Authenticated => client_reconcile
  | _ => fail ClientError.Invalid
  end.

(** A step of the peer alone *)
Definition on_peer {A} (m : M P (ClientError.t V) A) : ClientM A :=
  zoom snd (fun p s => (s.1, p)) (fun e => e) m.

(** [reconnect]; [time] is the local clock, [load] reads the credential from the vault,
    [dial] opens the TLS channel to the peer. *)
Definition reconnect (time : result WireError.t Z) (load : Z -> result V IssuedCredential.t)
    (dial : M P (ClientError.t V) unit) : ClientM unit :=
  _ ← on_client client_disconnect;
  now ← lift (map_err ClientError.Peer time);
  credential ← lift (map_err ClientError.Vault (load now));
  _ ← on_peer dial;
  _ ← on_client (Client.set_channel true);
  authenticate credential.

(** The end of a constructor: the client, unless the operation on it failed *)
Definition built (client : Client.t) (m : ClientM unit) : M P (ClientError.t V) Client.t :=
  fun p => let '(r, (client, p)) := m (client, p) in ((fun _ : unit => client) <$> r, p).

Definition client_connect (binding : CredentialBinding.t) (time : result WireError.t Z)
    (load : Z -> result V IssuedCredential.t) (dial : M P (ClientError.t V) unit)
    : M P (ClientError.t V) Client.t :=
  node ← lift (map_err ClientError.Node (node_new binding));
  built (Client.mk binding node false) (reconnect time load dial).

(** [join], over the peer and what the vault keeps *)
Definition client_join {W} (request : JoinRequest.t) (time : result WireError.t Z)
    (save_new : IssuedCredential.t -> Z -> M W V unit) (dial : M P (ClientError.t V) unit)
    : M (P * W) (ClientError.t V) Client.t :=
  _ ← zoom fst (fun p s => (p, s.2)) (fun e => e) dial;
  secret ← lift (map_err (fun _ => ClientError.Invalid)
                   (token_parse request.(JoinRequest.secret).(expose_secret)));
  reply ← zoom fst (fun p s => (p, s.2)) (fun e => e)
            (exchange (Operation.Join request.(JoinRequest.brain_id) request.(JoinRequest.invitation_id)
                         secret request.(JoinRequest.identity_id) request.(JoinRequest.device_id)
                         request.(JoinRequest.display_name)));
  match reply with
  | Reply.Joined binding expires_at secret =>
    _ ← reject_if (negb (str_eqb binding.(CredentialBinding.brain_id) request.(JoinRequest.brain_id))
                   || negb (str_eqb binding.(CredentialBinding.device_id) request.(JoinRequest.device_id)))
          ClientError.Invalid;
    node ← lift (map_err ClientError.Node (node_new binding));
    now ← lift (map_err ClientError.Peer time);
    let credential := IssuedCredential.mk binding expires_at secret in
    _ ← zoom snd (fun w s => (s.1, w)) ClientError.Vault (save_new credential now);
    zoom fst (fun p s => (p, s.2)) (fun e => e)
      (built (Client.mk binding node true) (authenticate credential))
  | _ => throw ClientError.Invalid
  end.

Definition pulse : ClientM unit :=
  reply ← request Operation.Pulse;
  match reply with
  | Reply.Pulsed revision =>
    if revision_in_range revision then client_reconcile else fail ClientError.Invalid
  | _ => fail ClientError.Invalid
  end.

Definition publish_pending : ClientM N :=
  s ← get;
  message ← lift (map_err ClientError.Node (outgoing s.1.(Client.node)));
  reply ← request (Operation.Submit message);
  match reply with
  | Reply.Applied key revision =>
    _ ← on_node_or_fail (acknowledge key revision);
    _ ← client_reconcile;
    mret revision
  | _ => fail ClientError.Invalid
  end.

Definition submit_confirmed (message : Message) : ClientM N :=
  _ ← on_node (queue_confirmed message);
  publish_pending.

(** [invite]; [time] is the local clock read after the reply. *)
Definition client_invite (time : result WireError.t Z) : ClientM IssuedInvitation.t :=
  reply ← request Operation.Invite;
  match reply with
  | Reply.Invited brain_id invitation_id expires_at secret =>
    match time with
    | Err error => fail (ClientError.Peer error)
    | Ok time =>
      s ← get;
      if negb (str_eqb brain_id s.1.(Client.binding).(CredentialBinding.brain_id))
         || negb (is_ok (token_parse invitation_id))
         || negb (timestamp expires_at)
         || (expires_at <=? time)%Z
         || (600 <? expires_at - time)%Z
      then fail ClientError.Invalid
      else mret (IssuedInvitation.mk brain_id invitation_id expires_at secret)
    end
  | _ => fail ClientError.Invalid
  end.

Definition administer (operation : Operation.t) : ClientM unit :=
  reply ← request operation;
  match reply with
  | Reply.Administered revision =>
    if revision_in_range revision then client_reconcile else fail ClientError.Invalid
  | _ => fail ClientError.Invalid
  end.

Definition cancel_invite (invitation_id : string) : ClientM unit :=
  _ ← reject_if (negb (id invitation_id)) ClientError.Invalid;
  administer (Operation.CancelInvite invitation_id).

Definition client_revoke (member_id : string) : ClientM unit :=
  s ← get;
  _ ← reject_if (negb (id member_id) || negb s.1.(Client.node).(Node.ready)) ClientError.Invalid;
  administer (Operation.Revoke member_id s.1.(Client.node).(Node.revision)).
End Client.
