(* ===== verification/Sync.v ===== *)
(** * Synchronisation

    Every page the Brain produces passes the checks the Node makes, the checks on a
    completed batch accept the Brain's view, and each round of the client's loop that is
    answered with a page of one Brain brings the Node closer to exactly that Brain's view. *)

From S2P Require Import Prelude Protocol Credential Invitation Brain BrainValid BrainInv BrainOps BrainThm Snapshot Reconcile Node Delta Wire Client.

(** ** Pages *)

Section Pages.
Context `{Sha256, ProtocolJson}.

Lemma shared_records_bound s m :
  valid s -> length (shared_records s m) <= N.to_nat MAX_SHARED_RECORDS.
Proof.
  intros Hv. unfold shared_records. rewrite !length_app, !length_fmap.
  pose proof (List.filter_length_le (created_by m) (entries s.(Brain.tasks))).
  rewrite !length_entries in *. pose proof (v_tasks_cap _ Hv). unfold MAX_TASKS in *.
  pose proof (h_members _ (v_header _ Hv)). pose proof (h_nodes _ (v_header _ Hv)).
  unfold MAX_SHARED_RECORDS. lia.
Qed.

Lemma changes_bound s m after :
  valid s -> length (changes s m after) <= N.to_nat MAX_SHARED_RECORDS.
Proof.
  intros Hv. etrans; [apply List.filter_length_le|by apply shared_records_bound].
Qed.

Lemma announcement_shared_ok b k n message :
  announcement_ok b k n -> n.(NodeRecord.announcement) = Some message ->
  announcement_shared b k n.(NodeRecord.member_id) n.(NodeRecord.device_id)
    n.(NodeRecord.revision) message = true.
Proof.
  intros Hok Hm. destruct (Hok _ Hm) as (Hp & Hs & Hb & Hr). unfold announcement_shared.
  rewrite Hp, Hs, Hb, !str_eqb_refl. simpl. rewrite andb_true_r. by apply N.ltb_lt.
Qed.

(** Each shared record passes the page's rules for its data. *)
Lemma shared_data_valid s m page r :
  brain_wf s -> page.(Page.brain_id) = s.(Brain.brain_id) -> page.(Page.member_id) = m ->
  r ∈ shared_records s m -> data_valid page r.(SharedRecord.revision) r.(SharedRecord.data) = true.
Proof.
  intros Hwf Hb Hm. rewrite elem_of_shared_records. pose proof (bw_valid _ Hwf) as Hv.
  intros [(k & v & Hk & ->)|[(k & v & Hk & ->)|(k & v & Hk & Hc & ->)]];
    cbn [member_shared node_shared task_shared SharedRecord.revision SharedRecord.data data_valid].
  - destruct (v_members _ Hv _ _ Hk) as (-> & -> & Hn & _). exact Hn.
  - pose proof (node_binding_valid _ _ _ Hwf Hk) as Hbv. unfold binding_valid in Hbv.
    cbn [forallb CredentialBinding.brain_id CredentialBinding.member_id
      CredentialBinding.node_id CredentialBinding.device_id] in Hbv. bool_hyps.
    destruct (lookup_node _ _ _ Hv (bw_credentials _ Hwf) Hk) as (_ & mr & _ & _ & _ & (_ & Hon & Hseen)).
    rewrite !andb_true_iff. split_and!; try done.
    + destruct v.(NodeRecord.online); [|done]. by destruct (Hon eq_refl) as [_ [? ->]].
    + destruct v.(NodeRecord.last_seen_at) as [seen|]; [|done]. by destruct (Hseen _ eq_refl).
    + destruct v.(NodeRecord.announcement) as [message|] eqn:Ha; [|done]. simpl. rewrite Hb.
      apply announcement_shared_ok; [by apply (v_announcements _ Hv)|done].
  - destruct (v_tasks _ Hv _ _ Hk) as (mid & n & rp & Hp & Hbr & (Hs & _) & _).
    pose proof (task_key_id _ _ _ Hwf Hk) as Hid. unfold created_by in Hc. cbn [snd] in Hc.
    cbv zeta. rewrite Hp in Hc |- *. rewrite Hid, Hbr, Hb, Hm, !str_eqb_refl, Hc.
    apply N.ltb_lt in Hs. by rewrite Hs.
Qed.

(** The request is one the Brain answers: its offset is inside the list of changes. *)
Definition request_in_range (s : Brain.t) (m : string) (q : ReconcileRequest.t) : Prop :=
  (q.(ReconcileRequest.after) <= s.(Brain.revision))%N /\
  (N.to_nat q.(ReconcileRequest.offset) < length (changes s m q.(ReconcileRequest.after)) \/
   q.(ReconcileRequest.offset) = 0%N).

Lemma make_page_valid s m q :
  brain_wf s -> id m = true -> request_in_range s m q ->
  page_validate (make_page s m q) = Ok tt.
Proof.
  intros Hwf Hm [Hafter Hoff]. pose proof (bw_valid _ Hwf) as Hv.
  pose proof (v_header _ Hv) as Hh. pose proof (h_revision _ Hh) as [Hr1 Hr2].
  pose proof (changes_bound s m q.(ReconcileRequest.after) Hv) as Hbound.
  unfold page_validate. rewrite result_seq_ok, refuse_ok, for_each_ok. split.
  - simpl. rewrite (h_brain _ Hh), Hm. unfold MAX_SHARED_RECORDS in *.
    set (l := changes s m _) in *. set (o := ReconcileRequest.offset q) in *.
    rewrite length_take, length_drop.
    repeat (apply orb_false_iff; split); simpl; try lia.
    + apply Nat.ltb_ge. case_match; lia.
    + destruct (Nat.ltb_spec (N.to_nat o + 1) (length l)); simpl; [|done]. lia.
    + destruct (drop (N.to_nat o) l) as [|x rest] eqn:Hd; [|done]. simpl.
      assert (length (drop (N.to_nat o) l) = 0) as Hlen by (by rewrite Hd).
      rewrite length_drop in Hlen.
      destruct (Nat.ltb_spec (N.to_nat o + 1) (length l)); simpl; lia.
  - apply list.Forall_forall. intros r Hr. simpl in Hr.
    assert (r ∈ changes s m q.(ReconcileRequest.after)) as Hin.
    { apply elem_of_take in Hr as (i & Hi & _). rewrite lookup_drop in Hi.
      by eapply list_elem_of_lookup_2. }
    unfold changes in Hin. apply elem_of_filter_list in Hin as [Hin Hlt]. apply N.ltb_lt in Hlt.
    pose proof (shared_revision _ _ _ Hv (bw_credentials _ Hwf) Hin) as [_ Hle].
    unfold check_record. rewrite result_seq_ok, !refuse_ok. split; [simpl; lia|].
    rewrite (shared_data_valid s m) by done. done.
Qed.
End Pages.

(** ** A completed batch *)

Section Complete.
Context `{Sha256, ProtocolJson}.

Lemma data_at_view s m k d :
  data_at (view s m) k = Some d <->
  exists r, r ∈ shared_records s m /\ r.(SharedRecord.data) = d /\ record_key d = k.
Proof.
  unfold data_at. rewrite fmap_Some. setoid_rewrite lookup_view. split.
  - intros (r & [? ?] & ->). eauto.
  - intros (r & ? & <- & ?). eauto.
Qed.

Lemma data_at_member s m k v :
  s.(Brain.members) !! k = Some v ->
  data_at (view s m) (member_key k) = Some (SharedData.Member k v.(MemberRecord.identity_id)
    v.(MemberRecord.display_name) (str_eqb k s.(Brain.owner_member_id)) v.(MemberRecord.revoked)).
Proof.
  intros Hk. apply data_at_view. exists (member_shared s (k, v)). split; [|done].
  apply elem_of_shared_records. left. eauto.
Qed.

Lemma data_at_node s m k v :
  s.(Brain.nodes) !! k = Some v ->
  data_at (view s m) (node_key k) = Some (SharedData.Node k v.(NodeRecord.member_id)
    v.(NodeRecord.device_id) v.(NodeRecord.online) v.(NodeRecord.last_seen_at)
    v.(NodeRecord.announcement)).
Proof.
  intros Hk. apply data_at_view. exists (node_shared (k, v)). split; [|done].
  apply elem_of_shared_records. right; left. eauto.
Qed.

Lemma elem_of_values_view s m r : r ∈ values (view s m) <-> r ∈ shared_records s m.
Proof.
  rewrite elem_of_values. setoid_rewrite lookup_view. naive_solver.
Qed.

(** A view is consistent: every reference in it resolves. *)
Lemma view_references s m r :
  brain_wf s -> r ∈ shared_records s m -> reference_ok (view s m) m r = true.
Proof.
  intros Hwf. pose proof (bw_valid _ Hwf) as Hv. rewrite elem_of_shared_records.
  intros [(k & v & Hk & ->)|[(k & v & Hk & ->)|(k & v & Hk & Hc & ->)]];
    unfold reference_ok; cbn [member_shared node_shared task_shared SharedRecord.data]; [done| |].
  - destruct (lookup_node _ _ _ Hv (bw_credentials _ Hwf) Hk) as (_ & mr & _ & _ & Hm & (_ & Hon & _)).
    rewrite (data_at_member _ _ _ _ Hm). destruct v.(NodeRecord.online); [|done].
    by destruct (Hon eq_refl) as [-> _].
  - destruct (v_tasks _ Hv _ _ Hk) as (mid & n & rp & Hp & _ & _ & Hn & Hnm & _).
    rewrite (data_at_node _ _ _ _ Hn), Hnm. unfold created_by in Hc. cbn [snd] in Hc.
    by rewrite Hp in Hc.
Qed.

(** The values of a view are distinct, since each determines its key. *)
Lemma NoDup_values_view s m : NoDup (values (view s m)).
Proof.
  unfold values. apply NoDup_fmap_2_strong; [|apply NoDup_entries].
  intros [k1 r1] [k2 r2] H1%elem_of_entries H2%elem_of_entries Heq. simpl in Heq. subst r2.
  apply lookup_view in H1 as [_ <-], H2 as [_ <-]. done.
Qed.

Lemma count_le s m p {V} (f : string * V -> SharedRecord.t) (t : gmap string V) :
  (forall r, r ∈ shared_records s m -> p r.(SharedRecord.data) = true ->
     exists k v, t !! k = Some v /\ r = f (k, v)) ->
  count p (view s m) <= size t.
Proof.
  intros Hp. unfold count. rewrite <- length_entries, <- (length_fmap f).
  apply submseteq_length, NoDup_submseteq.
  - apply NoDup_ListNoDup, List.NoDup_filter, NoDup_ListNoDup, NoDup_values_view.
  - intros r Hr. apply elem_of_filter_list in Hr as [Hin Hpr]. apply elem_of_values_view in Hin.
    destruct (Hp _ Hin Hpr) as (k & v & Hk & ->). apply list_elem_of_fmap_2.
    by apply elem_of_entries.
Qed.

Lemma count_one s m p r0 :
  r0 ∈ shared_records s m -> p r0.(SharedRecord.data) = true ->
  (forall r, r ∈ shared_records s m -> p r.(SharedRecord.data) = true -> r = r0) ->
  count p (view s m) = 1.
Proof.
  intros Hin Hp Huniq. unfold count.
  assert (List.filter (fun r => p r.(SharedRecord.data)) (values (view s m)) ≡ₚ [r0]) as ->; [|done].
  apply NoDup_Permutation.
  - apply NoDup_ListNoDup, List.NoDup_filter, NoDup_ListNoDup, NoDup_values_view.
  - apply NoDup_singleton.
  - intros r. rewrite elem_of_filter_list, elem_of_values_view, list_elem_of_singleton. naive_solver.
Qed.

Lemma count_owner s m : brain_wf s -> count is_owner (view s m) = 1.
Proof.
  intros Hwf. destruct (h_owner _ (v_header _ (bw_valid _ Hwf))) as (mo & Hmo & Hrev).
  apply (count_one _ _ _ (member_shared s (s.(Brain.owner_member_id), mo))).
  - apply elem_of_shared_records. left. eauto.
  - simpl. by rewrite str_eqb_refl, Hrev.
  - intros r Hr Hp. apply elem_of_shared_records in Hr
      as [(k & v & Hk & ->)|[(k & v & Hk & ->)|(k & v & Hk & _ & ->)]]; try done.
    simpl in Hp. apply andb_true_inv in Hp as [->%str_eqb_true _]. congruence.
Qed.

Lemma count_caps s m :
  brain_wf s ->
  count is_member (view s m) <= 64 /\ count is_node (view s m) <= 64 /\
  count is_task (view s m) <= 64.
Proof.
  intros Hwf. pose proof (bw_valid _ Hwf) as Hv. pose proof (v_header _ Hv) as Hh.
  split_and!.
  - etrans; [apply (count_le _ _ _ (member_shared s) s.(Brain.members))|apply (h_members _ Hh)].
    intros r Hr Hp. apply elem_of_shared_records in Hr
      as [(k & v & Hk & ->)|[(k & v & Hk & ->)|(k & v & Hk & _ & ->)]]; try done. eauto.
  - etrans; [apply (count_le _ _ _ node_shared s.(Brain.nodes))|apply (h_nodes _ Hh)].
    intros r Hr Hp. apply elem_of_shared_records in Hr
      as [(k & v & Hk & ->)|[(k & v & Hk & ->)|(k & v & Hk & _ & ->)]]; try done. eauto.
  - etrans; [apply (count_le _ _ _ task_shared s.(Brain.tasks))|apply (v_tasks_cap _ Hv)].
    intros r Hr Hp. apply elem_of_shared_records in Hr
      as [(k & v & Hk & ->)|[(k & v & Hk & ->)|(k & v & Hk & _ & ->)]]; try done. eauto.
Qed.

(** The binding of a Node that the Brain knows and whose member is not revoked. *)
Definition enrolled (s : Brain.t) (b : CredentialBinding.t) : Prop :=
  exists n v, s.(Brain.credentials).(CredentialRegistry.records) !! n = Some v /\
    v.(StoredCredential.binding) = b /\ v.(StoredCredential.revoked) = false.

(** The checks of the last page accept the Brain's own view. *)
Lemma check_complete_view s b :
  brain_wf s -> enrolled s b ->
  check_complete b (view s b.(CredentialBinding.member_id)) = Ok tt.
Proof.
  intros Hwf (x & v & Hx & Hb & Hrev). pose proof (bw_valid _ Hwf) as Hv.
  destruct (v_bindings _ Hv _ _ Hx) as (n & mr & Hn & Hm & Hnm & Hnd & _). rewrite Hb in *.
  unfold check_complete. rewrite result_seq_ok, !refuse_ok. split.
  { apply negb_false_iff, forallb_forall. intros r Hr%list_elem_of_In.
    apply view_references; [done|]. by apply elem_of_values_view. }
  rewrite (count_owner _ _ Hwf), (data_at_member _ _ _ _ Hm), (data_at_node _ _ _ _ Hn).
  destruct (count_caps s b.(CredentialBinding.member_id) Hwf) as (H1 & H2 & H3).
  destruct (v_members _ Hv _ _ Hm) as (_ & _ & _ & _ & _ & ->).
  pose proof (rwf_members _ (bw_credentials _ Hwf) _ _ Hx) as Hr. unfold StoredCredential.member in Hr.
  rewrite Hb, Hrev in Hr. rewrite <- Hr, Hnm, Hnd, !str_eqb_refl. cbn [existsb].
  apply Nat.ltb_ge in H1, H2, H3. by rewrite H1, H2, H3.
Qed.
End Complete.

(** ** Receiving a batch *)

Section Receive.
Context `{Sha256, ProtocolJson, RecordsJson}.
Context (s : Brain.t) (b : CredentialBinding.t) (after : N) (base : gmap string SharedRecord.t).
Let m := b.(CredentialBinding.member_id).
Let l := changes s m after.

(** The Node [b] has the records [base] of revision [after]; bringing them up to date
    gives the Brain's view. *)
Record batch : Prop := {
  ba_wf : brain_wf s;
  ba_enrolled : enrolled s b;
  ba_brain : b.(CredentialBinding.brain_id) = s.(Brain.brain_id);
  ba_member : id m = true;
  ba_after : (after <= s.(Brain.revision))%N;
  ba_view : apply_changes l base = view s m;
  ba_dom : dom base ⊆ dom (view s m);
}.

(** The records after [i] pages are not too big for the Node. *)
Definition fits (i : nat) : Prop := exists bytes,
  records_to_vec (apply_changes (take i l) base) = Some bytes /\ (len bytes <= 3 * 1024 * 1024)%N.

Definition received_keys (i : nat) : gset string := list_to_set ((keyed <$> take i l).*1).

(** The Node after [i] pages of the batch. *)
Definition receiving (i : nat) (n : Node.t) : Prop :=
  n.(Node.binding) = b /\ n.(Node.revision) = after /\ n.(Node.records) = base /\
  n.(Node.sync) =
    match i with
    | O => None
    | S _ => Some (PendingSync.mk
               (ReconcileRequest.mk after (Some s.(Brain.revision)) (N.of_nat i))
               (apply_changes (take i l) base) (received_keys i))
    end.

Definition request_at (i : nat) : ReconcileRequest.t :=
  ReconcileRequest.mk after (match i with O => None | S _ => Some s.(Brain.revision) end)
    (N.of_nat i).

Lemma receiving_request i n : receiving i n -> reconcile_request n = request_at i.
Proof.
  intros (_ & Hr & _ & Hs). unfold reconcile_request, request_at. rewrite Hs.
  destruct i; [|done]. unfold first_request. by rewrite Hr.
Qed.

(** What [accept_page] starts from. *)
Lemma receiving_pending i n :
  receiving i n ->
  match n.(Node.sync) with
  | Some sync => sync
  | None => PendingSync.mk (first_request n.(Node.revision)) n.(Node.records) ∅
  end = PendingSync.mk (request_at i) (apply_changes (take i l) base) (received_keys i).
Proof.
  intros (_ & Hr & Hrec & Hs). rewrite Hs. destruct i as [|i]; [|done].
  unfold request_at, received_keys, apply_changes, first_request. rewrite Hr, Hrec. simpl.
  by rewrite (left_id_L ∅ (∪)).
Qed.

Lemma apply_changes_snoc l0 r :
  record_key r.(SharedRecord.data) ∉ ((keyed <$> l0).*1 : list string) ->
  apply_changes (l0 ++ [r]) base =
  <[record_key r.(SharedRecord.data) := r]> (apply_changes l0 base).
Proof.
  intros Hk. unfold apply_changes. rewrite fmap_app, list_to_map_app. simpl.
  rewrite insert_empty. rewrite <- (insert_union_singleton_r _ _ _ (not_elem_of_list_to_map_1 _ _ Hk)).
  by rewrite insert_union_l.
Qed.

Lemma next_key_fresh i r :
  l !! i = Some r -> record_key r.(SharedRecord.data) ∉ ((keyed <$> take i l).*1 : list string).
Proof.
  intros Hi. pose proof (NoDup_changes_keys s m after) as Hnd. fold l in Hnd.
  rewrite <- (take_drop_middle l i r Hi) in Hnd at 1.
  rewrite fmap_app, fmap_app in Hnd. apply list.NoDup_app in Hnd as (_ & Hdis & _).
  intros Hin. apply (Hdis _ Hin). simpl. by left.
Qed.

(** One more page adds one more record. *)
Lemma receive_next i r :
  l !! i = Some r ->
  receive (PendingSync.mk (request_at i) (apply_changes (take i l) base) (received_keys i)) [r]
  = Ok (PendingSync.mk (request_at i) (apply_changes (take (S i) l) base) (received_keys (S i))).
Proof.
  intros Hi. pose proof (next_key_fresh i r Hi) as Hf. cbn [receive PendingSync.seen].
  unfold received_keys. rewrite bool_decide_eq_false_2 by (by rewrite elem_of_list_to_set).
  rewrite (take_S_r l i r Hi). rewrite apply_changes_snoc by done. f_equal. f_equal.
  rewrite !fmap_app, list_to_set_app_L. simpl. rewrite (right_id_L ∅ (∪)).
  apply (comm_L (∪)).
Qed.

Lemma records_bound (Hb : batch) i :
  (N.of_nat (size (apply_changes (take i l) base)) <= MAX_SHARED_RECORDS)%N.
Proof.
  pose proof (shared_records_bound s m (bw_valid _ (ba_wf Hb))) as Hbound.
  assert (size (apply_changes (take i l) base) <= size (view s m)) as Hsize.
  { rewrite <- !size_dom. apply subseteq_size. unfold apply_changes. rewrite dom_union_L.
    apply union_subseteq. split; [|apply (ba_dom Hb)]. rewrite dom_list_to_map_L, <- (ba_view Hb).
    unfold apply_changes. rewrite dom_union_L, dom_list_to_map_L. apply union_subseteq_l'.
    intros x. rewrite !elem_of_list_to_set, !list_elem_of_fmap.
    intros (y & -> & Hy). exists y. split; [done|]. revert Hy. rewrite !list_elem_of_fmap.
    intros (z & -> & Hz). exists z. split; [done|]. by eapply elem_of_take in Hz as (j & ?%list_elem_of_lookup_2 & _). }
  assert (size (view s m) = length (shared_records s m)) as Hv.
  { unfold view. rewrite map_size_list_to_map by apply NoDup_shared_keys. by rewrite length_fmap. }
  lia.
Qed.

Lemma request_at_in_range (Hb : batch) i :
  i < length l \/ i = 0 -> request_in_range s m (request_at i).
Proof.
  intros Hi. split; [apply (ba_after Hb)|]. unfold request_at. simpl. fold l. lia.
Qed.

(** What [accept_page] does with a page of the batch up to the size of the records. *)
Lemma accept_page_run (Hb : batch) i n :
  receiving i n -> i < length l \/ i = 0 ->
  let page := make_page s m (request_at i) in
  let j := min (S i) (length l) in
  accept_page page n =
  (bytes ← lift (ok_or (records_to_vec (apply_changes (take j l) base)) NodeError.Invalid);
   _ ← reject_if (3 * 1024 * 1024 <? len bytes)%N NodeError.Invalid;
   match page.(Page.next) with
   | Some offset =>
     let request := ReconcileRequest.mk after (Some s.(Brain.revision)) offset in
     _ ← modify (Node.set_sync (Some (PendingSync.mk request
           (apply_changes (take j l) base) (received_keys j))));
     mret (Some request)
   | None =>
     _ ← lift (check_complete b (apply_changes (take j l) base));
     _ ← modify (Node.set_records (apply_changes (take j l) base));
     _ ← modify (Node.set_revision s.(Brain.revision));
     _ ← modify (Node.set_ready true);
     mret None
   end) (Node.set_sync None (Node.set_ready false n)).
Proof.
  intros Hrec Hi page j. unfold accept_page.
  erewrite bind_ok by done. erewrite bind_ok by done. erewrite bind_ok by done.
  change (Node.sync (Node.set_ready false n)) with (Node.sync n).
  change (Node.revision (Node.set_ready false n)) with (Node.revision n).
  change (Node.records (Node.set_ready false n)) with (Node.records n).
  rewrite (receiving_pending i n Hrec).
  assert (page_validate page = Ok tt) as ->.
  { apply make_page_valid; [apply (ba_wf Hb)|apply (ba_member Hb)|by apply request_at_in_range]. }
  erewrite bind_ok by done. cbv zeta.
  change (Node.binding (Node.set_ready false n)) with (Node.binding n).
  destruct Hrec as (Hbind & _ & _ & _). rewrite Hbind.
  cbn [PendingSync.request].
  assert (negb (str_eqb page.(Page.brain_id) b.(CredentialBinding.brain_id))
     || negb (str_eqb page.(Page.member_id) b.(CredentialBinding.member_id))
     || negb (page.(Page.after) =? (request_at i).(ReconcileRequest.after))%N
     || negb (page.(Page.offset) =? (request_at i).(ReconcileRequest.offset))%N
     || is_some_and (fun at_ => negb (at_ =? page.(Page.at_))%N)
          (request_at i).(ReconcileRequest.at_) = false) as ->.
  { simpl. rewrite (ba_brain Hb), !str_eqb_refl, !N.eqb_refl.
    destruct i; simpl; by rewrite ?N.eqb_refl. }
  erewrite bind_ok by done.
  assert (receive (PendingSync.mk (request_at i) (apply_changes (take i l) base) (received_keys i))
    (Page.records page)
    = Ok (PendingSync.mk (request_at i) (apply_changes (take j l) base) (received_keys j))) as ->.
  { change (Page.records page) with (take 1 (drop (N.to_nat (N.of_nat i)) l)). rewrite Nat2N.id.
    destruct (l !! i) as [r|] eqn:Hli.
    - rewrite (drop_S l r i Hli), firstn_cons, firstn_O, (receive_next i r Hli).
      apply lookup_lt_Some in Hli. unfold j. by rewrite Nat.min_l by lia.
    - apply lookup_ge_None in Hli. assert (i = 0) as -> by lia. unfold j.
      rewrite (nil_length_inv l) by lia. done. }
  erewrite bind_ok by done. cbn [PendingSync.records PendingSync.seen].
  pose proof (records_bound Hb j) as Hbound. apply N.ltb_ge in Hbound. rewrite Hbound.
  by erewrite bind_ok by done.
Qed.

(** A page of the batch is accepted only while the records fit. *)
Lemma accept_page_fits (Hb : batch) i n next n' :
  receiving i n -> i < length l \/ i = 0 ->
  accept_page (make_page s m (request_at i)) n = (Ok next, n') -> fits (min (S i) (length l)).
Proof.
  intros Hrec Hi. rewrite (accept_page_run Hb i n Hrec Hi). intros Hrun.
  apply bind_ok_iff in Hrun as (bytes & n1 & Hbytes & Hrun).
  apply bind_ok_iff in Hrun as (u & n2 & Hlen%reject_if_ok & _).
  apply lift_inv in Hbytes as [Hbytes _]. symmetry in Hbytes. apply ok_or_ok in Hbytes. exists bytes. split; [done|].
  apply N.ltb_ge, Hlen.
Qed.

(** A page that is not the last one. *)
Lemma accept_page_more (Hb : batch) i n :
  receiving i n -> S i < length l -> fits (S i) ->
  exists q n', accept_page (make_page s m (request_at i)) n = (Ok (Some q), n') /\
    receiving (S i) n' /\ n'.(Node.uncertain_tasks) = n.(Node.uncertain_tasks) /\
    n'.(Node.pending_message) = n.(Node.pending_message).
Proof.
  intros Hrec Hi (bytes & Hbytes & Hlen%N.ltb_ge). rewrite (accept_page_run Hb i n Hrec) by lia.
  rewrite Nat.min_l by lia. rewrite Hbytes. erewrite bind_ok by done. rewrite Hlen.
  erewrite bind_ok by done.
  assert ((make_page s m (request_at i)).(Page.next) = Some (N.of_nat (S i))) as ->.
  { simpl. fold l. rewrite Nat2N.id. rewrite (proj2 (Nat.ltb_lt _ _)) by lia. f_equal. lia. }
  cbv zeta. erewrite bind_ok by done. eexists _, _. split; [reflexivity|]. split; [|done].
  destruct Hrec as (? & ? & ? & _). by split_and!.
Qed.

(** The last page completes the view. *)
Lemma accept_page_last (Hb : batch) i n :
  receiving i n -> i < length l \/ i = 0 -> length l <= S i -> fits (length l) ->
  exists n', accept_page (make_page s m (request_at i)) n = (Ok None, n') /\
    n'.(Node.binding) = b /\ n'.(Node.records) = view s m /\
    n'.(Node.revision) = s.(Brain.revision) /\ n'.(Node.ready) = true /\ n'.(Node.sync) = None /\
    n'.(Node.uncertain_tasks) = n.(Node.uncertain_tasks) /\
    n'.(Node.pending_message) = n.(Node.pending_message).
Proof.
  intros Hrec Hi Hlast (bytes & Hbytes & Hlen%N.ltb_ge). rewrite (accept_page_run Hb i n Hrec) by lia.
  rewrite Nat.min_r by lia. rewrite Hbytes. erewrite bind_ok by done. rewrite Hlen.
  erewrite bind_ok by done.
  assert ((make_page s m (request_at i)).(Page.next) = None) as ->.
  { simpl. fold l. rewrite Nat2N.id. by rewrite (proj2 (Nat.ltb_ge _ _)) by lia. }
  assert (apply_changes (take (length l) l) base = view s m) as ->.
  { rewrite firstn_all. apply (ba_view Hb). }
  unfold m at 1. rewrite check_complete_view; [|apply (ba_wf Hb)|apply (ba_enrolled Hb)].
  destruct Hrec as (? & _). eexists. split; [done|]. by split_and!.
Qed.
End Receive.

(** ** The client's loop *)

Section Loop.
Context `{Sha256, ProtocolJson, RecordsJson} {V P : Type}.
Context (exchange : Operation.t -> M P (ClientError.t V) Reply.t).

(** The client holds the Brain's view, complete and at its revision; what else it
    remembers is as before. *)
Definition synchronised (s : Brain.t) (c c' : Client.t) : Prop :=
  c'.(Client.binding) = c.(Client.binding) /\ c'.(Client.channel) = true /\
  c'.(Client.node).(Node.binding) = c.(Client.node).(Node.binding) /\
  c'.(Client.node).(Node.records)
    = view s c.(Client.node).(Node.binding).(CredentialBinding.member_id) /\
  c'.(Client.node).(Node.revision) = s.(Brain.revision) /\
  c'.(Client.node).(Node.ready) = true /\ c'.(Client.node).(Node.sync) = None /\
  c'.(Client.node).(Node.uncertain_tasks) = c.(Client.node).(Node.uncertain_tasks) /\
  c'.(Client.node).(Node.pending_message) = c.(Client.node).(Node.pending_message).

(** What a page that is not the last one leaves alone. *)
Definition same_client (c c1 : Client.t) : Prop :=
  c1.(Client.binding) = c.(Client.binding) /\ c1.(Client.channel) = c.(Client.channel) /\
  c1.(Client.node).(Node.binding) = c.(Client.node).(Node.binding) /\
  c1.(Client.node).(Node.uncertain_tasks) = c.(Client.node).(Node.uncertain_tasks) /\
  c1.(Client.node).(Node.pending_message) = c.(Client.node).(Node.pending_message).

Lemma synchronised_same s c c1 c' : same_client c c1 -> synchronised s c1 c' -> synchronised s c c'.
Proof. intros (Hb & Hch & Hnb & Hu & Hp) Hs. unfold synchronised in *. by rewrite <- Hb, <- Hnb, <- Hu, <- Hp. Qed.

(** A round whose request the peer does not answer with a page ends the loop with an error. *)
Lemma reconcile_round_ok fuel c p c' p' :
  reconcile_loop exchange (S fuel) (c, p) = (Ok tt, (c', p')) -> c.(Client.channel) = true ->
  exists page p1, exchange (Operation.Sync (reconcile_request c.(Client.node))) p = (Ok (Reply.Page page), p1).
Proof.
  intros Hrun Hch. cbn [reconcile_loop] in Hrun. erewrite bind_ok in Hrun by done. cbn [fst] in Hrun.
  apply bind_ok_iff in Hrun as (reply & [c1 p1] & Hreq & Hrun).
  unfold request in Hreq. erewrite bind_ok in Hreq by done. cbn [fst snd] in Hreq. rewrite Hch in Hreq.
  cbn [negb] in Hreq. destruct (exchange _ p) as [[r|e] p2] eqn:Hx; [|by cbn in Hreq].
  cbn in Hreq. injection Hreq as <- <- <-. destruct r; try by cbn in Hrun. by eexists _, _.
Qed.

Section Round.
Context (s : Brain.t) (b : CredentialBinding.t) (after : N) (base : gmap string SharedRecord.t).
Let m := b.(CredentialBinding.member_id).
Let n := length (changes s m after).

(** A round whose request is answered with the page of the batch is the handling of that page. *)
Lemma reconcile_round fuel c p p' i :
  c.(Client.channel) = true -> receiving s b after base i c.(Client.node) ->
  exchange (Operation.Sync (request_at s after i)) p
    = (Ok (Reply.Page (make_page s m (request_at s after i))), p') ->
  reconcile_loop exchange (S fuel) (c, p) =
  (next ← on_node_or_fail (accept_page (make_page s m (request_at s after i)));
   match next with None => mret tt | Some _ => reconcile_loop exchange fuel end) (c, p').
Proof.
  intros Hch Hrec Hx. cbn [reconcile_loop]. erewrite bind_ok by done. cbn [fst].
  rewrite (receiving_request _ _ _ _ _ _ Hrec).
  assert (request exchange (Operation.Sync (request_at s after i)) (c, p)
    = (Ok (Reply.Page (make_page s m (request_at s after i))), (c, p'))) as Hreq.
  { unfold request. erewrite bind_ok by done. cbn [fst snd]. rewrite Hch. cbn [negb]. by rewrite Hx. }
  by erewrite bind_ok by exact Hreq.
Qed.

Context (Hb : batch s b after base).

Lemma reconcile_round_fits fuel c p p' i c' p1 :
  c.(Client.channel) = true -> receiving s b after base i c.(Client.node) -> i < n \/ i = 0 ->
  exchange (Operation.Sync (request_at s after i)) p
    = (Ok (Reply.Page (make_page s m (request_at s after i))), p') ->
  reconcile_loop exchange (S fuel) (c, p) = (Ok tt, (c', p1)) -> fits s b after base (min (S i) n).
Proof.
  intros Hch Hrec Hi Hx. rewrite (reconcile_round _ _ _ _ _ Hch Hrec Hx). intros Hrun.
  apply bind_ok_iff in Hrun as (next & [c2 p2] & Hacc & _). unfold on_node_or_fail in Hacc.
  erewrite bind_ok in Hacc by done. cbn [fst] in Hacc.
  destruct (accept_page _ _) as [[x|e] n'] eqn:Ha; [|by cbn in Hacc]. by eapply accept_page_fits.
Qed.

Lemma reconcile_round_more fuel c p p' i :
  c.(Client.channel) = true -> receiving s b after base i c.(Client.node) -> S i < n ->
  fits s b after base (S i) ->
  exchange (Operation.Sync (request_at s after i)) p
    = (Ok (Reply.Page (make_page s m (request_at s after i))), p') ->
  exists c1, reconcile_loop exchange (S fuel) (c, p) = reconcile_loop exchange fuel (c1, p') /\
    receiving s b after base (S i) c1.(Client.node) /\ same_client c c1.
Proof.
  intros Hch Hrec Hi Hfit Hx. rewrite (reconcile_round _ _ _ _ _ Hch Hrec Hx).
  destruct (accept_page_more _ _ _ _ Hb i _ Hrec Hi Hfit) as (q & n' & Hacc & Hrec' & Hu & Hpm).
  exists (Client.set_node n' c). split; [|split; [done|]].
  - unfold on_node_or_fail, on_client, mbind at 1, M_bind at 1. unfold mbind at 1, M_bind at 1, get.
    cbn [fst]. unfold m. by rewrite Hacc.
  - destruct Hrec as (Hbn & _), Hrec' as (Hbn' & _). split_and!; simpl; congruence.
Qed.

Lemma reconcile_round_last fuel c p p' i :
  c.(Client.channel) = true -> receiving s b after base i c.(Client.node) ->
  i < n \/ i = 0 -> n <= S i -> fits s b after base n ->
  exchange (Operation.Sync (request_at s after i)) p
    = (Ok (Reply.Page (make_page s m (request_at s after i))), p') ->
  exists c', reconcile_loop exchange (S fuel) (c, p) = (Ok tt, (c', p')) /\ synchronised s c c'.
Proof.
  intros Hch Hrec Hi Hlast Hfit Hx. rewrite (reconcile_round _ _ _ _ _ Hch Hrec Hx).
  destruct (accept_page_last _ _ _ _ Hb i _ Hrec Hi Hlast Hfit) as (n' & Hacc & Hbn & Hr & ? & ? & ? & ? & ?).
  exists (Client.set_node n' c). split.
  - unfold on_node_or_fail, on_client, mbind at 1, M_bind at 1. unfold mbind at 1, M_bind at 1, get.
    cbn [fst]. unfold m. by rewrite Hacc.
  - destruct Hrec as (Hbn0 & _). unfold synchronised. simpl. by rewrite Hr, Hbn, Hbn0.
Qed.

(** A round that goes on to return: it completed the view, or the loop went on with the next page. *)
Lemma reconcile_round_cases fuel c p p1 i c' p' :
  c.(Client.channel) = true -> receiving s b after base i c.(Client.node) -> i < n \/ i = 0 ->
  exchange (Operation.Sync (request_at s after i)) p
    = (Ok (Reply.Page (make_page s m (request_at s after i))), p1) ->
  reconcile_loop exchange (S fuel) (c, p) = (Ok tt, (c', p')) ->
  (p' = p1 /\ synchronised s c c') \/
  exists c1, S i < n /\ reconcile_loop exchange fuel (c1, p1) = (Ok tt, (c', p')) /\
    receiving s b after base (S i) c1.(Client.node) /\ same_client c c1.
Proof.
  intros Hch Hrec Hi Hx Hrun. pose proof (reconcile_round_fits _ _ _ _ _ _ _ Hch Hrec Hi Hx Hrun) as Hfit.
  destruct (decide (S i < n)) as [Hmore|Hlast].
  - rewrite Nat.min_l in Hfit by lia.
    destruct (reconcile_round_more fuel c p p1 i Hch Hrec Hmore Hfit Hx) as (c1 & Heq & ?).
    right. exists c1. rewrite <- Heq. done.
  - rewrite Nat.min_r in Hfit by lia.
    destruct (reconcile_round_last fuel c p p1 i Hch Hrec Hi ltac:(lia) Hfit Hx) as (c2 & Heq & Hs).
    left. rewrite Hrun in Heq. by injection Heq as -> ->.
Qed.
End Round.

(** A reconciliation that fails leaves the client without a connection and without a current view. *)
Lemma reconcile_loop_err fuel c p e c' p' :
  reconcile_loop exchange fuel (c, p) = (Err e, (c', p')) ->
  c'.(Client.channel) = false /\ c'.(Client.node).(Node.ready) = false.
Proof.
  revert c p. induction fuel as [|fuel IH]; intros c p Hrun; [by injection Hrun as _ <- _|].
  cbn [reconcile_loop] in Hrun. erewrite bind_ok in Hrun by done.
  assert (forall A (x : ClientError.t V) s, (fail x : M _ _ A) s = (Err e, (c', p')) ->
    c'.(Client.channel) = false /\ c'.(Client.node).(Node.ready) = false) as Hfail
    by (by intros A x [c0 p0] [= _ <- _]).
  apply bind_cases in Hrun as [(e1 & Hreq & [= <-])|(reply & [c1 p1] & _ & Hrun)].
  - unfold request in Hreq. erewrite bind_ok in Hreq by done. destruct (negb _); [by eapply Hfail|].
    destruct (exchange _ _) as [[r|e2] p2]; [done|]. erewrite bind_ok in Hreq by done. by eapply Hfail.
  - destruct reply; try by eapply Hfail.
    apply bind_cases in Hrun as [(e1 & Hacc & [= <-])|(next & [c2 p2] & _ & Hrun)].
    + unfold on_node_or_fail in Hacc. erewrite bind_ok in Hacc by done.
      destruct (accept_page _ _) as [[x|e2] n']; [done|]. erewrite bind_ok in Hacc by done. by eapply Hfail.
    + destruct next; [by eapply IH|done].
Qed.

(** What a peer promises that can still answer [k] requests, when [I k] holds of its state: a
    request for a page of the batch of [s] is answered with that page, and the peer can answer
    one request less. *)
Definition serves_pages (I : nat -> P -> Prop) (s : Brain.t) (m : string) : Prop :=
  forall k p q, I (S k) p -> request_in_range s m q ->
    (q.(ReconcileRequest.at_) = None /\ q.(ReconcileRequest.offset) = 0%N \/
     q.(ReconcileRequest.at_) = Some s.(Brain.revision)) ->
    exists p', exchange (Operation.Sync q) p = (Ok (Reply.Page (make_page s m q)), p') /\ I k p'.

Lemma reconcile_loop_run (I : nat -> P -> Prop) s b after base :
  batch s b after base -> serves_pages I s b.(CredentialBinding.member_id) ->
  (forall i, fits s b after base i) ->
  forall fuel k i c p,
    c.(Client.channel) = true -> receiving s b after base i c.(Client.node) ->
    let n := length (changes s b.(CredentialBinding.member_id) after) in
    (i < n \/ i = 0) -> max 1 (n - i) <= fuel -> max 1 (n - i) <= k -> I k p ->
    exists c' p', reconcile_loop exchange fuel (c, p) = (Ok tt, (c', p')).
Proof.
  intros Hb Hserve Hfit. induction fuel as [|fuel IH]; intros k i c p Hch Hrec n Hi Hfuel Hk Hp; [lia|].
  destruct k as [|k]; [lia|].
  destruct (Hserve k p (request_at s after i)) as (p' & Hx & Hp'); [done| |destruct i; auto|].
  { by eapply request_at_in_range. }
  destruct (decide (S i < n)) as [Hmore|Hlast].
  - destruct (reconcile_round_more _ _ _ _ Hb fuel c p p' i) as (c1 & -> & Hrec' & _ & Hch1 & _); try done.
    eapply (IH k (S i)); try done; try lia.
  - destruct (reconcile_round_last _ _ _ _ Hb fuel c p p' i) as (c' & -> & _); try done; [lia|]. eauto.
Qed.
End Loop.

(** ** End to end *)

Section Convergence.
Context `{Sha256, ProtocolJson, RecordsJson} {V P : Type}.
Context (exchange : Operation.t -> M P (ClientError.t V) Reply.t).

(** A Node that is not in the middle of a batch holds nothing, or the view of an earlier
    state of the Brain. *)
Definition tracks (s : Brain.t) (n : Node.t) : Prop :=
  n.(Node.sync) = None /\
  (n.(Node.revision) = 0%N /\ n.(Node.records) = ∅ \/
   exists s0, rtc brain_step s0 s /\ n.(Node.revision) = s0.(Brain.revision) /\
     n.(Node.records) = view s0 n.(Node.binding).(CredentialBinding.member_id)).

Lemma enrolled_binding s b :
  brain_wf s -> enrolled s b ->
  b.(CredentialBinding.brain_id) = s.(Brain.brain_id) /\
  id b.(CredentialBinding.member_id) = true.
Proof.
  intros Hwf (x & v & Hx & Hb & _). apply (rwf_records _ (bw_credentials _ Hwf)) in Hx.
  unfold record_valid, binding_valid in Hx. rewrite Hb in Hx. cbn [forallb] in Hx. bool_hyps.
  rewrite (h_cbrain _ (v_header _ (bw_valid _ Hwf))) in *. done.
Qed.

Lemma tracks_batch s n :
  brain_wf s -> enrolled s n.(Node.binding) -> tracks s n ->
  batch s n.(Node.binding) n.(Node.revision) n.(Node.records).
Proof.
  intros Hwf Henr [_ Htr]. destruct (enrolled_binding _ _ Hwf Henr) as [Hb Hm].
  split; try done.
  - destruct Htr as [[-> _]|(s0 & Hsteps & -> & _)]; [lia|]. apply (delta_steps _ _ Hsteps).
  - destruct Htr as [[-> ->]|(s0 & Hsteps & -> & ->)].
    + apply changes_from_zero; apply Hwf.
    + apply changes_exact. by apply delta_steps.
  - destruct Htr as [[_ ->]|(s0 & Hsteps & _ & ->)]; [rewrite dom_empty_L; set_solver|].
    intros k Hk. apply elem_of_dom in Hk as [r Hr]. apply lookup_view in Hr as [Hin <-].
    destruct (shared_key_kept _ _ _ _ (delta_steps _ _ Hsteps) Hin) as (r' & Hin' & Hk').
    apply elem_of_dom. exists r'. by apply lookup_view.
Qed.
End Convergence.

Section Exactness.
Context `{Sha256, ProtocolJson}.

(** C21: for any two states of an execution, the records changed after the older
    revision, applied to the older view, give the newer view: a Node that asks only for
    changes misses nothing and keeps nothing stale. *)
Theorem delta_sync_exact s s' m :
  rtc brain_step s s' ->
  list_to_map (keyed <$> changes s' m s.(Brain.revision)) ∪ view s m = view s' m.
Proof. intros Hsteps. apply changes_exact. by apply delta_steps. Qed.
End Exactness.

(** ** What one reconciliation request discloses *)

Section Disclosure.
Context `{Sha256, ProtocolJson, PageJson}.

Lemma reconcile_ok session q now s page s' :
  reconcile session q now s = (Ok page, s') ->
  let m := session.(ConnectionIdentity.binding).(CredentialBinding.member_id) in
  exists r,
    timestamp now = true /\ (brain_high_water s <= now)%Z /\
    session_live s.(Brain.credentials) session now /\
    reset_presence now Expired (authorized_at now s) = (Ok r, s') /\
    request_in_range s' m q /\ page = make_page s' m q /\
    (forall a, q.(ReconcileRequest.at_) = Some a -> a = s'.(Brain.revision)).
Proof.
  unfold reconcile. intros Hrun. run_inv Hrun. brain_inv. simpl in *.
  exists a1. split_and!; try done.
  - unfold request_in_range. bool_hyps. split; [lia|].
    match goal with H : _ && negb (_ =? 0) = false |- _ => apply andb_false_iff in H end.
    repeat match goal with H : (_ <? _)%nat = false |- _ => apply Nat.ltb_ge in H end.
    destruct (decide (q.(ReconcileRequest.offset) = 0%N)); [by right|left]. lia.
  - intros at_ Ha. rewrite Ha in *. simpl in *. bool_hyps. by apply N.eqb_eq.
Qed.

(** A page the Brain returns passes the Node's validation, is stamped with the
    revision of the state it was cut from, and discloses only what that member may see:
    members, Nodes, and the tasks this member created. *)
Theorem reconcile_discloses session q now s page s' :
  reachable s -> reconcile session q now s = (Ok page, s') ->
  let m := session.(ConnectionIdentity.binding).(CredentialBinding.member_id) in
  page_validate page = Ok tt /\ page.(Page.at_) = s'.(Brain.revision) /\
  brain_wf s' /\ delta s s' /\
  (forall r, r ∈ page.(Page.records) ->
     r ∈ shared_records s' m /\ (page.(Page.after) < r.(SharedRecord.revision))%N) /\
  (forall r task_id status source, r ∈ page.(Page.records) ->
     r.(SharedRecord.data) = SharedData.Task task_id status source ->
     (admission source).(adm_payload) = ViewTask task_id m TaskStatus.Draft).
Proof.
  intros Hreach Hrun m. pose proof (reachable_wf _ Hreach) as Hwf.
  apply reconcile_ok in Hrun as (r & Ht & Hle & Hlive & Hreset & Hrange & -> & _). fold m in Hrange.
  pose proof (authorized_wf now s Hwf Ht Hle) as Hwf1.
  pose proof (reset_presence_wf _ _ _ _ _ Hwf1 Hreset) as Hwf'.
  assert (id m = true) as Hm.
  { destruct Hlive as (v & Hk & _ & Hb & _). apply (rwf_records _ (bw_credentials _ Hwf)) in Hk.
    unfold record_valid, binding_valid in Hk. rewrite Hb in Hk. cbn [forallb] in Hk. by bool_hyps. }
  assert (forall r0, r0 ∈ (make_page s' m q).(Page.records) ->
    r0 ∈ shared_records s' m /\ (q.(ReconcileRequest.after) < r0.(SharedRecord.revision))%N) as Hrec.
  { intros r0 Hr0. apply elem_of_take in Hr0 as (i & Hi & _). rewrite lookup_drop in Hi.
    apply list_elem_of_lookup_2, elem_of_filter_list in Hi as [Hin Hlt]. by apply N.ltb_lt in Hlt. }
  split_and!; try done.
  - by apply make_page_valid.
  - eapply delta_trans; [|by eapply delta_reset_presence]. by apply delta_same_content.
  - intros r0 tid st src Hr0 Hd. apply Hrec in Hr0 as [Hin _]. apply elem_of_shared_records in Hin
      as [(k & v & Hk & ->)|[(k & v & Hk & ->)|(k & v & Hk & Hc & ->)]]; try done.
    injection Hd as -> _ <-. unfold created_by in Hc. cbn [snd] in Hc.
    destruct (v_tasks _ (bw_valid _ Hwf') _ _ Hk) as (mid & _ & _ & Hp & _). rewrite Hp in Hc |- *.
    apply str_eqb_true in Hc. by subst mid.
Qed.
End Disclosure.
