(* ===== verification/Host.v ===== *)
(** * The Brain's host (collaboration/host.rs)

    One connection of the host: its phase, the request ids it has seen, and the handling
    of a request as a transaction on the store. The monotonic clock, random draws, mutex
    states and the outcome of the write are explicit in an environment per request. *)

From S2P Require Import Prelude Protocol Credential Invitation Brain BrainValid BrainInv BrainOps BrainThm Snapshot Storage Reconcile Node Delta Wire Client Sync.

(** ** Rate limiting *)

Module Limiter.
(** Instants are nanoseconds of the monotonic clock. *)
Record t := mk { start : N; remaining : N; limit : N }.
End Limiter.

Definition limiter_new (limit now : N) : Limiter.t := Limiter.mk now limit limit.

(** [Duration::from_secs(60)] *)
Definition LIMITER_WINDOW : N := 60 * 1000000000.

(** [saturating_duration_since] is the truncated subtraction of [N]. *)
Definition take_token (now : N) (l : Limiter.t) : bool * Limiter.t :=
  let l := if (LIMITER_WINDOW <=? now - l.(Limiter.start))%N
           then Limiter.mk now l.(Limiter.limit) l.(Limiter.limit) else l in
  if (l.(Limiter.remaining) =? 0)%N then (false, l)
  else (true, Limiter.mk l.(Limiter.start) (l.(Limiter.remaining) - 1) l.(Limiter.limit)).

(** ** Sessions *)

Module Phase.
Inductive t := Fresh | Joined | Active (connection : ConnectionIdentity.t) | Closed.
#[global] Instance eq_dec : EqDecision t.
Proof. solve_decision. Defined.
End Phase.

(** The parts of the host one session works on, with the session's own state. *)
Module HostSession.
Record t := mk {
  disk : Disk;
  operations : Limiter.t;
  phase : Phase.t;
  seen : gset string;
}.
Definition set_disk (d : Disk) (s : t) : t := mk d s.(operations) s.(phase) s.(seen).
Definition set_operations (l : Limiter.t) (s : t) : t := mk s.(disk) l s.(phase) s.(seen).
Definition set_phase (p : Phase.t) (s : t) : t := mk s.(disk) s.(operations) p s.(seen).
Definition set_seen (v : gset string) (s : t) : t := mk s.(disk) s.(operations) s.(phase) v.
End HostSession.

(** What the outside decides during one request. *)
Record Env := mkEnv {
  env_instant : N;
  env_operations_lock : bool;
  env_store_lock : bool;
  env_draw1 : draw;
  env_draw2 : draw;
  env_draw3 : draw;
  env_nonce : draw;
  env_write : WriteOutcome;
}.

(** [Host::session]: admission of a connection; [active] counts the open ones. *)
Definition host_session (admission_lock : bool) (active : N) (admission : Limiter.t) (now : N)
    : result WireError.t unit * (N * Limiter.t) :=
  if negb admission_lock then (Err WireError.Unavailable, (active, admission)) else
  if (16 <=? active)%N then (Err WireError.Busy, (active, admission)) else
  let (taken, admission) := take_token now admission in
  if taken then (Ok tt, (active + 1, admission)%N) else (Err WireError.Busy, (active, admission)).

Definition closed (s : HostSession.t) : bool := bool_decide (s.(HostSession.phase) = Phase.Closed).

(** [From<StorageError> for WireError] *)
Definition wire_error (e : StorageError.t) : WireError.t :=
  match e with
  | StorageError.State Conflict => WireError.Conflict
  | StorageError.State BrainCapacity
  | StorageError.State (Access Capacity) => WireError.Busy
  | StorageError.State Invalid
  | StorageError.State (Access Rejected) => WireError.Rejected
  | StorageError.State (Access EntropyUnavailable)
  | StorageError.Read | StorageError.Write | StorageError.Invalid | StorageError.Existing
  | StorageError.Locked | StorageError.Changed | StorageError.Unavailable => WireError.Unavailable
  end.

Section Handling.
Context `{Sha256, ProtocolJson, SnapshotJson, DocumentJson, PageJson}.

(** [owner] *)
Definition require_owner (connection : ConnectionIdentity.t) (now : Z) : BrainM unit :=
  _ ← authorize connection now;
  s ← get;
  reject_if (negb (str_eqb connection.(ConnectionIdentity.binding).(CredentialBinding.member_id)
                           s.(Brain.owner_member_id))) (Access Rejected).

(** The closure that an active session's request runs inside its transaction. *)
Definition active_operation (connection : ConnectionIdentity.t) (operation : Operation.t)
    (now : Z) (d1 d2 : draw) : BrainM Reply.t :=
  _ ← authorize connection now;
  match operation with
  | Operation.Sync request =>
    page ← reconcile connection request now;
    mret (Reply.Page page)
  | Operation.Submit message =>
    let key := (admission message).(adm_key) in
    revision ← apply connection message now;
    mret (Reply.Applied key revision)
  | Operation.Pulse =>
    s ← get;
    revision ← heartbeat connection s.(Brain.revision) now;
    mret (Reply.Pulsed revision)
  | Operation.Invite =>
    _ ← require_owner connection now;
    invitation ← create_invitation now d1 d2;
    mret (Reply.Invited invitation.(IssuedInvitation.brain_id)
            invitation.(IssuedInvitation.invitation_id) invitation.(IssuedInvitation.expires_at)
            invitation.(IssuedInvitation.secret))
  | Operation.CancelInvite invitation_id =>
    _ ← require_owner connection now;
    _ ← cancel_invitation invitation_id now;
    s ← get;
    mret (Reply.Administered s.(Brain.revision))
  | Operation.Revoke member_id revision =>
    _ ← require_owner connection now;
    revision ← revoke_member member_id revision now;
    mret (Reply.Administered revision)
  | Operation.Authenticate _ _ | Operation.Join _ _ _ _ _ _ => throw Invalid
  end.

(** [store.transact(now, operation)?] *)
Definition host_transact {R} (env : Env) (now : Z) (operation : BrainM R)
    : M HostSession.t WireError.t R :=
  zoom HostSession.disk HostSession.set_disk wire_error
    (transact now operation env.(env_nonce) env.(env_write)).

(** The [match request.operation] of [handle]. *)
Definition dispatch (env : Env) (operation : Operation.t) (now : Z)
    : M HostSession.t WireError.t Reply.t :=
  s ← get;
  match operation with
  | Operation.Authenticate binding secret =>
    _ ← reject_if (match s.(HostSession.phase) with
                   | Phase.Fresh | Phase.Joined => false | _ => true end) WireError.Rejected;
    connection ← host_transact env now (brain_connect binding secret now);
    _ ← modify (HostSession.set_phase (Phase.Active connection));
    mret Reply.Authenticated
  | Operation.Join brain_id invitation_id secret identity_id device_id display_name =>
    _ ← reject_if (match s.(HostSession.phase) with Phase.Fresh => false | _ => true end)
          WireError.Rejected;
    enrollment ← host_transact env now
      (join (JoinRequest.mk brain_id invitation_id secret identity_id device_id display_name) now
         env.(env_draw1) env.(env_draw2) env.(env_draw3));
    _ ← modify (HostSession.set_phase Phase.Joined);
    let c := enrollment.(Enrollment.credential) in
    mret (Reply.Joined c.(IssuedCredential.binding) c.(IssuedCredential.expires_at)
            c.(IssuedCredential.secret))
  | operation =>
    match s.(HostSession.phase) with
    | Phase.Active connection =>
      host_transact env now (active_operation connection operation now env.(env_draw1) env.(env_draw2))
    | _ => throw WireError.Rejected
    end
  end.

(** The closure of [handle]. *)
Definition handle_request (env : Env) (request : Request.t) (now : Z)
    : M HostSession.t WireError.t Reply.t :=
  s ← get;
  _ ← reject_if (closed s || negb (request.(Request.version) =? 1)%N
                 || negb (id request.(Request.id))) WireError.Rejected;
  _ ← reject_if (256 <=? size s.(HostSession.seen))%nat WireError.Busy;
  _ ← reject_if (bool_decide (request.(Request.id) ∈ s.(HostSession.seen))) WireError.Rejected;
  _ ← modify (HostSession.set_seen ({[ request.(Request.id) ]} ∪ s.(HostSession.seen)));
  _ ← reject_if (negb env.(env_operations_lock)) WireError.Unavailable;
  let (taken, limiter) := take_token env.(env_instant) s.(HostSession.operations) in
  _ ← modify (HostSession.set_operations limiter);
  _ ← reject_if (negb taken) WireError.Busy;
  _ ← reject_if (negb env.(env_store_lock)) WireError.Unavailable;
  dispatch env request.(Request.operation) now.

Definition handle (env : Env) (request : Request.t) (now : Z) (s : HostSession.t)
    : Response.t * HostSession.t :=
  let valid_id := id request.(Request.id) in
  let (result, s) := handle_request env request now s in
  let (reply, s) :=
    match result with
    | Ok reply => (reply, s)
    | Err error =>
      (Reply.Error error,
       if bool_decide (error = WireError.Conflict) then s
       else HostSession.set_phase Phase.Closed s)
    end in
  (Response.mk 1 (if valid_id then request.(Request.id) else "invalid") reply, s).
End Handling.

(** ** Soundness of the operations a session can run *)

Section Sound.
Context `{Sha256, ProtocolJson, SnapshotJson, DocumentJson, PageJson}.

(** An authorization inside a transaction, at the transaction's time. *)
Lemma authorize_at now connection s u s' :
  brain_wf s -> brain_high_water s = now -> authorize connection now s = (Ok u, s') ->
  brain_wf s' /\ s'.(Brain.brain_id) = s.(Brain.brain_id) /\ brain_high_water s' = now /\
  s'.(Brain.revision) = s.(Brain.revision) /\ brain_step s s' /\
  s'.(Brain.owner_member_id) = s.(Brain.owner_member_id).
Proof.
  intros Hwf Hhw Hrun.
  assert (timestamp now = true) as Ht
    by (rewrite <- Hhw; apply (h_clock _ (v_header _ (bw_valid _ Hwf)))).
  assert (s.(Brain.clock) = mkClock now) as Hclock
    by (unfold brain_high_water in Hhw; destruct s.(Brain.clock); simpl in *; congruence).
  assert (brain_step s s') as Hstep.
  { apply (bs_authorize connection now u).
    etrans; [apply bind_ok, observe_run; [done|lia]|].
    rewrite <- Hrun, <- Hclock. by destruct s. }
  apply authorize_ok in Hrun as (_ & _ & ->).
  assert (Brain.set_credentials (at_time now s.(Brain.credentials)) s = authorized_at now s) as Heq
    by (unfold authorized_at; rewrite <- Hclock; by destruct s).
  split; [|by split_and!]. rewrite Heq. apply authorized_wf; [done|done|lia].
Qed.

(** A Brain, well formed, after some committed steps of another. *)
Definition evolves_brain (s s' : Brain.t) : Prop := brain_wf s' /\ rtc brain_step s s'.

Lemma step_evolves s s' : brain_wf s -> brain_step s s' -> evolves_brain s s'.
Proof. intros Hwf Hstep. split; [by eapply brain_step_wf|by apply rtc_once]. Qed.

Lemma evolves_brain_trans s1 s2 s3 :
  evolves_brain s1 s2 -> evolves_brain s2 s3 -> evolves_brain s1 s3.
Proof. intros [? ?] [? ?]. split; [done|by etrans]. Qed.

Lemma reconcile_evolves connection q now s page s' :
  brain_wf s -> reconcile connection q now s = (Ok page, s') -> evolves_brain s s'.
Proof.
  intros Hwf Hrun. assert ((_ ← observe now; authorize connection now) s = (Ok tt, authorized_at now s)) as Hauth.
  { unfold reconcile in Hrun. apply bind_ok_iff in Hrun as (u & s1 & Ho & Hrun).
    apply bind_ok_iff in Hrun as ([] & s2 & Ha & _). etrans; [by eapply bind_ok|]. rewrite Ha.
    apply observe_ok in Ho as (_ & _ & ->). by apply authorize_ok in Ha as (_ & _ & ->). }
  apply reconcile_ok in Hrun as (r & Ht & Hle & _ & Hreset & _).
  eapply evolves_brain_trans; (eapply step_evolves; [|by econstructor]); [done|by apply authorized_wf].
Qed.

Lemma require_owner_ok connection now s u s' :
  brain_wf s -> brain_high_water s = now -> require_owner connection now s = (Ok u, s') ->
  connection.(ConnectionIdentity.binding).(CredentialBinding.member_id) = s.(Brain.owner_member_id) /\
  evolves_brain s s'.
Proof.
  intros Hwf Hhw Hrun. unfold require_owner in Hrun.
  apply bind_ok_iff in Hrun as (v & s1 & Hauth & Hrun).
  destruct (authorize_at _ _ _ _ _ Hwf Hhw Hauth) as (? & ? & _ & _ & ? & ?).
  clear Hhw. run_inv Hrun. bool_hyps. split; [congruence|by apply step_evolves].
Qed.

Lemma active_operation_evolves connection op now d1 d2 s r s' :
  (forall m, op = Operation.Submit m -> message_ok m = true) ->
  brain_wf s -> brain_high_water s = now ->
  active_operation connection op now d1 d2 s = (Ok r, s') -> evolves_brain s s'.
Proof.
  intros Hmsg Hwf Hhw Hrun. unfold active_operation in Hrun.
  apply bind_ok_iff in Hrun as (u & s1 & Hauth & Hrun).
  destruct (authorize_at _ _ _ _ _ Hwf Hhw Hauth) as (Hwf1 & _ & Hhw1 & _ & Hd1 & _).
  assert (evolves_brain s s1) as Hev1 by (by apply step_evolves).
  eapply evolves_brain_trans; [done|]. pose proof (require_owner_ok connection now s1) as Howner.
  clear Hhw Hauth. destruct op; try done; apply bind_ok_iff in Hrun as (v & s2 & Hfirst & Hrun);
    try (destruct (Howner _ _ Hwf1 Hhw1 Hfirst) as [_ Hev2];
      eapply evolves_brain_trans; [exact Hev2|]; destruct Hev2 as [Hwf2 _]);
    clear Howner Hhw1; run_inv Hfirst; run_inv Hrun.
  - by eapply reconcile_evolves.
  - eapply step_evolves; [done|]. eapply bs_apply; [|done]. by apply Hmsg.
  - eapply step_evolves; [done|]. by eapply bs_heartbeat.
  - eapply step_evolves; [done|]. by eapply bs_create_invitation.
  - eapply step_evolves; [done|]. by eapply bs_cancel_invitation.
  - eapply step_evolves; [done|]. by eapply bs_revoke_member.
Qed.

Lemma evolves_sound {R} now (operation : BrainM R) :
  (forall s v s', brain_wf s -> brain_high_water s = now -> operation s = (Ok v, s') ->
     evolves_brain s s') -> sound_operation now operation.
Proof.
  intros Hop s v s' Hwf Hhw Hrun. destruct (Hop _ _ _ Hwf Hhw Hrun) as [Hwf' Hd].
  split; [done|apply (delta_steps _ _ Hd)].
Qed.

(** Only the owner's session gets past the administrative operations. *)
Lemma active_operation_owner connection op now d1 d2 s r s' :
  brain_wf s -> brain_high_water s = now ->
  match op with
  | Operation.Invite | Operation.CancelInvite _ | Operation.Revoke _ _ => true
  | _ => false
  end = true ->
  active_operation connection op now d1 d2 s = (Ok r, s') ->
  connection.(ConnectionIdentity.binding).(CredentialBinding.member_id) = s.(Brain.owner_member_id).
Proof.
  intros Hwf Hhw Hadmin Hrun. unfold active_operation in Hrun.
  apply bind_ok_iff in Hrun as (u & s1 & Hauth & Hrun).
  destruct (authorize_at _ _ _ _ _ Hwf Hhw Hauth) as (Hwf1 & _ & Hhw1 & _ & _ & <-).
  destruct op; try done; apply bind_ok_iff in Hrun as (v & s2 & Hfirst & _);
    by destruct (require_owner_ok _ _ _ _ _ Hwf1 Hhw1 Hfirst).
Qed.
End Sound.

(** ** What a session guarantees *)

Section Properties.
Context `{Sha256, ProtocolJson, SnapshotJson, DocumentJson, PageJson}.

Definition needs_session (op : Operation.t) : bool :=
  match op with
  | Operation.Authenticate _ _ | Operation.Join _ _ _ _ _ _ => false
  | _ => true
  end.

Definition admin_operation (op : Operation.t) : bool :=
  match op with
  | Operation.Invite | Operation.CancelInvite _ | Operation.Revoke _ _ => true
  | _ => false
  end.

(** The two outcomes of [handle], from the outcome of its closure. *)
Lemma handle_ok env request now s reply s' :
  handle_request env request now s = (Ok reply, s') ->
  (handle env request now s).1.(Response.result) = reply /\ (handle env request now s).2 = s'.
Proof. unfold handle. by intros ->. Qed.

Lemma handle_err env request now s e s' :
  handle_request env request now s = (Err e, s') ->
  (handle env request now s).1.(Response.result) = Reply.Error e /\
  (handle env request now s).2 =
    if bool_decide (e = WireError.Conflict) then s' else HostSession.set_phase Phase.Closed s'.
Proof. unfold handle. by intros ->. Qed.

(** [handle_request] up to its dispatch: either a refusal that leaves disk and phase
    alone and is not a conflict, or the dispatch. *)
Lemma handle_request_cases env request now s :
  (exists e s', handle_request env request now s = (Err e, s') /\ e <> WireError.Conflict /\
     s'.(HostSession.disk) = s.(HostSession.disk) /\
     s'.(HostSession.phase) = s.(HostSession.phase)) \/
  (exists s1, handle_request env request now s = dispatch env request.(Request.operation) now s1 /\
     s1.(HostSession.disk) = s.(HostSession.disk) /\
     s1.(HostSession.phase) = s.(HostSession.phase) /\
     s1.(HostSession.seen) = {[ request.(Request.id) ]} ∪ s.(HostSession.seen) /\
     (request.(Request.id) ∉ s.(HostSession.seen)) /\ closed s = false /\
     size s.(HostSession.seen) < 256).
Proof.
  destruct (handle_request env request now s) as [res s'] eqn:Hrun. unfold handle_request in Hrun.
  unfold mbind at 1, M_bind at 1, get in Hrun.
  destruct (_ || _) eqn:Hg1 in Hrun; [left; injection Hrun as <- <-; eexists _, _; by split_and!|].
  erewrite bind_ok in Hrun by done.
  destruct (256 <=? _) eqn:Hg2 in Hrun; [left; injection Hrun as <- <-; eexists _, _; by split_and!|].
  erewrite bind_ok in Hrun by done.
  case_bool_decide as Hin; [left; injection Hrun as <- <-; eexists _, _; by split_and!|].
  do 2 erewrite bind_ok in Hrun by done.
  destruct (env_operations_lock env); [|left; injection Hrun as <- <-; eexists _, _; by split_and!].
  erewrite bind_ok in Hrun by done. destruct (take_token _ _) as [taken limiter].
  erewrite bind_ok in Hrun by done.
  destruct taken; [|left; injection Hrun as <- <-; eexists _, _; by split_and!].
  erewrite bind_ok in Hrun by done.
  destruct (env_store_lock env); [|left; injection Hrun as <- <-; eexists _, _; by split_and!].
  erewrite bind_ok in Hrun by done. right. eexists. split; [by rewrite <- Hrun|].
  apply Nat.leb_gt in Hg2. bool_hyps. by split_and!.
Qed.

(** Before a connection is authenticated nothing but authentication and
    joining reaches the Brain: any other request is answered with an error, leaves the
    store and its file untouched, and closes the session. *)
Theorem unauthenticated_refused env request now s :
  (forall connection, s.(HostSession.phase) <> Phase.Active connection) ->
  needs_session request.(Request.operation) = true ->
  exists e, (handle env request now s).1.(Response.result) = Reply.Error e /\
    (handle env request now s).2.(HostSession.disk) = s.(HostSession.disk) /\
    (handle env request now s).2.(HostSession.phase) = Phase.Closed.
Proof.
  intros Hphase Hop.
  destruct (handle_request_cases env request now s)
    as [(e & s' & Hrun & Hne & Hd & _)|(s1 & Hrun & Hd & Hp & _)].
  - exists e. destruct (handle_err _ _ _ _ _ _ Hrun) as [-> ->].
    rewrite bool_decide_eq_false_2 by done. by split_and!.
  - assert (dispatch env request.(Request.operation) now s1 = (Err WireError.Rejected, s1)) as Hdis.
    { unfold dispatch, mbind, M_bind, get. rewrite Hp.
      destruct request.(Request.operation); try done;
        destruct s.(HostSession.phase) eqn:Hs; try done; by destruct (Hphase connection). }
    rewrite Hdis in Hrun. exists WireError.Rejected.
    destruct (handle_err _ _ _ _ _ _ Hrun) as [-> ->]. by split_and!.
Qed.

(** A transaction's value is one its operation returned. *)
Lemma commit_value {R} (result : result StorageError.t R) bytes candidate nonce outcome d v d' :
  commit result bytes candidate nonce outcome d = (Ok v, d') -> result = Ok v.
Proof.
  unfold commit, mbind, M_bind, get, modify, throw, lift. repeat case_match; naive_solver.
Qed.

Lemma transact_value {R} now (operation : BrainM R) nonce outcome d v d' :
  transact now operation nonce outcome d = (Ok v, d') ->
  exists b b', operation b = (Ok v, b').
Proof.
  unfold transact. intros Hrun. apply bind_ok_iff in Hrun as (d1 & d2 & [= <- <-] & Hrun).
  run_inv Hrun.
  match goal with H : match stage operation ?c with _ => _ end _ = _ |- _ =>
    destruct (stage operation c) as [[[v' bytes] c']|e] eqn:Hstage; rename H into Hc end.
  - apply commit_value in Hc as [= ->]. unfold stage in Hstage.
    destruct (operation _) as [[v0|] b'] eqn:Hop; simpl in Hstage; [|done].
    destruct (document b'); simpl in Hstage; [|done]. injection Hstage as -> _ _. eauto.
  - apply bind_ok_iff in Hc as (? & ? & _ & Hc). apply bind_ok_iff in Hc as (? & ? & _ & Hc).
    apply bind_ok_iff in Hc as (? & ? & _ & Hc). by apply commit_value in Hc.
Qed.
Context (Hsnap : SnapshotJsonLaws) (Hdoc : DocumentJsonLaws).

Definition is_error (r : Reply.t) : bool := match r with Reply.Error _ => true | _ => false end.

Definition served (d : Disk) : Brain.t := d.(store).(BrainStore.brain).

(** How a refused or interrupted request leaves the store: in sync and at the same
    Brain up to the observed time, or fenced off, with the old file or a complete new one. *)
Definition unsettled (now : Z) (d d' : Disk) (e : WireError.t) : Prop :=
  (in_sync d' /\ (served d' = served d \/ observe now (served d) = (Ok tt, served d'))) \/
  (e = WireError.Unavailable /\ d'.(store).(BrainStore.poisoned) = true /\
   exists candidate, evolves_brain (served d) candidate /\ old_or_new d d' candidate).

Lemma observe_evolves now s u s' :
  brain_wf s -> observe now s = (Ok u, s') -> evolves_brain s s' /\ brain_high_water s' = now.
Proof.
  intros Hwf Ho. destruct (observe_sound _ _ _ _ Hwf Ho) as (? & _ & ?).
  split; [|done]. by eapply step_evolves, bs_observe.
Qed.

(** The document a session leaves does not collide with the one it found. *)
Definition separated (s s' : HostSession.t) : Prop :=
  ~ collides s.(HostSession.disk) (served s'.(HostSession.disk)).

(** A transaction of the host, with the state its operation started from. *)
Lemma host_transact_spec {R} env now (operation : BrainM R) s res s' :
  in_sync s.(HostSession.disk) -> separated s s' ->
  (forall b v b', brain_wf b -> brain_high_water b = now -> operation b = (Ok v, b') ->
     evolves_brain b b') ->
  host_transact env now operation s = (res, s') ->
  s'.(HostSession.phase) = s.(HostSession.phase) /\
  match res with
  | Ok v => in_sync s'.(HostSession.disk) /\
    evolves_brain (served s.(HostSession.disk)) (served s'.(HostSession.disk)) /\
    exists b, evolves_brain (served s.(HostSession.disk)) b /\ brain_high_water b = now /\
      operation b = (Ok v, served s'.(HostSession.disk))
  | Err e => unsettled now s.(HostSession.disk) s'.(HostSession.disk) e
  end.
Proof.
  intros Hsync Hnsp Hop Hrun. unfold host_transact in Hrun.
  pose proof (sync_wf _ Hsync) as Hwf. pose proof (fun b => observe_evolves now (served s.(HostSession.disk)) tt b) as Hobs.
  destruct res as [v|e]; [apply zoom_ok in Hrun as (d' & Hrun & ->)
                         |apply zoom_err in Hrun as (e' & d' & Hrun & -> & ->)];
    (split; [done|]); simpl;
    apply (transact_spec Hsnap Hdoc) in Hrun; auto using evolves_sound; inversion Hrun; subst.
  - destruct (Hobs _ Hwf ltac:(eassumption)) as [Hb Hhw].
    split_and!; [done| |by eauto]. eapply evolves_brain_trans; [done|]. by eapply Hop; [apply Hb|..].
  - by left.
  - right. split_and!; [done..|]. eexists; split; [|done].
    match goal with H : staged _ _ _ _ |- _ => destruct H as [Ho|(b & v & Ho & Hv)] end;
      destruct (Hobs _ Hwf Ho) as [Hb Hhw]; [done|].
    eapply evolves_brain_trans; [done|]. by eapply Hop; [apply Hb|..].
Qed.

Lemma active_operation_reply connection op now d1 d2 s r s' :
  active_operation connection op now d1 d2 s = (Ok r, s') -> is_error r = false.
Proof.
  unfold active_operation. intros Hrun. apply bind_ok_iff in Hrun as (u & s1 & _ & Hrun).
  destruct op; try done; run_inv Hrun; done.
Qed.

(** What a dispatched operation answers and where it leaves the store. *)
Definition settled (now : Z) (op : Operation.t) (s s' : HostSession.t)
    (res : result WireError.t Reply.t) : Prop :=
  match res with
  | Ok reply => is_error reply = false /\ in_sync s'.(HostSession.disk) /\
    evolves_brain (served s.(HostSession.disk)) (served s'.(HostSession.disk)) /\
    (admin_operation op = true -> exists connection,
       s.(HostSession.phase) = Phase.Active connection /\
       connection.(ConnectionIdentity.binding).(CredentialBinding.member_id) =
         (served s.(HostSession.disk)).(Brain.owner_member_id))
  | Err e => unsettled now s.(HostSession.disk) s'.(HostSession.disk) e
  end.

(** The two operations that move a session to its next phase. *)
Lemma enter_spec {R} env now op (operation : BrainM R) (phase : R -> Phase.t)
    (reply : R -> Reply.t) s res s' :
  in_sync s.(HostSession.disk) -> separated s s' ->
  (forall b v b', brain_wf b -> operation b = (Ok v, b') -> evolves_brain b b') ->
  (forall v, is_error (reply v) = false) -> admin_operation op = false ->
  (v ← host_transact env now operation;
   _ ← modify (HostSession.set_phase (phase v)); mret (reply v)) s = (res, s') ->
  settled now op s s' res.
Proof.
  intros Hsync Hnsp Hop Hreply Hadmin Hrun.
  destruct (host_transact env now operation s) as [r s1] eqn:Ht.
  assert (separated s s1) as Hsep1.
  { destruct r; [erewrite bind_ok in Hrun by done|erewrite bind_err in Hrun by done];
      injection Hrun as _ <-; done. }
  apply host_transact_spec in Ht as Hspec; [|done|done|by eauto]. destruct Hspec as [_ Hspec].
  destruct r as [c|e]; [|erewrite bind_err in Hrun by done; by injection Hrun as <- <-].
  erewrite bind_ok in Hrun by done. injection Hrun as <- <-.
  destruct Hspec as (? & ? & _). split_and!; [done..|]. by rewrite Hadmin.
Qed.

(** The dispatch of a request: what it answers and where it leaves the store. *)
Lemma dispatch_spec env op now s res s' :
  in_sync s.(HostSession.disk) -> separated s s' ->
  (forall m, op = Operation.Submit m -> message_ok m = true) ->
  dispatch env op now s = (res, s') ->
  settled now op s s' res.
Proof.
  intros Hsync Hnsp Hmsg Hrun. unfold dispatch, mbind at 1, M_bind at 1, get in Hrun.
  assert (forall e, unsettled now s.(HostSession.disk) s.(HostSession.disk) e) as Hsame
    by (intros; left; auto).
  assert (forall connection, s.(HostSession.phase) = Phase.Active connection ->
    host_transact env now (active_operation connection op now env.(env_draw1) env.(env_draw2)) s =
      (res, s') -> settled now op s s' res) as Hactive.
  { intros connection Hphase Ht. apply host_transact_spec in Ht as [_ Ht];
      [|done|done|by intros; eapply active_operation_evolves].
    destruct res as [r|]; [|done]. destruct Ht as (Hs & Hev & b & [Hb Hd] & Hhw & Hop).
    split_and!; [by eapply active_operation_reply|done..|]. intros Hadmin. exists connection.
    split; [done|]. erewrite active_operation_owner by done. apply (delta_steps _ _ Hd). }
  destruct op; try (destruct s.(HostSession.phase) eqn:Hphase;
    [injection Hrun as <- <-; apply Hsame..|by eapply Hactive|injection Hrun as <- <-; apply Hsame]).
  - clear Hactive. destruct (match s.(HostSession.phase) with
      Phase.Fresh | Phase.Joined => false | _ => true end); [injection Hrun as <- <-; apply Hsame|].
    erewrite bind_ok in Hrun by done. eapply (enter_spec env now _ (brain_connect binding secret now)
      Phase.Active (fun _ => Reply.Authenticated)); try done.
    intros b v b' Hb Hr. eapply step_evolves; [done|]. by eapply bs_connect.
  - clear Hactive. destruct (match s.(HostSession.phase) with Phase.Fresh => false | _ => true end);
      [injection Hrun as <- <-; apply Hsame|].
    erewrite bind_ok in Hrun by done. eapply (enter_spec env now _ (join _ now _ _ _)
      (fun _ => Phase.Joined) (fun e => Reply.Joined _ _ _)); try done.
    intros b v b' Hb Hr. eapply step_evolves; [done|]. by eapply bs_join.
Qed.

(** The dispatch answers with an error only by failing. *)
Lemma dispatch_reply env op now s reply s' :
  dispatch env op now s = (Ok reply, s') -> is_error reply = false.
Proof.
  unfold dispatch, mbind at 1, M_bind at 1, get. intros Hrun.
  assert (forall connection,
    host_transact env now (active_operation connection op now env.(env_draw1) env.(env_draw2)) s =
      (Ok reply, s') -> is_error reply = false) as Hactive.
  { intros connection (d' & Ht & _)%zoom_ok. apply transact_value in Ht as (b & b' & Hop).
    by eapply active_operation_reply. }
  destruct op; try (destruct s.(HostSession.phase); by eauto);
    apply bind_ok_iff in Hrun as (? & ? & _ & Hrun); apply bind_ok_iff in Hrun as (? & ? & _ & Hrun);
    apply bind_ok_iff in Hrun as (? & ? & _ & Hrun); by injection Hrun as <- _.
Qed.

Lemma handle_disk env request now s :
  (handle env request now s).2.(HostSession.disk) =
    (handle_request env request now s).2.(HostSession.disk).
Proof. unfold handle. destruct (handle_request _ _ _ _) as [[r|e] s']; [done|]. by case_bool_decide. Qed.

(** [handle] on a store in sync, whatever the request. *)
Lemma handle_spec env request now s :
  in_sync s.(HostSession.disk) -> separated s (handle env request now s).2 ->
  (forall m, request.(Request.operation) = Operation.Submit m -> message_ok m = true) ->
  (exists reply s1, settled now request.(Request.operation) s1 (handle env request now s).2 (Ok reply) /\
     s1.(HostSession.disk) = s.(HostSession.disk) /\ s1.(HostSession.phase) = s.(HostSession.phase) /\
     (handle env request now s).1.(Response.result) = reply) \/
  (exists e, (handle env request now s).1.(Response.result) = Reply.Error e /\
     unsettled now s.(HostSession.disk) (handle env request now s).2.(HostSession.disk) e).
Proof.
  intros Hsync Hnsp Hmsg.
  destruct (handle_request_cases env request now s)
    as [(e & s' & Hrun & Hne & Hd & _)|(s1 & Hrun & Hd & Hp & _)].
  - right. exists e. destruct (handle_err _ _ _ _ _ _ Hrun) as [-> ->].
    rewrite bool_decide_eq_false_2 by done. split; [done|]. simpl. rewrite Hd. left. auto.
  - destruct (dispatch env request.(Request.operation) now s1) as [res s'] eqn:Hdis.
    unfold separated in Hnsp. rewrite handle_disk, Hrun, <- Hd in Hnsp. rewrite <- Hd in Hsync.
    pose proof (dispatch_spec _ _ _ _ _ _ Hsync Hnsp Hmsg Hdis) as Hs.
    destruct res as [reply|e].
    + destruct (handle_ok _ _ _ _ _ _ Hrun) as [-> ->]. left. eauto 6.
    + destruct (handle_err _ _ _ _ _ _ Hrun) as [-> ->]. right. exists e. split; [done|].
      rewrite <- Hd. by case_bool_decide.
Qed.

(** C8: every answer of the host is backed by its file. On a store in sync with
    its file, a reply that is not an error means that the Brain took committed steps and
    evolved as the synchronisation expects, still well formed, and that the file holds exactly
    that Brain. An
    error leaves the Brain where it was, up to the clock, with the file in step, unless
    the write failed: then the store is fenced off and the file is the old one or a
    complete new document. *)
Theorem handle_durable env request now s :
  in_sync s.(HostSession.disk) -> separated s (handle env request now s).2 ->
  (forall m, request.(Request.operation) = Operation.Submit m -> message_ok m = true) ->
  let d := s.(HostSession.disk) in
  let d' := (handle env request now s).2.(HostSession.disk) in
  match (handle env request now s).1.(Response.result) with
  | Reply.Error e =>
    (in_sync d' /\ (served d' = served d \/ observe now (served d) = (Ok tt, served d'))) \/
    (e = WireError.Unavailable /\ d'.(store).(BrainStore.poisoned) = true /\
     exists candidate, brain_wf candidate /\ delta (served d) candidate /\
       rtc brain_step (served d) candidate /\ old_or_new d d' candidate)
  | _ => in_sync d' /\ brain_wf (served d') /\ delta (served d) (served d') /\
         rtc brain_step (served d) (served d')
  end.
Proof.
  intros Hsync Hnsp Hmsg d d'.
  destruct (handle_spec env request now s Hsync Hnsp Hmsg)
    as [(reply & s1 & (Hr & Hs & [Hwf Hdl] & _) & Hd & _ & ->)|(e & -> & Hu)].
  - rewrite Hd in Hdl. pose proof (delta_steps _ _ Hdl). by destruct reply.
  - destruct Hu as [Hu|(He & Hp & c & [Hwf Hdl] & Hon)]; [by left|right].
    eauto 9 using delta_steps.
Qed.

(** How a request leaves the store when nothing of it may be kept: the store serves the
    Brain it served, or that Brain at the observed time, and its file holds the same; or the
    write of that time was not confirmed, the store is fenced off, and its file is the old
    one or the complete document of the old Brain at the observed time. *)
Definition only_time_passed (now : Z) (d d' : Disk) : Prop :=
  (in_sync d' /\ (served d' = served d \/ observe now (served d) = (Ok tt, served d'))) \/
  (d'.(store).(BrainStore.poisoned) = true /\ served d' = served d /\
   (d'.(file) = d.(file) \/
    exists bytes observed, observe now (served d) = (Ok tt, observed) /\
      d'.(file) = Regular bytes /\ load bytes (served d).(Brain.brain_id) = Ok observed)).

(** A transaction of the host whose operation fails on the observed Brain. *)
Lemma host_transact_failing {R} env now (operation : BrainM R) s res s' :
  in_sync s.(HostSession.disk) -> separated s s' ->
  (forall b v b', observe now (served s.(HostSession.disk)) = (Ok tt, b) -> operation b <> (Ok v, b')) ->
  sound_operation now operation ->
  host_transact env now operation s = (res, s') ->
  (exists e, res = Err e) /\ only_time_passed now s.(HostSession.disk) s'.(HostSession.disk).
Proof.
  intros Hsync Hnsp Hfails Hsound Hrun. unfold host_transact in Hrun.
  destruct res as [v|e]; [apply zoom_ok in Hrun as (d' & Hrun & ->)
                         |apply zoom_err in Hrun as (e' & d' & Hrun & -> & ->)];
    simpl; apply (transact_spec Hsnap Hdoc) in Hrun; auto.
  - inversion Hrun; subst. exfalso. by eapply Hfails.
  - split; [eauto|]. inversion Hrun as [|e'' Hs Hb|c Hp Hst Hid Hon Hsame]; subst; [by left|right].
    split_and!; [done..|]. destruct Hon as [|(bytes & Hf & Hl)]; [by left|right].
    destruct Hst as [Ho|(b & v & Ho & Hv)]; [|by destruct (Hfails _ _ _ Ho Hv)].
    exists bytes, c. rewrite Hid in Hl. by split_and!.
Qed.

(** C29: invitations and revocations are the owner's. An administrative request on
    a session of any other member is answered with an error, and nothing of it is kept: at
    most the Brain's clock moves to the observed time. The file holds the old Brain or the old
    Brain at that time, also when the write of the time fails and fences the store off. *)
Theorem admin_needs_owner env request now s connection :
  in_sync s.(HostSession.disk) -> separated s (handle env request now s).2 ->
  s.(HostSession.phase) = Phase.Active connection ->
  connection.(ConnectionIdentity.binding).(CredentialBinding.member_id) <>
    (served s.(HostSession.disk)).(Brain.owner_member_id) ->
  admin_operation request.(Request.operation) = true ->
  exists e, (handle env request now s).1.(Response.result) = Reply.Error e /\
    only_time_passed now s.(HostSession.disk) (handle env request now s).2.(HostSession.disk).
Proof.
  intros Hsync Hnsp Hphase Howner Hadmin. unfold separated in Hnsp. rewrite handle_disk in Hnsp |- *.
  destruct (handle_request_cases env request now s)
    as [(e & s' & Hrun & _ & Hd & _)|(s1 & Hrun & Hd & Hp & _)].
  { exists e. rewrite Hrun. split; [by apply handle_err in Hrun as [-> _]|]. simpl. rewrite Hd. left. auto. }
  rewrite Hrun in Hnsp |- *. rewrite <- Hd in *. rewrite <- Hp in Hphase.
  assert (dispatch env request.(Request.operation) now s1 = host_transact env now
    (active_operation connection request.(Request.operation) now env.(env_draw1) env.(env_draw2)) s1) as Hdis.
  { unfold dispatch, mbind at 1, M_bind at 1, get. rewrite Hphase. by destruct request.(Request.operation). }
  rewrite Hdis in *. destruct (host_transact _ _ _ s1) as [res s'] eqn:Ht.
  apply host_transact_failing in Ht as ((e & ->) & Htime); [|done..| |].
  - exists e. split; [by apply handle_err in Hrun as [-> _]|done].
  - intros b v b' Ho Hop. destruct (observe_sound _ _ _ _ (sync_wf _ Hsync) Ho) as (Hwf & _ & Hhw).
    apply active_operation_owner in Hop; [|done..]. apply Howner. rewrite Hop.
    by apply observe_ok in Ho as (_ & _ & ->).
  - apply evolves_sound. intros b v b' ? ? ?. eapply active_operation_evolves; [|done..].
    intros m Hm. by rewrite Hm in Hadmin.
Qed.

(** A closed session stays closed and does nothing: every request is answered
    [Rejected] and no state changes. A session closes on every error but a
    conflict, and a request id that the connection already used is refused without
    reaching the Brain, and closes it. *)
Theorem closing_is_final env request now s :
  (s.(HostSession.phase) = Phase.Closed ->
     (handle env request now s).1.(Response.result) = Reply.Error WireError.Rejected /\
     (handle env request now s).2 = s) /\
  (forall e, (handle env request now s).1.(Response.result) = Reply.Error e ->
     e <> WireError.Conflict ->
     (handle env request now s).2.(HostSession.phase) = Phase.Closed) /\
  (request.(Request.id) ∈ s.(HostSession.seen) ->
     exists e, (handle env request now s).1.(Response.result) = Reply.Error e /\
       (handle env request now s).2.(HostSession.phase) = Phase.Closed /\
       (handle env request now s).2.(HostSession.disk) = s.(HostSession.disk)).
Proof.
  split_and!.
  - intros Hc. assert (handle_request env request now s = (Err WireError.Rejected, s)) as Hrun.
    { unfold handle_request, mbind at 1, M_bind at 1, get, closed. rewrite Hc.
      by erewrite bind_err by done. }
    destruct (handle_err _ _ _ _ _ _ Hrun) as [-> ->]. split; [done|].
    rewrite bool_decide_eq_false_2 by done. destruct s; simpl in *. by subst.
  - intros e Hres Hne.
    destruct (handle_request env request now s) as [[reply|e'] s'] eqn:Hrun.
    + exfalso. destruct (handle_ok _ _ _ _ _ _ Hrun) as [Hr _]. rewrite Hres in Hr. subst reply.
      destruct (handle_request_cases env request now s)
        as [(e' & s1 & Hrun' & _)|(s1 & Hrun' & Hd & _)]; [congruence|].
      rewrite Hrun in Hrun'. symmetry in Hrun'. by apply dispatch_reply in Hrun'.
    + destruct (handle_err _ _ _ _ _ _ Hrun) as [Hr ->]. rewrite Hres in Hr.
      injection Hr as <-. by rewrite bool_decide_eq_false_2 by done.
  - intros Hin. destruct (handle_request_cases env request now s)
      as [(e & s' & Hrun & Hne & Hd & _)|(s1 & _ & _ & _ & _ & Hnin & _)]; [|done].
    exists e. destruct (handle_err _ _ _ _ _ _ Hrun) as [-> ->].
    by rewrite bool_decide_eq_false_2.
Qed.
End Properties.

(** ** The rate limit *)

(** How many of a sequence of calls get a token. *)
Fixpoint grants (times : list N) (l : Limiter.t) : N * Limiter.t :=
  match times with
  | [] => (0%N, l)
  | now :: times =>
    let (taken, l) := take_token now l in
    let (n, l) := grants times l in ((if taken then 1 else 0) + n, l)%N
  end.

(** One call spends at most one token of the window it falls in. *)
Lemma take_token_spends now l :
  let (taken, l') := take_token now l in
  l'.(Limiter.limit) = l.(Limiter.limit) /\
  if (LIMITER_WINDOW <=? now - l.(Limiter.start))%N
  then l'.(Limiter.start) = now /\
       ((if taken then 1 else 0) + l'.(Limiter.remaining) = l.(Limiter.limit))%N
  else l'.(Limiter.start) = l.(Limiter.start) /\
       ((if taken then 1 else 0) + l'.(Limiter.remaining) = l.(Limiter.remaining))%N.
Proof.
  unfold take_token. destruct (LIMITER_WINDOW <=? _)%N; simpl;
    (destruct (_ =? 0)%N eqn:Hz; simpl; [apply N.eqb_eq in Hz|apply N.eqb_neq in Hz]; lia).
Qed.

(** Within the window the limiter stands in, only the tokens left are handed out. *)
Lemma grants_in_window times l :
  Forall (fun t => t - l.(Limiter.start) < LIMITER_WINDOW)%N times ->
  ((grants times l).1 <= l.(Limiter.remaining))%N.
Proof.
  revert l. induction times as [|t times IH]; intros l Hall; simpl; [lia|].
  apply list.Forall_cons in Hall as [Ht Hall]. pose proof (take_token_spends t l) as Hspend.
  rewrite (proj2 (N.leb_gt _ _) Ht) in Hspend. destruct (take_token t l) as [taken l'].
  destruct Hspend as (_ & Hs & Hr). rewrite <- Hs in Hall. specialize (IH _ Hall).
  destruct (grants times l'). simpl in *. lia.
Qed.

(** Within sixty seconds a second window opens at most once. *)
Lemma grants_in_minute times l t0 :
  Forall (fun t => t0 <= t /\ t < t0 + LIMITER_WINDOW)%N times ->
  ((grants times l).1 <= l.(Limiter.remaining) + l.(Limiter.limit))%N.
Proof.
  revert l. induction times as [|t times IH]; intros l Hall; simpl; [lia|].
  apply list.Forall_cons in Hall as [[Ht Ht'] Hall]. pose proof (take_token_spends t l) as Hspend.
  destruct (take_token t l) as [taken l']. destruct Hspend as (Hl & Hspend).
  destruct (LIMITER_WINDOW <=? _)%N; destruct Hspend as [Hs Hr].
  - assert ((grants times l').1 <= l'.(Limiter.remaining))%N as Hg.
    { apply grants_in_window. rewrite Hs. eapply list.Forall_impl; [done|]. simpl. lia. }
    destruct (grants times l'). simpl in *. lia.
  - specialize (IH l' Hall). destruct (grants times l'). simpl in *. lia.
Qed.

(** C37: whatever the pattern of the calls, a limiter grants at most twice its
    limit in any sixty seconds, and at most its limit once a window has opened inside them. *)
Theorem limiter_bounds_rate times l t0 :
  (l.(Limiter.remaining) <= l.(Limiter.limit))%N ->
  Forall (fun t => t0 <= t /\ t < t0 + LIMITER_WINDOW)%N times ->
  ((grants times l).1 <= 2 * l.(Limiter.limit))%N /\
  ((t0 <= l.(Limiter.start))%N -> ((grants times l).1 <= l.(Limiter.limit))%N).
Proof.
  intros Hle Hall. split.
  - pose proof (grants_in_minute times l t0 Hall). lia.
  - intros Hs. etrans; [apply grants_in_window|done].
    eapply list.Forall_impl; [done|]. simpl. lia.
Qed.
