(* ===== verification/HostSync.v ===== *)
(** * A client and the host it synchronises with

    The client's loop (collaboration/client.rs) against sessions of a host
    (collaboration/host.rs): other sessions use the same store between the client's requests,
    requests and replies get lost, clocks move, Nodes expire, the limiter runs out. What the
    loop leaves the Node with is exact whenever it returns; and it does return when nothing
    disturbs it. *)

From S2P Require Import Prelude Protocol Credential Invitation Brain BrainValid BrainInv BrainOps BrainThm Snapshot Storage Reconcile Node Delta Wire Client Sync Host.

(** ** The host as the client's peer *)

(** One request that another session has handled, with that session's own state. *)
Module Other.
Record t := mk { phase : Phase.t; seen : gset string; request : Request.t; env : Env; now : Z }.
End Other.

(** What becomes of a request and its reply on the way. *)
Inductive Delivery := Delivered | RequestLost | ReplyLost.

(** One exchange: what other sessions do before it, how it is delivered, the id drawn for the
    request, and what the host meets while it handles it. *)
Module Call.
Record t := mk { others : list Other.t; delivery : Delivery; request_id : string; env : Env; now : Z }.
End Call.

(** The session the client is connected to, and its calls to come. *)
Module HostPeer.
Record t := mk { session : HostSession.t; calls : list Call.t }.
Definition brain (p : t) : Brain.t := served p.(session).(HostSession.disk).
End HostPeer.

Section Peer.
Context `{Sha256, ProtocolJson, SnapshotJson, DocumentJson, PageJson} {V : Type}.

(** A request of another session changes what the sessions share: the store and the limiter. *)
Definition interfere (s : HostSession.t) (other : Other.t) : HostSession.t :=
  let s' := (handle other.(Other.env) other.(Other.request) other.(Other.now)
               (HostSession.mk s.(HostSession.disk) s.(HostSession.operations)
                  other.(Other.phase) other.(Other.seen))).2 in
  HostSession.set_operations s'.(HostSession.operations) (HostSession.set_disk s'.(HostSession.disk) s).

(** [exchange] with a session of the host: a request under a drawn id, handled by the session, and its answer, an
    error as [ClientError.Peer]. The channel between them either delivers or breaks before or after the request is
    handled; that frames over a channel come to this is shown in [Server]. *)
Definition host_exchange (operation : Operation.t) : M HostPeer.t (ClientError.t V) Reply.t := fun p =>
  match p.(HostPeer.calls) with
  | [] => (Err ClientError.Transport, p)
  | call :: calls =>
    let session := foldl interfere p.(HostPeer.session) call.(Call.others) in
    match call.(Call.delivery) with
    | RequestLost => (Err ClientError.Transport, HostPeer.mk session calls)
    | delivery =>
      let (response, session) := handle call.(Call.env) (Request.mk 1 call.(Call.request_id) operation)
                                   call.(Call.now) session in
      (match delivery, response.(Response.result) with
       | ReplyLost, _ => Err ClientError.Transport
       | _, Reply.Error error => Err (ClientError.Peer error)
       | _, reply => Ok reply
       end, HostPeer.mk session calls)
    end
  end.
End Peer.

(** ** What handling a request does to the Brain the host serves, whatever becomes of its file *)

Section Evolution.
Context `{Sha256, ProtocolJson, SnapshotJson, DocumentJson, PageJson}.
Context (Hsnap : SnapshotJsonLaws).

Lemma host_transact_evolves {R} env now (operation : BrainM R) s res s' :
  brain_wf (served s.(HostSession.disk)) ->
  (forall b v b', brain_wf b -> brain_high_water b = now -> operation b = (Ok v, b') ->
     evolves_brain b b') ->
  host_transact env now operation s = (res, s') ->
  evolves_brain (served s.(HostSession.disk)) (served s'.(HostSession.disk)) /\
  s'.(HostSession.phase) = s.(HostSession.phase) /\
  forall v, res = Ok v -> exists b, observe now (served s.(HostSession.disk)) = (Ok tt, b) /\
    operation b = (Ok v, served s'.(HostSession.disk)).
Proof.
  intros Hwf Hop Hrun. unfold host_transact in Hrun.
  destruct res as [v|e]; [apply zoom_ok in Hrun as (d' & Hrun & ->)
                         |apply zoom_err in Hrun as (e' & d' & Hrun & -> & ->)];
    apply (transact_serves Hsnap) in Hrun; try done; simpl.
  - destruct Hrun as (b & Ho & Hv). destruct (observe_evolves _ _ _ _ Hwf Ho) as [Hb Hhw].
    split_and!; [|done|by intros v' [= <-]; eauto].
    eapply evolves_brain_trans; [done|]. by eapply Hop; [apply Hb|..].
  - split_and!; [|done|done]. destruct Hrun as [Heq|Ho]; unfold served at 2; simpl.
    + rewrite Heq. split; [done|reflexivity].
    + by apply (observe_evolves _ _ _ _ Hwf Ho).
Qed.

(** The messages a request carries passed [Message::try_from]. *)
Definition request_ok (r : Request.t) : Prop :=
  forall m, r.(Request.operation) = Operation.Submit m -> message_ok m = true.

Lemma enter_evolves {R} env now (operation : BrainM R) (phase : R -> Phase.t) (reply : R -> Reply.t) s res s' :
  brain_wf (served s.(HostSession.disk)) ->
  (forall b v b', brain_wf b -> operation b = (Ok v, b') -> brain_step b b') ->
  (v ← host_transact env now operation;
   _ ← modify (HostSession.set_phase (phase v)); mret (reply v)) s = (res, s') ->
  evolves_brain (served s.(HostSession.disk)) (served s'.(HostSession.disk)).
Proof.
  intros Hwf Hop Hrun. destruct (host_transact env now operation s) as [r s1] eqn:Ht.
  apply host_transact_evolves in Ht as Hspec; [|done|by eauto using step_evolves]. destruct Hspec as [Hev _].
  destruct r; [erewrite bind_ok in Hrun by done|erewrite bind_err in Hrun by done];
    injection Hrun as _ <-; exact Hev.
Qed.

Lemma dispatch_evolves env op now s res s' :
  brain_wf (served s.(HostSession.disk)) ->
  (forall m, op = Operation.Submit m -> message_ok m = true) -> dispatch env op now s = (res, s') ->
  evolves_brain (served s.(HostSession.disk)) (served s'.(HostSession.disk)).
Proof.
  intros Hwf Hmsg Hrun. unfold dispatch, mbind at 1, M_bind at 1, get in Hrun.
  assert (evolves_brain (served s.(HostSession.disk)) (served s.(HostSession.disk))) as Hsame
    by (split; [done|reflexivity]).
  assert (forall connection,
    host_transact env now (active_operation connection op now env.(env_draw1) env.(env_draw2)) s =
      (res, s') -> evolves_brain (served s.(HostSession.disk)) (served s'.(HostSession.disk))) as Hactive.
  { intros connection Ht. apply host_transact_evolves in Ht as (? & _);
      [done|done|by intros; eapply active_operation_evolves]. }
  destruct op; try (destruct s.(HostSession.phase); first [by injection Hrun as _ <-|by eapply Hactive]).
  - destruct (match s.(HostSession.phase) with
      Phase.Fresh | Phase.Joined => false | _ => true end); [by injection Hrun as _ <-|].
    erewrite bind_ok in Hrun by done. eapply (enter_evolves env now (brain_connect binding secret now)
      Phase.Active (fun _ => Reply.Authenticated)); [done| |done].
    intros b v b' Hb Hr. by eapply bs_connect.
  - destruct (match s.(HostSession.phase) with Phase.Fresh => false | _ => true end);
      [by injection Hrun as _ <-|].
    erewrite bind_ok in Hrun by done. eapply (enter_evolves env now (join _ now _ _ _)
      (fun _ => Phase.Joined) (fun e => Reply.Joined _ _ _)); [done| |done].
    intros b v b' Hb Hr. by eapply bs_join.
Qed.

Lemma handle_evolves env request now s :
  brain_wf (served s.(HostSession.disk)) -> request_ok request ->
  evolves_brain (served s.(HostSession.disk)) (served (handle env request now s).2.(HostSession.disk)).
Proof.
  intros Hwf Hmsg. rewrite handle_disk. destruct (handle_request_cases env request now s)
    as [(e & s' & -> & _ & Hd & _)|(s1 & -> & Hd & _)]; simpl.
  - rewrite Hd. split; [done|reflexivity].
  - rewrite <- Hd in *. destruct (dispatch _ _ _ s1) as [res s'] eqn:Hdis. by eapply dispatch_evolves.
Qed.

(** A page that the host answers with was cut from the Brain it then serves, for the member of the session. *)
Lemma sync_answered env rid q now s page :
  brain_wf (served s.(HostSession.disk)) ->
  let (response, s') := handle env (Request.mk 1 rid (Operation.Sync q)) now s in
  response.(Response.result) = Reply.Page page ->
  let b := served s'.(HostSession.disk) in
  exists connection, s.(HostSession.phase) = Phase.Active connection /\
    s'.(HostSession.phase) = s.(HostSession.phase) /\
    enrolled b connection.(ConnectionIdentity.binding) /\
    let m := connection.(ConnectionIdentity.binding).(CredentialBinding.member_id) in
    page = make_page b m q /\ request_in_range b m q /\
    (forall a, q.(ReconcileRequest.at_) = Some a -> a = b.(Brain.revision)).
Proof.
  intros Hwf. set (r := Request.mk 1 rid (Operation.Sync q)). destruct (handle env r now s) as [response s'] eqn:Hh.
  intros Hpage b. destruct (handle_request env r now s) as [[reply|e] s2] eqn:Hrun;
    [|apply handle_err in Hrun as [He _]; rewrite Hh in He; simpl in He; congruence].
  pose proof (handle_ok _ _ _ _ _ _ Hrun) as [Hr Hs]. rewrite Hh in Hr, Hs. simpl in Hr, Hs. subst s2 reply.
  rewrite Hpage in Hrun. destruct (handle_request_cases env r now s)
    as [(e & s2 & Hrun' & _)|(s1 & Hrun' & Hd & Hp & _)]; [congruence|].
  rewrite Hrun' in Hrun. unfold dispatch, mbind at 1, M_bind at 1, get in Hrun. simpl in Hrun.
  rewrite <- Hd in Hwf. rewrite <- Hp. destruct s1.(HostSession.phase) as [| |connection|] eqn:Hs1; try done.
  exists connection. apply host_transact_evolves in Hrun as (_ & Hph & Hval);
    [|done|intros ? ? ? ? ? Hact; eapply active_operation_evolves; [|done|done|exact Hact]; done].
  destruct (Hval _ eq_refl) as (b1 & Ho & Hop). clear Hval.
  unfold active_operation in Hop. apply bind_ok_iff in Hop as (u & b2 & Ha & Hop).
  apply bind_ok_iff in Hop as (page' & b3 & Hrec & Hret). injection Hret as -> ->.
  apply reconcile_ok in Hrec as (rev & _ & _ & Hlive & Hreset & Hrange & -> & Hat).
  fold b in Hreset, Hrange, Hat. split_and!; try done.
  - congruence.
  - assert (b.(Brain.credentials).(CredentialRegistry.records) = b2.(Brain.credentials).(CredentialRegistry.records)) as Hc.
    { apply reset_presence_ok in Hreset as (_ & _ & _ & Hb). destruct (existsb _ _); [destruct Hb as [_ ->]|subst b]; [done|].
      by rewrite Hb. }
    destruct Hlive as (v & Hk & _ & Hb & Hv & _). unfold enrolled. rewrite Hc. eauto.
Qed.
End Evolution.

(** ** What the loop returns is exact *)

Section Exact.
Context `{Sha256, ProtocolJson, SnapshotJson, DocumentJson, PageJson, RecordsJson} {V : Type}.
Context (Hsnap : SnapshotJsonLaws).

#[local] Notation exchange := (host_exchange (V := V)).

(** If the session is authenticated, it is as this Node. *)
Definition session_of (b : CredentialBinding.t) (p : HostPeer.t) : Prop :=
  forall connection, p.(HostPeer.session).(HostSession.phase) = Phase.Active connection ->
    connection.(ConnectionIdentity.binding) = b.

(** The requests of other sessions were decoded by the host. *)
Definition calls_ok (calls : list Call.t) : Prop :=
  Forall (fun c => Forall (fun o => request_ok o.(Other.request)) c.(Call.others)) calls.

Lemma interfere_evolves others s :
  brain_wf (served s.(HostSession.disk)) -> Forall (fun o => request_ok o.(Other.request)) others ->
  evolves_brain (served s.(HostSession.disk)) (served (foldl interfere s others).(HostSession.disk)) /\
  (foldl interfere s others).(HostSession.phase) = s.(HostSession.phase).
Proof.
  revert s. induction others as [|o others IH]; intros s Hwf Hok; [split; [by split; [|reflexivity]|done]|].
  apply list.Forall_cons in Hok as [Ho Hok]. simpl.
  assert (evolves_brain (served s.(HostSession.disk)) (served (interfere s o).(HostSession.disk))) as Hev.
  { unfold interfere. simpl. by apply (handle_evolves Hsnap _ _ _ (HostSession.mk _ _ _ _)). }
  destruct (IH (interfere s o)) as [Hev' Hp]; [apply Hev|done|].
  split; [by eapply evolves_brain_trans|done].
Qed.

(** The Brain that the host serves after it has answered with a page *)
Lemma host_exchange_page b q p page p1 :
  brain_wf (HostPeer.brain p) -> session_of b p -> calls_ok p.(HostPeer.calls) ->
  exchange (Operation.Sync q) p = (Ok (Reply.Page page), p1) ->
  let m := b.(CredentialBinding.member_id) in
  evolves_brain (HostPeer.brain p) (HostPeer.brain p1) /\ session_of b p1 /\
  calls_ok p1.(HostPeer.calls) /\ enrolled (HostPeer.brain p1) b /\
  page = make_page (HostPeer.brain p1) m q /\ request_in_range (HostPeer.brain p1) m q /\
  (forall a, q.(ReconcileRequest.at_) = Some a -> a = (HostPeer.brain p1).(Brain.revision)).
Proof.
  destruct p as [s calls]. intros Hwf Hsess Hok Hx m. unfold HostPeer.brain, session_of, host_exchange in *. simpl in *.
  destruct calls as [|call calls]; [done|]. apply list.Forall_cons in Hok as [Ho Hok].
  destruct (interfere_evolves _ _ Hwf Ho) as [Hev Hp]. set (s1 := foldl interfere s call.(Call.others)) in *.
  pose proof (handle_evolves Hsnap call.(Call.env) (Request.mk 1 call.(Call.request_id) (Operation.Sync q))
    call.(Call.now) s1 (proj1 Hev) ltac:(done)) as Hev1.
  pose proof (sync_answered Hsnap call.(Call.env) call.(Call.request_id) q call.(Call.now) s1 page (proj1 Hev)) as Hans.
  destruct (handle _ _ _ s1) as [response s2].
  assert (response.(Response.result) = Reply.Page page /\ p1 = HostPeer.mk s2 calls) as [Hr ->]
    by (by destruct (Call.delivery call), (Response.result response); simplify_eq/=).
  destruct (Hans Hr) as (connection & Hph & Hph' & Henr & Hpage & Hrange & Hat). simpl in *.
  assert (connection.(ConnectionIdentity.binding) = b) as Hb by (apply Hsess; congruence).
  rewrite Hb in *. split_and!; try done.
  - by eapply evolves_brain_trans.
  - intros connection' Hc. apply Hsess. congruence.
Qed.

(** At the same revision a later Brain has the same pages and the same view. *)
Lemma same_revision_view s s' m :
  rtc brain_step s s' -> s'.(Brain.revision) = s.(Brain.revision) ->
  (forall q, make_page s' m q = make_page s m q) /\ view s' m = view s m.
Proof.
  intros Hsteps Hrev. destruct (steps_revision _ _ Hsteps) as (_ & Hsame & _).
  destruct (Hsame Hrev) as (Hm & Hn & Ht & _). destruct (delta_steps _ _ Hsteps) as [Hbrain Howner _ _ _ _ _].
  assert (shared_records s' m = shared_records s m) as Hshared.
  { unfold shared_records. rewrite Hm, Hn, Ht. f_equal. apply list_fmap_ext. intros i [k v] _. simpl. by rewrite Howner. }
  split; [intros q|]; unfold make_page, changes, view; rewrite Hshared; [by rewrite Hrev, Hbrain|done].
Qed.

Lemma synchronised_later s s' c c' :
  rtc brain_step s s' -> s'.(Brain.revision) = s.(Brain.revision) -> synchronised s c c' -> synchronised s' c c'.
Proof.
  intros Hsteps Hrev. unfold synchronised. rewrite Hrev.
  by destruct (same_revision_view s s' c.(Client.node).(Node.binding).(CredentialBinding.member_id) Hsteps Hrev) as [_ ->].
Qed.

Lemma tracks_later s s' n : rtc brain_step s s' -> tracks s n -> tracks s' n.
Proof.
  intros Hsteps [Hsync [Hnew|(s0 & Hs0 & ?)]]; (split; [done|]); [by left|right]. exists s0.
  split; [by etrans|done].
Qed.

(** The loop after the first page of the batch of [s], while the host's Brain goes on. *)
Lemma reconcile_loop_exact s b after base :
  batch s b after base ->
  forall fuel i c p c' p',
    c.(Client.channel) = true -> receiving s b after base (S i) c.(Client.node) ->
    S i < length (changes s b.(CredentialBinding.member_id) after) ->
    brain_wf (HostPeer.brain p) -> rtc brain_step s (HostPeer.brain p) ->
    session_of b p -> calls_ok p.(HostPeer.calls) ->
    reconcile_loop exchange fuel (c, p) = (Ok tt, (c', p')) -> synchronised (HostPeer.brain p') c c'.
Proof.
  intros Hb. induction fuel as [|fuel IH]; intros i c p c' p' Hch Hrec Hi Hwf Hsteps Hsess Hok Hrun; [done|].
  destruct (reconcile_round_ok _ _ _ _ _ _ Hrun Hch) as (page & p1 & Hx).
  rewrite (receiving_request _ _ _ _ _ _ Hrec) in Hx.
  destruct (host_exchange_page _ _ _ _ _ Hwf Hsess Hok Hx) as ([Hwf1 Hev] & Hsess1 & Hok1 & _ & -> & _ & Hat).
  assert (rtc brain_step s (HostPeer.brain p1)) as Hsteps1 by (by etrans).
  assert ((HostPeer.brain p1).(Brain.revision) = s.(Brain.revision)) as Hrev by (symmetry; by apply Hat).
  rewrite (proj1 (same_revision_view _ _ _ Hsteps1 Hrev)) in Hx.
  destruct (reconcile_round_cases _ _ _ _ _ Hb _ _ _ _ _ _ _ Hch Hrec (or_introl Hi) Hx Hrun)
    as [[-> Hs]|(c1 & Hmore & Hrun1 & Hrec1 & Hsame)]; [by eapply synchronised_later|].
  eapply synchronised_same; [done|]. eapply (IH (S i)); try done. destruct Hsame as (_ & -> & _). done.
Qed.

(** A reconciliation that returns leaves the Node with the view of the Brain that the host then serves. *)
Lemma client_reconcile_exact c p c' p' :
  c.(Client.channel) = true -> brain_wf (HostPeer.brain p) -> tracks (HostPeer.brain p) c.(Client.node) ->
  session_of c.(Client.node).(Node.binding) p -> calls_ok p.(HostPeer.calls) ->
  client_reconcile exchange (c, p) = (Ok tt, (c', p')) -> synchronised (HostPeer.brain p') c c'.
Proof.
  intros Hch Hwf Htr Hsess Hok Hrun. unfold client_reconcile in Hrun.
  change (N.to_nat MAX_SHARED_RECORDS) with (S 191) in Hrun.
  destruct (reconcile_round_ok _ _ _ _ _ _ Hrun Hch) as (page & p1 & Hx).
  assert (reconcile_request c.(Client.node) = request_at (HostPeer.brain p1) c.(Client.node).(Node.revision) 0) as Hq
    by (unfold reconcile_request; by rewrite (proj1 Htr)).
  rewrite Hq in Hx. set (n := c.(Client.node)) in *.
  destruct (host_exchange_page _ _ _ _ _ Hwf Hsess Hok Hx) as ([Hwf1 Hev] & Hsess1 & Hok1 & Henr & -> & _ & _).
  pose proof (tracks_later _ _ _ Hev Htr) as Htr1. pose proof (tracks_batch _ _ Hwf1 Henr Htr1) as Hb.
  destruct (reconcile_round_cases exchange _ _ _ _ Hb 191 c p p1 0 c' p' Hch) as [[-> Hs]|(c1 & Hmore & Hrun1 & Hrec1 & Hsame)];
    [split_and!; try done; apply Htr|by right|done|done|done|].
  eapply synchronised_same; [done|].
  eapply (reconcile_loop_exact _ _ _ _ Hb 191 0); try done. destruct Hsame as (_ & -> & _). done.
Qed.
End Exact.

(** ** The host, undisturbed *)

Section Settle.
Context `{Sha256, ProtocolJson, PageJson}.

(** The Brain after a request for a page at time [t]: authorised, with the expired Nodes offline. *)
Definition settle (t : Z) (b : Brain.t) : Brain.t :=
  if existsb (presence_expired t Expired) (values b.(Brain.nodes))
  then offline_state t (presence_expired t Expired) (authorized_at t b) else authorized_at t b.

Lemma reset_presence_run t b :
  timestamp t = true -> (brain_high_water b <= t)%Z -> (b.(Brain.revision) < MAX_REVISION)%N ->
  exists r, reset_presence t Expired (authorized_at t b) = (Ok r, settle t b).
Proof.
  intros Ht Hle Hmax. unfold reset_presence, settle.
  erewrite bind_ok by (apply observe_run; [done|unfold brain_high_water; simpl; lia]).
  erewrite bind_ok by done.
  change (Brain.nodes (Brain.set_clock (mkClock t) (authorized_at t b))) with (Brain.nodes b).
  destruct (existsb _ _); [|by eexists].
  assert ((revision ← next_revision;
    _ ← modify (fun s => Brain.set_nodes (update_where (presence_expired t Expired)
      (NodeRecord.offline revision) s.(Brain.nodes)) s);
    modify (Brain.set_revision revision)) (Brain.set_clock (mkClock t) (authorized_at t b))
    = (Ok tt, offline_state t (presence_expired t Expired) (authorized_at t b))) as Hoff
    by (by erewrite bind_ok by (by apply next_revision_run)).
  erewrite bind_ok by exact Hoff. by eexists.
Qed.

Lemma reconcile_run connection q t b bytes :
  let m := connection.(ConnectionIdentity.binding).(CredentialBinding.member_id) in
  brain_wf b -> timestamp t = true -> (brain_high_water b <= t)%Z -> (b.(Brain.revision) < MAX_REVISION)%N ->
  session_live b.(Brain.credentials) connection t -> brain_wf (settle t b) -> id m = true ->
  request_in_range (settle t b) m q ->
  (q.(ReconcileRequest.at_) = None /\ q.(ReconcileRequest.offset) = 0%N \/
   q.(ReconcileRequest.at_) = Some (settle t b).(Brain.revision)) ->
  page_to_vec (make_page (settle t b) m q) = Some bytes -> (len bytes <= MAX_CONTROL_BYTES)%N ->
  reconcile connection q t (authorized_at t b) = (Ok (make_page (settle t b) m q), settle t b).
Proof.
  intros m Hwf Ht Hle Hmax Hlive Hwf' Hm Hrange Hat Hbytes Hlen.
  pose proof (changes_bound (settle t b) m q.(ReconcileRequest.after) (bw_valid _ Hwf')) as Hbound.
  pose proof (make_page_valid _ _ _ Hwf' Hm Hrange) as Hvalid. destruct Hrange as [Hafter Hoff].
  destruct (reset_presence_run t b Ht Hle Hmax) as [r Hreset]. unfold reconcile.
  erewrite bind_ok by (apply observe_run; [done|unfold brain_high_water; simpl; lia]).
  erewrite bind_ok by (apply authorize_run; [split; [done|]; unfold cred_high_water; simpl; lia|done]).
  change (Brain.set_credentials _ _) with (authorized_at t b).
  erewrite bind_ok by exact Hreset. erewrite bind_ok by done. fold m. unfold MAX_SHARED_RECORDS in *.
  set (s := settle t b) in *. set (l := changes s m _) in *.
  assert ((s.(Brain.revision) <? q.(ReconcileRequest.after))%N || (192 <=? q.(ReconcileRequest.offset))%N
    || (is_none q.(ReconcileRequest.at_) && negb (q.(ReconcileRequest.offset) =? 0)%N) = false) as ->.
  { rewrite !orb_false_iff. split_and!; [lia|lia|]. destruct Hat as [[_ ->]| ->]; [by rewrite andb_false_r|done]. }
  erewrite bind_ok by done.
  assert (is_some_and (fun at_ => negb (at_ =? s.(Brain.revision))%N) q.(ReconcileRequest.at_) = false) as ->.
  { destruct Hat as [[-> _]| ->]; [done|]. simpl. by rewrite N.eqb_refl. }
  erewrite bind_ok by done. cbv zeta. fold l.
  assert ((length l <? N.to_nat q.(ReconcileRequest.offset))%nat || ((N.to_nat q.(ReconcileRequest.offset) =? length l)%nat
    && negb (N.to_nat q.(ReconcileRequest.offset) =? 0)%nat) = false) as ->.
  { apply orb_false_iff. rewrite andb_false_iff. lia. }
  erewrite bind_ok by done. unfold page_encode. rewrite Hvalid. simpl. rewrite Hbytes. simpl.
  apply N.ltb_ge in Hlen. by rewrite Hlen.
Qed.

(** No Node's presence expires between the two times. *)
Definition same_presence (b : Brain.t) (t t' : Z) : Prop :=
  forall k n, b.(Brain.nodes) !! k = Some n -> presence_expired t Expired n = presence_expired t' Expired n.

Lemma settle_wf t b :
  brain_wf b -> timestamp t = true -> (brain_high_water b <= t)%Z -> (b.(Brain.revision) < MAX_REVISION)%N ->
  brain_wf (settle t b).
Proof.
  intros Hwf Ht Hle Hmax. destruct (reset_presence_run t b Ht Hle Hmax) as [r Hr].
  eapply reset_presence_wf; [|done]. by apply authorized_wf.
Qed.

Lemma settle_steps connection t b :
  brain_wf b -> timestamp t = true -> (brain_high_water b <= t)%Z -> (b.(Brain.revision) < MAX_REVISION)%N ->
  session_live b.(Brain.credentials) connection t -> rtc brain_step b (settle t b).
Proof.
  intros Hwf Ht Hle Hmax Hlive. destruct (reset_presence_run t b Ht Hle Hmax) as [r Hr].
  pose proof (h_cclock _ (v_header _ (bw_valid _ Hwf))) as Hc.
  eapply rtc_l; [|apply rtc_once; by eapply bs_reset_presence]. apply (bs_authorize connection t tt).
  etrans; [by apply bind_ok, observe_run|]. apply authorize_run; [split; [done|simpl; lia]|done].
Qed.

Lemma settle_fresh t b :
  existsb (presence_expired t Expired) (values b.(Brain.nodes)) = false -> settle t b = authorized_at t b.
Proof. unfold settle. by intros ->. Qed.

(** Once the expired Nodes are offline, only the clocks move until another one expires. *)
Lemma settle_again b t t' :
  same_presence b t t' ->
  settle t' b = authorized_at t' (settle t b) /\ settle t' (settle t b) = settle t' b.
Proof.
  intros Hsame.
  assert (existsb (presence_expired t' Expired) (values b.(Brain.nodes))
    = existsb (presence_expired t Expired) (values b.(Brain.nodes))) as Hsame_any.
  { apply eq_true_iff_eq. rewrite !existsb_values. split; intros (k & n & Hk & Hn); exists k, n;
      (split; [done|]); [rewrite (Hsame _ _ Hk)|rewrite <- (Hsame _ _ Hk)]; done. }
  assert (settle t' b = authorized_at t' (settle t b)) as Heq.
  { unfold settle. rewrite Hsame_any. destruct (existsb (presence_expired t Expired) (values b.(Brain.nodes))); [|done].
    assert (update_where (presence_expired t' Expired) (NodeRecord.offline (b.(Brain.revision) + 1)) b.(Brain.nodes)
      = update_where (presence_expired t Expired) (NodeRecord.offline (b.(Brain.revision) + 1)) b.(Brain.nodes)) as Hup.
    { apply map_eq. intros k. rewrite !lookup_update_where. destruct (b.(Brain.nodes) !! k) as [n|] eqn:Hk; [|done].
      simpl. by rewrite (Hsame _ _ Hk). }
    unfold offline_state, authorized_at. simpl. by rewrite Hup. }
  split; [done|]. rewrite Heq. apply settle_fresh. apply existsb_values_false. intros k n Hk. revert Hk.
  unfold settle. destruct (existsb (presence_expired t Expired) _) eqn:Hex; simpl.
  - rewrite lookup_update_where. intros (n0 & Hk & ->)%fmap_Some. cbn beta.
    destruct (presence_expired t Expired n0) eqn:Hp; [done|].
    by rewrite <- (Hsame _ _ Hk).
  - intros Hk. rewrite <- (Hsame _ _ Hk). by apply (proj1 (existsb_values_false _ _) Hex k).
Qed.

Lemma settle_same b t t' m :
  same_presence b t t' ->
  (settle t' b).(Brain.revision) = (settle t b).(Brain.revision) /\
  (forall q, make_page (settle t' b) m q = make_page (settle t b) m q) /\
  forall after, changes (settle t' b) m after = changes (settle t b) m after.
Proof. intros [-> _]%settle_again. by split_and!. Qed.

Lemma active_sync_run connection q t d1 d2 b bytes :
  let m := connection.(ConnectionIdentity.binding).(CredentialBinding.member_id) in
  brain_wf b -> timestamp t = true -> (brain_high_water b <= t)%Z -> (b.(Brain.revision) < MAX_REVISION)%N ->
  session_live b.(Brain.credentials) connection t ->
  request_in_range (settle t b) m q ->
  (q.(ReconcileRequest.at_) = None /\ q.(ReconcileRequest.offset) = 0%N \/
   q.(ReconcileRequest.at_) = Some (settle t b).(Brain.revision)) ->
  page_to_vec (make_page (settle t b) m q) = Some bytes -> (len bytes <= MAX_CONTROL_BYTES)%N ->
  active_operation connection (Operation.Sync q) t d1 d2 (Brain.set_clock (mkClock t) b)
    = (Ok (Reply.Page (make_page (settle t b) m q)), settle t b).
Proof.
  intros m Hwf Ht Hle Hmax Hlive Hrange Hat Hbytes Hlen.
  pose proof (h_cclock _ (v_header _ (bw_valid _ Hwf))) as Hc. unfold active_operation.
  erewrite bind_ok by (apply authorize_run; [split; [done|simpl; lia]|done]).
  change (Brain.set_credentials _ _) with (authorized_at t b).
  refine (bind_ok (reconcile connection q t) (fun page => mret (Reply.Page page)) _ _ _ _).
  eapply reconcile_run; try done; [by apply settle_wf|].
  destruct Hlive as (v & Hk & _ & Hb & _). apply (rwf_records _ (bw_credentials _ Hwf)) in Hk.
  unfold record_valid, binding_valid in Hk. rewrite Hb in Hk. cbn [forallb] in Hk. by bool_hyps.
Qed.
End Settle.

Section Undisturbed.
Context `{Sha256, ProtocolJson, SnapshotJson, DocumentJson, PageJson}.
Context (Hsnap : SnapshotJsonLaws).

(** A call that nothing disturbs, to a host that served the Brain [b0] before the first one: no
    other session is active, nothing is lost, locks and the write succeed, the clock does not go
    back and the session is still live, and what has to be written is not too big. *)
Record undisturbed (b0 : Brain.t) (connection : ConnectionIdentity.t) (call : Call.t) : Prop := {
  un_others : call.(Call.others) = [];
  un_delivered : call.(Call.delivery) = Delivered;
  un_id : id call.(Call.request_id) = true;
  un_operations : call.(Call.env).(env_operations_lock) = true;
  un_store : call.(Call.env).(env_store_lock) = true;
  un_write : call.(Call.env).(env_write) = Committed;
  un_nonce : is_ok (token_generate call.(Call.env).(env_nonce)) = true;
  un_timestamp : timestamp call.(Call.now) = true;
  un_clock : (brain_high_water b0 <= call.(Call.now))%Z;
  un_session : session_live b0.(Brain.credentials) connection call.(Call.now);
  un_document : is_ok (document (settle call.(Call.now) b0)) = true;
  un_page q : exists bytes,
    page_to_vec (make_page (settle call.(Call.now) b0)
      connection.(ConnectionIdentity.binding).(CredentialBinding.member_id) q) = Some bytes /\
    (len bytes <= MAX_CONTROL_BYTES)%N;
}.

(** The calls to come are undisturbed, the session has room for their ids, which are new, the
    limiter has tokens for them, their times are in order, and no Node expires between two of them. *)
Record quiet (b0 : Brain.t) (connection : ConnectionIdentity.t) (s : HostSession.t) (calls : list Call.t) : Prop := {
  qu_calls call : call ∈ calls -> undisturbed b0 connection call;
  qu_ids : NoDup (Call.request_id <$> calls);
  qu_fresh call : call ∈ calls -> call.(Call.request_id) ∉ s.(HostSession.seen);
  qu_room : size s.(HostSession.seen) + length calls <= 256;
  qu_tokens : (N.of_nat (length calls) <= s.(HostSession.operations).(Limiter.remaining))%N;
  qu_limit : (N.of_nat (length calls) <= s.(HostSession.operations).(Limiter.limit))%N;
  qu_order : StronglySorted (fun c c' => c.(Call.now) <= c'.(Call.now))%Z calls;
  qu_presence c c' : c ∈ calls -> c' ∈ calls -> same_presence b0 c.(Call.now) c'.(Call.now);
}.

(** A request that passes the checks of the session and finds a token is dispatched. *)
Lemma handle_request_runs env r now s limiter :
  closed s = false -> r.(Request.version) = 1%N -> id r.(Request.id) = true ->
  size s.(HostSession.seen) < 256 -> r.(Request.id) ∉ s.(HostSession.seen) ->
  env.(env_operations_lock) = true -> env.(env_store_lock) = true ->
  take_token env.(env_instant) s.(HostSession.operations) = (true, limiter) ->
  handle_request env r now s = dispatch env r.(Request.operation) now
    (HostSession.set_operations limiter
       (HostSession.set_seen ({[ r.(Request.id) ]} ∪ s.(HostSession.seen)) s)).
Proof.
  intros Hc Hv Hid Hroom Hnew Hol Hsl Htok. unfold handle_request.
  erewrite bind_ok by done. rewrite Hc, Hv, Hid. erewrite bind_ok by done.
  rewrite (proj2 (Nat.leb_gt _ _) Hroom). erewrite bind_ok by done.
  rewrite bool_decide_eq_false_2 by done. do 2 erewrite bind_ok by done.
  rewrite Hol. erewrite bind_ok by done. rewrite Htok. do 2 erewrite bind_ok by done. rewrite Hsl.
  by erewrite bind_ok by done.
Qed.

(** A token is granted while there are some, in this window and in the next. *)
Lemma take_token_granted now l k :
  (N.of_nat (S k) <= l.(Limiter.remaining))%N -> (N.of_nat (S k) <= l.(Limiter.limit))%N ->
  exists l', take_token now l = (true, l') /\ (N.of_nat k <= l'.(Limiter.remaining))%N /\
    (N.of_nat k <= l'.(Limiter.limit))%N.
Proof.
  intros Hr Hl. unfold take_token. destruct (LIMITER_WINDOW <=? _)%N; simpl;
    (destruct (_ =? 0)%N eqn:Hz; [lia|]; eexists; split; [done|]; simpl; lia).
Qed.

Lemma settle_high_water t b : brain_high_water (settle t b) = t.
Proof. unfold settle. by destruct (existsb _ _). Qed.
Lemma settle_credentials t b : (settle t b).(Brain.credentials) = at_time t b.(Brain.credentials).
Proof. unfold settle. by destruct (existsb _ _). Qed.
Lemma settle_revision t b : ((settle t b).(Brain.revision) <= b.(Brain.revision) + 1)%N.
Proof. unfold settle. destruct (existsb _ _); simpl; lia. Qed.

(** Where the host stands between undisturbed calls: at [b0], or at what the last call made of it. *)
Definition stands (b0 : Brain.t) (calls : list Call.t) (b : Brain.t) : Prop :=
  b = b0 \/
  exists t, b = settle t b0 /\ timestamp t = true /\ (brain_high_water b0 <= t)%Z /\
    is_ok (document b) = true /\
    forall call, call ∈ calls -> (t <= call.(Call.now))%Z /\ same_presence b0 t call.(Call.now).

Lemma stands_next b0 connection call calls b :
  brain_wf b0 -> (b0.(Brain.revision) + 1 < MAX_REVISION)%N -> is_ok (document b0) = true ->
  stands b0 (call :: calls) b -> undisturbed b0 connection call ->
  let t := call.(Call.now) in
  brain_wf b /\ (brain_high_water b <= t)%Z /\ (b.(Brain.revision) < MAX_REVISION)%N /\
  session_live b.(Brain.credentials) connection t /\ is_ok (document b) = true /\ settle t b = settle t b0.
Proof.
  intros Hwf Hmax Hdoc0 [->|(t & -> & Ht & Hle & Hdoc & Hcalls)] Hun.
  - split_and!; try done; [apply (un_clock _ _ _ Hun)|lia|apply (un_session _ _ _ Hun)].
  - destruct (Hcalls call) as [Hlt Hsame]; [by left|]. pose proof (settle_revision t b0).
    split_and!; try done.
    + apply settle_wf; try done. lia.
    + by rewrite settle_high_water.
    + lia.
    + rewrite settle_credentials. apply (un_session _ _ _ Hun).
    + by apply settle_again.
Qed.
End Undisturbed.

(** ** Convergence *)

Section Convergence.
Context `{Sha256, ProtocolJson, SnapshotJson, DocumentJson, PageJson, RecordsJson} {V : Type}.
Context (Hsnap : SnapshotJsonLaws).

#[local] Notation exchange := (host_exchange (V := V)).

Section Quiet.
Context (b0 : Brain.t) (connection : ConnectionIdentity.t) (t1 : Z).
Context (Hwf : brain_wf b0) (Hmax : (b0.(Brain.revision) + 1 < MAX_REVISION)%N)
  (Hdoc0 : is_ok (document b0) = true).
Let m := connection.(ConnectionIdentity.binding).(CredentialBinding.member_id).

(** The host can answer [k] more requests. *)
Definition ready_for (k : nat) (p : HostPeer.t) : Prop :=
  length p.(HostPeer.calls) = k /\
  p.(HostPeer.session).(HostSession.phase) = Phase.Active connection /\
  serving p.(HostPeer.session).(HostSession.disk) /\
  quiet b0 connection p.(HostPeer.session) p.(HostPeer.calls) /\
  (forall call, call ∈ p.(HostPeer.calls) -> same_presence b0 t1 call.(Call.now)) /\
  stands b0 p.(HostPeer.calls) (HostPeer.brain p).

Lemma quiet_next s call calls seen limiter d :
  quiet b0 connection s (call :: calls) -> s.(HostSession.seen) = seen ->
  (N.of_nat (length calls) <= limiter.(Limiter.remaining))%N ->
  (N.of_nat (length calls) <= limiter.(Limiter.limit))%N ->
  quiet b0 connection (HostSession.mk d limiter s.(HostSession.phase) ({[ call.(Call.request_id) ]} ∪ seen)) calls.
Proof.
  intros [Hcalls Hids Hfresh Hroom _ _ Horder Hpres] <- Hr Hl. rewrite fmap_cons in Hids.
  apply list.NoDup_cons in Hids as [Hnew Hids]. split; simpl in *; try done.
  - intros c Hc. apply Hcalls. by right.
  - intros c Hc. apply not_elem_of_union. split; [|apply Hfresh; by right]. apply not_elem_of_singleton.
    intros Heq. apply Hnew. rewrite <- Heq. by apply list_elem_of_fmap_2.
  - rewrite size_union_alt, size_singleton.
    assert (size (s.(HostSession.seen) ∖ {[call.(Call.request_id)]}) <= size s.(HostSession.seen))
      by (apply subseteq_size; set_solver). lia.
  - by inversion Horder.
  - intros c c' Hc Hc'. apply Hpres; by right.
Qed.

Lemma stands_later s call calls :
  quiet b0 connection s (call :: calls) -> stands b0 calls (settle call.(Call.now) b0).
Proof.
  intros Hq. pose proof (qu_calls _ _ _ _ Hq call ltac:(by left)) as Hun. right. exists call.(Call.now).
  split_and!; try done; [apply (un_timestamp _ _ _ Hun)|apply (un_clock _ _ _ Hun)|apply (un_document _ _ _ Hun)|].
  intros c Hc. split; [|apply (qu_presence _ _ _ _ Hq); [by left|by right]].
  pose proof (qu_order _ _ _ _ Hq) as Ho. inversion Ho as [|? ? _ Hall]. subst.
  by apply (proj1 (list.Forall_forall _ _) Hall).
Qed.

(** One undisturbed call is answered with the page of the settled Brain. *)
Lemma handle_sync_run call calls s q :
  let t := call.(Call.now) in
  quiet b0 connection s (call :: calls) -> s.(HostSession.phase) = Phase.Active connection ->
  serving s.(HostSession.disk) -> stands b0 (call :: calls) (served s.(HostSession.disk)) ->
  request_in_range (settle t b0) m q ->
  (q.(ReconcileRequest.at_) = None /\ q.(ReconcileRequest.offset) = 0%N \/
   q.(ReconcileRequest.at_) = Some (settle t b0).(Brain.revision)) ->
  exists s', handle call.(Call.env) (Request.mk 1 call.(Call.request_id) (Operation.Sync q)) t s
      = (Response.mk 1 call.(Call.request_id) (Reply.Page (make_page (settle t b0) m q)), s') /\
    s'.(HostSession.phase) = Phase.Active connection /\ serving s'.(HostSession.disk) /\
    served s'.(HostSession.disk) = settle t b0 /\ quiet b0 connection s' calls.
Proof.
  intros t Hq Hph Hserve Hst Hrange Hat. pose proof (qu_calls _ _ _ _ Hq call ltac:(by left)) as Hun.
  destruct (stands_next _ _ _ _ _ Hwf Hmax Hdoc0 Hst Hun) as (Hwfb & Hle & Hmaxb & Hlive & Hdoc & Hset).
  fold t in Hle, Hlive, Hset. destruct (un_page _ _ _ Hun q) as (bytes & Hbytes & Hlen). fold t m in Hbytes.
  rewrite <- Hset in Hrange, Hat, Hbytes |- *.
  pose proof (active_sync_run connection q t call.(Call.env).(env_draw1) call.(Call.env).(env_draw2) _ _
    Hwfb (un_timestamp _ _ _ Hun) Hle Hmaxb Hlive Hrange Hat Hbytes Hlen) as Hop.
  destruct (document (served s.(HostSession.disk))) as [old|] eqn:Hold; [|done].
  pose proof (un_document _ _ _ Hun) as Hdoc'. fold t in Hdoc'. rewrite <- Hset in Hdoc'.
  destruct (document (settle t (served s.(HostSession.disk)))) as [new|] eqn:Hnew; [|done].
  pose proof (un_nonce _ _ _ Hun) as Hnonce. destruct (token_generate _) as [token|] eqn:Htoken; [|done].
  destruct (transact_runs Hsnap t _ _ token s.(HostSession.disk) old _ _ _ new Hserve Hwfb Hold
    (observe_run _ _ (un_timestamp _ _ _ Hun) Hle) Hop Hnew Htoken) as (d' & Htx & Hserve' & Hb').
  destruct (take_token_granted call.(Call.env).(env_instant) s.(HostSession.operations) (length calls)
    (qu_tokens _ _ _ _ Hq) (qu_limit _ _ _ _ Hq)) as (limiter & Htok & Hr & Hl).
  pose proof (qu_room _ _ _ _ Hq) as Hroom. simpl in Hroom.
  exists (HostSession.mk d' limiter s.(HostSession.phase) ({[ call.(Call.request_id) ]} ∪ s.(HostSession.seen))).
  split_and!; [|done..|by eapply quiet_next].
  unfold handle. erewrite handle_request_runs; try done.
  - cbn [Request.operation Request.id]. rewrite (un_id _ _ _ Hun).
    assert (dispatch call.(Call.env) (Operation.Sync q) t (HostSession.set_operations limiter
      (HostSession.set_seen ({[call.(Call.request_id)]} ∪ s.(HostSession.seen)) s))
      = (Ok (Reply.Page (make_page (settle t (served s.(HostSession.disk))) m q)),
         HostSession.mk d' limiter s.(HostSession.phase) ({[ call.(Call.request_id) ]} ∪ s.(HostSession.seen)))) as ->;
      [|done].
    unfold dispatch. erewrite bind_ok by done. cbn [HostSession.phase HostSession.set_operations HostSession.set_seen].
    rewrite Hph. unfold host_transact, zoom. cbn [HostSession.disk HostSession.set_operations HostSession.set_seen].
    rewrite (un_write _ _ _ Hun).
    rewrite Htx, <- Hph. done.
  - unfold closed. by rewrite Hph.
  - apply (un_id _ _ _ Hun).
  - lia.
  - apply (qu_fresh _ _ _ _ Hq). by left.
  - apply (un_operations _ _ _ Hun).
  - apply (un_store _ _ _ Hun).
Qed.

Lemma host_serves_pages : serves_pages exchange ready_for (settle t1 b0) m.
Proof.
  intros k [s calls] q (Hk & Hph & Hserve & Hq & Hsame & Hst) Hrange Hat. simpl in *.
  destruct calls as [|call calls]; [done|]. pose proof (Hsame call ltac:(by left)) as Hs1.
  destruct (settle_same b0 t1 call.(Call.now) m Hs1) as (Hrev & Hpage & Hch).
  destruct (handle_sync_run call calls s q Hq Hph Hserve Hst) as (s' & Hh & Hph' & Hserve' & Hb' & Hq').
  { unfold request_in_range in *. by rewrite Hrev, Hch. }
  { by rewrite Hrev. }
  pose proof (qu_calls _ _ _ _ Hq call ltac:(by left)) as Hun.
  exists (HostPeer.mk s' calls). split.
  - unfold host_exchange. cbn [HostPeer.calls HostPeer.session].
    rewrite (un_others _ _ _ Hun), (un_delivered _ _ _ Hun). cbn [foldl]. rewrite Hh. simpl. by rewrite Hpage.
  - split_and!; try done; [by injection Hk| |].
    + intros c Hc. apply Hsame. by right.
    + unfold HostPeer.brain. simpl. rewrite Hb'. by eapply stands_later.
Qed.
End Quiet.

(** C3: a client that reconciles with a host ends with exactly what the host has, or disconnected.
    Other sessions may use the same Brain between its requests, requests and replies may be lost, and
    the host may refuse any of them. If the client's Node held nothing or an earlier view of the host's
    Brain, a reconciliation that returns leaves it with the view of the Brain the host then serves, at
    its revision and ready, with its uncertain tasks and pending message kept; one that fails leaves the
    client disconnected and its Node not ready. And when the host is quiet it returns: if its calls are
    undisturbed, with new ids the session has room for, tokens, times in order, no Node that expires
    between them and everything within its size, as many calls as there are changes are enough. *)
Theorem client_converges c p connection :
  let n := c.(Client.node) in
  let b0 := HostPeer.brain p in
  c.(Client.channel) = true -> in_sync p.(HostPeer.session).(HostSession.disk) -> tracks b0 n ->
  p.(HostPeer.session).(HostSession.phase) = Phase.Active connection ->
  connection.(ConnectionIdentity.binding) = n.(Node.binding) -> calls_ok p.(HostPeer.calls) ->
  (forall c' p', client_reconcile exchange (c, p) = (Ok tt, (c', p')) ->
     synchronised (HostPeer.brain p') c c') /\
  (forall e c' p', client_reconcile exchange (c, p) = (Err e, (c', p')) ->
     c'.(Client.channel) = false /\ c'.(Client.node).(Node.ready) = false) /\
  (quiet b0 connection p.(HostPeer.session) p.(HostPeer.calls) ->
   p.(HostPeer.calls) <> [] ->
   (b0.(Brain.revision) + 1 < MAX_REVISION)%N -> is_ok (document b0) = true ->
   (forall call, call ∈ p.(HostPeer.calls) -> let s := settle call.(Call.now) b0 in
      length (changes s n.(Node.binding).(CredentialBinding.member_id) n.(Node.revision)) <= length p.(HostPeer.calls) /\
      forall i, fits s n.(Node.binding) n.(Node.revision) n.(Node.records) i) ->
   exists c' p', client_reconcile exchange (c, p) = (Ok tt, (c', p'))).
Proof.
  intros n b0 Hch Hsync Htr Hph Hbind Hok. pose proof (sync_wf _ Hsync) as Hwf.
  split_and!.
  - intros c' p'. apply client_reconcile_exact; try done. intros connection' Hc. rewrite Hph in Hc. by injection Hc as <-.
  - intros e c' p'. apply reconcile_loop_err.
  - intros Hq Hne Hmax Hdoc Hfit. destruct p.(HostPeer.calls) as [|call calls] eqn:Hcalls; [done|].
    pose proof (qu_calls _ _ _ _ Hq call ltac:(by left)) as Hun. set (t1 := call.(Call.now)).
    destruct (Hfit call ltac:(by left)) as [Hlen Hfits]. fold t1 in Hlen, Hfits.
    assert (brain_wf (settle t1 b0)) as Hwf1
      by (apply settle_wf; [done|apply (un_timestamp _ _ _ Hun)|apply (un_clock _ _ _ Hun)|lia]).
    assert (rtc brain_step b0 (settle t1 b0)) as Hsteps.
    { apply (settle_steps connection); [done|apply (un_timestamp _ _ _ Hun)|apply (un_clock _ _ _ Hun)|lia|
        apply (un_session _ _ _ Hun)]. }
    assert (enrolled (settle t1 b0) n.(Node.binding)) as Henr.
    { destruct (un_session _ _ _ Hun) as (v & Hk & _ & Hb & Hv & _). unfold enrolled. rewrite settle_credentials.
      exists connection.(ConnectionIdentity.binding).(CredentialBinding.node_id), v. rewrite <- Hbind. done. }
    pose proof (tracks_batch _ _ Hwf1 Henr (tracks_later _ _ _ Hsteps Htr)) as Hb.
    pose proof (changes_bound (settle t1 b0) n.(Node.binding).(CredentialBinding.member_id) n.(Node.revision)
      (bw_valid _ Hwf1)) as Hbound.
    eapply (reconcile_loop_run exchange (ready_for b0 connection t1) _ _ _ _ Hb _ Hfits _ (length (call :: calls)) 0);
      try done.
    + split_and!; try done. apply Htr.
    + by right.
    + unfold MAX_SHARED_RECORDS in *. lia.
    + simpl in *. lia.
    + unfold ready_for. rewrite Hcalls. split_and!; try done; [by apply in_sync_serving| |by left].
      intros c1 Hc1. apply (qu_presence _ _ _ _ Hq); [by left|done].
    Unshelve. rewrite <- Hbind. by apply host_serves_pages.
Qed.
End Convergence.
