(* ===== verification/TaskArtifact.v ===== *)
(** * Patch artifacts of local runs (task/artifact.rs, and the bounded git call of
    task/worktree.rs)

    The patch a run leaves in its worktree: collected from git under a size limit,
    described by its metadata, and checked again wherever it is read. git itself and the
    file system are the [GitRun] and the path checks that a collection is given. *)

From S2P Require Import Prelude.

(** [u64], as in the source; a patch is at most 512 KiB. *)
Definition MAX_PATCH_BYTES : N := 512 * 1024.

Module PatchArtifactState.
Inductive t := Empty | Complete | TooLarge | UnsupportedEncoding.
#[global] Instance eq_dec : EqDecision t.
Proof. solve_decision. Defined.
End PatchArtifactState.

Module PatchArtifactMetadata.
Record t := mk {
  baseline_commit : string;
  state : PatchArtifactState.t;
  limit_bytes : N;
  byte_count : option N;
  sha256 : option string;
}.
#[global] Instance eq_dec : EqDecision t.
Proof. solve_decision. Defined.
End PatchArtifactMetadata.

Module PatchArtifact.
Record t := mk {
  baseline_commit : string;
  state : PatchArtifactState.t;
  limit_bytes : N;
  byte_count : option N;
  sha256 : option string;
  patch : option string;
}.
#[global] Instance eq_dec : EqDecision t.
Proof. solve_decision. Defined.
End PatchArtifact.

(** ** Bounded git commands *)

Module GitCommandError.
Inductive t := Unavailable | Failed | OutputTooLarge | TimedOut.
#[global] Instance eq_dec : EqDecision t.
Proof. solve_decision. Defined.
End GitCommandError.

(** How the child process stood when [run_git] stopped polling it. *)
Inductive ChildEnd := Exited (success : bool) | WaitFailed | StillRunning.

(** What happens while [run_git] waits: the child may not start, its output may be
    unavailable (no pipe, no reader thread), the reading may fail, may not finish before the
    end, or deliver what the child wrote to its standard output. *)
Inductive GitRun :=
| NotSpawned
| NoReader
| ReadFailed
| Unread (child : ChildEnd)
| Read (stdout : string) (child : ChildEnd).

(** [stdout.take(n)] *)
Fixpoint take_bytes (n : nat) (s : string) : string :=
  match n, s with
  | S n, String a s => String a (take_bytes n s)
  | _, _ => EmptyString
  end.

(** The reader keeps one byte more than the limit, to notice that there was more. *)
Definition run_git (run : GitRun) (max_output_bytes : N) : result GitCommandError.t string :=
  match run with
  | NotSpawned => Err GitCommandError.Unavailable
  | NoReader | ReadFailed => Err GitCommandError.Failed
  | Unread child =>
    match child with
    | StillRunning => Err GitCommandError.TimedOut
    | Exited _ | WaitFailed => Err GitCommandError.Failed
    end
  | Read stdout child =>
    let output := take_bytes (N.to_nat (max_output_bytes + 1)) stdout in
    if (max_output_bytes <? len output)%N then Err GitCommandError.OutputTooLarge else
    match child with
    | Exited true => Ok output
    | Exited false | WaitFailed => Err GitCommandError.Failed
    | StillRunning => Err GitCommandError.TimedOut
    end
  end.

(** [TaskWorktree::git_output]; [paths_match] is [paths_still_match] at the call. *)
Definition git_output (paths_match : bool) (run : GitRun) (max_output_bytes : N)
    : result GitCommandError.t string :=
  if negb paths_match then Err GitCommandError.Failed else run_git run max_output_bytes.

Definition valid_commit (commit : string) : bool :=
  ((len commit =? 40)%N || (len commit =? 64)%N) && bytes_all is_ascii_hexdigit commit.

(** ** Artifacts *)

Inductive ArtifactError := CollectionFailed.

Section Artifacts.
Context `{Sha256}.

(** [sha256] and [format!("{:x}", Sha256::digest(..))] *)
Definition sha256_hex (bytes : string) : string := hex_of_bytes (sha256_digest bytes).

Definition valid_hex (value : string) (lengths : list N) : bool :=
  existsb (N.eqb (len value)) lengths && bytes_all is_ascii_hexdigit value.

(** [PatchArtifactMetadata::is_valid] *)
Definition metadata_is_valid (m : PatchArtifactMetadata.t) : bool :=
  if negb (m.(PatchArtifactMetadata.limit_bytes) =? MAX_PATCH_BYTES)%N
     || negb (valid_hex m.(PatchArtifactMetadata.baseline_commit) [40; 64]%N)
  then false else
  match m.(PatchArtifactMetadata.state) with
  | PatchArtifactState.Empty =>
    bool_decide (m.(PatchArtifactMetadata.byte_count) = Some 0%N)
    && bool_decide (m.(PatchArtifactMetadata.sha256) = Some (sha256_hex ""))
  | PatchArtifactState.Complete | PatchArtifactState.UnsupportedEncoding =>
    is_some_and (fun bytes => (0 <? bytes)%N && (bytes <=? m.(PatchArtifactMetadata.limit_bytes))%N)
      m.(PatchArtifactMetadata.byte_count)
    && is_some_and (fun hash => valid_hex hash [64]%N) m.(PatchArtifactMetadata.sha256)
  | PatchArtifactState.TooLarge =>
    is_none m.(PatchArtifactMetadata.byte_count) && is_none m.(PatchArtifactMetadata.sha256)
  end.

Definition metadata_of (a : PatchArtifact.t) : PatchArtifactMetadata.t :=
  PatchArtifactMetadata.mk a.(PatchArtifact.baseline_commit) a.(PatchArtifact.state)
    a.(PatchArtifact.limit_bytes) a.(PatchArtifact.byte_count) a.(PatchArtifact.sha256).

(** [PatchArtifact::is_valid] *)
Definition artifact_is_valid (a : PatchArtifact.t) : bool :=
  if negb (metadata_is_valid (metadata_of a)) then false else
  match a.(PatchArtifact.state) with
  | PatchArtifactState.Empty => bool_decide (a.(PatchArtifact.patch) = Some EmptyString)
  | PatchArtifactState.Complete =>
    is_some_and (fun patch =>
      negb (is_empty patch)
      && bool_decide (a.(PatchArtifact.byte_count) = Some (len patch))
      && bool_decide (a.(PatchArtifact.sha256) = Some (sha256_hex patch))) a.(PatchArtifact.patch)
  | PatchArtifactState.TooLarge | PatchArtifactState.UnsupportedEncoding =>
    is_none a.(PatchArtifact.patch)
  end.

(** [PatchArtifact::metadata] *)
Definition metadata (a : PatchArtifact.t) : option PatchArtifactMetadata.t :=
  if artifact_is_valid a then Some (metadata_of a) else None.

(** [PatchArtifact::collect]: [git add --intent-to-add], then [git diff] against the
    baseline, each with the paths checked first. *)
Definition collect (baseline_commit : string) (paths1 : bool) (add : GitRun)
    (paths2 : bool) (diff : GitRun) : result ArtifactError PatchArtifact.t :=
  match git_output paths1 add (4 * 1024) with
  | Err _ => Err CollectionFailed
  | Ok _ =>
    match git_output paths2 diff MAX_PATCH_BYTES with
    | Err GitCommandError.OutputTooLarge =>
      Ok (PatchArtifact.mk baseline_commit PatchArtifactState.TooLarge MAX_PATCH_BYTES
            None None None)
    | Err (GitCommandError.Unavailable | GitCommandError.Failed | GitCommandError.TimedOut) =>
      Err CollectionFailed
    | Ok output =>
      let byte_count := len output in
      let sha256 := sha256_hex output in
      if is_utf8 output then
        Ok (PatchArtifact.mk baseline_commit
              (if is_empty output then PatchArtifactState.Empty else PatchArtifactState.Complete)
              MAX_PATCH_BYTES (Some byte_count) (Some sha256) (Some output))
      else
        Ok (PatchArtifact.mk baseline_commit PatchArtifactState.UnsupportedEncoding
              MAX_PATCH_BYTES (Some byte_count) (Some sha256) None)
    end
  end.
End Artifacts.

(** ** Facts *)

Lemma len_take_bytes n s : (len (take_bytes n s) <= N.of_nat n)%N.
Proof.
  unfold len. enough (String.length (take_bytes n s) <= n) by lia.
  revert s. induction n as [|n IH]; intros [|a s]; simpl; try lia. specialize (IH s). lia.
Qed.

Lemma take_bytes_all n s : (len s <= N.of_nat n)%N -> take_bytes n s = s.
Proof.
  unfold len. revert s. induction n as [|n IH]; intros [|a s] Hl; simpl in *; try done; try lia.
  rewrite IH by lia. done.
Qed.

Lemma take_bytes_long n s :
  (N.of_nat n <= len s)%N -> len (take_bytes n s) = N.of_nat n.
Proof.
  unfold len. revert s. induction n as [|n IH]; intros [|a s] Hl; simpl in *; try done; try lia.
  specialize (IH s). lia.
Qed.

(** git's output is reported whole or not at all. *)
Lemma run_git_read stdout child limit :
  run_git (Read stdout child) limit =
    if (limit <? len stdout)%N then Err GitCommandError.OutputTooLarge else
    match child with
    | Exited true => Ok stdout
    | Exited false | WaitFailed => Err GitCommandError.Failed
    | StillRunning => Err GitCommandError.TimedOut
    end.
Proof.
  simpl. destruct (N.ltb_spec limit (len stdout)) as [Hl|Hl].
  - rewrite take_bytes_long by lia. rewrite (proj2 (N.ltb_lt _ _)); [done|lia].
  - rewrite take_bytes_all by lia. by rewrite (proj2 (N.ltb_ge _ _) Hl).
Qed.

Lemma run_git_ok run limit output :
  run_git run limit = Ok output -> run = Read output (Exited true) /\ (len output <= limit)%N.
Proof.
  destruct run as [| | |[]|stdout child]; try done. rewrite run_git_read.
  destruct (N.ltb_spec limit (len stdout)); [done|]. destruct child as [[]| |]; naive_solver.
Qed.

Lemma git_output_ok paths run limit output :
  git_output paths run limit = Ok output ->
  run = Read output (Exited true) /\ (len output <= limit)%N.
Proof. unfold git_output. destruct paths; [apply run_git_ok|done]. Qed.

Section Facts.
Context `{Sha256, !Sha256Laws}.

Lemma valid_hex_commit commit : valid_hex commit [40; 64]%N = valid_commit commit.
Proof. unfold valid_hex, valid_commit. simpl. by rewrite orb_false_r. Qed.

Lemma valid_hex_sha256 bytes : valid_hex (sha256_hex bytes) [64]%N = true.
Proof.
  unfold valid_hex, sha256_hex. rewrite len_hex_of_bytes, sha256_len. simpl.
  eapply bytes_all_impl; [|apply hex_of_bytes_lower]. intros b Hb.
  unfold is_lower_hex in Hb. unfold is_ascii_hexdigit.
  apply orb_true_iff in Hb as [->| ->]; [done|apply orb_true_r].
Qed.

(** The two descriptions a collection can give. *)
Lemma collect_ok baseline paths1 add paths2 diff a :
  valid_commit baseline = true ->
  collect baseline paths1 add paths2 diff = Ok a ->
  artifact_is_valid a = true /\ a.(PatchArtifact.baseline_commit) = baseline /\
  ((exists stdout child, diff = Read stdout child /\ (MAX_PATCH_BYTES < len stdout)%N /\
      a.(PatchArtifact.state) = PatchArtifactState.TooLarge) \/
   (exists stdout, diff = Read stdout (Exited true) /\ (len stdout <= MAX_PATCH_BYTES)%N /\
      a.(PatchArtifact.byte_count) = Some (len stdout) /\
      a.(PatchArtifact.sha256) = Some (sha256_hex stdout) /\
      a.(PatchArtifact.patch) = if is_utf8 stdout then Some stdout else None)).
Proof.
  intros Hb Hc. unfold collect in Hc.
  destruct (git_output paths1 add _); [|done].
  assert (valid_hex baseline [40; 64]%N = true) as Hhex by (by rewrite valid_hex_commit).
  unfold artifact_is_valid, metadata_is_valid.
  destruct (git_output paths2 diff _) as [output|e] eqn:Hout.
  - apply git_output_ok in Hout as [-> Hl]. destruct (is_utf8 output) eqn:Hu; injection Hc as <-;
      simpl; rewrite Hhex; simpl.
    + destruct output as [|ch output]; simpl; [|rewrite valid_hex_sha256, !bool_decide_eq_true_2 by done].
      * split_and!; [by repeat case_bool_decide|done|right]. by exists "".
      * split_and!; [|done|right; exists (String ch output); by rewrite Hu].
        rewrite (proj2 (N.leb_le _ _) Hl). done.
    + rewrite valid_hex_sha256, (proj2 (N.leb_le _ _) Hl). destruct output as [|ch output]; [done|].
      split_and!; [done..|right]. eexists. by rewrite Hu.
  - destruct e; try done. injection Hc as <-. simpl. rewrite Hhex. split_and!; [done..|left].
    unfold git_output in Hout. destruct paths2; [|done]. simpl in Hout.
    destruct diff as [| | |[]|stdout child]; try done. rewrite run_git_read in Hout.
    destruct (N.ltb_spec MAX_PATCH_BYTES (len stdout)); [by eauto|]. by destruct child as [[]| |].
Qed.

(** A patch collected against a valid baseline is always a valid artifact, so
    that a receipt can be made of it; and it says exactly what git wrote: the output
    itself when it is text, its size and hash when it is within the limit, and nothing but
    [TooLarge] beyond it. *)
Theorem collected_patch_valid baseline paths1 add paths2 diff a :
  valid_commit baseline = true ->
  collect baseline paths1 add paths2 diff = Ok a ->
  artifact_is_valid a = true /\ metadata a = Some (metadata_of a) /\
  a.(PatchArtifact.baseline_commit) = baseline /\
  ((exists stdout child, diff = Read stdout child /\ (MAX_PATCH_BYTES < len stdout)%N /\
      a.(PatchArtifact.state) = PatchArtifactState.TooLarge) \/
   (exists stdout, diff = Read stdout (Exited true) /\ (len stdout <= MAX_PATCH_BYTES)%N /\
      a.(PatchArtifact.byte_count) = Some (len stdout) /\
      a.(PatchArtifact.sha256) = Some (sha256_hex stdout) /\
      a.(PatchArtifact.patch) = if is_utf8 stdout then Some stdout else None)).
Proof.
  intros Hb (Hv & Hbase & Hout)%collect_ok; [|done]. split_and!; try done.
  unfold metadata. by rewrite Hv.
Qed.
End Facts.
