(* ===== verification/TaskReceipt.v ===== *)
(** * Receipts of local runs (task/receipt.rs)

    A receipt describes how a run ended and is sealed by the hash of its own content.
    serde_json on the receipt's payload is a parameter; what is used of it is that two
    payloads with the same text are the same payload. *)

From S2P Require Import Prelude TaskArtifact.

Definition RUN_RECEIPT_SCHEMA_VERSION : N := 1.
Definition MAX_RECEIPT_ID_BYTES : N := 128.
Definition MAX_RUNTIME_VERSION_BYTES : N := 128.
Definition MAX_RECEIPT_SUMMARY_BYTES : N := 4 * 1024.
Definition MAX_RECEIPT_ERROR_BYTES : N := 2 * 1024.
Definition MAX_TEST_EXECUTIONS : nat := 32.
Definition MAX_TEST_NAME_BYTES : N := 256.
Definition MAX_TEST_NAME_TOTAL_BYTES : N := 4 * 1024.

Module RunReceiptOutcome.
Inductive t := Success | Failed | Cancelled | OutcomeUnknown.
#[global] Instance eq_dec : EqDecision t.
Proof. solve_decision. Defined.
End RunReceiptOutcome.

Module TestExecution.
Record t := mk { name : string; exit_code : Z }.
#[global] Instance eq_dec : EqDecision t.
Proof. solve_decision. Defined.
End TestExecution.

Module TestReport.
Inductive t := NotReported | Reported (executions : list TestExecution.t).
#[global] Instance eq_dec : EqDecision t.
Proof. solve_decision. Defined.
End TestReport.

Module RunReceiptInput.
Record t := mk {
  task_id : string;
  run_id : string;
  node_id : string;
  runtime_id : string;
  runtime_version : string;
  started_at : Z;
  finished_at : Z;
  outcome : RunReceiptOutcome.t;
  summary : option string;
  error : option string;
  tests : TestReport.t;
  patch : PatchArtifact.t;
}.
End RunReceiptInput.

(** The part of a receipt that is hashed. *)
Module ReceiptPayload.
Record t := mk {
  schema_version : N;
  task_id : string;
  run_id : string;
  node_id : string;
  runtime_id : string;
  runtime_version : string;
  started_at : Z;
  finished_at : Z;
  outcome : RunReceiptOutcome.t;
  summary : option string;
  error : option string;
  tests : TestReport.t;
  patch : PatchArtifactMetadata.t;
}.
#[global] Instance eq_dec : EqDecision t.
Proof. solve_decision. Defined.
End ReceiptPayload.

Module RunReceipt.
Record t := mk {
  schema_version : N;
  task_id : string;
  run_id : string;
  node_id : string;
  runtime_id : string;
  runtime_version : string;
  started_at : Z;
  finished_at : Z;
  outcome : RunReceiptOutcome.t;
  summary : option string;
  error : option string;
  tests : TestReport.t;
  patch : PatchArtifactMetadata.t;
  content_sha256 : string;
}.
#[global] Instance eq_dec : EqDecision t.
Proof. solve_decision. Defined.
Definition set_content_sha256 (h : string) (r : t) : t :=
  mk r.(schema_version) r.(task_id) r.(run_id) r.(node_id) r.(runtime_id) r.(runtime_version)
    r.(started_at) r.(finished_at) r.(outcome) r.(summary) r.(error) r.(tests) r.(patch) h.
End RunReceipt.

Module ReceiptError.
Inductive t :=
| InvalidIdentity | InvalidRuntimeVersion | InvalidTimestamp | InvalidSummary | InvalidError
| InvalidOutcome | InvalidTests | InvalidPatch | ContentHashMismatch | Serialization.
End ReceiptError.

(** [serde_json::to_vec] on the payload *)
Class ReceiptJson := receipt_payload_to_vec : ReceiptPayload.t -> option string.
Class ReceiptJsonLaws `{ReceiptJson} : Prop := receipt_payload_inj p p' bytes :
  receipt_payload_to_vec p = Some bytes -> receipt_payload_to_vec p' = Some bytes -> p = p'.

(** [valid_id] *)
Definition valid_receipt_id (value : string) : bool :=
  negb (trim_is_empty value) && (len value <=? MAX_RECEIPT_ID_BYTES)%N.

Definition valid_optional_text (value : option string) (max_bytes : N) : bool :=
  negb (is_some_and (fun value => trim_is_empty value || (max_bytes <? len value)%N) value).

Definition validate_tests (tests : TestReport.t) : result ReceiptError.t unit :=
  match tests with
  | TestReport.NotReported => Ok tt
  | TestReport.Reported executions =>
    _ ← refuse (MAX_TEST_EXECUTIONS <? length executions) ReceiptError.InvalidTests;
    _ ← for_each (fun e => refuse (trim_is_empty e.(TestExecution.name)
                                   || (MAX_TEST_NAME_BYTES <? len e.(TestExecution.name))%N)
                              ReceiptError.InvalidTests) executions;
    refuse (MAX_TEST_NAME_TOTAL_BYTES <? sum_len TestExecution.name executions)%N
      ReceiptError.InvalidTests
  end.

Section Receipts.
Context `{Sha256, ReceiptJson}.

Definition receipt_payload (r : RunReceipt.t) : ReceiptPayload.t :=
  ReceiptPayload.mk r.(RunReceipt.schema_version) r.(RunReceipt.task_id) r.(RunReceipt.run_id)
    r.(RunReceipt.node_id) r.(RunReceipt.runtime_id) r.(RunReceipt.runtime_version)
    r.(RunReceipt.started_at) r.(RunReceipt.finished_at) r.(RunReceipt.outcome)
    r.(RunReceipt.summary) r.(RunReceipt.error) r.(RunReceipt.tests) r.(RunReceipt.patch).

Definition calculate_content_sha256 (r : RunReceipt.t) : result ReceiptError.t string :=
  bytes ← ok_or (receipt_payload_to_vec (receipt_payload r)) ReceiptError.Serialization;
  Ok (sha256_hex bytes).

Definition outcome_is_valid (outcome : RunReceiptOutcome.t) (error : option string) : bool :=
  match outcome with
  | RunReceiptOutcome.Success | RunReceiptOutcome.Cancelled => is_none error
  | RunReceiptOutcome.Failed | RunReceiptOutcome.OutcomeUnknown => is_some error
  end.

Definition validate_fields (r : RunReceipt.t) : result ReceiptError.t unit :=
  _ ← refuse (negb (r.(RunReceipt.schema_version) =? RUN_RECEIPT_SCHEMA_VERSION)%N
              || negb (valid_receipt_id r.(RunReceipt.task_id))
              || negb (valid_receipt_id r.(RunReceipt.run_id))
              || negb (valid_receipt_id r.(RunReceipt.node_id))
              || negb (valid_receipt_id r.(RunReceipt.runtime_id))) ReceiptError.InvalidIdentity;
  _ ← refuse (trim_is_empty r.(RunReceipt.runtime_version)
              || (MAX_RUNTIME_VERSION_BYTES <? len r.(RunReceipt.runtime_version))%N)
        ReceiptError.InvalidRuntimeVersion;
  _ ← refuse ((r.(RunReceipt.started_at) <? 0)%Z
              || (r.(RunReceipt.finished_at) <? r.(RunReceipt.started_at))%Z)
        ReceiptError.InvalidTimestamp;
  _ ← refuse (negb (valid_optional_text r.(RunReceipt.summary) MAX_RECEIPT_SUMMARY_BYTES))
        ReceiptError.InvalidSummary;
  _ ← refuse (negb (valid_optional_text r.(RunReceipt.error) MAX_RECEIPT_ERROR_BYTES))
        ReceiptError.InvalidError;
  _ ← refuse (negb (outcome_is_valid r.(RunReceipt.outcome) r.(RunReceipt.error)))
        ReceiptError.InvalidOutcome;
  _ ← validate_tests r.(RunReceipt.tests);
  refuse (negb (metadata_is_valid r.(RunReceipt.patch))) ReceiptError.InvalidPatch.

(** [RunReceipt::verify] *)
Definition verify (r : RunReceipt.t) : result ReceiptError.t unit :=
  _ ← validate_fields r;
  hash ← calculate_content_sha256 r;
  refuse (negb (str_eqb r.(RunReceipt.content_sha256) hash)) ReceiptError.ContentHashMismatch.

(** [RunReceipt::new] *)
Definition receipt_new (input : RunReceiptInput.t) : result ReceiptError.t RunReceipt.t :=
  patch ← ok_or (metadata input.(RunReceiptInput.patch)) ReceiptError.InvalidPatch;
  let receipt := RunReceipt.mk RUN_RECEIPT_SCHEMA_VERSION
    input.(RunReceiptInput.task_id) input.(RunReceiptInput.run_id)
    input.(RunReceiptInput.node_id) input.(RunReceiptInput.runtime_id)
    input.(RunReceiptInput.runtime_version) input.(RunReceiptInput.started_at)
    input.(RunReceiptInput.finished_at) input.(RunReceiptInput.outcome)
    input.(RunReceiptInput.summary) input.(RunReceiptInput.error) input.(RunReceiptInput.tests)
    patch EmptyString in
  _ ← validate_fields receipt;
  hash ← calculate_content_sha256 receipt;
  Ok (RunReceipt.set_content_sha256 hash receipt).
End Receipts.

(** ** Facts *)

(** Two hashes in hexadecimal are equal only if the hashes are. *)
Lemma hex_digit_inj m n : (m < 16)%N -> (n < 16)%N -> hex_digit m = hex_digit n -> m = n.
Proof.
  intros Hm Hn. unfold hex_digit. intros Heq.
  destruct (N.ltb_spec m 10), (N.ltb_spec n 10); apply (f_equal N_of_ascii) in Heq;
    rewrite !N_ascii_embedding in Heq by lia; lia.
Qed.

Lemma hex_of_bytes_inj s t : hex_of_bytes s = hex_of_bytes t -> s = t.
Proof.
  revert t. induction s as [|a s IH]; intros [|b t]; simpl; try done.
  intros [= Hhi Hlo Hrest]. f_equal; [|by apply IH].
  pose proof (byte_of_bound a) as Ha. pose proof (byte_of_bound b) as Hb.
  rewrite !N.shiftr_div_pow2 in Hhi. change 15%N with (N.ones 4) in Hlo.
  rewrite !N.land_ones in Hlo. change (2 ^ 4)%N with 16%N in *.
  apply hex_digit_inj in Hhi; [|by apply N.Div0.div_lt_upper_bound..].
  apply hex_digit_inj in Hlo; [|by apply N.mod_lt..].
  rewrite <- (ascii_N_embedding a), <- (ascii_N_embedding b). f_equal. fold (byte_of a) (byte_of b).
  rewrite (N.div_mod (byte_of a) 16), (N.div_mod (byte_of b) 16) by done. congruence.
Qed.

Section Facts.
Context `{Sha256, ReceiptJson}.

Lemma verify_ok r :
  verify r = Ok tt <->
  validate_fields r = Ok tt /\ exists bytes,
    receipt_payload_to_vec (receipt_payload r) = Some bytes /\
    r.(RunReceipt.content_sha256) = sha256_hex bytes.
Proof.
  unfold verify, calculate_content_sha256. rewrite result_seq_ok, result_bind_ok.
  setoid_rewrite result_bind_ok. setoid_rewrite ok_or_ok. setoid_rewrite refuse_ok. split.
  - intros (? & hash & (bytes & ? & [= <-]) & Heq). bool_hyps. eauto.
  - intros (? & bytes & ? & ->). split; [done|]. eexists. split; [by eauto|].
    by rewrite str_eqb_refl.
Qed.

(** Sealing changes neither the checked fields nor the payload. *)
Lemma validate_fields_sealed h r :
  validate_fields (RunReceipt.set_content_sha256 h r) = validate_fields r.
Proof. done. Qed.

(** A receipt that was made verifies, and says of the run what it was made
    from, with the metadata of its patch. *)
Theorem receipt_new_verifies input r :
  receipt_new input = Ok r ->
  verify r = Ok tt /\
  r.(RunReceipt.task_id) = input.(RunReceiptInput.task_id) /\
  r.(RunReceipt.run_id) = input.(RunReceiptInput.run_id) /\
  r.(RunReceipt.outcome) = input.(RunReceiptInput.outcome) /\
  r.(RunReceipt.summary) = input.(RunReceiptInput.summary) /\
  r.(RunReceipt.error) = input.(RunReceiptInput.error) /\
  metadata input.(RunReceiptInput.patch) = Some r.(RunReceipt.patch).
Proof.
  unfold receipt_new. rewrite result_bind_ok. intros (patch & Hpatch%ok_or_ok & Hrest).
  cbv zeta in Hrest. rewrite result_seq_ok, result_bind_ok in Hrest.
  destruct Hrest as (Hfields & hash & Hhash & [= <-]).
  split_and!; try done. rewrite verify_ok, validate_fields_sealed. split; [done|].
  unfold calculate_content_sha256 in Hhash. rewrite result_bind_ok in Hhash.
  destruct Hhash as (bytes & Hbytes%ok_or_ok & [= <-]). by exists bytes.
Qed.

(** The seal binds the whole receipt. Two receipts that verify with the same
    content hash are the same receipt, unless their payloads are a collision of SHA-256. *)
Theorem receipt_hash_binds r r' :
  ReceiptJsonLaws -> verify r = Ok tt -> verify r' = Ok tt ->
  r.(RunReceipt.content_sha256) = r'.(RunReceipt.content_sha256) ->
  r = r' \/ exists bytes bytes',
    receipt_payload_to_vec (receipt_payload r) = Some bytes /\
    receipt_payload_to_vec (receipt_payload r') = Some bytes' /\
    bytes <> bytes' /\ sha256_digest bytes = sha256_digest bytes'.
Proof.
  intros Hlaws (_ & bytes & Hb & Hh)%verify_ok (_ & bytes' & Hb' & Hh')%verify_ok Heq.
  destruct (decide (bytes = bytes')) as [->|Hne].
  - left. pose proof (receipt_payload_inj _ _ _ Hb Hb') as Hp.
    destruct r, r'; unfold receipt_payload in Hp; simpl in *. injection Hp. congruence.
  - right. exists bytes, bytes'. split_and!; [done..|]. apply hex_of_bytes_inj.
    unfold sha256_hex in *. congruence.
Qed.
End Facts.
