(* ===== verification/TaskMachine.v ===== *)
(** * The local task state machine (task/types.rs, task/state_machine.rs)

    A task, its runs and the log of what happened to them. Every operation checks before it
    writes, appends one event to a bounded log, and keeps a record that [validate]
    accepts. The log is the abstract machine: replaying it gives the statuses. *)

From S2P Require Import Prelude TaskArtifact TaskReceipt.

Definition MAX_GOAL_BYTES : N := 4 * 1024.
Definition MAX_CONSTRAINTS : nat := 32.
Definition MAX_CONSTRAINT_BYTES : N := 1024.
Definition MAX_CONSTRAINT_TOTAL_BYTES : N := 8 * 1024.
Definition MAX_SUMMARY_BYTES : N := 4 * 1024.
Definition MAX_ERROR_BYTES : N := 2 * 1024.
Definition MAX_EVENTS : nat := 128.
Definition MAX_ID_BYTES : N := 128.

Module TaskSpec.
Record t := mk { goal : string; constraints : list string }.
#[global] Instance eq_dec : EqDecision t.
Proof. solve_decision. Defined.
End TaskSpec.

Module TaskStatus.
Inductive t :=
| Draft | Offered | Accepted | Running | AwaitingReview | Approved | Rejected | Cancelled
| Failed | OutcomeUnknown.
#[global] Instance eq_dec : EqDecision t.
Proof. solve_decision. Defined.
End TaskStatus.

Module RunStatus.
Inductive t :=
| Queued | Running | WaitingApproval | Completed | Cancelled | Failed | OutcomeUnknown.
#[global] Instance eq_dec : EqDecision t.
Proof. solve_decision. Defined.
End RunStatus.

Module RunRecord.
Record t := mk {
  id : string;
  status : RunStatus.t;
  summary : option string;
  error : option string;
  receipt : option RunReceipt.t;
}.
#[global] Instance eq_dec : EqDecision t.
Proof. solve_decision. Defined.
Definition set_receipt (rc : RunReceipt.t) (r : t) : t :=
  mk r.(id) r.(status) r.(summary) r.(error) (Some rc).
End RunRecord.

Module TaskEventKind.
Inductive t :=
| TaskStatusChanged (from to : TaskStatus.t)
| RunRegistered (run_id : string)
| RunStatusChanged (run_id : string) (from to : RunStatus.t).
#[global] Instance eq_dec : EqDecision t.
Proof. solve_decision. Defined.
End TaskEventKind.

Module TaskEvent.
Record t := mk { sequence : N; kind : TaskEventKind.t }.
#[global] Instance eq_dec : EqDecision t.
Proof. solve_decision. Defined.
End TaskEvent.

Module TaskRecord.
Record t := mk {
  id : string;
  spec : TaskSpec.t;
  status : TaskStatus.t;
  summary : option string;
  error : option string;
  runs : list RunRecord.t;
  events : list TaskEvent.t;
}.
#[global] Instance eq_dec : EqDecision t.
Proof. solve_decision. Defined.
Definition set_runs (v : list RunRecord.t) (r : t) : t :=
  mk r.(id) r.(spec) r.(status) r.(summary) r.(error) v r.(events).
Definition set_events (v : list TaskEvent.t) (r : t) : t :=
  mk r.(id) r.(spec) r.(status) r.(summary) r.(error) r.(runs) v.
End TaskRecord.

Module TransitionDetails.
Record t := mk { summary : option string; error : option string }.
Definition default : t := mk None None.
Definition with_error (error : string) : t := mk None (Some error).
End TransitionDetails.

Module StateMachineError.
Inductive t :=
| InvalidTaskId | InvalidRunId | InvalidGoal | GoalTooLong | TooManyConstraints
| InvalidConstraint | ConstraintTooLong | ConstraintsTooLong | SummaryTooLong | ErrorTooLong
| InvalidTaskTransition | InvalidRunTransition | RunRegistrationNotAllowed | DuplicateRun
| UnknownRun | InvalidReceipt | ReceiptConflict | EventLimitReached | TooManyRuns
| InvalidEventSequence.
#[global] Instance eq_dec : EqDecision t.
Proof. solve_decision. Defined.
End StateMachineError.

(** ** Checks *)

Definition validate_id (value : string) (error : StateMachineError.t)
    : result StateMachineError.t unit :=
  refuse (trim_is_empty value || (MAX_ID_BYTES <? len value)%N) error.

Definition validate_spec (spec : TaskSpec.t) : result StateMachineError.t unit :=
  _ ← refuse (trim_is_empty spec.(TaskSpec.goal)) StateMachineError.InvalidGoal;
  _ ← refuse (MAX_GOAL_BYTES <? len spec.(TaskSpec.goal))%N StateMachineError.GoalTooLong;
  _ ← refuse (MAX_CONSTRAINTS <? length spec.(TaskSpec.constraints))
        StateMachineError.TooManyConstraints;
  _ ← for_each (fun constraint =>
        _ ← refuse (trim_is_empty constraint) StateMachineError.InvalidConstraint;
        refuse (MAX_CONSTRAINT_BYTES <? len constraint)%N StateMachineError.ConstraintTooLong)
        spec.(TaskSpec.constraints);
  refuse (MAX_CONSTRAINT_TOTAL_BYTES <? sum_len (fun c => c) spec.(TaskSpec.constraints))%N
    StateMachineError.ConstraintsTooLong.

Definition validate_details (details : TransitionDetails.t) : result StateMachineError.t unit :=
  _ ← refuse (is_some_and (fun summary => MAX_SUMMARY_BYTES <? len summary)%N
                details.(TransitionDetails.summary)) StateMachineError.SummaryTooLong;
  refuse (is_some_and (fun error => MAX_ERROR_BYTES <? len error)%N
            details.(TransitionDetails.error)) StateMachineError.ErrorTooLong.

(** [apply_details]: the new pair of summary and error *)
Definition apply_details (summary error : option string) (details : TransitionDetails.t)
    : option string * option string :=
  (match details.(TransitionDetails.summary) with Some s => Some s | None => summary end,
   match details.(TransitionDetails.error) with Some e => Some e | None => error end).

Definition valid_task_transition (from to : TaskStatus.t) : bool :=
  match from, to with
  | TaskStatus.Draft, (TaskStatus.Offered | TaskStatus.Cancelled) => true
  | TaskStatus.Offered, (TaskStatus.Accepted | TaskStatus.Cancelled) => true
  | TaskStatus.Accepted, (TaskStatus.Running | TaskStatus.Cancelled | TaskStatus.Failed) => true
  | TaskStatus.Running,
      (TaskStatus.AwaitingReview | TaskStatus.Cancelled | TaskStatus.Failed
       | TaskStatus.OutcomeUnknown) => true
  | TaskStatus.AwaitingReview, (TaskStatus.Approved | TaskStatus.Rejected) => true
  | _, _ => false
  end.

Definition valid_run_transition (from to : RunStatus.t) : bool :=
  match from, to with
  | RunStatus.Queued, (RunStatus.Running | RunStatus.Cancelled | RunStatus.Failed) => true
  | RunStatus.Running,
      (RunStatus.WaitingApproval | RunStatus.Completed | RunStatus.Cancelled
       | RunStatus.Failed | RunStatus.OutcomeUnknown) => true
  | RunStatus.WaitingApproval,
      (RunStatus.Running | RunStatus.Completed | RunStatus.Cancelled
       | RunStatus.Failed | RunStatus.OutcomeUnknown) => true
  | _, _ => false
  end.

Section Machine.
Context `{Sha256, ReceiptJson}.

(** The outcome that a receipt of a run in this status must report. *)
Definition expected_outcome (status : RunStatus.t) : option RunReceiptOutcome.t :=
  match status with
  | RunStatus.Completed => Some RunReceiptOutcome.Success
  | RunStatus.Cancelled => Some RunReceiptOutcome.Cancelled
  | RunStatus.Failed => Some RunReceiptOutcome.Failed
  | RunStatus.OutcomeUnknown => Some RunReceiptOutcome.OutcomeUnknown
  | RunStatus.Queued | RunStatus.Running | RunStatus.WaitingApproval => None
  end.

Definition validate_receipt (task_id : string) (run : RunRecord.t) (receipt : RunReceipt.t)
    : result StateMachineError.t unit :=
  match expected_outcome run.(RunRecord.status) with
  | None => Err StateMachineError.InvalidReceipt
  | Some outcome =>
    refuse (negb (str_eqb receipt.(RunReceipt.task_id) task_id)
            || negb (str_eqb receipt.(RunReceipt.run_id) run.(RunRecord.id))
            || negb (bool_decide (receipt.(RunReceipt.outcome) = outcome))
            || negb (bool_decide (receipt.(RunReceipt.summary) = run.(RunRecord.summary)))
            || negb (bool_decide (receipt.(RunReceipt.error) = run.(RunRecord.error)))
            || negb (is_ok (verify receipt))) StateMachineError.InvalidReceipt
  end.

(** One event of [validate]'s loop *)
Definition check_event (entry : nat * TaskEvent.t) : result StateMachineError.t unit :=
  let (index, event) := entry in
  _ ← refuse (negb (event.(TaskEvent.sequence) =? N.of_nat index + 1)%N)
        StateMachineError.InvalidEventSequence;
  match event.(TaskEvent.kind) with
  | TaskEventKind.TaskStatusChanged _ _ => Ok tt
  | TaskEventKind.RunRegistered run_id | TaskEventKind.RunStatusChanged run_id _ _ =>
    validate_id run_id StateMachineError.InvalidRunId
  end.

(** [validate]'s loop over the runs, with the set of ids seen so far *)
Fixpoint check_runs (task_id : string) (run_ids : gset string) (runs : list RunRecord.t)
    : result StateMachineError.t unit :=
  match runs with
  | [] => Ok tt
  | run :: runs =>
    _ ← validate_id run.(RunRecord.id) StateMachineError.InvalidRunId;
    _ ← refuse (bool_decide (run.(RunRecord.id) ∈ run_ids)) StateMachineError.DuplicateRun;
    _ ← validate_details (TransitionDetails.mk run.(RunRecord.summary) run.(RunRecord.error));
    _ ← match run.(RunRecord.receipt) with
        | Some receipt => validate_receipt task_id run receipt
        | None => Ok tt
        end;
    check_runs task_id ({[ run.(RunRecord.id) ]} ∪ run_ids) runs
  end.

(** [TaskRecord::validate] *)
Definition task_validate (r : TaskRecord.t) : result StateMachineError.t unit :=
  _ ← validate_id r.(TaskRecord.id) StateMachineError.InvalidTaskId;
  _ ← validate_spec r.(TaskRecord.spec);
  _ ← validate_details (TransitionDetails.mk r.(TaskRecord.summary) r.(TaskRecord.error));
  _ ← refuse (MAX_EVENTS <? length r.(TaskRecord.runs)) StateMachineError.TooManyRuns;
  _ ← refuse (MAX_EVENTS <? length r.(TaskRecord.events)) StateMachineError.EventLimitReached;
  _ ← for_each check_event (enumerate r.(TaskRecord.events));
  check_runs r.(TaskRecord.id) ∅ r.(TaskRecord.runs).

(** ** Operations *)

Definition TaskM := M TaskRecord.t StateMachineError.t.

(** [TaskRecord::new] *)
Definition task_new (id : string) (spec : TaskSpec.t) : result StateMachineError.t TaskRecord.t :=
  _ ← validate_id id StateMachineError.InvalidTaskId;
  _ ← validate_spec spec;
  Ok (TaskRecord.mk id spec TaskStatus.Draft None None [] []).

Definition ensure_event_capacity : TaskM unit :=
  r ← get;
  reject_if (MAX_EVENTS <=? length r.(TaskRecord.events)) StateMachineError.EventLimitReached.

Definition pushed (kind : TaskEventKind.t) (r : TaskRecord.t) : TaskRecord.t :=
  TaskRecord.set_events
    (r.(TaskRecord.events) ++ [TaskEvent.mk (N.of_nat (length r.(TaskRecord.events)) + 1) kind]) r.

Definition push_event (kind : TaskEventKind.t) : TaskM unit := modify (pushed kind).

(** The assignments of [transition] *)
Definition task_moved (next : TaskStatus.t) (details : TransitionDetails.t) (r : TaskRecord.t)
    : TaskRecord.t :=
  let (summary, error) := apply_details r.(TaskRecord.summary) r.(TaskRecord.error) details in
  TaskRecord.mk r.(TaskRecord.id) r.(TaskRecord.spec) next summary error r.(TaskRecord.runs)
    r.(TaskRecord.events).

Definition transition (next : TaskStatus.t) (details : TransitionDetails.t) : TaskM unit :=
  r ← get;
  let from := r.(TaskRecord.status) in
  _ ← reject_if (negb (valid_task_transition from next)) StateMachineError.InvalidTaskTransition;
  _ ← lift (validate_details details);
  _ ← ensure_event_capacity;
  _ ← modify (task_moved next details);
  push_event (TaskEventKind.TaskStatusChanged from next).

Definition register_run (run_id : string) : TaskM unit :=
  _ ← lift (validate_id run_id StateMachineError.InvalidRunId);
  r ← get;
  _ ← reject_if (negb (bool_decide (r.(TaskRecord.status) = TaskStatus.Accepted)))
        StateMachineError.RunRegistrationNotAllowed;
  _ ← reject_if (existsb (fun run => str_eqb run.(RunRecord.id) run_id) r.(TaskRecord.runs))
        StateMachineError.DuplicateRun;
  _ ← ensure_event_capacity;
  _ ← modify (fun r => TaskRecord.set_runs
        (r.(TaskRecord.runs) ++ [RunRecord.mk run_id RunStatus.Queued None None None]) r);
  push_event (TaskEventKind.RunRegistered run_id).

(** [position] and [find] on the runs: the first one with the id, and where it is *)
Definition find_run (run_id : string) (runs : list RunRecord.t) : option (nat * RunRecord.t) :=
  list_find (fun run => run.(RunRecord.id) = run_id) runs.

(** The assignments of [transition_run] to the run *)
Definition run_moved (next : RunStatus.t) (details : TransitionDetails.t) (run : RunRecord.t)
    : RunRecord.t :=
  let (summary, error) := apply_details run.(RunRecord.summary) run.(RunRecord.error) details in
  RunRecord.mk run.(RunRecord.id) next summary error run.(RunRecord.receipt).

Definition transition_run (run_id : string) (next : RunStatus.t) (details : TransitionDetails.t)
    : TaskM unit :=
  r ← get;
  found ← lift (ok_or (find_run run_id r.(TaskRecord.runs)) StateMachineError.UnknownRun);
  let run_index := found.1 in
  let from := found.2.(RunRecord.status) in
  _ ← reject_if (negb (valid_run_transition from next)) StateMachineError.InvalidRunTransition;
  _ ← lift (validate_details details);
  _ ← ensure_event_capacity;
  _ ← modify (fun r => TaskRecord.set_runs
        (alter (run_moved next details) run_index r.(TaskRecord.runs)) r);
  push_event (TaskEventKind.RunStatusChanged run_id from next).

Definition attach_receipt (run_id : string) (receipt : RunReceipt.t) : TaskM unit :=
  r ← get;
  found ← lift (ok_or (find_run run_id r.(TaskRecord.runs)) StateMachineError.UnknownRun);
  let (run_index, run) := (found : nat * RunRecord.t) in
  _ ← lift (validate_receipt r.(TaskRecord.id) run receipt);
  match run.(RunRecord.receipt) with
  | Some existing =>
    if bool_decide (existing = receipt) then mret tt else throw StateMachineError.ReceiptConflict
  | None => modify (fun r => TaskRecord.set_runs
              (alter (RunRecord.set_receipt receipt) run_index r.(TaskRecord.runs)) r)
  end.
End Machine.

(** ** The abstract machine: a log of events *)

(** The statuses of a task and of its runs. *)
Definition task_view : Type := TaskStatus.t * gmap string RunStatus.t.

Definition replay_event (v : task_view) (kind : TaskEventKind.t) : option task_view :=
  let (status, runs) := v in
  match kind with
  | TaskEventKind.TaskStatusChanged from to =>
    if bool_decide (status = from) && valid_task_transition from to then Some (to, runs) else None
  | TaskEventKind.RunRegistered run_id =>
    if bool_decide (status = TaskStatus.Accepted) && negb (contains_key run_id runs)
    then Some (status, <[ run_id := RunStatus.Queued ]> runs) else None
  | TaskEventKind.RunStatusChanged run_id from to =>
    if bool_decide (runs !! run_id = Some from) && valid_run_transition from to
    then Some (status, <[ run_id := to ]> runs) else None
  end.

(** The log from its beginning: a draft without runs. *)
Definition replay (events : list TaskEvent.t) : option task_view :=
  foldl (fun v event => v ≫= fun v => replay_event v event.(TaskEvent.kind))
    (Some (TaskStatus.Draft, ∅)) events.

Definition run_statuses (runs : list RunRecord.t) : gmap string RunStatus.t :=
  list_to_map ((fun run => (run.(RunRecord.id), run.(RunRecord.status))) <$> runs).

Definition view_of (r : TaskRecord.t) : task_view :=
  (r.(TaskRecord.status), run_statuses r.(TaskRecord.runs)).

Section Steps.
Context `{Sha256, ReceiptJson}.

Inductive task_step (r r' : TaskRecord.t) : Prop :=
| ts_transition next details : transition next details r = (Ok tt, r') -> task_step r r'
| ts_register_run run_id : register_run run_id r = (Ok tt, r') -> task_step r r'
| ts_transition_run run_id next details :
    transition_run run_id next details r = (Ok tt, r') -> task_step r r'
| ts_attach_receipt run_id receipt : attach_receipt run_id receipt r = (Ok tt, r') -> task_step r r'.

Definition task_reachable (r : TaskRecord.t) : Prop :=
  exists id spec r0, task_new id spec = Ok r0 /\ rtc task_step r0 r.
End Steps.

(** ** Facts *)

Lemma enumerate_snoc {A} (l : list A) x : enumerate (l ++ [x]) = enumerate l ++ [(length l, x)].
Proof.
  unfold enumerate. rewrite length_app, seq_app, zip_with_app by (by rewrite length_seq). done.
Qed.

Lemma find_run_split rid runs i run :
  find_run rid runs = Some (i, run) ->
  exists l1 l2, runs = l1 ++ run :: l2 /\ run.(RunRecord.id) = rid /\
    forall f, alter f i runs = l1 ++ f run :: l2.
Proof.
  unfold find_run. intros (Hi & Hid & _)%list_find_Some.
  exists (take i runs), (drop (S i) runs). pose proof (take_drop_middle _ _ _ Hi) as Hsplit.
  split_and!; [done..|]. intros f. rewrite <- Hsplit at 1.
  assert (i = length (take i runs) + 0) as Hlen
    by (apply lookup_lt_Some in Hi; rewrite length_take; lia).
  rewrite Hlen at 1. by rewrite alter_app_r.
Qed.

Lemma run_statuses_app l1 l2 : run_statuses (l1 ++ l2) = run_statuses l1 ∪ run_statuses l2.
Proof. unfold run_statuses. by rewrite fmap_app, list_to_map_app. Qed.

Lemma run_statuses_None runs rid :
  run_statuses runs !! rid = None <-> rid ∉ (RunRecord.id <$> runs).
Proof.
  unfold run_statuses. rewrite <- not_elem_of_list_to_map, <- list_fmap_compose. done.
Qed.

(** Moving one run moves its status in the view. *)
Lemma run_statuses_update l1 run run' l2 :
  NoDup (RunRecord.id <$> l1 ++ run :: l2) -> run'.(RunRecord.id) = run.(RunRecord.id) ->
  run_statuses (l1 ++ run' :: l2) =
    <[ run.(RunRecord.id) := run'.(RunRecord.status) ]> (run_statuses (l1 ++ run :: l2)) /\
  run_statuses (l1 ++ run :: l2) !! run.(RunRecord.id) = Some run.(RunRecord.status).
Proof.
  intros Hnd Hid. rewrite fmap_app, fmap_cons in Hnd.
  apply list.NoDup_app in Hnd as (_ & Hout & _).
  assert (run_statuses l1 !! run.(RunRecord.id) = None) as Hnone.
  { apply run_statuses_None. intros Hin. by apply (Hout _ Hin), elem_of_cons; left. }
  rewrite !run_statuses_app. cbn [run_statuses fmap list_fmap list_to_map]. split.
  - rewrite insert_union_r by done. f_equal. unfold run_statuses. simpl.
    by rewrite Hid, insert_insert_eq.
  - rewrite lookup_union_r by done. unfold run_statuses. simpl. apply lookup_insert_eq.
Qed.

Lemma replay_snoc events event :
  replay (events ++ [event]) = replay events ≫= fun v => replay_event v event.(TaskEvent.kind).
Proof. unfold replay. by rewrite foldl_app. Qed.

Section Facts.
Context `{Sha256, ReceiptJson}.

(** What each operation did when it succeeded. *)
Lemma transition_ok next details r u r' :
  transition next details r = (Ok u, r') ->
  valid_task_transition r.(TaskRecord.status) next = true /\ validate_details details = Ok tt /\
  length r.(TaskRecord.events) < MAX_EVENTS /\
  r' = pushed (TaskEventKind.TaskStatusChanged r.(TaskRecord.status) next) (task_moved next details r).
Proof.
  unfold transition, ensure_event_capacity, push_event. intros Hrun. run_inv Hrun. bool_hyps.
  repeat match goal with a : unit |- _ => destruct a end. by split_and!.
Qed.

Lemma register_run_ok run_id r u r' :
  register_run run_id r = (Ok u, r') ->
  validate_id run_id StateMachineError.InvalidRunId = Ok tt /\
  r.(TaskRecord.status) = TaskStatus.Accepted /\
  (run_id ∉ (RunRecord.id <$> r.(TaskRecord.runs))) /\
  length r.(TaskRecord.events) < MAX_EVENTS /\
  r' = pushed (TaskEventKind.RunRegistered run_id) (TaskRecord.set_runs
         (r.(TaskRecord.runs) ++ [RunRecord.mk run_id RunStatus.Queued None None None]) r).
Proof.
  unfold register_run, ensure_event_capacity, push_event. intros Hrun. run_inv Hrun. bool_hyps.
  repeat match goal with a : unit |- _ => destruct a end. split_and!; try done.
  intros (run & -> & Hin)%list_elem_of_fmap.
  match goal with He : existsb _ _ = false |- _ => apply not_true_iff_false in He; apply He end.
  apply existsb_exists. exists run. rewrite str_eqb_refl. split; [by apply list_elem_of_In|done].
Qed.

Lemma transition_run_ok run_id next details r u r' :
  transition_run run_id next details r = (Ok u, r') ->
  exists l1 run l2, r.(TaskRecord.runs) = l1 ++ run :: l2 /\ run.(RunRecord.id) = run_id /\
    valid_run_transition run.(RunRecord.status) next = true /\ validate_details details = Ok tt /\
    length r.(TaskRecord.events) < MAX_EVENTS /\
    r' = pushed (TaskEventKind.RunStatusChanged run_id run.(RunRecord.status) next)
           (TaskRecord.set_runs (l1 ++ run_moved next details run :: l2) r).
Proof.
  unfold transition_run, ensure_event_capacity, push_event. intros Hrun.
  apply bind_ok_iff in Hrun as (? & ? & [= <- <-] & Hrun).
  apply bind_ok_iff in Hrun as ([i run] & r1 & Hfind & Hrun). run_inv Hfind. bool_hyps.
  simpl in Hrun. run_inv Hrun. bool_hyps. repeat match goal with a : unit |- _ => destruct a end.
  destruct (find_run_split _ _ _ _ Hfind) as (l1 & l2 & Hruns & Hid & Halter).
  exists l1, run, l2. by rewrite Halter.
Qed.

Lemma attach_receipt_ok run_id receipt r u r' :
  attach_receipt run_id receipt r = (Ok u, r') ->
  exists l1 run l2, r.(TaskRecord.runs) = l1 ++ run :: l2 /\ run.(RunRecord.id) = run_id /\
    validate_receipt r.(TaskRecord.id) run receipt = Ok tt /\
    (run.(RunRecord.receipt) = Some receipt /\ r' = r \/
     run.(RunRecord.receipt) = None /\
     r' = TaskRecord.set_runs (l1 ++ RunRecord.set_receipt receipt run :: l2) r).
Proof.
  unfold attach_receipt. intros Hrun.
  apply bind_ok_iff in Hrun as (? & ? & [= <- <-] & Hrun).
  apply bind_ok_iff in Hrun as ([i run] & r1 & Hfind & Hrun). run_inv Hfind. bool_hyps.
  apply bind_ok_iff in Hrun as ([] & ? & Hval & Hrun). run_inv Hval.
  destruct (find_run_split _ _ _ _ Hfind) as (l1 & l2 & Hruns & Hid & Halter).
  exists l1, run, l2. split_and!; try done. destruct (RunRecord.receipt run) as [rc|].
  - left. case_bool_decide; run_inv Hrun. naive_solver.
  - right. run_inv Hrun. by rewrite Halter.
Qed.

(** [check_runs] as a property of each run and of their ids. *)
Definition run_ok (task_id : string) (run : RunRecord.t) : Prop :=
  validate_id run.(RunRecord.id) StateMachineError.InvalidRunId = Ok tt /\
  validate_details (TransitionDetails.mk run.(RunRecord.summary) run.(RunRecord.error)) = Ok tt /\
  forall receipt, run.(RunRecord.receipt) = Some receipt ->
    validate_receipt task_id run receipt = Ok tt.

Lemma check_runs_ok task_id seen runs :
  check_runs task_id seen runs = Ok tt <->
  Forall (run_ok task_id) runs /\ NoDup (RunRecord.id <$> runs) /\
  Forall (fun run => run.(RunRecord.id) ∉ seen) runs.
Proof.
  revert seen. induction runs as [|run runs IH]; intros seen.
  { split; [|done]. intros _. split_and!; constructor. }
  cbn [check_runs fmap list_fmap]. rewrite !result_seq_ok, IH, refuse_ok, bool_decide_eq_false.
  rewrite !list.Forall_cons, list.NoDup_cons. unfold run_ok.
  assert (match run.(RunRecord.receipt) with
          | Some receipt => validate_receipt task_id run receipt | None => Ok tt end = Ok tt <->
          forall receipt, run.(RunRecord.receipt) = Some receipt ->
            validate_receipt task_id run receipt = Ok tt) as -> by (case_match; naive_solver).
  assert (Forall (fun r => r.(RunRecord.id) ∉ ({[ run.(RunRecord.id) ]} ∪ seen : gset string)) runs <->
          (run.(RunRecord.id) ∉ (RunRecord.id <$> runs)) /\
          Forall (fun r => r.(RunRecord.id) ∉ seen) runs) as ->; [|naive_solver].
  rewrite list_elem_of_fmap, !list.Forall_forall. set_solver.
Qed.

(** A record as [validate] accepts it. *)
Definition task_ok (r : TaskRecord.t) : Prop :=
  validate_id r.(TaskRecord.id) StateMachineError.InvalidTaskId = Ok tt /\
  validate_spec r.(TaskRecord.spec) = Ok tt /\
  validate_details (TransitionDetails.mk r.(TaskRecord.summary) r.(TaskRecord.error)) = Ok tt /\
  length r.(TaskRecord.runs) <= MAX_EVENTS /\ length r.(TaskRecord.events) <= MAX_EVENTS /\
  Forall (fun e => check_event e = Ok tt) (enumerate r.(TaskRecord.events)) /\
  Forall (run_ok r.(TaskRecord.id)) r.(TaskRecord.runs) /\
  NoDup (RunRecord.id <$> r.(TaskRecord.runs)).

Lemma task_validate_ok r : task_validate r = Ok tt <-> task_ok r.
Proof.
  unfold task_validate, task_ok.
  rewrite !result_seq_ok, !refuse_ok, for_each_ok, check_runs_ok, !Nat.ltb_ge.
  rewrite (list.Forall_forall (fun run => _ ∉ ∅)). set_solver.
Qed.

(** The invariant of a task: it validates, its log replays to it, and every run it has was
    registered in the log. *)
Record task_inv (r : TaskRecord.t) : Prop := {
  ti_ok : task_ok r;
  ti_log : replay r.(TaskRecord.events) = Some (view_of r);
  ti_runs : length r.(TaskRecord.runs) <= length r.(TaskRecord.events);
}.

Lemma validate_details_applied summary error details :
  validate_details (TransitionDetails.mk summary error) = Ok tt ->
  validate_details details = Ok tt ->
  validate_details (TransitionDetails.mk (apply_details summary error details).1
                      (apply_details summary error details).2) = Ok tt.
Proof.
  unfold validate_details. rewrite !result_seq_ok, !refuse_ok.
  destruct details as [[] []]; simpl; naive_solver.
Qed.

Lemma pushed_events kind r :
  Forall (fun e => check_event e = Ok tt) (enumerate r.(TaskRecord.events)) ->
  match kind with
  | TaskEventKind.TaskStatusChanged _ _ => True
  | TaskEventKind.RunRegistered run_id | TaskEventKind.RunStatusChanged run_id _ _ =>
    validate_id run_id StateMachineError.InvalidRunId = Ok tt
  end ->
  Forall (fun e => check_event e = Ok tt) (enumerate (pushed kind r).(TaskRecord.events)).
Proof.
  intros Hall Hkind. unfold pushed. cbn [TaskRecord.set_events TaskRecord.events].
  rewrite enumerate_snoc. apply Forall_app. split; [done|]. apply list.Forall_singleton.
  unfold check_event. rewrite result_seq_ok, refuse_ok. cbn [TaskEvent.sequence TaskEvent.kind].
  rewrite N.eqb_refl. split; [done|]. by destruct kind.
Qed.

(** A run that can still move has no receipt. *)
Lemma moving_run_has_no_receipt task_id run next :
  run_ok task_id run -> valid_run_transition run.(RunRecord.status) next = true ->
  run.(RunRecord.receipt) = None.
Proof.
  intros (_ & _ & Hrc) Hmove. destruct run.(RunRecord.receipt) as [rc|]; [|done].
  specialize (Hrc rc eq_refl). unfold validate_receipt in Hrc.
  by destruct run.(RunRecord.status), next.
Qed.
(** Appending the event that the view makes. *)
Lemma pushed_replay kind r r1 :
  replay r.(TaskRecord.events) = Some (view_of r) -> r1.(TaskRecord.events) = r.(TaskRecord.events) ->
  replay_event (view_of r) kind = Some (view_of r1) ->
  replay (pushed kind r1).(TaskRecord.events) = Some (view_of (pushed kind r1)).
Proof.
  intros Hlog Hevents Hstep. unfold pushed. cbn [TaskRecord.set_events TaskRecord.events].
  rewrite replay_snoc, Hevents, Hlog. exact Hstep.
Qed.

Lemma transition_inv next details r u r' :
  task_inv r -> transition next details r = (Ok u, r') -> task_inv r'.
Proof.
  intros [(Hid & Hspec & Hdet & Hruns & Hev & Hall & Hrok & Hnd) Hlog Hle] Hrun.
  apply transition_ok in Hrun as (Hmove & Hd & Hcap & ->). split.
  - split_and!; try done.
    + by apply validate_details_applied.
    + simpl. rewrite length_app. simpl. lia.
    + by apply pushed_events.
  - apply (pushed_replay _ r); [done..|]. simpl. by rewrite bool_decide_eq_true_2, Hmove.
  - simpl. rewrite length_app. lia.
Qed.

Lemma register_run_inv run_id r u r' :
  task_inv r -> register_run run_id r = (Ok u, r') -> task_inv r'.
Proof.
  intros [(Hid & Hspec & Hdet & Hruns & Hev & Hall & Hrok & Hnd) Hlog Hle] Hrun.
  apply register_run_ok in Hrun as (Hrid & Hst & Hnew & Hcap & ->). split.
  - split_and!; try done; simpl.
    + rewrite length_app. simpl. lia.
    + rewrite length_app. simpl. lia.
    + by apply pushed_events.
    + apply Forall_app. split; [done|]. by apply list.Forall_singleton.
    + rewrite fmap_app. apply list.NoDup_app. split_and!; [done| |apply NoDup_singleton].
      intros x Hx ->%list_elem_of_singleton. done.
  - apply (pushed_replay _ r); [done..|]. simpl. rewrite bool_decide_eq_true_2 by done.
    apply run_statuses_None in Hnew as Hnone.
    rewrite (proj2 (contains_key_false _ _) Hnone). simpl. unfold view_of. simpl. do 2 f_equal.
    rewrite run_statuses_app. unfold run_statuses at 3. simpl.
    rewrite <- insert_union_r by done. by rewrite map_union_empty.
  - simpl. rewrite !length_app. simpl. lia.
Qed.

Lemma transition_run_inv run_id next details r u r' :
  task_inv r -> transition_run run_id next details r = (Ok u, r') -> task_inv r'.
Proof.
  intros [(Hid & Hspec & Hdet & Hruns & Hev & Hall & Hrok & Hnd) Hlog Hle] Hrun.
  apply transition_run_ok in Hrun as (l1 & run & l2 & Heq & <- & Hmove & Hd & Hcap & ->).
  rewrite Heq in Hruns, Hrok, Hnd, Hle. rewrite length_app in Hruns, Hle.
  apply Forall_app in Hrok as [Hrok1 [Hrok Hrok2]%list.Forall_cons].
  pose proof (moving_run_has_no_receipt _ _ _ Hrok Hmove) as Hnone. split.
  - split_and!; try done; simpl.
    + by rewrite length_app.
    + rewrite length_app. simpl. lia.
    + apply pushed_events; [done|]. apply Hrok.
    + apply Forall_app. split; [done|]. apply list.Forall_cons. split; [|done].
      destruct Hrok as (Hv & Hds & _). split_and!; [done|by apply validate_details_applied|].
      intros rc Hrc. simpl in Hrc. congruence.
    + rewrite fmap_app, fmap_cons in *. done.
  - apply (pushed_replay _ r); [done..|]. simpl. rewrite Heq.
    destruct (run_statuses_update l1 run (run_moved next details run) l2 Hnd) as [Hst Hlook]; [done|].
    rewrite Hlook, bool_decide_eq_true_2, Hmove by done. simpl. unfold view_of. simpl. by rewrite Hst.
  - simpl. rewrite !length_app. simpl in *. lia.
Qed.

Lemma attach_receipt_inv run_id receipt r u r' :
  task_inv r -> attach_receipt run_id receipt r = (Ok u, r') -> task_inv r'.
Proof.
  intros Hinv Hrun.
  apply attach_receipt_ok in Hrun as (l1 & run & l2 & Heq & <- & Hval & [[_ ->]|[Hnone ->]]); [done|].
  destruct Hinv as [(Hid & Hspec & Hdet & Hruns & Hev & Hall & Hrok & Hnd) Hlog Hle].
  rewrite Heq in Hruns, Hrok, Hnd, Hle. rewrite length_app in Hruns, Hle.
  apply Forall_app in Hrok as [Hrok1 [Hrok Hrok2]%list.Forall_cons]. split.
  - split_and!; try done; simpl.
    + by rewrite length_app.
    + apply Forall_app. split; [done|]. apply list.Forall_cons. split; [|done].
      destruct Hrok as (Hv & Hds & _). split_and!; [done..|]. by intros rc [= <-].
    + rewrite fmap_app, fmap_cons in *. done.
  - simpl. rewrite Hlog. unfold view_of. simpl. rewrite Heq. do 2 f_equal.
    destruct (run_statuses_update l1 run (RunRecord.set_receipt receipt run) l2 Hnd)
      as [-> Hlook]; [done|]. by rewrite insert_id.
  - simpl. by rewrite length_app.
Qed.

Lemma task_step_inv r r' : task_inv r -> task_step r r' -> task_inv r'.
Proof.
  intros Hinv [next details Hr|rid Hr|rid next details Hr|rid rc Hr];
    eauto using transition_inv, register_run_inv, transition_run_inv, attach_receipt_inv.
Qed.

Lemma task_new_inv id spec r : task_new id spec = Ok r -> task_inv r.
Proof.
  unfold task_new. rewrite !result_seq_ok. intros (Hid & Hspec & [= <-]).
  split; [|done|done]. split_and!; try done; simpl; try lia; constructor.
Qed.

Lemma task_reachable_inv r : task_reachable r -> task_inv r.
Proof.
  intros (id & spec & r0 & Hnew & Hsteps). apply task_new_inv in Hnew.
  induction Hsteps as [|r0 r1 r2 Hstep _ IH]; [done|]. eauto using task_step_inv.
Qed.

(** Every task that the state machine can build passes its own validation:
    ids, texts and counts within their bounds, no two runs with the same id, event
    numbers without gaps, and every attached receipt in agreement with its run. So
    what is saved is always accepted when it is loaded. *)
Theorem reachable_task_validates r : task_reachable r -> task_validate r = Ok tt.
Proof. intros Hr%task_reachable_inv. apply task_validate_ok, Hr. Qed.

(** The event log is the task's history. Replaying the log of any reachable task
    from an empty draft, accepting only the transitions of the tables, a registration only
    while the task is accepted and of a new id, ends in exactly the task's status and the
    statuses of its runs. *)
Theorem task_log_replays r :
  task_reachable r ->
  replay r.(TaskRecord.events) = Some (r.(TaskRecord.status), run_statuses r.(TaskRecord.runs)).
Proof. intros Hr%task_reachable_inv. apply Hr. Qed.

(** A run other than the one an operation works on stays as it is. *)
Lemma elem_of_middle {A} (x y y' : A) l1 l2 :
  x ∈ l1 ++ y :: l2 -> x <> y -> x ∈ l1 ++ y' :: l2.
Proof. rewrite !elem_of_app, !elem_of_cons. naive_solver. Qed.

(** A receipt closes its run. Once a run carries a receipt, no operation on the
    task changes anything of that run: neither its status, nor its texts, nor the receipt. *)
Theorem receipt_is_final r r' run receipt :
  task_reachable r -> task_step r r' ->
  run ∈ r.(TaskRecord.runs) -> run.(RunRecord.receipt) = Some receipt ->
  run ∈ r'.(TaskRecord.runs).
Proof.
  intros Hr%task_reachable_inv Hstep Hin Hrc. destruct (ti_ok _ Hr) as (_ & _ & _ & _ & _ & _ & Hok & _).
  destruct Hstep as [next d Hrun|rid Hrun|rid next d Hrun|rid rc Hrun].
  - by apply transition_ok in Hrun as (_ & _ & _ & ->).
  - apply register_run_ok in Hrun as (_ & _ & _ & _ & ->). simpl. apply elem_of_app. by left.
  - apply transition_run_ok in Hrun as (l1 & run1 & l2 & Heq & _ & Hmove & _ & _ & ->). simpl.
    rewrite Heq in Hin, Hok. apply (elem_of_middle _ run1); [done|]. intros ->.
    apply Forall_app in Hok as [_ [Hok _]%list.Forall_cons].
    rewrite (moving_run_has_no_receipt _ _ _ Hok Hmove) in Hrc. done.
  - apply attach_receipt_ok in Hrun as (l1 & run1 & l2 & Heq & _ & _ & [[_ ->]|[Hnone ->]]); [done|].
    simpl. rewrite Heq in Hin. apply (elem_of_middle _ run1); [done|]. intros ->. congruence.
Qed.

(** An operation that fails leaves the task as it was. *)
Theorem task_errors_keep r :
  (forall next details e r', transition next details r = (Err e, r') -> r' = r) /\
  (forall run_id e r', register_run run_id r = (Err e, r') -> r' = r) /\
  (forall run_id next details e r',
     transition_run run_id next details r = (Err e, r') -> r' = r) /\
  (forall run_id receipt e r', attach_receipt run_id receipt r = (Err e, r') -> r' = r).
Proof.
  split_and!.
  - intros next d e r' Hrun. unfold transition, ensure_event_capacity, push_event in Hrun.
    err_inv Hrun; done.
  - intros rid e r' Hrun. unfold register_run, ensure_event_capacity, push_event in Hrun.
    err_inv Hrun; done.
  - intros rid next d e r' Hrun. unfold transition_run, ensure_event_capacity, push_event in Hrun.
    err_inv Hrun; done.
  - intros rid rc e r' Hrun. unfold attach_receipt, mbind, M_bind, get, lift, throw, modify in Hrun.
    repeat case_match; simplify_eq/=; done.
Qed.
End Facts.
