(* ===== verification/TaskStore.v ===== *)
(** * The file of local tasks (task/storage.rs)

    The tasks of this device in one JSON document: reading it with quarantine of documents
    that do not parse, the checks on every read and write, and the replacement of the file.
    What the operating system may refuse is an argument of the operation ([Io]). *)

From S2P Require Import Prelude TaskArtifact TaskReceipt TaskMachine.

Definition STORAGE_VERSION : N := 1.
Definition MAX_STORAGE_BYTES : N := 2 * 1024 * 1024.
Definition MAX_STORED_TASKS : nat := 100.
Definition MAX_IDEMPOTENCY_KEY_BYTES : N := 128.
Definition PROJECT_ID_PREFIX : string := "project-v1-".
Definition PROJECT_ID_DIGEST_BYTES : N := 64.

Module StoredRunKey.
Record t := mk { idempotency_key : string; run_id : string }.
#[global] Instance eq_dec : EqDecision t.
Proof. solve_decision. Defined.
End StoredRunKey.

Module StoredTask.
Record t := mk {
  idempotency_key : string;
  project_id : option string;
  record : TaskRecord.t;
  run_keys : list StoredRunKey.t;
}.
#[global] Instance eq_dec : EqDecision t.
Proof. solve_decision. Defined.
Definition set_record (r : TaskRecord.t) (task : t) : t :=
  mk task.(idempotency_key) task.(project_id) r task.(run_keys).
Definition set_run_keys (v : list StoredRunKey.t) (task : t) : t :=
  mk task.(idempotency_key) task.(project_id) task.(record) v.
(** [task.record.id] *)
Definition task_id (task : t) : string := task.(record).(TaskRecord.id).
End StoredTask.

Module StorageDocument.
Record t := mk { version : N; tasks : list StoredTask.t }.
#[global] Instance eq_dec : EqDecision t.
Proof. solve_decision. Defined.
End StorageDocument.

Module TaskStorageError.
Inductive t := Read | UnsupportedVersion | InvalidData | Write.
#[global] Instance eq_dec : EqDecision t.
Proof. solve_decision. Defined.
End TaskStorageError.

(** [serde_json] on the document and on its envelope, which looks at the version only. The
    file holds the document followed by a newline. *)
Class TasksJson := {
  tasks_to_vec_pretty : StorageDocument.t -> option string;
  tasks_envelope_from_slice : string -> option N;
  tasks_from_slice : string -> option StorageDocument.t;
}.
Definition newline : string := String (ascii_of_N 10) EmptyString.
Class TasksJsonLaws `{TasksJson} : Prop := tasks_from_to d bytes :
  tasks_to_vec_pretty d = Some bytes ->
  tasks_envelope_from_slice (bytes +:+ newline) = Some d.(StorageDocument.version) /\
  tasks_from_slice (bytes +:+ newline) = Some d.

(** What the path names: nothing or a file. *)
Definition TaskFile : Type := option string.

(** What the operating system lets one call do: open and read the file, rename a corrupt
    file away, and write, flush and install a complete sibling. *)
Module Io.
Record t := mk { read : bool; quarantine : bool; write : bool }.
Definition fine : t := mk true true true.
End Io.

(** ** Checks *)

Definition normalize_tasks (tasks : list StoredTask.t) : list StoredTask.t :=
  take MAX_STORED_TASKS tasks.

Definition valid_idempotency_key (key : string) : bool :=
  negb (trim_is_empty key) && (len key <=? MAX_IDEMPOTENCY_KEY_BYTES)%N.

Definition valid_project_id (project_id : string) : bool :=
  is_some_and (fun digest => (len digest =? PROJECT_ID_DIGEST_BYTES)%N
                             && bytes_all is_ascii_hexdigit digest)
    (strip_prefix PROJECT_ID_PREFIX project_id).

(** The loop over the run keys of one task *)
Fixpoint check_run_keys (run_ids : gset string) (seen : gset string) (keys : list StoredRunKey.t)
    : result TaskStorageError.t unit :=
  match keys with
  | [] => Ok tt
  | key :: keys =>
    _ ← refuse (negb (valid_idempotency_key key.(StoredRunKey.idempotency_key))
                || bool_decide (key.(StoredRunKey.idempotency_key) ∈ seen)
                || negb (bool_decide (key.(StoredRunKey.run_id) ∈ run_ids)))
          TaskStorageError.InvalidData;
    check_run_keys run_ids ({[ key.(StoredRunKey.idempotency_key) ]} ∪ seen) keys
  end.

Section Store.
Context `{Sha256, ReceiptJson}.

(** The loop over the tasks, with the ids and keys seen so far *)
Fixpoint check_tasks (ids keys : gset string) (tasks : list StoredTask.t)
    : result TaskStorageError.t unit :=
  match tasks with
  | [] => Ok tt
  | task :: tasks =>
    let id := StoredTask.task_id task in
    let key := task.(StoredTask.idempotency_key) in
    _ ← map_err (fun _ => TaskStorageError.InvalidData) (task_validate task.(StoredTask.record));
    _ ← refuse (bool_decide (id ∈ ids)
                || negb (valid_idempotency_key key)
                || is_some_and (fun p => negb (valid_project_id p)) task.(StoredTask.project_id)
                || bool_decide (key ∈ keys)
                || (MAX_EVENTS <? length task.(StoredTask.run_keys)))
          TaskStorageError.InvalidData;
    _ ← check_run_keys (list_to_set (RunRecord.id <$> task.(StoredTask.record).(TaskRecord.runs)))
          ∅ task.(StoredTask.run_keys);
    check_tasks ({[ id ]} ∪ ids) ({[ key ]} ∪ keys) tasks
  end.

Definition validate_tasks (tasks : list StoredTask.t) : result TaskStorageError.t unit :=
  _ ← refuse (MAX_STORED_TASKS <? length tasks) TaskStorageError.InvalidData;
  check_tasks ∅ ∅ tasks.

(** ** Reading and writing *)

Context `{TasksJson}.

Definition StoreM := M TaskFile TaskStorageError.t.

Definition quarantine_and_load_empty (io : Io.t) : StoreM (option StorageDocument.t) :=
  _ ← reject_if (negb io.(Io.quarantine)) TaskStorageError.Read;
  _ ← modify (fun _ => None);
  mret None.

Definition read_document (io : Io.t) : StoreM (option StorageDocument.t) :=
  file ← get;
  _ ← reject_if (negb io.(Io.read)) TaskStorageError.Read;
  match file with
  | None => mret None
  | Some contents =>
    _ ← reject_if (MAX_STORAGE_BYTES <? len contents)%N TaskStorageError.Read;
    match tasks_envelope_from_slice contents with
    | None => quarantine_and_load_empty io
    | Some version =>
      _ ← reject_if (negb (version =? STORAGE_VERSION)%N) TaskStorageError.UnsupportedVersion;
      match tasks_from_slice contents with
      | Some document => mret (Some document)
      | None => quarantine_and_load_empty io
      end
    end
  end.

Definition load (io : Io.t) : StoreM (list StoredTask.t) :=
  document ← read_document io;
  match document with
  | None => mret []
  | Some document =>
    _ ← lift (validate_tasks document.(StorageDocument.tasks));
    mret document.(StorageDocument.tasks)
  end.

Definition save (io : Io.t) (tasks : list StoredTask.t) : StoreM unit :=
  let tasks := normalize_tasks tasks in
  _ ← lift (validate_tasks tasks);
  document ← read_document io;
  _ ← match document with
      | Some document => lift (validate_tasks document.(StorageDocument.tasks))
      | None => mret tt
      end;
  contents ← lift (ok_or (tasks_to_vec_pretty (StorageDocument.mk STORAGE_VERSION tasks))
                     TaskStorageError.Write);
  let contents := contents +:+ newline in
  _ ← reject_if (MAX_STORAGE_BYTES <? len contents)%N TaskStorageError.InvalidData;
  _ ← reject_if (negb io.(Io.write)) TaskStorageError.Write;
  modify (fun _ => Some contents).
End Store.

(** ** What the checks mean *)

Definition run_key_ok (run_ids : gset string) (key : StoredRunKey.t) : Prop :=
  valid_idempotency_key key.(StoredRunKey.idempotency_key) = true /\
  key.(StoredRunKey.run_id) ∈ run_ids.

Lemma check_run_keys_ok run_ids seen keys :
  check_run_keys run_ids seen keys = Ok tt <->
  Forall (run_key_ok run_ids) keys /\ NoDup (StoredRunKey.idempotency_key <$> keys) /\
  Forall (fun key => key.(StoredRunKey.idempotency_key) ∉ seen) keys.
Proof.
  revert seen. induction keys as [|key keys IH]; intros seen.
  { split; [|done]. intros _. split_and!; constructor. }
  cbn [check_run_keys fmap list_fmap]. rewrite result_seq_ok, IH, refuse_ok.
  rewrite !list.Forall_cons, list.NoDup_cons, !orb_false_iff, !negb_false_iff.
  rewrite bool_decide_eq_true, bool_decide_eq_false. unfold run_key_ok at 2.
  assert (Forall (fun k => k.(StoredRunKey.idempotency_key) ∉
                             ({[ key.(StoredRunKey.idempotency_key) ]} ∪ seen : gset string)) keys <->
          (key.(StoredRunKey.idempotency_key) ∉ (StoredRunKey.idempotency_key <$> keys)) /\
          Forall (fun k => k.(StoredRunKey.idempotency_key) ∉ seen) keys) as ->; [|naive_solver].
  rewrite list_elem_of_fmap, !list.Forall_forall. set_solver.
Qed.

Section Meaning.
Context `{Sha256, ReceiptJson}.

Definition run_ids (r : TaskRecord.t) : gset string := list_to_set (RunRecord.id <$> r.(TaskRecord.runs)).

Record entry_ok (task : StoredTask.t) : Prop := {
  eo_record : task_ok task.(StoredTask.record);
  eo_key : valid_idempotency_key task.(StoredTask.idempotency_key) = true;
  eo_project p : task.(StoredTask.project_id) = Some p -> valid_project_id p = true;
  eo_keys_len : length task.(StoredTask.run_keys) <= MAX_EVENTS;
  eo_keys : Forall (run_key_ok (run_ids task.(StoredTask.record))) task.(StoredTask.run_keys);
  eo_keys_nodup : NoDup (StoredRunKey.idempotency_key <$> task.(StoredTask.run_keys));
}.

Lemma entry_ok_checks task :
  entry_ok task <->
  task_validate task.(StoredTask.record) = Ok tt /\
  valid_idempotency_key task.(StoredTask.idempotency_key) = true /\
  is_some_and (fun p => negb (valid_project_id p)) task.(StoredTask.project_id) = false /\
  (MAX_EVENTS <? length task.(StoredTask.run_keys)) = false /\
  check_run_keys (run_ids task.(StoredTask.record)) ∅ task.(StoredTask.run_keys) = Ok tt.
Proof.
  rewrite task_validate_ok, check_run_keys_ok, Nat.ltb_ge.
  rewrite (list.Forall_forall (fun key => _ ∉ ∅)). split.
  - intros []. split_and!; try done.
    destruct task.(StoredTask.project_id) as [p|]; simpl; [|done]. by apply negb_false_iff, eo_project0.
  - intros (? & ? & Hp & ? & ? & ? & _). split; try done. intros p Heq. rewrite Heq in Hp.
    by apply negb_false_iff.
Qed.

Lemma check_tasks_ok ids keys tasks :
  check_tasks ids keys tasks = Ok tt <->
  Forall entry_ok tasks /\
  NoDup (StoredTask.task_id <$> tasks) /\ NoDup (StoredTask.idempotency_key <$> tasks) /\
  Forall (fun task => StoredTask.task_id task ∉ ids) tasks /\
  Forall (fun task => task.(StoredTask.idempotency_key) ∉ keys) tasks.
Proof.
  revert ids keys. induction tasks as [|task tasks IH]; intros ids keys.
  { split; [|done]. intros _. split_and!; constructor. }
  cbn [check_tasks fmap list_fmap]. rewrite !result_seq_ok, IH, refuse_ok.
  rewrite !list.Forall_cons, !list.NoDup_cons, !orb_false_iff, !negb_false_iff, entry_ok_checks.
  rewrite !bool_decide_eq_false.
  assert (map_err (fun _ => TaskStorageError.InvalidData) (task_validate task.(StoredTask.record)) = Ok tt <->
          task_validate task.(StoredTask.record) = Ok tt) as ->
    by (destruct (task_validate _) as [[]|]; naive_solver).
  assert (forall (f : StoredTask.t -> string) (seen : gset string),
    Forall (fun x => f x ∉ {[ f task ]} ∪ seen) tasks <->
    (f task ∉ (f <$> tasks)) /\ Forall (fun x => f x ∉ seen) tasks) as Hsplit.
  { intros f seen. rewrite list_elem_of_fmap, !list.Forall_forall. set_solver. }
  rewrite !Hsplit. fold (run_ids task.(StoredTask.record)). naive_solver.
Qed.

(** A list of tasks as [validate_tasks] accepts it. *)
Record tasks_ok (tasks : list StoredTask.t) : Prop := {
  to_len : length tasks <= MAX_STORED_TASKS;
  to_entries : Forall entry_ok tasks;
  to_ids : NoDup (StoredTask.task_id <$> tasks);
  to_keys : NoDup (StoredTask.idempotency_key <$> tasks);
}.

Lemma validate_tasks_ok tasks : validate_tasks tasks = Ok tt <-> tasks_ok tasks.
Proof.
  unfold validate_tasks. rewrite result_seq_ok, refuse_ok, Nat.ltb_ge, check_tasks_ok.
  rewrite (list.Forall_forall (fun task => StoredTask.task_id task ∉ ∅)).
  rewrite (list.Forall_forall (fun task => StoredTask.idempotency_key task ∉ ∅)).
  split; [|intros []; set_solver]. intros (? & ? & ? & ? & _). by split.
Qed.

(** ** What the file holds *)

Context `{TasksJson}.

(** A load of the file returns these tasks. *)
Definition holds (file : TaskFile) (tasks : list StoredTask.t) : Prop :=
  match file with
  | None => tasks = []
  | Some bytes =>
    (len bytes <= MAX_STORAGE_BYTES)%N /\
    tasks_envelope_from_slice bytes = Some STORAGE_VERSION /\
    (exists version, tasks_from_slice bytes = Some (StorageDocument.mk version tasks)) /\
    tasks_ok tasks
  end.

Lemma holds_ok file tasks : holds file tasks -> tasks_ok tasks.
Proof.
  destruct file; simpl; [naive_solver|]. intros ->. split; try constructor. simpl. lia.
Qed.

Lemma holds_unique file tasks tasks' : holds file tasks -> holds file tasks' -> tasks = tasks'.
Proof. destruct file; simpl; naive_solver congruence. Qed.

(** The document has a size that the store accepts. *)
Definition fits (tasks : list StoredTask.t) : Prop :=
  exists bytes, tasks_to_vec_pretty (StorageDocument.mk STORAGE_VERSION tasks) = Some bytes /\
    (len bytes + 1 <= MAX_STORAGE_BYTES)%N.

Lemma holds_written (Hlaws : TasksJsonLaws) tasks bytes :
  tasks_ok tasks ->
  tasks_to_vec_pretty (StorageDocument.mk STORAGE_VERSION tasks) = Some bytes ->
  (len (bytes +:+ newline) <= MAX_STORAGE_BYTES)%N -> holds (Some (bytes +:+ newline)) tasks.
Proof.
  intros Hok Hto Hlen. destruct (tasks_from_to _ _ Hto) as [Henv Hfrom].
  simpl. split_and!; eauto.
Qed.

(** Reading a file that holds tasks finds them and leaves the file alone. *)
Lemma read_document_holds io file tasks :
  holds file tasks ->
  read_document io file =
    (if io.(Io.read) then
       match file with
       | None => Ok None
       | Some bytes => Ok (tasks_from_slice bytes)
       end
     else Err TaskStorageError.Read, file).
Proof.
  intros Hholds. unfold read_document, get, reject_if, mbind, M_bind.
  destruct io.(Io.read); simpl; [|done]. destruct file as [bytes|]; simpl; [|done].
  destruct Hholds as (Hlen & -> & (version & ->) & _).
  apply N.ltb_ge in Hlen. by rewrite Hlen.
Qed.

Lemma load_holds io file tasks :
  holds file tasks ->
  load io file = (if io.(Io.read) then Ok tasks else Err TaskStorageError.Read, file).
Proof.
  intros Hholds. unfold load, mbind at 1, M_bind. rewrite (read_document_holds _ _ _ Hholds).
  destruct io.(Io.read); [|done]. destruct file as [bytes|]; simpl in *; [|by subst].
  destruct Hholds as (_ & _ & (version & ->) & Hok). simpl.
  apply validate_tasks_ok in Hok. unfold mbind, M_bind, lift. by rewrite Hok.
Qed.

(** A load that succeeds leaves a file that holds what it returned: the file itself, or
    none after a corrupt one was renamed away. *)
Lemma read_document_ok io file doc file' :
  read_document io file = (Ok doc, file') ->
  match doc with
  | Some doc => file' = file /\ exists bytes, file = Some bytes /\
      (len bytes <= MAX_STORAGE_BYTES)%N /\
      tasks_envelope_from_slice bytes = Some STORAGE_VERSION /\ tasks_from_slice bytes = Some doc
  | None => file' = None
  end.
Proof.
  unfold read_document, quarantine_and_load_empty. intros Hrun. run_cases Hrun; try done.
  match goal with Hl : (_ <? _)%N = false |- _ => apply N.ltb_ge in Hl end.
  match goal with Hv : negb _ = false |- _ => apply negb_false_iff, N.eqb_eq in Hv; subst end.
  eauto 8.
Qed.

Lemma read_document_err io file e file' : read_document io file = (Err e, file') -> file' = file.
Proof. unfold read_document, quarantine_and_load_empty. intros Hrun. by run_cases Hrun. Qed.

Lemma load_tasks_ok io file tasks file' :
  load io file = (Ok tasks, file') -> holds file' tasks /\ (file' = file \/ file' = None).
Proof.
  unfold load. intros ([doc|] & f1 & Hread & Hrun)%bind_ok_iff; apply read_document_ok in Hread.
  - destruct Hread as (-> & bytes & -> & Hlen & Henv & Hdoc). run_inv Hrun.
    match goal with a : unit |- _ => destruct a end.
    match goal with Hv : validate_tasks _ = _ |- _ => apply validate_tasks_ok in Hv end.
    split; [|by left]. simpl. split_and!; try done. exists doc.(StorageDocument.version).
    by destruct doc.
  - subst. run_inv Hrun. simpl. eauto.
Qed.

Lemma load_err io file e file' :
  load io file = (Err e, file') -> file' = file.
Proof.
  unfold load. intros Hrun. apply bind_err_iff in Hrun as [Hrun|(doc & f1 & Hread & Hrun)].
  - by eapply read_document_err.
  - apply read_document_ok in Hread. destruct doc as [doc|]; [|run_cases Hrun].
    destruct Hread as [-> _]. by err_inv Hrun.
Qed.

(** A save over a file that holds tasks installs the normalized list or changes nothing,
    and it succeeds exactly when the list is valid, its document fits and the operating
    system does its part. *)
Lemma save_holds (Hlaws : TasksJsonLaws) io file old tasks r file' :
  holds file old -> save io tasks file = (r, file') ->
  (is_ok r = true <-> io.(Io.read) = true /\ io.(Io.write) = true /\
     tasks_ok (normalize_tasks tasks) /\ fits (normalize_tasks tasks)) /\
  (if is_ok r then holds file' (normalize_tasks tasks) else file' = file).
Proof.
  intros Hholds. unfold save, fits. set (next := normalize_tasks tasks). cbn zeta.
  rewrite <- validate_tasks_ok. destruct (validate_tasks next) as [[]|e] eqn:Hval.
  2: { rewrite (bind_err _ _ _ e file) by done. intros. simplify_eq/=. naive_solver. }
  rewrite (bind_ok _ _ _ tt file) by done. apply validate_tasks_ok in Hval.
  pose proof (read_document_holds io _ _ Hholds) as Hread. destruct (Io.read io).
  2: { rewrite (bind_err _ _ _ _ _ Hread). intros. simplify_eq/=. naive_solver. }
  assert (exists doc, read_document io file = (Ok doc, file) /\
    match doc with
    | Some document => lift (validate_tasks document.(StorageDocument.tasks))
    | None => mret tt end file = (Ok tt : result TaskStorageError.t unit, file))
    as (doc & Hdoc & Hcheck).
  { rewrite Hread. destruct file as [bytes|]; simpl in *; [|by exists None].
    destruct Hholds as (_ & _ & (v & ->) & Hold). exists (Some (StorageDocument.mk v old)).
    split; [done|]. unfold lift. simpl. apply validate_tasks_ok in Hold. by rewrite Hold. }
  rewrite (bind_ok _ _ _ _ _ Hdoc), (bind_ok _ _ _ _ _ Hcheck).
  destruct (tasks_to_vec_pretty _) as [bytes|] eqn:Hto.
  2: { rewrite (bind_err _ _ _ TaskStorageError.Write file) by done. intros.
       simplify_eq/=. naive_solver. }
  rewrite (bind_ok _ _ _ bytes file) by done. cbn zeta.
  assert (len (bytes +:+ newline) = (len bytes + 1)%N) as Hlen by apply len_append.
  destruct (N.ltb_spec MAX_STORAGE_BYTES (len (bytes +:+ newline))) as [Hbig|Hsmall].
  { rewrite (bind_err _ _ _ TaskStorageError.InvalidData file) by done. intros.
    simplify_eq/=. naive_solver lia. }
  rewrite (bind_ok _ _ _ tt file) by done. destruct (Io.write io).
  - rewrite (bind_ok _ _ _ tt file) by done. intros [= <- <-]. simpl.
    split; [naive_solver lia|]. by apply holds_written.
  - rewrite (bind_err _ _ _ TaskStorageError.Write file) by done. intros.
    simplify_eq/=. naive_solver.
Qed.
End Meaning.
