(* ===== verification/TaskService.v ===== *)
(** * The local task service (task/service.rs)

    The tasks behind a mutex: a cache of the file, loaded on first use, and the operations
    that create, accept, run and close tasks. Every operation works on a copy of the list,
    saves it and only then replaces the cache. *)

From S2P Require Import Prelude TaskArtifact TaskReceipt TaskMachine TaskStore.

Definition RESTARTED_RUN_ERROR : string :=
  "Rivloom restarted before the local run outcome could be verified.".

Module CreateTaskRequest.
Record t := mk {
  task_id : string; idempotency_key : string; project_id : string; spec : TaskSpec.t }.
End CreateTaskRequest.

Module RegisterRunRequest.
Record t := mk {
  task_id : string; run_id : string; idempotency_key : string; project_id : string }.
End RegisterRunRequest.

Module BeginRunResult.
Inductive t := Started (run : RunRecord.t) | Existing (run : RunRecord.t).
#[global] Instance eq_dec : EqDecision t.
Proof. solve_decision. Defined.
End BeginRunResult.

Module TaskServiceError.
Inductive t :=
| State | Storage | TaskNotFound | InvalidIdempotencyKey | IdempotencyConflict
| InvalidProjectId | StateMachine.
#[global] Instance eq_dec : EqDecision t.
Proof. solve_decision. Defined.
End TaskServiceError.

(** The service and the file it owns. *)
Module Service.
Record t := mk { file : TaskFile; tasks : option (list StoredTask.t) }.
#[global] Instance eq_dec : EqDecision t.
Proof. solve_decision. Defined.
Definition set_file (f : TaskFile) (s : t) : t := mk f s.(tasks).
Definition set_tasks (v : option (list StoredTask.t)) (s : t) : t := mk s.(file) v.
(** [TaskService::new] *)
Definition new (f : TaskFile) : t := mk f None.
End Service.

(** What one call meets: whether the mutex is poisoned, and the operating system during the
    load and during the save. *)
Module TaskEnv.
Record t := mk { lock : bool; load : Io.t; save : Io.t }.
Definition fine : t := mk true Io.fine Io.fine.
End TaskEnv.

(** ** Operations *)

Section Operations.
Context `{Sha256, ReceiptJson, TasksJson}.

Definition ServiceM := M Service.t TaskServiceError.t.

Definition ensure_loaded (env : TaskEnv.t) : ServiceM unit :=
  s ← get;
  match s.(Service.tasks) with
  | Some _ => mret tt
  | None =>
    tasks ← zoom Service.file Service.set_file (fun _ => TaskServiceError.Storage)
              (load env.(TaskEnv.load));
    modify (Service.set_tasks (Some tasks))
  end.

(** The first lines of every operation: the lock, the load, and the cached list. *)
Definition locked_tasks (env : TaskEnv.t) : ServiceM (list StoredTask.t) :=
  _ ← reject_if (negb env.(TaskEnv.lock)) TaskServiceError.State;
  _ ← ensure_loaded env;
  s ← get;
  lift (ok_or s.(Service.tasks) TaskServiceError.State).

(** [self.store.save(&next)?] *)
Definition save_tasks (env : TaskEnv.t) (next : list StoredTask.t) : ServiceM unit :=
  zoom Service.file Service.set_file (fun _ => TaskServiceError.Storage)
    (save env.(TaskEnv.save) next).

(** [*cache = Some(next)] *)
Definition set_cache (next : list StoredTask.t) : ServiceM unit :=
  modify (Service.set_tasks (Some next)).

(** [next[task_index].record.operation(..)?] on the copy, dropped when it fails *)
Definition on_record (m : TaskM unit) (task : StoredTask.t) : result TaskServiceError.t StoredTask.t :=
  match m task.(StoredTask.record) with
  | (Ok _, r) => Ok (StoredTask.set_record r task)
  | (Err _, _) => Err TaskServiceError.StateMachine
  end.

(** [runs.iter().find(|run| run.id == run_id)] *)
Definition run_of (run_id : string) (task : StoredTask.t) : option RunRecord.t :=
  snd <$> find_run run_id task.(StoredTask.record).(TaskRecord.runs).

Definition is_task (task_id : string) (task : StoredTask.t) : Prop :=
  StoredTask.task_id task = task_id.
Definition is_project_task (project_id task_id : string) (task : StoredTask.t) : Prop :=
  task.(StoredTask.project_id) = Some project_id /\ StoredTask.task_id task = task_id.
#[global] Instance is_task_dec task_id task : Decision (is_task task_id task).
Proof. unfold is_task. apply _. Defined.
#[global] Instance is_project_task_dec project_id task_id task :
  Decision (is_project_task project_id task_id task).
Proof. unfold is_project_task. apply _. Defined.

Definition create_task (env : TaskEnv.t) (request : CreateTaskRequest.t) : ServiceM TaskRecord.t :=
  _ ← reject_if (negb (valid_idempotency_key request.(CreateTaskRequest.idempotency_key)))
        TaskServiceError.InvalidIdempotencyKey;
  _ ← reject_if (negb (valid_project_id request.(CreateTaskRequest.project_id)))
        TaskServiceError.InvalidProjectId;
  tasks ← locked_tasks env;
  match list_find (fun task => task.(StoredTask.idempotency_key)
                               = request.(CreateTaskRequest.idempotency_key)) tasks with
  | Some (_, existing) =>
    _ ← reject_if (negb (bool_decide (existing.(StoredTask.project_id)
                                      = Some request.(CreateTaskRequest.project_id))))
          TaskServiceError.IdempotencyConflict;
    mret existing.(StoredTask.record)
  | None =>
    record ← lift (map_err (fun _ => TaskServiceError.StateMachine)
               (task_new request.(CreateTaskRequest.task_id) request.(CreateTaskRequest.spec)));
    let next := normalize_tasks
      (StoredTask.mk request.(CreateTaskRequest.idempotency_key)
         (Some request.(CreateTaskRequest.project_id)) record [] :: tasks) in
    _ ← save_tasks env next;
    _ ← set_cache next;
    mret record
  end.

Definition list_tasks (env : TaskEnv.t) (project_id : string) : ServiceM (list TaskRecord.t) :=
  _ ← reject_if (negb (valid_project_id project_id)) TaskServiceError.InvalidProjectId;
  tasks ← locked_tasks env;
  mret (StoredTask.record <$>
        filter (fun task => task.(StoredTask.project_id) = Some project_id) tasks).

Definition get_task (env : TaskEnv.t) (task_id : string) : ServiceM TaskRecord.t :=
  tasks ← locked_tasks env;
  found ← lift (ok_or (list_find (is_task task_id) tasks) TaskServiceError.TaskNotFound);
  mret (found.2).(StoredTask.record).

Definition get_project_task (env : TaskEnv.t) (project_id task_id : string)
    : ServiceM TaskRecord.t :=
  _ ← reject_if (negb (valid_project_id project_id)) TaskServiceError.InvalidProjectId;
  tasks ← locked_tasks env;
  found ← lift (ok_or (list_find (is_project_task project_id task_id) tasks)
                  TaskServiceError.TaskNotFound);
  mret (found.2).(StoredTask.record).

Definition accept_task (env : TaskEnv.t) (project_id task_id : string) : ServiceM TaskRecord.t :=
  _ ← reject_if (negb (valid_project_id project_id)) TaskServiceError.InvalidProjectId;
  tasks ← locked_tasks env;
  found ← lift (ok_or (list_find (is_project_task project_id task_id) tasks)
                  TaskServiceError.TaskNotFound);
  let (task_index, task) := (found : nat * StoredTask.t) in
  let commit (task : StoredTask.t) :=
    _ ← save_tasks env (<[ task_index := task ]> tasks);
    _ ← set_cache (<[ task_index := task ]> tasks);
    mret task.(StoredTask.record) in
  match task.(StoredTask.record).(TaskRecord.status) with
  | TaskStatus.Draft =>
    task ← lift (on_record (transition TaskStatus.Offered TransitionDetails.default) task);
    task ← lift (on_record (transition TaskStatus.Accepted TransitionDetails.default) task);
    commit task
  | TaskStatus.Offered =>
    task ← lift (on_record (transition TaskStatus.Accepted TransitionDetails.default) task);
    commit task
  | TaskStatus.Accepted | TaskStatus.Running | TaskStatus.AwaitingReview | TaskStatus.Approved
  | TaskStatus.Rejected | TaskStatus.Cancelled | TaskStatus.Failed | TaskStatus.OutcomeUnknown =>
    mret task.(StoredTask.record)
  end.

(** The last lines of the operations on a run: save the copy with its new task, find the run
    in it, and replace the cache. *)
Definition commit_run (env : TaskEnv.t) (tasks : list StoredTask.t) (task_index : nat)
    (task : StoredTask.t) (run_id : string) : ServiceM RunRecord.t :=
  let next := <[ task_index := task ]> tasks in
  _ ← save_tasks env next;
  run ← lift (ok_or (run_of run_id task) TaskServiceError.State);
  _ ← set_cache next;
  mret run.

Definition register_run (env : TaskEnv.t) (request : RegisterRunRequest.t) : ServiceM RunRecord.t :=
  _ ← reject_if (negb (valid_idempotency_key request.(RegisterRunRequest.idempotency_key)))
        TaskServiceError.InvalidIdempotencyKey;
  _ ← reject_if (negb (valid_project_id request.(RegisterRunRequest.project_id)))
        TaskServiceError.InvalidProjectId;
  tasks ← locked_tasks env;
  found ← lift (ok_or (list_find (is_project_task request.(RegisterRunRequest.project_id)
                                    request.(RegisterRunRequest.task_id)) tasks)
                  TaskServiceError.TaskNotFound);
  let (task_index, task) := (found : nat * StoredTask.t) in
  match list_find (fun key => key.(StoredRunKey.idempotency_key)
                              = request.(RegisterRunRequest.idempotency_key))
          task.(StoredTask.run_keys) with
  | Some (_, existing) =>
    lift (ok_or (run_of existing.(StoredRunKey.run_id) task) TaskServiceError.Storage)
  | None =>
    task ← lift (on_record (TaskMachine.register_run request.(RegisterRunRequest.run_id)) task);
    let task := StoredTask.set_run_keys
      (task.(StoredTask.run_keys) ++
       [StoredRunKey.mk request.(RegisterRunRequest.idempotency_key)
          request.(RegisterRunRequest.run_id)]) task in
    commit_run env tasks task_index task request.(RegisterRunRequest.run_id)
  end.

Definition begin_run (env : TaskEnv.t) (task_id run_id : string) : ServiceM BeginRunResult.t :=
  tasks ← locked_tasks env;
  found ← lift (ok_or (list_find (is_task task_id) tasks) TaskServiceError.TaskNotFound);
  let (task_index, task) := (found : nat * StoredTask.t) in
  run ← lift (ok_or (run_of run_id task) TaskServiceError.StateMachine);
  if negb (bool_decide (run.(RunRecord.status) = RunStatus.Queued))
  then mret (BeginRunResult.Existing run) else
  _ ← reject_if (negb (bool_decide (task.(StoredTask.record).(TaskRecord.status)
                                    = TaskStatus.Accepted))) TaskServiceError.StateMachine;
  task ← lift (on_record (transition TaskStatus.Running TransitionDetails.default) task);
  task ← lift (on_record
           (TaskMachine.transition_run run_id RunStatus.Running TransitionDetails.default) task);
  run ← commit_run env tasks task_index task run_id;
  mret (BeginRunResult.Started run).

Definition transition_run (env : TaskEnv.t) (task_id run_id : string) (status : RunStatus.t)
    : ServiceM RunRecord.t :=
  tasks ← locked_tasks env;
  found ← lift (ok_or (list_find (is_task task_id) tasks) TaskServiceError.TaskNotFound);
  let (task_index, task) := (found : nat * StoredTask.t) in
  current ← lift (ok_or (run_of run_id task) TaskServiceError.StateMachine);
  if bool_decide (current.(RunRecord.status) = status) then mret current else
  task ← lift (on_record
           (TaskMachine.transition_run run_id status TransitionDetails.default) task);
  commit_run env tasks task_index task run_id.

(** The statuses that a receipt's outcome gives to its run and its task *)
Definition outcome_statuses (outcome : RunReceiptOutcome.t) : RunStatus.t * TaskStatus.t :=
  match outcome with
  | RunReceiptOutcome.Success => (RunStatus.Completed, TaskStatus.AwaitingReview)
  | RunReceiptOutcome.Failed => (RunStatus.Failed, TaskStatus.Failed)
  | RunReceiptOutcome.Cancelled => (RunStatus.Cancelled, TaskStatus.Cancelled)
  | RunReceiptOutcome.OutcomeUnknown => (RunStatus.OutcomeUnknown, TaskStatus.OutcomeUnknown)
  end.

Definition finalize_run (env : TaskEnv.t) (receipt : RunReceipt.t) : ServiceM RunRecord.t :=
  _ ← lift (map_err (fun _ => TaskServiceError.StateMachine) (verify receipt));
  tasks ← locked_tasks env;
  found ← lift (ok_or (list_find (is_task receipt.(RunReceipt.task_id)) tasks)
                  TaskServiceError.TaskNotFound);
  let (task_index, task) := (found : nat * StoredTask.t) in
  let run_id := receipt.(RunReceipt.run_id) in
  run ← lift (ok_or (run_of run_id task) TaskServiceError.StateMachine);
  match run.(RunRecord.receipt) with
  | Some existing =>
    if bool_decide (existing = receipt) then mret run else throw TaskServiceError.StateMachine
  | None =>
    let (run_status, task_status) := outcome_statuses receipt.(RunReceipt.outcome) in
    let details := TransitionDetails.mk receipt.(RunReceipt.summary) receipt.(RunReceipt.error) in
    task ← lift (on_record (TaskMachine.transition_run run_id run_status details) task);
    task ← lift (on_record (attach_receipt run_id receipt) task);
    task ← lift (on_record (transition task_status details) task);
    commit_run env tasks task_index task run_id
  end.

(** [for run_id in active_run_ids] *)
Fixpoint abandon_all (run_ids : list string) (task : StoredTask.t)
    : result TaskServiceError.t StoredTask.t :=
  match run_ids with
  | [] => Ok task
  | run_id :: run_ids =>
    task ← on_record (TaskMachine.transition_run run_id RunStatus.OutcomeUnknown
                        (TransitionDetails.with_error RESTARTED_RUN_ERROR)) task;
    abandon_all run_ids task
  end.

Definition run_active (run : RunRecord.t) : bool :=
  match run.(RunRecord.status) with
  | RunStatus.Running | RunStatus.WaitingApproval => true
  | _ => false
  end.

(** [for task in &mut next], with the records pushed to [reconciled] *)
Fixpoint reconcile_tasks (tasks : list StoredTask.t)
    : result TaskServiceError.t (list StoredTask.t * list TaskRecord.t) :=
  match tasks with
  | [] => Ok ([], [])
  | task :: tasks =>
    if negb (bool_decide (task.(StoredTask.record).(TaskRecord.status) = TaskStatus.Running))
    then rest ← reconcile_tasks tasks; Ok (task :: rest.1, rest.2)
    else
      let active_run_ids := RunRecord.id <$>
        List.filter run_active task.(StoredTask.record).(TaskRecord.runs) in
      task ← abandon_all active_run_ids task;
      task ← on_record (transition TaskStatus.OutcomeUnknown
                          (TransitionDetails.with_error RESTARTED_RUN_ERROR)) task;
      rest ← reconcile_tasks tasks;
      Ok (task :: rest.1, task.(StoredTask.record) :: rest.2)
  end.

Definition reconcile_incomplete_runs (env : TaskEnv.t) : ServiceM (list TaskRecord.t) :=
  tasks ← locked_tasks env;
  outcome ← lift (reconcile_tasks tasks);
  let (next, reconciled) := (outcome : list StoredTask.t * list TaskRecord.t) in
  match reconciled with
  | [] => mret reconciled
  | _ :: _ =>
    _ ← save_tasks env next;
    _ ← set_cache next;
    mret reconciled
  end.

Definition abandon_run (env : TaskEnv.t) (task_id run_id error : string) : ServiceM RunRecord.t :=
  tasks ← locked_tasks env;
  found ← lift (ok_or (list_find (is_task task_id) tasks) TaskServiceError.TaskNotFound);
  let (task_index, task) := (found : nat * StoredTask.t) in
  let details := TransitionDetails.with_error error in
  task ← lift (on_record
           (TaskMachine.transition_run run_id RunStatus.OutcomeUnknown details) task);
  task ← lift (on_record (transition TaskStatus.OutcomeUnknown details) task);
  commit_run env tasks task_index task run_id.
End Operations.
