(* ===== verification/TaskPlan.v ===== *)
(** * The task service as a machine on lists of tasks

    What the service promises, without its file, its cache and its lock: a call is a
    function from the stored tasks to an error, or to an answer and possibly a new list.
    The service refines it: whatever the mutex and the operating system do, a call that
    answers did what the function says, and a call that fails kept the stored tasks. *)

From S2P Require Import Prelude TaskArtifact TaskReceipt TaskMachine TaskStore TaskService.

(** A call of the service, and what it answers. *)
Module Call.
Inductive t :=
| CreateTask (request : CreateTaskRequest.t)
| ListTasks (project_id : string)
| GetTask (task_id : string)
| GetProjectTask (project_id task_id : string)
| AcceptTask (project_id task_id : string)
| RegisterRun (request : RegisterRunRequest.t)
| BeginRun (task_id run_id : string)
| TransitionRun (task_id run_id : string) (status : RunStatus.t)
| FinalizeRun (receipt : RunReceipt.t)
| ReconcileIncompleteRuns
| AbandonRun (task_id run_id error : string).
End Call.

Module Answer.
Inductive t :=
| Task (record : TaskRecord.t)
| Tasks (records : list TaskRecord.t)
| Run (run : RunRecord.t)
| Begin (result : BeginRunResult.t).
#[global] Instance eq_dec : EqDecision t.
Proof. solve_decision. Defined.
End Answer.

Section Plan.
Context `{Sha256, ReceiptJson}.

Abbreviation Planned := (result TaskServiceError.t (option (list StoredTask.t) * Answer.t)).

Definition answered (a : Answer.t) : Planned := Ok (None, a).

(** The task at an index is replaced; the answer is one of its runs. *)
Definition planned_run (tasks : list StoredTask.t) (i : nat) (task : StoredTask.t)
    (run_id : string) (answer : RunRecord.t -> Answer.t) : Planned :=
  run ← ok_or (run_of run_id task) TaskServiceError.State;
  Ok (Some (<[ i := task ]> tasks), answer run).

Definition find_task (P : StoredTask.t -> Prop) `{forall task, Decision (P task)}
    (tasks : list StoredTask.t) : result TaskServiceError.t (nat * StoredTask.t) :=
  ok_or (list_find P tasks) TaskServiceError.TaskNotFound.

(** What is refused before the tasks are looked at *)
Definition guard (call : Call.t) : result TaskServiceError.t unit :=
  match call with
  | Call.CreateTask request =>
    _ ← refuse (negb (valid_idempotency_key request.(CreateTaskRequest.idempotency_key)))
          TaskServiceError.InvalidIdempotencyKey;
    refuse (negb (valid_project_id request.(CreateTaskRequest.project_id)))
      TaskServiceError.InvalidProjectId
  | Call.ListTasks project_id | Call.GetProjectTask project_id _ | Call.AcceptTask project_id _ =>
    refuse (negb (valid_project_id project_id)) TaskServiceError.InvalidProjectId
  | Call.RegisterRun request =>
    _ ← refuse (negb (valid_idempotency_key request.(RegisterRunRequest.idempotency_key)))
          TaskServiceError.InvalidIdempotencyKey;
    refuse (negb (valid_project_id request.(RegisterRunRequest.project_id)))
      TaskServiceError.InvalidProjectId
  | Call.FinalizeRun receipt =>
    map_err (fun _ => TaskServiceError.StateMachine) (verify receipt)
  | Call.GetTask _ | Call.BeginRun _ _ | Call.TransitionRun _ _ _ | Call.ReconcileIncompleteRuns
  | Call.AbandonRun _ _ _ => Ok tt
  end.

Definition accepted (task : StoredTask.t) : result TaskServiceError.t (option StoredTask.t) :=
  match task.(StoredTask.record).(TaskRecord.status) with
  | TaskStatus.Draft =>
    task ← on_record (transition TaskStatus.Offered TransitionDetails.default) task;
    task ← on_record (transition TaskStatus.Accepted TransitionDetails.default) task;
    Ok (Some task)
  | TaskStatus.Offered =>
    task ← on_record (transition TaskStatus.Accepted TransitionDetails.default) task;
    Ok (Some task)
  | _ => Ok None
  end.

Definition begun (run_id : string) (task : StoredTask.t) : result TaskServiceError.t StoredTask.t :=
  task ← on_record (transition TaskStatus.Running TransitionDetails.default) task;
  on_record (TaskMachine.transition_run run_id RunStatus.Running TransitionDetails.default) task.

Definition finalized (receipt : RunReceipt.t) (task : StoredTask.t)
    : result TaskServiceError.t StoredTask.t :=
  let statuses := outcome_statuses receipt.(RunReceipt.outcome) in
  let details := TransitionDetails.mk receipt.(RunReceipt.summary) receipt.(RunReceipt.error) in
  task ← on_record (TaskMachine.transition_run receipt.(RunReceipt.run_id) statuses.1 details) task;
  task ← on_record (attach_receipt receipt.(RunReceipt.run_id) receipt) task;
  on_record (transition statuses.2 details) task.

Definition abandoned (run_id error : string) (task : StoredTask.t)
    : result TaskServiceError.t StoredTask.t :=
  let details := TransitionDetails.with_error error in
  task ← on_record (TaskMachine.transition_run run_id RunStatus.OutcomeUnknown details) task;
  on_record (transition TaskStatus.OutcomeUnknown details) task.

Definition registered (request : RegisterRunRequest.t) (task : StoredTask.t)
    : result TaskServiceError.t StoredTask.t :=
  task ← on_record (TaskMachine.register_run request.(RegisterRunRequest.run_id)) task;
  Ok (StoredTask.set_run_keys
        (task.(StoredTask.run_keys) ++
         [StoredRunKey.mk request.(RegisterRunRequest.idempotency_key)
            request.(RegisterRunRequest.run_id)]) task).

Definition plan (call : Call.t) (tasks : list StoredTask.t) : Planned :=
  match call with
  | Call.CreateTask request =>
    match list_find (fun task => task.(StoredTask.idempotency_key)
                                 = request.(CreateTaskRequest.idempotency_key)) tasks with
    | Some (_, existing) =>
      if bool_decide (existing.(StoredTask.project_id) = Some request.(CreateTaskRequest.project_id))
      then answered (Answer.Task existing.(StoredTask.record))
      else Err TaskServiceError.IdempotencyConflict
    | None =>
      record ← map_err (fun _ => TaskServiceError.StateMachine)
                 (task_new request.(CreateTaskRequest.task_id) request.(CreateTaskRequest.spec));
      Ok (Some (normalize_tasks
            (StoredTask.mk request.(CreateTaskRequest.idempotency_key)
               (Some request.(CreateTaskRequest.project_id)) record [] :: tasks)),
          Answer.Task record)
    end
  | Call.ListTasks project_id =>
    answered (Answer.Tasks (StoredTask.record <$>
      filter (fun task => task.(StoredTask.project_id) = Some project_id) tasks))
  | Call.GetTask task_id =>
    found ← find_task (is_task task_id) tasks;
    answered (Answer.Task (found.2).(StoredTask.record))
  | Call.GetProjectTask project_id task_id =>
    found ← find_task (is_project_task project_id task_id) tasks;
    answered (Answer.Task (found.2).(StoredTask.record))
  | Call.AcceptTask project_id task_id =>
    found ← find_task (is_project_task project_id task_id) tasks;
    changed ← accepted found.2;
    match changed with
    | Some task => Ok (Some (<[ found.1 := task ]> tasks), Answer.Task task.(StoredTask.record))
    | None => answered (Answer.Task (found.2).(StoredTask.record))
    end
  | Call.RegisterRun request =>
    found ← find_task (is_project_task request.(RegisterRunRequest.project_id)
                         request.(RegisterRunRequest.task_id)) tasks;
    match list_find (fun key => key.(StoredRunKey.idempotency_key)
                                = request.(RegisterRunRequest.idempotency_key))
            (found.2).(StoredTask.run_keys) with
    | Some (_, existing) =>
      run ← ok_or (run_of existing.(StoredRunKey.run_id) found.2) TaskServiceError.Storage;
      answered (Answer.Run run)
    | None =>
      task ← registered request found.2;
      planned_run tasks found.1 task request.(RegisterRunRequest.run_id) Answer.Run
    end
  | Call.BeginRun task_id run_id =>
    found ← find_task (is_task task_id) tasks;
    run ← ok_or (run_of run_id found.2) TaskServiceError.StateMachine;
    if negb (bool_decide (run.(RunRecord.status) = RunStatus.Queued))
    then answered (Answer.Begin (BeginRunResult.Existing run)) else
    _ ← refuse (negb (bool_decide ((found.2).(StoredTask.record).(TaskRecord.status)
                                   = TaskStatus.Accepted))) TaskServiceError.StateMachine;
    task ← begun run_id found.2;
    planned_run tasks found.1 task run_id (fun run => Answer.Begin (BeginRunResult.Started run))
  | Call.TransitionRun task_id run_id status =>
    found ← find_task (is_task task_id) tasks;
    current ← ok_or (run_of run_id found.2) TaskServiceError.StateMachine;
    if bool_decide (current.(RunRecord.status) = status) then answered (Answer.Run current) else
    task ← on_record (TaskMachine.transition_run run_id status TransitionDetails.default) found.2;
    planned_run tasks found.1 task run_id Answer.Run
  | Call.FinalizeRun receipt =>
    found ← find_task (is_task receipt.(RunReceipt.task_id)) tasks;
    run ← ok_or (run_of receipt.(RunReceipt.run_id) found.2) TaskServiceError.StateMachine;
    match run.(RunRecord.receipt) with
    | Some existing =>
      if bool_decide (existing = receipt) then answered (Answer.Run run)
      else Err TaskServiceError.StateMachine
    | None =>
      task ← finalized receipt found.2;
      planned_run tasks found.1 task receipt.(RunReceipt.run_id) Answer.Run
    end
  | Call.ReconcileIncompleteRuns =>
    outcome ← reconcile_tasks tasks;
    match outcome.2 with
    | [] => answered (Answer.Tasks [])
    | _ :: _ => Ok (Some outcome.1, Answer.Tasks outcome.2)
    end
  | Call.AbandonRun task_id run_id error =>
    found ← find_task (is_task task_id) tasks;
    task ← abandoned run_id error found.2;
    planned_run tasks found.1 task run_id Answer.Run
  end.

(** What the service promises of a call on the stored tasks *)
Definition spec (call : Call.t) (tasks : list StoredTask.t) : Planned :=
  _ ← guard call;
  plan call tasks.

(** ** The service's calls *)

Context `{TasksJson}.

Definition answer_with {A} (f : A -> Answer.t) (m : ServiceM A) : ServiceM Answer.t :=
  a ← m; mret (f a).

Definition serve (env : TaskEnv.t) (call : Call.t) : ServiceM Answer.t :=
  match call with
  | Call.CreateTask request => answer_with Answer.Task (create_task env request)
  | Call.ListTasks project_id => answer_with Answer.Tasks (list_tasks env project_id)
  | Call.GetTask task_id => answer_with Answer.Task (get_task env task_id)
  | Call.GetProjectTask project_id task_id =>
    answer_with Answer.Task (get_project_task env project_id task_id)
  | Call.AcceptTask project_id task_id => answer_with Answer.Task (accept_task env project_id task_id)
  | Call.RegisterRun request => answer_with Answer.Run (register_run env request)
  | Call.BeginRun task_id run_id => answer_with Answer.Begin (begin_run env task_id run_id)
  | Call.TransitionRun task_id run_id status =>
    answer_with Answer.Run (transition_run env task_id run_id status)
  | Call.FinalizeRun receipt => answer_with Answer.Run (finalize_run env receipt)
  | Call.ReconcileIncompleteRuns => answer_with Answer.Tasks (reconcile_incomplete_runs env)
  | Call.AbandonRun task_id run_id error =>
    answer_with Answer.Run (abandon_run env task_id run_id error)
  end.

(** The guard, the lock and the load, the plan, and the save with the new cache. *)
Definition run_plan (env : TaskEnv.t) (call : Call.t) : ServiceM Answer.t :=
  _ ← lift (guard call);
  tasks ← locked_tasks env;
  planned ← lift (plan call tasks);
  _ ← match planned.1 with
      | Some next => _ ← save_tasks env next; set_cache next
      | None => mret tt
      end;
  mret planned.2.
End Plan.

(** ** The operations follow their plans *)

Section Follows.
Context `{Sha256, ReceiptJson}.

Definition ids (task : StoredTask.t) : list string :=
  RunRecord.id <$> task.(StoredTask.record).(TaskRecord.runs).

Lemma run_of_Some run_id task : is_Some (run_of run_id task) <-> run_id ∈ ids task.
Proof.
  unfold run_of, find_run, ids. rewrite fmap_is_Some, list_elem_of_fmap. split.
  - intros [[i run] (Hi & <- & _)%list_find_Some]. exists run. split; [done|].
    by eapply list_elem_of_lookup_2.
  - intros (run & -> & Hin). by eapply list_find_elem_of.
Qed.

(** A step on the record of a stored task *)
Lemma on_record_ok m task task' :
  on_record m task = Ok task' ->
  exists u r', m task.(StoredTask.record) = (Ok u, r') /\ task' = StoredTask.set_record r' task.
Proof. unfold on_record. destruct (m _) as [[]]; naive_solver. Qed.

Lemma transition_ids next details task task' :
  on_record (transition next details) task = Ok task' -> ids task' = ids task.
Proof.
  by intros (u & r' & (_ & _ & _ & ->)%transition_ok & ->)%on_record_ok.
Qed.

Lemma transition_run_ids run_id next details task task' :
  on_record (TaskMachine.transition_run run_id next details) task = Ok task' ->
  ids task' = ids task /\ run_id ∈ ids task.
Proof.
  intros (u & r' & (l1 & run & l2 & Hruns & <- & _ & _ & _ & ->)%transition_run_ok & ->)%on_record_ok.
  unfold ids. simpl. rewrite Hruns, !fmap_app, !fmap_cons. split; [done|]. set_solver.
Qed.

Lemma attach_receipt_ids run_id receipt task task' :
  on_record (attach_receipt run_id receipt) task = Ok task' -> ids task' = ids task.
Proof.
  intros (u & r' & (l1 & run & l2 & Hruns & _ & _ & [[_ ->]|[_ ->]])%attach_receipt_ok
          & ->)%on_record_ok; unfold ids; simpl; [done|]. by rewrite Hruns, !fmap_app, !fmap_cons.
Qed.

Lemma register_run_ids run_id task task' :
  on_record (TaskMachine.register_run run_id) task = Ok task' -> ids task' = ids task ++ [run_id].
Proof.
  intros (u & r' & (_ & _ & _ & _ & ->)%register_run_ok & ->)%on_record_ok.
  unfold ids. simpl. by rewrite fmap_app.
Qed.

Context `{TasksJson}.

Lemma run_missing run_id task (e e' : TaskServiceError.t) :
  ok_or (run_of run_id task) e = Err e' -> run_id ∉ ids task.
Proof. intros Hnone [run Hsome]%run_of_Some. by rewrite Hsome in Hnone. Qed.

(** Closes the goals in which the run of a committed task is missing. *)
Ltac run_is_there :=
  exfalso;
  match goal with Hnone : ok_or (run_of _ _) TaskServiceError.State = Err _ |- _ =>
    apply run_missing in Hnone; apply Hnone end;
  repeat match goal with
  | Ht : on_record (transition _ _) _ = Ok _ |- _ => apply transition_ids in Ht
  | Ht : on_record (TaskMachine.transition_run _ _ _) _ = Ok _ |- _ =>
    apply transition_run_ids in Ht as [Ht ?]
  | Ht : on_record (attach_receipt _ _) _ = Ok _ |- _ => apply attach_receipt_ids in Ht
  end; congruence.

(** Runs both programs through the same cases. *)
Ltac same_cases :=
  unfold answer_with, run_plan, guard, plan, find_task, answered, planned_run, commit_run, set_cache,
    begun, finalized, abandoned, accepted, registered, reject_if, refuse, get, modify, lift, throw,
    mbind, M_bind, result_bind, mret, M_ret;
  repeat (case_match; simplify_eq/=); try done.

Lemma create_task_follows env request s :
  answer_with Answer.Task (create_task env request) s = run_plan env (Call.CreateTask request) s.
Proof. unfold create_task. same_cases. Qed.

Lemma accept_task_follows env project_id task_id s :
  answer_with Answer.Task (accept_task env project_id task_id) s =
  run_plan env (Call.AcceptTask project_id task_id) s.
Proof. unfold accept_task. same_cases. Qed.

Lemma register_run_follows env request s :
  answer_with Answer.Run (register_run env request) s = run_plan env (Call.RegisterRun request) s.
Proof.
  unfold register_run. same_cases; try congruence; exfalso;
  match goal with
  | Hreg : on_record (TaskMachine.register_run _) _ = Ok _,
    Hnone : ok_or (run_of _ _) TaskServiceError.State = Err _ |- _ =>
    apply run_missing in Hnone; apply register_run_ids in Hreg; apply Hnone;
    unfold ids in *; simpl; rewrite Hreg; set_solver
  end.
Qed.

Lemma begin_run_follows env task_id run_id s :
  answer_with Answer.Begin (begin_run env task_id run_id) s =
  run_plan env (Call.BeginRun task_id run_id) s.
Proof. unfold begin_run. same_cases; run_is_there. Qed.

Lemma transition_run_follows env task_id run_id status s :
  answer_with Answer.Run (transition_run env task_id run_id status) s =
  run_plan env (Call.TransitionRun task_id run_id status) s.
Proof. unfold transition_run. same_cases; run_is_there. Qed.

Lemma finalize_run_follows env receipt s :
  answer_with Answer.Run (finalize_run env receipt) s = run_plan env (Call.FinalizeRun receipt) s.
Proof. unfold finalize_run. same_cases; run_is_there. Qed.

Lemma reconcile_follows env s :
  answer_with Answer.Tasks (reconcile_incomplete_runs env) s =
  run_plan env Call.ReconcileIncompleteRuns s.
Proof. unfold reconcile_incomplete_runs. same_cases. Qed.

Lemma abandon_run_follows env task_id run_id error s :
  answer_with Answer.Run (abandon_run env task_id run_id error) s =
  run_plan env (Call.AbandonRun task_id run_id error) s.
Proof. unfold abandon_run. same_cases; run_is_there. Qed.

Lemma serve_follows env call s : serve env call s = run_plan env call s.
Proof.
  destruct call; unfold serve;
    auto using create_task_follows, accept_task_follows, register_run_follows, begin_run_follows,
      transition_run_follows, finalize_run_follows, reconcile_follows, abandon_run_follows.
  - unfold list_tasks. same_cases.
  - unfold get_task. same_cases.
  - unfold get_project_task. same_cases.
Qed.
End Follows.
