(* ===== verification/TaskThm.v ===== *)
(** * The task service keeps its promises

    The refinement of the abstract machine of TaskPlan by the service with its file and
    cache, and what follows for the tasks: creation and registration happen once, a run is
    started at most once, a receipt closes its run, a restart leaves nothing running. *)

From S2P Require Import Prelude TaskArtifact TaskReceipt TaskMachine TaskStore TaskService TaskPlan.

Section Refinement.
Context `{Sha256, ReceiptJson, TasksJson}.

(** What a service that starts now would read *)
Definition loads (file : TaskFile) (tasks : list StoredTask.t) : Prop :=
  exists file', load Io.fine file = (Ok tasks, file').

(** The service over these stored tasks: its cache is empty or in step with the file. *)
Record coherent (s : Service.t) (tasks : list StoredTask.t) : Prop := {
  co_loads : loads s.(Service.file) tasks;
  co_cache : s.(Service.tasks) = None \/
             s.(Service.tasks) = Some tasks /\ holds s.(Service.file) tasks;
}.

(** The operating system fails the call somewhere. *)
Definition io_fault (env : TaskEnv.t) : Prop :=
  env.(TaskEnv.load).(Io.read) = false \/ env.(TaskEnv.load).(Io.quarantine) = false \/
  env.(TaskEnv.save).(Io.read) = false \/ env.(TaskEnv.save).(Io.write) = false.

(** The store accepts the list. *)
Definition storable (tasks : list StoredTask.t) : Prop := tasks_ok tasks /\ fits tasks.

Lemma holds_loads file tasks : holds file tasks -> loads file tasks.
Proof. intros Hholds. exists file. by rewrite (load_holds _ _ _ Hholds). Qed.

Lemma loads_ok file tasks : loads file tasks -> tasks_ok tasks.
Proof. intros (file' & [Hholds _]%load_tasks_ok). by eapply holds_ok. Qed.

(** A load under any conditions returns what an undisturbed load returns, or it fails
    because of the operating system and leaves the file. *)
Lemma load_disturbed io file tasks r file' :
  loads file tasks -> load io file = (r, file') ->
  match r with
  | Ok tasks' => tasks' = tasks /\ holds file' tasks
  | Err _ => file' = file /\ (io.(Io.read) = false \/ io.(Io.quarantine) = false)
  end.
Proof.
  intros (file1 & Hfine) Hload. destruct r as [tasks'|e].
  - apply load_tasks_ok in Hload as Hok. destruct Hok as [Hholds _].
    enough (tasks' = tasks) as -> by done. clear Hholds.
    unfold load, read_document, quarantine_and_load_empty in *.
    run_cases Hfine; run_cases Hload; congruence.
  - split; [by eapply load_err|].
    destruct (Io.read io) eqn:Hr; [|by left]. destruct (Io.quarantine io) eqn:Hq; [|by right].
    exfalso. unfold load, read_document, quarantine_and_load_empty in *. rewrite Hr, Hq in Hload.
    run_cases Hfine; run_cases Hload; congruence.
Qed.

Lemma locked_tasks_coherent env s tasks r s' :
  coherent s tasks -> locked_tasks env s = (r, s') ->
  coherent s' tasks /\
  match r with
  | Ok tasks' => tasks' = tasks /\ s'.(Service.tasks) = Some tasks /\ holds s'.(Service.file) tasks
  | Err e => e = TaskServiceError.State /\ env.(TaskEnv.lock) = false \/
             e = TaskServiceError.Storage /\ io_fault env
  end.
Proof.
  intros [Hloads Hcache] Hrun. unfold locked_tasks in Hrun.
  destruct env.(TaskEnv.lock) eqn:Hlock.
  2: { unfold reject_if, throw, mbind, M_bind in Hrun. simplify_eq/=. split; [by split|]. by left. }
  rewrite (bind_ok _ _ _ tt s) in Hrun by done.
  destruct s as [file cache]; simpl in *. unfold ensure_loaded in Hrun.
  destruct Hcache as [->|[-> Hholds]].
  2: { unfold mbind, M_bind, get, mret, M_ret, lift in Hrun. simplify_eq/=.
       split; [split; [done|by right]|done]. }
  unfold mbind, M_bind, get, zoom, modify, lift in Hrun. simpl in Hrun.
  destruct (load (TaskEnv.load env) file) as [rl file1] eqn:Hload.
  pose proof (load_disturbed _ _ _ _ _ Hloads Hload) as Hd. destruct rl as [tasks1|e]; simplify_eq/=.
  - destruct Hd as [-> Hholds]. split; [|done]. split; simpl; [by apply holds_loads|by right].
  - destruct Hd as [-> Hio]. split; [split; [done|by left]|]. right. split; [done|].
    unfold io_fault. naive_solver.
Qed.

(** ** What a plan does to the list *)

(** One stored task before and after: the same task and runs, moved by steps of the state
    machine. *)
Record moved (task task' : StoredTask.t) : Prop := {
  mv_key : task'.(StoredTask.idempotency_key) = task.(StoredTask.idempotency_key);
  mv_project : task'.(StoredTask.project_id) = task.(StoredTask.project_id);
  mv_keys : task'.(StoredTask.run_keys) = task.(StoredTask.run_keys);
  mv_id : StoredTask.task_id task' = StoredTask.task_id task;
  mv_ids : ids task' = ids task;
  mv_steps : rtc task_step task.(StoredTask.record) task'.(StoredTask.record);
}.

#[local] Instance moved_preorder : PreOrder moved.
Proof.
  split.
  - intros task. by split.
  - intros t1 t2 t3 [] []. split; try congruence. by etrans.
Qed.

Lemma moved_trans t1 t2 t3 : moved t1 t2 -> moved t2 t3 -> moved t1 t3.
Proof. apply moved_preorder. Qed.

Lemma moved_step m task task' :
  on_record m task = Ok task' -> ids task' = ids task ->
  (forall r u r', m r = (Ok u, r') -> task_step r r' /\ r'.(TaskRecord.id) = r.(TaskRecord.id)) ->
  moved task task'.
Proof.
  intros (u & r' & Hm & ->)%on_record_ok Hids Hstep. destruct (Hstep _ _ _ Hm) as [Hs Hid].
  split; try done. by apply rtc_once.
Qed.

Lemma transition_moved next details task task' :
  on_record (transition next details) task = Ok task' -> moved task task'.
Proof.
  intros Hrun. apply transition_ids in Hrun as Hids. eapply moved_step; [done..|].
  intros r [] r' Hr. split; [by eapply ts_transition|]. by apply transition_ok in Hr as (_ & _ & _ & ->).
Qed.

Lemma transition_run_moved run_id next details task task' :
  on_record (TaskMachine.transition_run run_id next details) task = Ok task' -> moved task task'.
Proof.
  intros Hrun. apply transition_run_ids in Hrun as Hids. eapply moved_step; [done|apply Hids|].
  intros r [] r' Hr. split; [by eapply ts_transition_run|].
  by apply transition_run_ok in Hr as (? & ? & ? & _ & _ & _ & _ & _ & ->).
Qed.

Lemma attach_receipt_moved run_id receipt task task' :
  on_record (attach_receipt run_id receipt) task = Ok task' -> moved task task'.
Proof.
  intros Hrun. apply attach_receipt_ids in Hrun as Hids. eapply moved_step; [done..|].
  intros r [] r' Hr. split; [by eapply ts_attach_receipt|].
  by apply attach_receipt_ok in Hr as (? & ? & ? & _ & _ & _ & [[_ ->]|[_ ->]]).
Qed.

(** Proves [moved] along a chain of steps. *)
Ltac moves :=
  repeat match goal with
  | Ht : on_record (transition _ _) _ = Ok _ |- _ => apply transition_moved in Ht
  | Ht : on_record (TaskMachine.transition_run _ _ _) _ = Ok _ |- _ =>
    apply transition_run_moved in Ht
  | Ht : on_record (attach_receipt _ _) _ = Ok _ |- _ => apply attach_receipt_moved in Ht
  end; eauto using moved_trans.

Lemma accepted_moved task task' : accepted task = Ok (Some task') -> moved task task'.
Proof. unfold accepted. intros Hrun. case_match; result_inv Hrun; moves. Qed.

Lemma begun_moved run_id task task' : begun run_id task = Ok task' -> moved task task'.
Proof. unfold begun. intros Hrun. result_inv Hrun. moves. Qed.

Lemma finalized_moved receipt task task' : finalized receipt task = Ok task' -> moved task task'.
Proof. unfold finalized. intros Hrun. result_inv Hrun. moves. Qed.

Lemma abandoned_moved run_id error task task' :
  abandoned run_id error task = Ok task' -> moved task task'.
Proof. unfold abandoned. intros Hrun. result_inv Hrun. moves. Qed.

Lemma abandon_all_moved run_ids task task' : abandon_all run_ids task = Ok task' -> moved task task'.
Proof.
  revert task. induction run_ids as [|rid run_ids IH]; simpl; intros task Hrun; [by simplify_eq|].
  result_inv Hrun. apply IH in Hrun. moves.
Qed.

Lemma reconcile_tasks_moved tasks next records :
  reconcile_tasks tasks = Ok (next, records) -> Forall2 moved tasks next.
Proof.
  revert next records. induction tasks as [|task tasks IH]; simpl; intros next records Hrun;
    [simplify_eq; constructor|].
  case_match; result_inv Hrun; constructor.
  - reflexivity.
  - destruct x. by eapply IH.
  - match goal with Ha : abandon_all _ _ = _ |- _ => apply abandon_all_moved in Ha end. moves.
  - match goal with Hr : reconcile_tasks _ = Ok ?x |- _ => destruct x; by eapply IH end.
Qed.

(** Every plan that stores a list creates a task at its head, registers a run in one of its
    tasks, or moves tasks. *)
Inductive effect (call : Call.t) (tasks next : list StoredTask.t) : Prop :=
| ef_created request record :
    call = Call.CreateTask request ->
    task_new request.(CreateTaskRequest.task_id) request.(CreateTaskRequest.spec) = Ok record ->
    (request.(CreateTaskRequest.idempotency_key) ∉ (StoredTask.idempotency_key <$> tasks)) ->
    next = normalize_tasks
      (StoredTask.mk request.(CreateTaskRequest.idempotency_key)
         (Some request.(CreateTaskRequest.project_id)) record [] :: tasks) ->
    effect call tasks next
| ef_registered request i task task' :
    call = Call.RegisterRun request ->
    tasks !! i = Some task -> registered request task = Ok task' ->
    next = <[ i := task' ]> tasks -> effect call tasks next
| ef_moved : Forall2 moved tasks next -> effect call tasks next.

Lemma moved_at tasks i task task' :
  tasks !! i = Some task -> moved task task' -> Forall2 moved tasks (<[ i := task' ]> tasks).
Proof.
  intros Hi Hm. apply Forall2_same_length_lookup. rewrite length_insert. split; [done|].
  intros j x y Hx Hy. apply list_lookup_insert_Some in Hy as [(<- & <- & _)|[Hne Hy]]; simplify_eq.
  - done.
  - reflexivity.
Qed.

Lemma find_task_ok (P : StoredTask.t -> Prop) `{forall task, Decision (P task)} tasks found :
  find_task P tasks = Ok found -> tasks !! found.1 = Some found.2 /\ P found.2.
Proof.
  unfold find_task. destruct found as [i task].
  rewrite ok_or_ok. intros (Hi & HP & _)%list_find_Some. done.
Qed.

Lemma planned_run_ok tasks i task run_id answer next a :
  planned_run tasks i task run_id answer = Ok (Some next, a) -> next = <[ i := task ]> tasks.
Proof. unfold planned_run. intros Hrun. by result_inv Hrun. Qed.

Lemma plan_effect call tasks next a : plan call tasks = Ok (Some next, a) -> effect call tasks next.
Proof.
  intros Hplan. destruct call; simpl in Hplan; unfold answered in Hplan; result_inv Hplan;
    repeat match goal with
    | Hf : find_task _ _ = Ok _ |- _ => apply find_task_ok in Hf as [Hf ?]
    end.
  - destruct (list_find _ _) as [[]|] eqn:Hnone; [case_match; simplify_eq|]. result_inv Hplan.
    destruct (task_new _ _) as [record|] eqn:Hnew; simplify_eq/=.
    eapply ef_created; [done..| |done]. intros (task & Hkey & Hin)%list_elem_of_fmap.
    apply list_find_None in Hnone. rewrite list.Forall_forall in Hnone. by eapply Hnone.
  - case_match; simplify_eq. eapply ef_moved, moved_at; [done|]. by apply accepted_moved.
  - destruct (list_find _ _) as [[]|]; result_inv Hplan.
    apply planned_run_ok in Hplan. by eapply ef_registered.
  - case_match; [done|]. result_inv Hplan. apply planned_run_ok in Hplan as ->.
    eapply ef_moved, moved_at; [done|]. by eapply begun_moved.
  - case_match; [done|]. result_inv Hplan. apply planned_run_ok in Hplan as ->.
    eapply ef_moved, moved_at; [done|]. by eapply transition_run_moved.
  - case_match; [by case_match|]. result_inv Hplan. apply planned_run_ok in Hplan as ->.
    eapply ef_moved, moved_at; [done|]. by eapply finalized_moved.
  - destruct x as [nx rs]. case_match; simplify_eq/=. eapply ef_moved, reconcile_tasks_moved; done.
  - apply planned_run_ok in Hplan as ->. eapply ef_moved, moved_at; [done|].
    by eapply abandoned_moved.
Qed.

(** A plan never makes the list longer than the store keeps. *)
Lemma plan_length call tasks next a :
  plan call tasks = Ok (Some next, a) -> length tasks <= MAX_STORED_TASKS ->
  normalize_tasks next = next.
Proof.
  intros [request record _ _ _ ->|? i task task' _ _ _ ->|Hmoved]%plan_effect Hlen;
    unfold normalize_tasks.
  - by rewrite take_take, Nat.min_id.
  - apply take_ge. by rewrite length_insert.
  - apply take_ge. by rewrite <- (list.Forall2_length _ _ _ Hmoved).
Qed.

(** The plan's run, case by case *)
Lemma run_plan_eq env call s :
  run_plan env call s =
  match guard call with
  | Err e => (Err e, s)
  | Ok _ =>
    match locked_tasks env s with
    | (Err e, s1) => (Err e, s1)
    | (Ok tasks, s1) =>
      match plan call tasks with
      | Err e => (Err e, s1)
      | Ok (None, a) => (Ok a, s1)
      | Ok (Some next, a) =>
        match save env.(TaskEnv.save) next s1.(Service.file) with
        | (Ok _, file) => (Ok a, Service.mk file (Some next))
        | (Err _, file) => (Err TaskServiceError.Storage, Service.set_file file s1)
        end
      end
    end
  end.
Proof.
  unfold run_plan, save_tasks, set_cache, zoom, modify, lift, mbind, M_bind, mret, M_ret.
  repeat (case_match; simplify_eq/=); done.
Qed.

(** A result of a call on the stored tasks, and the tasks stored after it, that the abstract
    machine permits *)
Definition permitted (env : TaskEnv.t) (call : Call.t) (tasks : list StoredTask.t)
    (r : result TaskServiceError.t Answer.t) (tasks' : list StoredTask.t) : Prop :=
  match r with
  | Ok a => exists stored, spec call tasks = Ok (stored, a) /\ tasks' = default tasks stored
  | Err e => tasks' = tasks /\
    (spec call tasks = Err e \/
     e = TaskServiceError.State /\ env.(TaskEnv.lock) = false \/
     e = TaskServiceError.Storage /\
       (io_fault env \/
        exists next a, spec call tasks = Ok (Some next, a) /\ ~ storable next))
  end.

Lemma serve_refines (Hlaws : TasksJsonLaws) env call s tasks r s' :
  coherent s tasks -> serve env call s = (r, s') ->
  exists tasks', coherent s' tasks' /\ permitted env call tasks r tasks'.
Proof.
  intros Hco. rewrite serve_follows, run_plan_eq. unfold permitted, spec.
  destruct (guard call) as [[]|e]; [|intros [= <- <-]; by eauto].
  change ((Ok () : result TaskServiceError.t unit) ≫= fun _ => plan call tasks) with (plan call tasks).
  destruct (locked_tasks env s) as [rt s1] eqn:Hlocked.
  destruct (locked_tasks_coherent _ _ _ _ _ Hco Hlocked) as [Hco1 Hrt].
  destruct rt as [tasks1|e]; [|intros [= <- <-]; exists tasks; naive_solver].
  destruct Hrt as (-> & Hcache & Hholds).
  destruct (plan call tasks) as [[[next|] a]|e] eqn:Hplan;
    [|intros [= <- <-]; exists tasks; split; [done|]; by exists None
     |intros [= <- <-]; exists tasks; naive_solver].
  pose proof (plan_length _ _ _ _ Hplan (to_len _ (holds_ok _ _ Hholds))) as Hnorm.
  destruct (save (TaskEnv.save env) next s1.(Service.file)) as [rs file'] eqn:Hsave.
  destruct (save_holds Hlaws _ _ _ _ _ _ Hholds Hsave) as [Hiff Hfile]. rewrite Hnorm in *.
  destruct rs as [[]|e0]; simpl in Hfile, Hiff; intros [= <- <-].
  - exists next. split; [|by exists (Some next)]. split; simpl; [by apply holds_loads|by right].
  - subst file'. exists tasks. split; [by destruct s1|]. split; [done|]. right. right. split; [done|].
    destruct (Io.read (TaskEnv.save env)) eqn:Hr; [|unfold io_fault; naive_solver].
    destruct (Io.write (TaskEnv.save env)) eqn:Hw; [|unfold io_fault; naive_solver].
    right. exists next, a. split; [done|]. intros [Hok Hfits].
    enough (false = true) by done. by apply Hiff.
Qed.

Lemma permitted_step env call tasks r tasks' :
  permitted env call tasks r tasks' ->
  tasks' = tasks \/ exists a, r = Ok a /\ plan call tasks = Ok (Some tasks', a).
Proof.
  intros Hr. destruct r as [a|e]; [|left; apply Hr].
  destruct Hr as ([next|] & Hspec & ->); [right|by left]. exists a. split; [done|].
  unfold spec in Hspec. destruct (guard call); [done|discriminate].
Qed.

(** C4: the task service refines its abstract machine. A call that answers did to the
    stored tasks what the machine says and gives the machine's answer; a call that fails
    left the stored tasks as they were, and it failed because the machine refuses the call,
    because the mutex is poisoned, because the operating system failed, or because the new
    list is one the store does not take. The cache never disagrees with the file. *)
Theorem service_refines (Hlaws : TasksJsonLaws) env call s tasks r s' :
  coherent s tasks -> serve env call s = (r, s') ->
  exists tasks', coherent s' tasks' /\ permitted env call tasks r tasks'.
Proof. by apply serve_refines. Qed.
End Refinement.

(** ** Histories

    Calls in any order, each with its own faults, and restarts of the process in between. *)

Section Histories.
Context `{Sha256, ReceiptJson, TasksJson}.

Inductive Action := Do (env : TaskEnv.t) (call : Call.t) | Restart.

Definition act (action : Action) (s : Service.t)
    : option (Call.t * result TaskServiceError.t Answer.t) * Service.t :=
  match action with
  | Do env call => let (r, s') := serve env call s in (Some (call, r), s')
  | Restart => (None, Service.new s.(Service.file))
  end.

Fixpoint after (actions : list Action) (s : Service.t) : Service.t :=
  match actions with
  | [] => s
  | action :: actions => after actions (act action s).2
  end.

(** An invariant of the stored tasks that every plan keeps holds after every history of
    calls that satisfy a condition. *)
Lemma after_invariant (Hlaws : TasksJsonLaws) (P : list StoredTask.t -> Prop) (Q : Call.t -> Prop) :
  (forall call tasks next a, Q call -> tasks_ok tasks -> P tasks ->
     plan call tasks = Ok (Some next, a) -> tasks_ok next -> P next) ->
  forall actions s tasks,
    coherent s tasks -> P tasks ->
    Forall (fun action => match action with Do _ call => Q call | Restart => True end) actions ->
    exists tasks', coherent (after actions s) tasks' /\ P tasks'.
Proof.
  intros Hkeep actions. induction actions as [|action actions IH]; intros s tasks Hco HP Hall; [eauto|].
  apply list.Forall_cons in Hall as [Hq Hall]. simpl. destruct action as [env call|]; simpl.
  - destruct (serve env call s) as [r s1] eqn:Hserve.
    destruct (serve_refines Hlaws _ _ _ _ _ _ Hco Hserve) as (tasks1 & Hco1 & Heff%permitted_step).
    apply (IH s1 tasks1); [done| |done]. destruct Heff as [->|(a & _ & Hplan)]; [done|].
    eapply Hkeep; [done| |done..|]; [apply (loads_ok _ _ (co_loads _ _ Hco))
                                    |apply (loads_ok _ _ (co_loads _ _ Hco1))].
  - apply (IH _ tasks); [|done..]. destruct Hco. by split; [|left].
Qed.

Lemma NoDup_fmap_unique {A B} (f : A -> B) (l : list A) x y :
  NoDup (f <$> l) -> x ∈ l -> y ∈ l -> f x = f y -> x = y.
Proof.
  intros Hnd [i Hi]%list_elem_of_lookup [j Hj]%list_elem_of_lookup Heq.
  assert (i = j) as <-; [|congruence]. eapply (NoDup_lookup (f <$> l)); [done|..];
    rewrite list_lookup_fmap; [by rewrite Hi|by rewrite Hj, Heq].
Qed.

(** *** Every stored task is one the state machine built *)

(** Registered keys name runs, one each; no more keys than runs. *)
Definition keys_named (task : StoredTask.t) : Prop :=
  length task.(StoredTask.run_keys) <= length (ids task) /\
  Forall (fun key => key.(StoredRunKey.run_id) ∈ ids task) task.(StoredTask.run_keys).

Definition built (task : StoredTask.t) : Prop :=
  task_reachable task.(StoredTask.record) /\ keys_named task.

Lemma task_reachable_steps r r' : task_reachable r -> rtc task_step r r' -> task_reachable r'.
Proof. intros (id & spec & r0 & Hnew & Hr) Hsteps. exists id, spec, r0. split; [done|]. by etrans. Qed.

Lemma moved_built task task' : moved task task' -> built task -> built task'.
Proof.
  intros [] [Hr [Hlen Hnamed]]. split; [by eapply task_reachable_steps|]. split; by rewrite mv_keys0, mv_ids0.
Qed.

Lemma registered_ok request task task' :
  registered request task = Ok task' ->
  task_step task.(StoredTask.record) task'.(StoredTask.record) /\
  StoredTask.task_id task' = StoredTask.task_id task /\
  task'.(StoredTask.idempotency_key) = task.(StoredTask.idempotency_key) /\
  task'.(StoredTask.project_id) = task.(StoredTask.project_id) /\
  ids task' = ids task ++ [request.(RegisterRunRequest.run_id)] /\
  task'.(StoredTask.run_keys) = task.(StoredTask.run_keys) ++
    [StoredRunKey.mk request.(RegisterRunRequest.idempotency_key) request.(RegisterRunRequest.run_id)].
Proof.
  unfold registered. intros Hrun. apply result_bind_ok in Hrun as (task1 & Hreg & [= <-]).
  apply register_run_ids in Hreg as Hids. apply on_record_ok in Hreg as ([] & r' & Hreg & ->).
  split_and!; [by eapply ts_register_run| |done..].
  by apply register_run_ok in Hreg as (_ & _ & _ & _ & ->).
Qed.

Lemma registered_built request task task' :
  registered request task = Ok task' -> built task -> built task'.
Proof.
  intros (Hstep & _ & _ & _ & Hids & Hkeys)%registered_ok [Hr [Hlen Hnamed]]. split.
  - eapply task_reachable_steps; [done|]. by apply rtc_once.
  - split; rewrite Hids, Hkeys.
    + rewrite !length_app. simpl. lia.
    + apply Forall_app. split; [|apply list.Forall_singleton; set_solver].
      eapply list.Forall_impl; [exact Hnamed|]. set_solver.
Qed.

Lemma Forall_moved (P : StoredTask.t -> Prop) tasks next :
  (forall task task', moved task task' -> P task -> P task') ->
  Forall2 moved tasks next -> Forall P tasks -> Forall P next.
Proof.
  intros Hkeep. induction 1 as [|task task' tasks next Hm _ IH]; [done|].
  intros [HP HPs]%list.Forall_cons. constructor; eauto.
Qed.

Lemma plan_built call tasks next a :
  Forall built tasks -> plan call tasks = Ok (Some next, a) -> Forall built next.
Proof.
  intros Hb [request record _ Hnew _ ->|? i task task' _ Hi Hreg ->|Hm]%plan_effect.
  - apply Forall_take. constructor; [|done]. split; [|split; [simpl; lia|constructor]].
    exists request.(CreateTaskRequest.task_id), request.(CreateTaskRequest.spec), record.
    split; [done|]. constructor.
  - apply Forall_insert; [done|]. eapply registered_built; [done|].
    rewrite list.Forall_forall in Hb. by eapply Hb, list_elem_of_lookup_2.
  - eapply Forall_moved; [apply moved_built|done..].
Qed.

(** From a device without a task file, after any history of calls, restarts and faults,
    the service can be opened on its file, and every stored task is one that the task state
    machine built, so its log replays to it; the list has at most 100 tasks with distinct ids
    and keys. *)
Theorem stored_tasks_reachable (Hlaws : TasksJsonLaws) actions :
  exists tasks, loads (after actions (Service.new None)).(Service.file) tasks /\
    tasks_ok tasks /\
    Forall (fun task => task_reachable task.(StoredTask.record)) tasks /\
    Forall (fun task => replay task.(StoredTask.record).(TaskRecord.events)
                        = Some (view_of task.(StoredTask.record))) tasks.
Proof.
  destruct (after_invariant Hlaws (Forall built) (fun _ => True)) with (actions := actions)
    (s := Service.new None) (tasks := @nil StoredTask.t) as (tasks & [Hloads _] & Hbuilt).
  - intros call tasks next a _ _ Hb Hplan _. by eapply plan_built.
  - split; [by exists None|by left].
  - constructor.
  - apply list.Forall_forall. by intros [].
  - exists tasks. split_and!; [done|by eapply loads_ok|..]; eapply list.Forall_impl; try done.
    + by intros task [].
    + intros task [Hr%task_reachable_inv _]. apply Hr.
Qed.

(** *** A run is started at most once *)

(** The run has left the queue. *)
Definition past_queue (run_id : string) (r : TaskRecord.t) : Prop :=
  NoDup (RunRecord.id <$> r.(TaskRecord.runs)) /\
  exists run, run ∈ r.(TaskRecord.runs) /\ run.(RunRecord.id) = run_id /\
    run.(RunRecord.status) <> RunStatus.Queued.

Lemma past_queue_replaced run_id r l1 run run' l2 :
  r.(TaskRecord.runs) = l1 ++ run :: l2 -> run'.(RunRecord.id) = run.(RunRecord.id) ->
  (run.(RunRecord.status) <> RunStatus.Queued -> run'.(RunRecord.status) <> RunStatus.Queued) ->
  past_queue run_id r -> past_queue run_id (TaskRecord.set_runs (l1 ++ run' :: l2) r).
Proof.
  intros Hruns Hid Hst (Hnd & run1 & Hin & Hid1 & Hq). unfold past_queue. simpl.
  rewrite Hruns, fmap_app, fmap_cons in Hnd. rewrite fmap_app, fmap_cons, Hid. split; [done|].
  rewrite Hruns in Hin. apply elem_of_app in Hin as [Hin|[->|Hin]%elem_of_cons].
  - exists run1. set_solver.
  - exists run'. rewrite Hid. split; [set_solver|]. auto.
  - exists run1. set_solver.
Qed.

Lemma task_step_past_queue run_id r r' :
  task_step r r' -> past_queue run_id r -> past_queue run_id r'.
Proof.
  intros [next d Hr|rid Hr|rid next d Hr|rid rc Hr] Hpast.
  - by apply transition_ok in Hr as (_ & _ & _ & ->).
  - apply register_run_ok in Hr as (_ & _ & Hnew & _ & ->).
    destruct Hpast as (Hnd & run & Hin & Hid & Hq). split; simpl.
    + rewrite fmap_app. apply list.NoDup_app. split_and!; [done| |apply NoDup_singleton].
      intros x Hx ->%list_elem_of_singleton. done.
    + exists run. set_solver.
  - apply transition_run_ok in Hr as (l1 & run & l2 & Hruns & _ & Hmove & _ & _ & ->).
    apply (past_queue_replaced _ r _ run); [done..| |done]. intros _. simpl. intros ->.
    by destruct (RunRecord.status run).
  - apply attach_receipt_ok in Hr as (l1 & run & l2 & Hruns & _ & _ & [[_ ->]|[_ ->]]); [done|].
    by apply (past_queue_replaced _ r _ run).
Qed.

Lemma moved_past_queue run_id task task' :
  moved task task' -> past_queue run_id task.(StoredTask.record) ->
  past_queue run_id task'.(StoredTask.record).
Proof.
  intros [_ _ _ _ _ Hsteps]. induction Hsteps as [|? ? ? Hstep _ IH]; [done|].
  eauto using task_step_past_queue.
Qed.

(** Wherever the task is stored, the run has left the queue. *)
Definition started_before (task_id run_id : string) (tasks : list StoredTask.t) : Prop :=
  Forall (fun task => StoredTask.task_id task = task_id ->
                      past_queue run_id task.(StoredTask.record)) tasks.

Definition creates (task_id : string) (call : Call.t) : Prop :=
  exists request, call = Call.CreateTask request /\ request.(CreateTaskRequest.task_id) = task_id.

Lemma plan_started_before task_id run_id call tasks next a :
  ~ creates task_id call -> started_before task_id run_id tasks ->
  plan call tasks = Ok (Some next, a) -> started_before task_id run_id next.
Proof.
  unfold started_before.
  intros Hcall Hb [request record -> Hnew _ ->|? i task task' _ Hi Hreg ->|Hm]%plan_effect.
  - apply Forall_take. constructor; [|done]. unfold StoredTask.task_id. simpl.
    unfold task_new in Hnew. rewrite !result_seq_ok in Hnew. destruct Hnew as (_ & _ & [= <-]).
    simpl. intros Hid. destruct Hcall. by exists request.
  - apply Forall_insert; [done|]. intros Hid. apply registered_ok in Hreg as (Hstep & Hid' & _).
    eapply task_step_past_queue; [done|]. rewrite list.Forall_forall in Hb.
    eapply Hb; [by eapply list_elem_of_lookup_2|congruence].
  - eapply Forall_moved; [|done..]. intros t1 t2 Hmv Ht Hid. eapply moved_past_queue; [done|].
    apply Ht. destruct Hmv. congruence.
Qed.

(** A begin that starts the run takes it out of the queue, where it was. *)
Lemma run_of_elem run_id task run :
  run_of run_id task = Some run ->
  run ∈ task.(StoredTask.record).(TaskRecord.runs) /\ run.(RunRecord.id) = run_id.
Proof.
  unfold run_of, find_run. intros ([i run1] & (Hi & Hid & _)%list_find_Some & ->)%fmap_Some.
  split; [|done]. simpl. by eapply list_elem_of_lookup_2.
Qed.

Lemma begun_past_queue run_id task task' :
  begun run_id task = Ok task' -> NoDup (ids task) -> past_queue run_id task'.(StoredTask.record).
Proof.
  unfold begun. intros Hrun Hnd. result_inv Hrun.
  match goal with Ht : on_record (transition _ _) _ = _ |- _ => apply transition_ids in Ht end.
  apply transition_run_ids in Hrun as Hids. destruct Hids as [Hids _].
  apply on_record_ok in Hrun as (u & r' & Hrun & ->).
  apply transition_run_ok in Hrun as (l1 & run & l2 & _ & <- & _ & _ & _ & ->). split.
  - unfold ids in *. simpl in *. congruence.
  - exists (run_moved RunStatus.Running TransitionDetails.default run). simpl. split; [set_solver|done].
Qed.

Lemma begin_run_plan task_id run_id tasks stored run :
  tasks_ok tasks ->
  plan (Call.BeginRun task_id run_id) tasks = Ok (stored, Answer.Begin (BeginRunResult.Started run)) ->
  ~ started_before task_id run_id tasks /\
  exists next, stored = Some next /\ started_before task_id run_id next.
Proof.
  intros Hok Hplan. simpl in Hplan. unfold answered in Hplan. result_inv Hplan.
  match goal with Hf : find_task _ _ = Ok ?x |- _ => destruct x as [i task]; apply find_task_ok in Hf as [Hi Hid] end.
  simpl in *. destruct (bool_decide _) eqn:Hq; simpl in Hplan; [|by simplify_eq]. bool_hyps.
  result_inv Hplan.
  match goal with Hr : run_of _ _ = Some ?x |- _ => apply run_of_elem in Hr as [Hin Hrid] end.
  assert (NoDup (RunRecord.id <$> task.(StoredTask.record).(TaskRecord.runs))) as Hnd.
  { destruct Hok as [_ Hall _ _]. rewrite list.Forall_forall in Hall.
    apply (Hall task). by eapply list_elem_of_lookup_2. }
  split.
  - intros Hb. unfold started_before in Hb. rewrite list.Forall_forall in Hb.
    destruct (Hb task) as (_ & run1 & Hin1 & Hid1 & Hq1); [by eapply list_elem_of_lookup_2|done|].
    apply Hq1. rewrite (NoDup_fmap_unique _ _ run1 x0 Hnd Hin1 Hin); [done|congruence].
  - unfold planned_run in Hplan. result_inv Hplan. eexists. split; [done|].
    unfold started_before. apply list.Forall_forall. intros t Ht Htid.
    apply list_elem_of_lookup in Ht as [j Hj].
    apply list_lookup_insert_Some in Hj as [(<- & <- & _)|[Hne Hj]].
    + eapply begun_past_queue; [done|]. exact Hnd.
    + destruct Hne. apply (NoDup_lookup (StoredTask.task_id <$> tasks) i j task_id); [apply Hok|..];
        rewrite list_lookup_fmap; [by rewrite Hi; simpl; f_equal|by rewrite Hj; simpl; f_equal].
Qed.

(** How often a history starts the run *)
Definition is_start (task_id run_id : string)
    (observed : option (Call.t * result TaskServiceError.t Answer.t)) : bool :=
  match observed with
  | Some (Call.BeginRun t r, Ok (Answer.Begin (BeginRunResult.Started _))) =>
    str_eqb t task_id && str_eqb r run_id
  | _ => false
  end.

Fixpoint starts (task_id run_id : string) (actions : list Action) (s : Service.t) : nat :=
  match actions with
  | [] => 0
  | action :: actions =>
    let (observed, s') := act action s in
    (if is_start task_id run_id observed then 1 else 0) + starts task_id run_id actions s'
  end.

Lemma starts_none (Hlaws : TasksJsonLaws) task_id run_id actions s tasks :
  coherent s tasks -> started_before task_id run_id tasks ->
  Forall (fun action => match action with Do _ call => ~ creates task_id call | Restart => True end)
    actions ->
  starts task_id run_id actions s = 0.
Proof.
  revert s tasks. induction actions as [|action actions IH]; intros s tasks Hco Hb Hall; [done|].
  apply list.Forall_cons in Hall as [Hq Hall]. simpl. destruct action as [env call|]; simpl.
  - destruct (serve env call s) as [r s1] eqn:Hserve.
    destruct (serve_refines Hlaws _ _ _ _ _ _ Hco Hserve) as (tasks1 & Hco1 & Hr).
    assert (is_start task_id run_id (Some (call, r)) = false) as ->.
    { apply not_true_iff_false. intros Hstart. destruct call; simpl in Hstart; try done.
      destruct r as [[| | |[]]|]; try done.
      apply andb_true_inv in Hstart as [->%str_eqb_true ->%str_eqb_true].
      destruct Hr as (stored & Hplan & _). unfold spec in Hplan. simpl in Hplan.
      apply begin_run_plan in Hplan as [Hnot _]; [done|]. by eapply loads_ok, co_loads. }
    apply (IH s1 tasks1); [done| |done].
    apply permitted_step in Hr as [->|(a & _ & Hplan)]; [done|]. by eapply plan_started_before.
  - apply (IH _ tasks); [|done..]. destruct Hco. by split; [|left].
Qed.

(** C10: a run is started at most once. Whatever calls, faults and restarts happen, among the
    answers to [begin_run] for one run at most one says that the run was started, as long as
    the task is not created anew; every other answer is the existing run or an error. *)
Theorem run_started_once (Hlaws : TasksJsonLaws) task_id run_id actions s tasks :
  coherent s tasks ->
  Forall (fun action => match action with Do _ call => ~ creates task_id call | Restart => True end)
    actions ->
  starts task_id run_id actions s <= 1.
Proof.
  revert s tasks. induction actions as [|action actions IH]; intros s tasks Hco Hall; [simpl; lia|].
  apply list.Forall_cons in Hall as [Hq Hall]. simpl. destruct action as [env call|]; simpl.
  - destruct (serve env call s) as [r s1] eqn:Hserve.
    destruct (serve_refines Hlaws _ _ _ _ _ _ Hco Hserve) as (tasks1 & Hco1 & Hr).
    destruct (is_start task_id run_id (Some (call, r))) eqn:Hstart; [|by apply (IH s1 tasks1)].
    rewrite (starts_none Hlaws _ _ _ _ tasks1); [lia|done| |done].
    destruct call; simpl in Hstart; try done. destruct r as [[| | |[]]|]; try done.
    apply andb_true_inv in Hstart as [->%str_eqb_true ->%str_eqb_true].
    destruct Hr as (stored & Hplan & ->). unfold spec in Hplan. simpl in Hplan.
    apply begin_run_plan in Hplan as (_ & next & -> & Hnext); [done|]. by eapply loads_ok, co_loads.
  - apply (IH _ tasks); [|done]. destruct Hco. by split; [|left].
Qed.
End Histories.
