(* ===== verification/TaskRuns.v ===== *)
(** * Closing runs: restarts, receipts and retried requests

    What a restart does to the tasks that were running, what a receipt does to its run, and
    that a request sent twice is done once. *)

From S2P Require Import Prelude TaskArtifact TaskReceipt TaskMachine TaskStore TaskService TaskPlan TaskThm.

(** ** Restarts *)

Section Restart.
Context `{Sha256, ReceiptJson}.

Definition restarted_details : TransitionDetails.t := TransitionDetails.with_error RESTARTED_RUN_ERROR.

(** A run whose outcome nobody can know any more *)
Definition run_closed (run : RunRecord.t) : RunRecord.t :=
  if run_active run then run_moved RunStatus.OutcomeUnknown restarted_details run else run.

(** A task as a restart leaves it *)
Definition closed_by_restart (task task' : StoredTask.t) : Prop :=
  if bool_decide (task.(StoredTask.record).(TaskRecord.status) = TaskStatus.Running) then
    task'.(StoredTask.record).(TaskRecord.status) = TaskStatus.OutcomeUnknown /\
    task'.(StoredTask.record).(TaskRecord.error) = Some RESTARTED_RUN_ERROR /\
    task'.(StoredTask.record).(TaskRecord.summary) = task.(StoredTask.record).(TaskRecord.summary) /\
    task'.(StoredTask.record).(TaskRecord.runs)
      = run_closed <$> task.(StoredTask.record).(TaskRecord.runs)
  else task' = task.

Lemma NoDup_fmap_split {A B} (f : A -> B) (l1 l2 l1' l2' : list A) x y :
  NoDup (f <$> l1 ++ x :: l2) -> l1 ++ x :: l2 = l1' ++ y :: l2' -> f x = f y ->
  l1 = l1' /\ x = y /\ l2 = l2'.
Proof.
  intros Hnd Heq Hf.
  assert (length l1 = length l1') as Hlen.
  { apply (NoDup_lookup (f <$> l1 ++ x :: l2) _ _ (f x)); [done|..]; rewrite list_lookup_fmap.
    - by rewrite list_lookup_middle.
    - by rewrite Heq, list_lookup_middle, Hf. }
  apply app_inj_1 in Heq as [-> [= -> ->]]; done.
Qed.

(** The loop over the active runs, from a prefix that it is done with *)
Lemma abandon_all_ok past rest task task' :
  task.(StoredTask.record).(TaskRecord.runs) = past ++ rest -> NoDup (ids task) ->
  abandon_all (RunRecord.id <$> List.filter run_active rest) task = Ok task' ->
  task'.(StoredTask.record).(TaskRecord.runs) = past ++ (run_closed <$> rest) /\
  task'.(StoredTask.record).(TaskRecord.summary) = task.(StoredTask.record).(TaskRecord.summary) /\
  task'.(StoredTask.record).(TaskRecord.status) = task.(StoredTask.record).(TaskRecord.status).
Proof.
  revert past task. induction rest as [|run rest IH]; intros past task Hruns Hnd Hrun.
  { simpl in Hrun. by simplify_eq. }
  simpl in Hrun. unfold run_closed at 1. destruct (run_active run) eqn:Hactive; simpl in Hrun.
  - result_inv Hrun. apply transition_run_ids in Hx as Hids. destruct Hids as [Hids _].
    apply on_record_ok in Hx as (u & r' & Hx & ->).
    apply transition_run_ok in Hx as (l1 & run1 & l2 & Hruns1 & Hid1 & _ & _ & _ & ->).
    assert (l1 = past /\ run1 = run /\ l2 = rest) as (-> & -> & ->).
    { apply (NoDup_fmap_split RunRecord.id); [rewrite <- Hruns1; exact Hnd|by rewrite <- Hruns1, Hruns|done]. }
    apply (IH (past ++ [run_moved RunStatus.OutcomeUnknown restarted_details run])) in Hrun
      as (-> & -> & ->); [|simpl; by rewrite <- app_assoc|by rewrite Hids]. rewrite fmap_cons. unfold run_closed at 1. rewrite Hactive.
    by rewrite <- app_assoc.
  - destruct (IH (past ++ [run]) task) as (-> & -> & ->); [by rewrite <- app_assoc|done..|].
    rewrite fmap_cons. unfold run_closed at 1. rewrite Hactive. by rewrite <- app_assoc.
Qed.

Definition was_running (task : StoredTask.t) : bool :=
  bool_decide (task.(StoredTask.record).(TaskRecord.status) = TaskStatus.Running).

Lemma reconcile_tasks_ok tasks next records :
  Forall (fun task => NoDup (ids task)) tasks -> reconcile_tasks tasks = Ok (next, records) ->
  Forall2 closed_by_restart tasks next /\
  records = StoredTask.record <$> (snd <$> List.filter (fun p => was_running p.1) (zip tasks next)).
Proof.
  revert next records. induction tasks as [|task tasks IH]; intros next records Hall Hrun;
    [simpl in Hrun; by simplify_eq|].
  apply list.Forall_cons in Hall as [Hnd Hall]. simpl in Hrun. unfold was_running in *.
  destruct (bool_decide _) eqn:Hst; simpl in Hrun; result_inv Hrun.
  - match goal with Hr : reconcile_tasks _ = Ok ?y |- _ =>
      destruct y as [nx rs]; destruct (IH _ _ Hall Hr) as [IH1 ->] end.
    match goal with Ha : abandon_all _ _ = Ok _ |- _ =>
      destruct (abandon_all_ok [] _ _ _ eq_refl Hnd Ha) as (Hruns & Hsum & _) end.
    match goal with Ht : on_record _ _ = Ok _ |- _ =>
      apply on_record_ok in Ht as (u & r' & (_ & _ & _ & ->)%transition_ok & ->) end.
    simpl. rewrite Hst. split; [|done]. constructor; [|done]. unfold closed_by_restart.
    rewrite Hst. simpl. by rewrite Hruns, Hsum.
  - match goal with Hr : reconcile_tasks _ = Ok ?y |- _ =>
      destruct y as [nx rs]; destruct (IH _ _ Hall Hr) as [IH1 ->] end.
    simpl. rewrite Hst. split; [|done]. constructor; [|done]. unfold closed_by_restart. by rewrite Hst.
Qed.

Lemma not_running_filter tasks next :
  Forall2 closed_by_restart tasks next ->
  (snd <$> List.filter (fun p => was_running p.1) (zip tasks next)) = [] -> next = tasks.
Proof.
  induction 1 as [|task task' tasks next Hc _ IH]; [done|]. simpl.
  unfold closed_by_restart in Hc. unfold was_running at 1.
  destruct (bool_decide _); [done|]. intros Heq. by rewrite Hc, IH.
Qed.

Context `{TasksJson}.

Lemma tasks_ok_ids tasks : tasks_ok tasks -> Forall (fun task => NoDup (ids task)) tasks.
Proof. intros [_ Hall _ _]. eapply list.Forall_impl; [exact Hall|]. intros task []. apply eo_record. Qed.

(** After a restart nothing is left running. When the service reconciles, every stored
    task that was running has an unknown outcome and says why, each of its runs that was
    running or waiting for approval is closed the same way, all its other runs and every
    other task are as they were; the answer lists exactly the tasks that changed. *)
Theorem restart_closes_runs (Hlaws : TasksJsonLaws) env s tasks records s' :
  coherent s tasks -> reconcile_incomplete_runs env s = (Ok records, s') ->
  exists tasks', coherent s' tasks' /\ Forall2 closed_by_restart tasks tasks' /\
    records = StoredTask.record <$>
      (snd <$> List.filter (fun p => was_running p.1) (zip tasks tasks')) /\
    Forall (fun task => task.(StoredTask.record).(TaskRecord.status) <> TaskStatus.Running) tasks'.
Proof.
  intros Hco Hrun.
  assert (serve env Call.ReconcileIncompleteRuns s = (Ok (Answer.Tasks records), s')) as Hserve.
  { unfold serve, answer_with. by rewrite (bind_ok _ _ _ _ _ Hrun). }
  destruct (serve_refines Hlaws _ _ _ _ _ _ Hco Hserve) as (tasks' & Hco' & stored & Hspec & Hst).
  unfold spec in Hspec. simpl in Hspec. unfold answered in Hspec. result_inv Hspec.
  destruct x as [next rs]. simpl in Hspec.
  assert (Forall (fun task => NoDup (ids task)) tasks) as Hnd
    by (eapply tasks_ok_ids, loads_ok, co_loads, Hco).
  match goal with Hr : reconcile_tasks _ = _ |- _ =>
    destruct (reconcile_tasks_ok _ _ _ Hnd Hr) as [Hclosed Hrs] end.
  assert (tasks' = next /\ records = rs) as [-> ->].
  { destruct rs; simplify_eq/=; [|done]. split; [|done]. symmetry.
    eapply not_running_filter; [done|]. symmetry in Hrs. by apply fmap_nil_inv in Hrs. }
  exists next. split_and!; [done..|]. clear -Hclosed.
  induction Hclosed as [|task task' tasks next Hc _ IH]; constructor; [|done].
  unfold closed_by_restart in Hc. case_bool_decide; [|by subst]. by destruct Hc as [-> _].
Qed.
End Restart.

(** ** Receipts *)

Section Receipts.
Context `{Sha256, ReceiptJson}.

Lemma run_of_unique run_id task run :
  NoDup (ids task) -> run ∈ task.(StoredTask.record).(TaskRecord.runs) ->
  run.(RunRecord.id) = run_id -> run_of run_id task = Some run.
Proof.
  intros Hnd Hin Hid. destruct (proj2 (run_of_Some run_id task)) as [run1 Hrun].
  { unfold ids. rewrite <- Hid. by apply list_elem_of_fmap_2. }
  rewrite Hrun. apply run_of_elem in Hrun as [Hin1 Hid1]. f_equal.
  eapply NoDup_fmap_unique; [exact Hnd|done..|congruence].
Qed.

Lemma validate_receipt_ok task_id run receipt :
  validate_receipt task_id run receipt = Ok tt ->
  run.(RunRecord.status) = (outcome_statuses receipt.(RunReceipt.outcome)).1 /\
  run.(RunRecord.summary) = receipt.(RunReceipt.summary) /\
  run.(RunRecord.error) = receipt.(RunReceipt.error).
Proof.
  unfold validate_receipt. destruct (expected_outcome _) as [o|] eqn:Ho; [|done].
  rewrite refuse_ok. intros Hval. bool_hyps. split_and!; [|done..].
  subst o. by destruct (RunRecord.status run); simpl in Ho; simplify_eq/=; rewrite <- Ho.
Qed.

(** What finalizing does to the task *)
Lemma finalized_ok receipt task task' :
  NoDup (ids task) -> finalized receipt task = Ok task' ->
  exists run, run_of receipt.(RunReceipt.run_id) task' = Some run /\
    run.(RunRecord.receipt) = Some receipt /\
    run.(RunRecord.status) = (outcome_statuses receipt.(RunReceipt.outcome)).1 /\
    run.(RunRecord.summary) = receipt.(RunReceipt.summary) /\
    run.(RunRecord.error) = receipt.(RunReceipt.error) /\
    task'.(StoredTask.record).(TaskRecord.status)
      = (outcome_statuses receipt.(RunReceipt.outcome)).2.
Proof.
  intros Hnd Hrun. apply finalized_moved in Hrun as Hmoved. destruct Hmoved as [_ _ _ _ Hids _].
  rewrite <- Hids in Hnd. unfold finalized in Hrun. result_inv Hrun.
  repeat match goal with Ht : on_record _ _ = Ok _ |- _ =>
    apply on_record_ok in Ht as (? & ? & Ht & ->) end.
  match goal with Ht : TaskMachine.transition_run _ _ _ _ = _ |- _ =>
    apply transition_run_ok in Ht as (l1 & run & l2 & Hruns & Hid & Hmove & _ & _ & ->) end.
  match goal with Ht : attach_receipt _ _ _ = _ |- _ =>
    apply attach_receipt_ok in Ht as (m1 & run1 & m2 & Hruns1 & Hid1 & Hval & Hatt) end.
  match goal with Ht : transition _ _ _ = _ |- _ => apply transition_ok in Ht as (_ & _ & _ & ->) end.
  simpl in *.
  apply validate_receipt_ok in Hval as (Hst & Hsum & Herr).
  destruct Hatt as [[Hrc ->]|[_ ->]]; simpl in *.
  - exists run1. split; [|done]. apply run_of_unique; [done| |done]. simpl. rewrite Hruns1. set_solver.
  - exists (RunRecord.set_receipt receipt run1). split; [|done].
    apply run_of_unique; [done| |done]. simpl. set_solver.
Qed.

Context `{TasksJson}.

Lemma find_task_insert (P : StoredTask.t -> Prop) `{forall task, Decision (P task)} tasks i task task' :
  find_task P tasks = Ok (i, task) -> P task' ->
  find_task P (<[ i := task' ]> tasks) = Ok (i, task').
Proof.
  unfold find_task. rewrite !ok_or_ok, !list_find_Some. intros (Hi & _ & Hfirst) HP.
  assert (i < length tasks) as Hlt by (by eapply lookup_lt_Some). split_and!; [|done|].
  - by apply list_lookup_insert_eq.
  - intros j y Hj Hlt'. rewrite list_lookup_insert_ne in Hj by lia. by eapply Hfirst.
Qed.

(** What the service knows of a run once it has answered a receipt for it *)
Lemma finalize_spec receipt tasks stored a :
  tasks_ok tasks -> spec (Call.FinalizeRun receipt) tasks = Ok (stored, a) ->
  exists i task run, a = Answer.Run run /\
    verify receipt = Ok tt /\
    find_task (is_task receipt.(RunReceipt.task_id)) (default tasks stored) = Ok (i, task) /\
    run_of receipt.(RunReceipt.run_id) task = Some run /\
    run.(RunRecord.receipt) = Some receipt /\
    (stored = None \/
     task.(StoredTask.record).(TaskRecord.status)
       = (outcome_statuses receipt.(RunReceipt.outcome)).2 /\
     run.(RunRecord.status) = (outcome_statuses receipt.(RunReceipt.outcome)).1 /\
     run.(RunRecord.summary) = receipt.(RunReceipt.summary) /\
     run.(RunRecord.error) = receipt.(RunReceipt.error)).
Proof.
  intros Hok Hspec. unfold spec in Hspec. simpl in Hspec. unfold answered in Hspec. result_inv Hspec.
  match goal with Hf : find_task _ _ = Ok ?y |- _ => destruct y as [i task]; rename Hf into Hfind end.
  match goal with Hv : map_err _ _ = Ok ?u |- _ =>
    destruct u; destruct (verify receipt) as [[]|] eqn:Hverify; [|discriminate Hv] end.
  simpl in Hspec. bool_hyps.
  match goal with Hr : run_of _ _ = Some ?y |- _ => rename y into run; rename Hr into Hrun end.
  destruct (RunRecord.receipt run) as [existing|] eqn:Hrc.
  - case_bool_decide; simplify_eq/=. exists i, task, run. split_and!; try done. by left.
  - result_inv Hspec. destruct (find_task_ok _ _ _ Hfind) as [Hi Hid]. simpl in Hi, Hid.
    assert (NoDup (ids task)) as Hnd.
    { apply tasks_ok_ids in Hok. rewrite list.Forall_forall in Hok.
      by eapply Hok, list_elem_of_lookup_2. }
    match goal with Hf : finalized _ _ = Ok ?y |- _ => rename y into task'; rename Hf into Hfin end.
    destruct (finalized_ok _ _ _ Hnd Hfin) as (run' & Hrun' & Hrc' & Hrest).
    unfold planned_run in Hspec. rewrite Hrun' in Hspec. simpl in Hspec. simplify_eq.
    exists i, task', run'. split_and!; try done; [|right; naive_solver].
    apply (find_task_insert _ _ _ task); [done|]. apply finalized_moved in Hfin as [].
    unfold is_task in *. congruence.
Qed.

(** A receipt closes its run for good. When the service accepts a receipt, the receipt
    verifies, it is stored with its run, and the run and the task have the statuses and texts
    that the receipt reports. From then on the same receipt is answered with the same run,
    any other receipt for the run is refused, and neither changes what is stored. *)
Theorem receipt_closes_run (Hlaws : TasksJsonLaws) env receipt s tasks run s' :
  coherent s tasks -> finalize_run env receipt s = (Ok run, s') ->
  verify receipt = Ok tt /\ run.(RunRecord.receipt) = Some receipt /\
  exists tasks', coherent s' tasks' /\
    (tasks' = tasks \/
     exists task, task ∈ tasks' /\ StoredTask.task_id task = receipt.(RunReceipt.task_id) /\
       run_of receipt.(RunReceipt.run_id) task = Some run /\
       task.(StoredTask.record).(TaskRecord.status)
         = (outcome_statuses receipt.(RunReceipt.outcome)).2 /\
       run.(RunRecord.status) = (outcome_statuses receipt.(RunReceipt.outcome)).1 /\
       run.(RunRecord.summary) = receipt.(RunReceipt.summary) /\
       run.(RunRecord.error) = receipt.(RunReceipt.error)) /\
    forall env' receipt' r s'',
      receipt'.(RunReceipt.task_id) = receipt.(RunReceipt.task_id) ->
      receipt'.(RunReceipt.run_id) = receipt.(RunReceipt.run_id) ->
      finalize_run env' receipt' s' = (r, s'') ->
      coherent s'' tasks' /\ (r = Ok run /\ receipt' = receipt \/ is_ok r = false).
Proof.
  intros Hco Hrun.
  assert (serve env (Call.FinalizeRun receipt) s = (Ok (Answer.Run run), s')) as Hserve.
  { unfold serve, answer_with. by rewrite (bind_ok _ _ _ _ _ Hrun). }
  destruct (serve_refines Hlaws _ _ _ _ _ _ Hco Hserve) as (tasks' & Hco' & stored & Hspec & ->).
  apply finalize_spec in Hspec as (i & task & run1 & [= <-] & Hv & Hfind & Hrun1 & Hrc & Hcase);
    [|by eapply loads_ok, co_loads].
  split_and!; [done..|]. exists (default tasks stored). split_and!; [done|..].
  - destruct Hcase as [->|Hcase]; [by left|]. right. exists task.
    destruct (find_task_ok _ _ _ Hfind) as [Hi Hid]. split; [by eapply list_elem_of_lookup_2|]. done.
  - intros env' receipt' r s'' Ht Hr Hrun'.
    assert (serve env' (Call.FinalizeRun receipt') s' = (Answer.Run <$> r, s'')) as Hserve'.
    { unfold serve, answer_with, mbind, M_bind. rewrite Hrun'. by destruct r. }
    destruct (serve_refines Hlaws _ _ _ _ _ _ Hco' Hserve') as (tasks2 & Hco2 & Hper).
    destruct r as [run2|e]; [|destruct Hper as [-> _]; eauto].
    destruct Hper as (stored2 & Hspec & ->). unfold spec in Hspec. simpl in Hspec.
    result_inv Hspec. rewrite Ht, Hr, Hfind in *. simplify_eq/=. rewrite Hrun1 in *. simplify_eq/=.
    rewrite Hrc in Hspec. unfold answered in Hspec. case_bool_decide; simplify_eq/=. eauto.
Qed.
End Receipts.

(** ** Retried requests *)

Section Retries.
Context `{Sha256, ReceiptJson, TasksJson}.

(** A call that the machine answers without storing anything *)
Lemma serve_unchanged (Hlaws : TasksJsonLaws) env call s tasks r s' a :
  coherent s tasks -> serve env call s = (r, s') ->
  (forall stored a', plan call tasks = Ok (stored, a') -> stored = None /\ a' = a) ->
  coherent s' tasks /\ (r = Ok a /\ plan call tasks = Ok (None, a) \/ is_ok r = false).
Proof.
  intros Hco Hserve Hplan.
  destruct (serve_refines Hlaws _ _ _ _ _ _ Hco Hserve) as (tasks' & Hco' & Hper).
  destruct r as [a'|e]; [|destruct Hper as [-> _]; eauto]. destruct Hper as (stored & Hspec & ->).
  assert (plan call tasks = Ok (stored, a')) as Heq
    by (unfold spec in Hspec; destruct (guard call); [done|discriminate]).
  destruct (Hplan _ _ Heq) as [-> ->]. eauto.
Qed.

Lemma list_find_here {A} (P : A -> Prop) `{forall x, Decision (P x)} l1 x l2 :
  Forall (fun y => ~ P y) l1 -> P x -> list_find P (l1 ++ x :: l2) = Some (length l1, x).
Proof.
  intros Hl1 HP. apply list_find_Some. rewrite list_lookup_middle by done. split_and!; [done..|].
  intros j y Hj Hlt. rewrite lookup_app_l in Hj by done. rewrite list.Forall_forall in Hl1.
  by eapply Hl1, list_elem_of_lookup_2.
Qed.

(** The task of an idempotency key, after a call that created or found it *)
Lemma create_plan request tasks stored a :
  plan (Call.CreateTask request) tasks = Ok (stored, a) ->
  exists i task, a = Answer.Task task.(StoredTask.record) /\
    task.(StoredTask.project_id) = Some request.(CreateTaskRequest.project_id) /\
    list_find (fun task => task.(StoredTask.idempotency_key)
                           = request.(CreateTaskRequest.idempotency_key)) (default tasks stored)
    = Some (i, task).
Proof.
  simpl. destruct (list_find _ _) as [[i task]|] eqn:Hfind; intros Hplan.
  - unfold answered in Hplan. case_bool_decide; simplify_eq/=. eauto.
  - result_inv Hplan.
    exists 0, (StoredTask.mk request.(CreateTaskRequest.idempotency_key)
                 (Some request.(CreateTaskRequest.project_id)) x []).
    split_and!; [done..|]. simpl. by rewrite decide_True.
Qed.

(** A task is created once per idempotency key. After [create_task] answered, every
    further request with the same key, whatever task id and specification it carries, stores
    nothing: it gets the same record when it names the same project and an error when not. *)
Theorem task_created_once (Hlaws : TasksJsonLaws) env request s tasks record s' :
  coherent s tasks -> create_task env request s = (Ok record, s') ->
  exists tasks', coherent s' tasks' /\
    (exists task, task ∈ tasks' /\ task.(StoredTask.record) = record /\
       task.(StoredTask.idempotency_key) = request.(CreateTaskRequest.idempotency_key) /\
       task.(StoredTask.project_id) = Some request.(CreateTaskRequest.project_id)) /\
    forall env' request' r s'',
      request'.(CreateTaskRequest.idempotency_key) = request.(CreateTaskRequest.idempotency_key) ->
      create_task env' request' s' = (r, s'') ->
      coherent s'' tasks' /\
      (r = Ok record /\
       request'.(CreateTaskRequest.project_id) = request.(CreateTaskRequest.project_id) \/
       is_ok r = false).
Proof.
  intros Hco Hrun.
  assert (serve env (Call.CreateTask request) s = (Ok (Answer.Task record), s')) as Hserve.
  { unfold serve, answer_with. by rewrite (bind_ok _ _ _ _ _ Hrun). }
  destruct (serve_refines Hlaws _ _ _ _ _ _ Hco Hserve) as (tasks' & Hco' & stored & Hspec & ->).
  unfold spec in Hspec. destruct (guard _) as [[]|]; [|discriminate].
  apply create_plan in Hspec as (i & task & [= ->] & Hproject & Hfind).
  exists (default tasks stored). split_and!; [done|..].
  - apply list_find_Some in Hfind as (Hi & Hkey & _). exists task.
    split; [by eapply list_elem_of_lookup_2|done].
  - intros env' request' r s'' Hkey Hrun'.
    assert (serve env' (Call.CreateTask request') s' = (Answer.Task <$> r, s'')) as Hserve'.
    { unfold serve, answer_with, mbind, M_bind. rewrite Hrun'. by destruct r. }
    destruct (serve_unchanged Hlaws _ _ _ _ _ _ (Answer.Task task.(StoredTask.record)) Hco' Hserve')
      as [Hco2 Hcase].
    + intros stored2 a'. simpl. rewrite Hkey, Hfind. unfold answered. case_bool_decide; naive_solver.
    + split; [done|]. destruct r; [left|by right]. destruct Hcase as [[[= ->] Hplan]|]; [|done].
      split; [done|]. simpl in Hplan. rewrite Hkey, Hfind in Hplan.
      case_bool_decide; [congruence|discriminate].
Qed.

Lemma register_plan request tasks stored a :
  plan (Call.RegisterRun request) tasks = Ok (stored, a) ->
  exists i task j key run, a = Answer.Run run /\
    find_task (is_project_task request.(RegisterRunRequest.project_id)
                 request.(RegisterRunRequest.task_id)) (default tasks stored) = Ok (i, task) /\
    list_find (fun key => key.(StoredRunKey.idempotency_key)
                          = request.(RegisterRunRequest.idempotency_key))
      task.(StoredTask.run_keys) = Some (j, key) /\
    run_of key.(StoredRunKey.run_id) task = Some run.
Proof.
  intros Hplan. simpl in Hplan. result_inv Hplan.
  match goal with Hf : find_task _ _ = Ok ?y |- _ => destruct y as [i task]; rename Hf into Hfind end.
  simpl in Hplan. destruct (list_find _ task.(StoredTask.run_keys)) as [[j key]|] eqn:Hkey.
  - unfold answered in Hplan. result_inv Hplan. bool_hyps. eauto 10.
  - result_inv Hplan. unfold planned_run in Hplan. result_inv Hplan. bool_hyps. simpl.
    match goal with Hr : registered _ _ = Ok ?y |- _ =>
      rename y into task'; apply registered_ok in Hr as (Hstep & Hid & _ & Hproject & _ & Hkeys) end.
    destruct (find_task_ok _ _ _ Hfind) as [_ [Hp Ht]]. simpl in Hp, Ht.
    eexists i, task', _, _, _. split_and!; [done|..].
    + apply (find_task_insert _ _ _ task); [done|]. split; simpl; congruence.
    + rewrite Hkeys. apply list_find_None in Hkey. by apply list_find_here.
    + done.
Qed.

(** A run is registered once per idempotency key. After [register_run] answered, every
    further request for the task with the same key, whatever run id it carries, stores nothing
    and gets the same run or an error. *)
Theorem run_registered_once (Hlaws : TasksJsonLaws) env request s tasks run s' :
  coherent s tasks -> register_run env request s = (Ok run, s') ->
  exists tasks', coherent s' tasks' /\
    (exists task, task ∈ tasks' /\ StoredTask.task_id task = request.(RegisterRunRequest.task_id) /\
       run ∈ task.(StoredTask.record).(TaskRecord.runs)) /\
    forall env' request' r s'',
      request'.(RegisterRunRequest.idempotency_key) = request.(RegisterRunRequest.idempotency_key) ->
      request'.(RegisterRunRequest.project_id) = request.(RegisterRunRequest.project_id) ->
      request'.(RegisterRunRequest.task_id) = request.(RegisterRunRequest.task_id) ->
      register_run env' request' s' = (r, s'') ->
      coherent s'' tasks' /\ (r = Ok run \/ is_ok r = false).
Proof.
  intros Hco Hrun.
  assert (serve env (Call.RegisterRun request) s = (Ok (Answer.Run run), s')) as Hserve.
  { unfold serve, answer_with. by rewrite (bind_ok _ _ _ _ _ Hrun). }
  destruct (serve_refines Hlaws _ _ _ _ _ _ Hco Hserve) as (tasks' & Hco' & stored & Hspec & ->).
  unfold spec in Hspec. destruct (guard _) as [[]|]; [|discriminate].
  apply register_plan in Hspec as (i & task & j & key & run1 & [= <-] & Hfind & Hkey & Hrun1).
  exists (default tasks stored). split_and!; [done|..].
  - apply find_task_ok in Hfind as [Hi [_ Hid]]. exists task. apply run_of_elem in Hrun1 as [Hin _].
    split; [by eapply list_elem_of_lookup_2|done].
  - intros env' request' r s'' Hk Hp Ht Hrun'.
    assert (serve env' (Call.RegisterRun request') s' = (Answer.Run <$> r, s'')) as Hserve'.
    { unfold serve, answer_with, mbind, M_bind. rewrite Hrun'. by destruct r. }
    destruct (serve_unchanged Hlaws _ _ _ _ _ _ (Answer.Run run) Hco' Hserve') as [Hco2 Hcase].
    + intros stored2 a'. simpl. rewrite Hp, Ht, Hfind. simpl. rewrite Hk, Hkey. simpl.
      rewrite Hrun1. unfold answered. simpl. naive_solver.
    + split; [done|]. destruct r; [left|by right]. by destruct Hcase as [[[= ->] _]|].
Qed.

(** ** Files that the service does not understand *)

Lemma load_refused io file e file' :
  load Io.fine file = (Err e, file') -> exists e', load io file = (Err e', file).
Proof.
  intros Hfine. destruct (load io file) as [[tasks|e'] file1] eqn:Hload.
  - exfalso. unfold load, read_document, quarantine_and_load_empty in *.
    run_cases Hfine; run_cases Hload; congruence.
  - exists e'. by rewrite (load_err _ _ _ _ Hload).
Qed.

(** A task file that the service cannot take is never overwritten. When the file is
    too large, of another version, or holds tasks that do not validate, every call of a
    service that starts on it fails and leaves the file and the service as they were. *)
Theorem refused_file_kept env call file e file' :
  load Io.fine file = (Err e, file') ->
  exists e', serve env call (Service.new file) = (Err e', Service.new file).
Proof.
  intros Hfine. destruct (load_refused env.(TaskEnv.load) _ _ _ Hfine) as [e' Hload].
  rewrite serve_follows, run_plan_eq. destruct (guard call) as [u|e1]; [|by exists e1].
  assert (exists e2, locked_tasks env (Service.new file) = (Err e2, Service.new file)) as [e2 ->];
    [|by exists e2].
  unfold locked_tasks, ensure_loaded, reject_if, get, throw, zoom, mbind, M_bind, mret, M_ret.
  destruct (negb _); [by eexists|]. simpl. rewrite Hload. by eexists.
Qed.
End Retries.

(** ** A full log

    The log of a task takes 128 events, and every change of status takes one. A task whose
    run changes status often enough has none left for its end. *)

Section FullLog.
Context `{Sha256, ReceiptJson, TasksJson}.

Lemma full_log_transition next details r :
  MAX_EVENTS <= length r.(TaskRecord.events) -> is_ok (transition next details r).1 = false.
Proof.
  intros Hfull. destruct (transition next details r) as [[u|e] r'] eqn:Hrun; [|done].
  apply transition_ok in Hrun as (_ & _ & Hcap & _). lia.
Qed.

Lemma task_step_events r r' :
  task_step r r' -> length r.(TaskRecord.events) <= length r'.(TaskRecord.events).
Proof.
  intros [next d Hr|rid Hr|rid next d Hr|rid rc Hr].
  - apply transition_ok in Hr as (_ & _ & _ & ->). simpl. rewrite length_app. lia.
  - apply register_run_ok in Hr as (_ & _ & _ & _ & ->). simpl. rewrite length_app. lia.
  - apply transition_run_ok in Hr as (? & ? & ? & _ & _ & _ & _ & _ & ->). simpl.
    rewrite length_app. lia.
  - by apply attach_receipt_ok in Hr as (? & ? & ? & _ & _ & _ & [[_ ->]|[_ ->]]).
Qed.

Lemma reconcile_tasks_full tasks task :
  task ∈ tasks -> task.(StoredTask.record).(TaskRecord.status) = TaskStatus.Running ->
  MAX_EVENTS <= length task.(StoredTask.record).(TaskRecord.events) ->
  is_ok (reconcile_tasks tasks) = false.
Proof.
  intros Hin Hst Hfull. induction tasks as [|t tasks IH]; [by apply not_elem_of_nil in Hin|].
  destruct (reconcile_tasks (t :: tasks)) as [[nx rs]|] eqn:Hrun; [|done]. simpl in Hrun.
  apply elem_of_cons in Hin as [<-|Hin].
  - rewrite Hst in Hrun. simpl in Hrun. result_inv Hrun.
    match goal with Ha : abandon_all _ _ = Ok _ |- _ => apply abandon_all_moved in Ha as [_ _ _ _ _ Hsteps] end.
    match goal with Ht : on_record _ ?y = Ok _ |- _ =>
      apply on_record_ok in Ht as (u & r' & Ht & _);
      pose proof (full_log_transition TaskStatus.OutcomeUnknown
        (TransitionDetails.with_error RESTARTED_RUN_ERROR) y.(StoredTask.record)) as Hno end.
    rewrite Hx0 in Hno. exfalso. enough (is_ok (Ok u : result StateMachineError.t unit) = false) by done.
    apply Hno. clear -Hsteps Hfull. induction Hsteps as [|? ? ? Hstep%task_step_events _ IH]; [done|].
    apply IH. lia.
  - apply IH in Hin. case_match; result_inv Hrun;
      match goal with Hr : reconcile_tasks tasks = Ok _ |- _ => by rewrite Hr in Hin end.
Qed.

(** A running task with a full log cannot be reconciled: the call that a start of the
    application makes first fails, whatever the environment, and stores nothing. *)
Theorem full_log_blocks_restart (Hlaws : TasksJsonLaws) env s tasks task r s' :
  coherent s tasks -> task ∈ tasks ->
  task.(StoredTask.record).(TaskRecord.status) = TaskStatus.Running ->
  MAX_EVENTS <= length task.(StoredTask.record).(TaskRecord.events) ->
  reconcile_incomplete_runs env s = (r, s') -> is_ok r = false /\ coherent s' tasks.
Proof.
  intros Hco Hin Hst Hfull Hrun.
  assert (serve env Call.ReconcileIncompleteRuns s = (Answer.Tasks <$> r, s')) as Hserve.
  { unfold serve, answer_with, mbind, M_bind. rewrite Hrun. by destruct r. }
  destruct (serve_refines Hlaws _ _ _ _ _ _ Hco Hserve) as (tasks' & Hco' & Hper).
  destruct r as [records|e]; [exfalso|by destruct Hper as [-> _]].
  destruct Hper as (stored & Hspec & _). unfold spec in Hspec. simpl in Hspec.
  pose proof (reconcile_tasks_full _ _ Hin Hst Hfull) as Hno. by destruct (reconcile_tasks tasks).
Qed.
End FullLog.
