(* ===== verification/AppJson.v ===== *)
(** * JSON values (the [Value] of serde_json)

    What the app-server connection looks at in the messages it receives. An object is a
    list of members with distinct keys; a number is one of the three forms that serde_json
    keeps. *)

From S2P Require Import Prelude.

Module Number.
Inductive t := PosInt (n : N) | NegInt (z : Z) | Float (bits : N).
#[global] Instance eq_dec : EqDecision t.
Proof. solve_decision. Defined.
End Number.

Module Value.
#[local] Set Warnings "-register-all".
Inductive t :=
| Null
| Bool (b : bool)
| Num (n : Number.t)
| Str (s : string)
| Array (values : list t)
| Object (members : list (string * t)).

(** [Map::get] *)
Definition lookup (key : string) (members : list (string * t)) : option t :=
  snd <$> (snd <$> list_find (fun member => member.1 = key) members).
(** [Value::get] with a string index *)
Definition get (key : string) (v : t) : option t :=
  match v with Object members => lookup key members | _ => None end.
Definition as_str (v : t) : option string := match v with Str s => Some s | _ => None end.
Definition as_object (v : t) : option (list (string * t)) :=
  match v with Object members => Some members | _ => None end.
(** [u64] and [i64] are kept in range by the parser. *)
Definition as_u64 (v : t) : option N :=
  match v with Num (Number.PosInt n) => Some n | _ => None end.
Definition as_i64 (v : t) : option Z :=
  match v with
  | Num (Number.PosInt n) => if (Z.of_N n <=? i64_max)%Z then Some (Z.of_N n) else None
  | Num (Number.NegInt z) => Some z
  | _ => None
  end.
End Value.
