(* ===== verification/EventRouter.v ===== *)
(** * Routing app-server notifications to runs (app_server/event_router.rs)

    A route per active run, found by connection, thread and turn, and a bounded queue per
    route that the run's observer empties. The queue is shared by the stream (a strong
    reference) and the route (a weak one): a heap maps the addresses of the queues that are
    still alive, and dropping a stream takes its queue out of the heap. *)

From S2P Require Import Prelude AppJson.

Definition MAX_CORRELATION_ID_BYTES : N := 128.
Definition MAX_ACTIVE_ROUTES : nat := 32.
Definition EVENT_QUEUE_CAPACITY : nat := 8.
Definition MAX_RUN_EVENTS : N := 128.
Definition MAX_RUN_EVENT_BYTES : N := 512.
Definition MAX_RUN_EVENT_TOTAL_BYTES : N := 16 * 1024.

Module RunEventGapReason.
Inductive t := ObserverLagged | LimitExceeded.
#[global] Instance eq_dec : EqDecision t.
Proof. solve_decision. Defined.
End RunEventGapReason.

Module RunEventKind.
Inductive t :=
| Running | WaitingApproval | Completed | Failed | Interrupted
| Gap (reason : RunEventGapReason.t).
#[global] Instance eq_dec : EqDecision t.
Proof. solve_decision. Defined.
Definition is_gap (k : t) : bool := match k with Gap _ => true | _ => false end.
End RunEventKind.

Module RunEvent.
Record t := mk { run_id : string; sequence : N; kind : RunEventKind.t }.
#[global] Instance eq_dec : EqDecision t.
Proof. solve_decision. Defined.
End RunEvent.

Module EventRouterError.
Inductive t := InvalidCorrelation | TooManyRoutes | DuplicateRoute | UnknownRoute | TurnMismatch.
#[global] Instance eq_dec : EqDecision t.
Proof. solve_decision. Defined.
End EventRouterError.

(** [serde_json::to_vec] on an event: only the number of bytes is used. *)
Class RunEventJson := run_event_to_vec : RunEvent.t -> option string.
(** Strings, integers and unit variants always serialize, into a [Vec] of at most
    [isize::MAX] bytes. *)
Class RunEventJsonLaws `{RunEventJson} : Prop := run_event_bytes event :
  exists bytes, run_event_to_vec event = Some bytes /\ (len bytes <= Z.to_N i64_max)%N.

Definition usize_max : N := u64_max.
(** Addition of [usize], as in a release build *)
Definition usize_add (a b : N) : N := (a + b) mod (usize_max + 1).

Module EventQueue.
Record t := mk { active : bool; events : list RunEvent.t }.
Definition default : t := mk true [].
Definition set_active (b : bool) (q : t) : t := mk b q.(events).
Definition set_events (l : list RunEvent.t) (q : t) : t := mk q.(active) l.
(** [EventQueue::push] *)
Definition push (event : RunEvent.t) (q : t) : t :=
  if (length q.(events) <? EVENT_QUEUE_CAPACITY)
  then set_events (q.(events) ++ [event]) q
  else if is_some_and (fun e => RunEventKind.is_gap e.(RunEvent.kind)) (list.last q.(events))
  then q
  else set_events
    (removelast q.(events) ++
     [RunEvent.mk event.(RunEvent.run_id) event.(RunEvent.sequence)
        (RunEventKind.Gap RunEventGapReason.ObserverLagged)]) q.
End EventQueue.

Module Route.
Record t := mk {
  route_id : N;
  connection_identity : N;
  run_id : string;
  thread_id : string;
  turn_id : option string;
  next_sequence : N;
  total_bytes : N;
  saturated : bool;
  queue : N;
}.
Definition set_turn (v : option string) (r : t) : t :=
  mk r.(route_id) r.(connection_identity) r.(run_id) r.(thread_id) v r.(next_sequence)
    r.(total_bytes) r.(saturated) r.(queue).
Definition saturate (r : t) : t :=
  mk r.(route_id) r.(connection_identity) r.(run_id) r.(thread_id) r.(turn_id) r.(next_sequence)
    r.(total_bytes) true r.(queue).
Definition advance (bytes : N) (r : t) : t :=
  mk r.(route_id) r.(connection_identity) r.(run_id) r.(thread_id) r.(turn_id)
    (r.(next_sequence) + 1) (usize_add r.(total_bytes) bytes) r.(saturated) r.(queue).
(** [Route::event] *)
Definition event (r : t) (kind : RunEventKind.t) : RunEvent.t :=
  RunEvent.mk r.(run_id) r.(next_sequence) kind.
End Route.

Module RunEventStream.
Record t := mk { router_identity : N; route_id : N; queue : N }.
End RunEventStream.

Module EventRouter.
Record t := mk {
  identity : N;
  next_route_id : N;
  routes : list Route.t;
  heap : gmap N EventQueue.t;
  next_queue : N;
}.
Definition set_routes (v : list Route.t) (s : t) : t :=
  mk s.(identity) s.(next_route_id) v s.(heap) s.(next_queue).
Definition set_heap (v : gmap N EventQueue.t) (s : t) : t :=
  mk s.(identity) s.(next_route_id) s.(routes) v s.(next_queue).
Definition new (identity : N) : t := mk identity 0 [] ∅ 0.
End EventRouter.

Module NormalizedEvent.
Record t := mk { thread_id : string; turn_id : string; kind : RunEventKind.t; terminal : bool }.
End NormalizedEvent.

(** ** Reading a notification *)

Definition valid_id (value : string) : bool :=
  negb (trim_is_empty value) && (len value <=? MAX_CORRELATION_ID_BYTES)%N.

Definition valid_value_id (value : Value.t) : option string :=
  opt_filter valid_id (Value.as_str value).

Definition approval_methods : list string :=
  ["item/commandExecution/requestApproval"; "item/fileChange/requestApproval";
   "item/permissions/requestApproval"].

Definition normalize_event (method : string) (params : Value.t) : option NormalizedEvent.t :=
  thread ← Value.get "threadId" params;
  thread_id ← valid_value_id thread;
  if str_eqb method "turn/started" then
    turn ← Value.get "turn" params;
    status ← Value.get "status" turn;
    status ← Value.as_str status;
    if negb (str_eqb status "inProgress") then None else
    id ← Value.get "id" turn;
    turn_id ← valid_value_id id;
    Some (NormalizedEvent.mk thread_id turn_id RunEventKind.Running false)
  else if str_eqb method "turn/completed" then
    turn ← Value.get "turn" params;
    status ← Value.get "status" turn;
    status ← Value.as_str status;
    kind ← (if str_eqb status "completed" then Some RunEventKind.Completed
            else if str_eqb status "failed" then Some RunEventKind.Failed
            else if str_eqb status "interrupted" then Some RunEventKind.Interrupted
            else None);
    id ← Value.get "id" turn;
    turn_id ← valid_value_id id;
    Some (NormalizedEvent.mk thread_id turn_id kind true)
  else if existsb (str_eqb method) approval_methods then
    id ← Value.get "turnId" params;
    turn_id ← valid_value_id id;
    Some (NormalizedEvent.mk thread_id turn_id RunEventKind.WaitingApproval false)
  else None.

(** ** The router *)

Section Router.
Context `{RunEventJson}.

Definition serialized_len (event : RunEvent.t) : N :=
  match run_event_to_vec event with Some bytes => len bytes | None => usize_max end.

(** [Route::push]: the route after it, and what it sends to its queue *)
Definition route_push (kind : RunEventKind.t) (r : Route.t) : Route.t * option RunEvent.t :=
  if r.(Route.saturated) then (r, None) else
  let event := Route.event r kind in
  let gap := Route.event r (RunEventKind.Gap RunEventGapReason.LimitExceeded) in
  let event_bytes := serialized_len event in
  let gap_bytes := serialized_len gap in
  if (MAX_RUN_EVENTS <=? r.(Route.next_sequence))%N
     || (MAX_RUN_EVENT_BYTES <? event_bytes)%N
     || (MAX_RUN_EVENT_TOTAL_BYTES
         <? usize_add (usize_add r.(Route.total_bytes) event_bytes) gap_bytes)%N
  then (Route.saturate r, Some gap)
  else (Route.advance event_bytes r, Some event).

Definition RouterM := M EventRouter.t EventRouterError.t.

(** [route.queue.strong_count() > 0] *)
Definition alive (heap : gmap N EventQueue.t) (r : Route.t) : bool := is_some (heap !! r.(Route.queue)).

(** [routes.retain(..)] *)
Definition retain_alive (s : EventRouter.t) : EventRouter.t :=
  EventRouter.set_routes (List.filter (alive s.(EventRouter.heap)) s.(EventRouter.routes)) s.

Definition prepare_run (connection_identity : N) (run_id thread_id : string)
    : RouterM RunEventStream.t :=
  _ ← reject_if (negb (valid_id run_id) || negb (valid_id thread_id))
        EventRouterError.InvalidCorrelation;
  _ ← modify retain_alive;
  s ← get;
  _ ← reject_if (MAX_ACTIVE_ROUTES <=? length s.(EventRouter.routes)) EventRouterError.TooManyRoutes;
  _ ← reject_if (existsb (fun route =>
          (route.(Route.connection_identity) =? connection_identity)%N
          && (str_eqb route.(Route.run_id) run_id || str_eqb route.(Route.thread_id) thread_id))
          s.(EventRouter.routes)) EventRouterError.DuplicateRoute;
  let route_id := s.(EventRouter.next_route_id) in
  let queue := s.(EventRouter.next_queue) in
  _ ← modify (fun s => EventRouter.mk s.(EventRouter.identity)
        ((route_id + 1) mod (u64_max + 1))
        (s.(EventRouter.routes) ++
         [Route.mk route_id connection_identity run_id thread_id None 1 0 false queue])
        (<[ queue := EventQueue.default ]> s.(EventRouter.heap)) (queue + 1));
  mret (RunEventStream.mk s.(EventRouter.identity) route_id queue).

(** [routes.iter_mut().find(|route| route.route_id == id)]: the index of the route *)
Definition find_route (route_id : N) (routes : list Route.t) : option (nat * Route.t) :=
  list_find (fun route => route.(Route.route_id) = route_id) routes.

Definition bind_turn (stream : RunEventStream.t) (turn_id : string) : RouterM unit :=
  s ← get;
  _ ← reject_if (negb (s.(EventRouter.identity) =? stream.(RunEventStream.router_identity))%N
                 || negb (valid_id turn_id)) EventRouterError.InvalidCorrelation;
  found ← lift (ok_or (find_route stream.(RunEventStream.route_id) s.(EventRouter.routes))
                  EventRouterError.UnknownRoute);
  let (index, route) := (found : nat * Route.t) in
  match route.(Route.turn_id) with
  | Some expected =>
    if negb (str_eqb expected turn_id) then throw EventRouterError.TurnMismatch else mret tt
  | None => modify (fun s => EventRouter.set_routes
              (alter (Route.set_turn (Some turn_id)) index s.(EventRouter.routes)) s)
  end.

(** [subscribe_run] *)
Definition subscribe_run (connection_identity : N) (run_id thread_id turn_id : string)
    : RouterM RunEventStream.t :=
  stream ← prepare_run connection_identity run_id thread_id;
  _ ← bind_turn stream turn_id;
  mret stream.

(** The route that a notification belongs to *)
Definition concerns (connection_identity : N) (event : NormalizedEvent.t) (route : Route.t) : Prop :=
  route.(Route.connection_identity) = connection_identity /\
  route.(Route.thread_id) = event.(NormalizedEvent.thread_id) /\
  is_none_or (str_eqb event.(NormalizedEvent.turn_id)) route.(Route.turn_id) = true.
#[global] Instance concerns_dec connection_identity event route :
  Decision (concerns connection_identity event route).
Proof. unfold concerns. apply _. Defined.

(** [push_to_queue], when the queue is still there *)
Definition send (queue : N) (event : option RunEvent.t) (heap : gmap N EventQueue.t)
    : gmap N EventQueue.t :=
  match event with Some event => alter (EventQueue.push event) queue heap | None => heap end.

Definition deactivate (queue : N) (heap : gmap N EventQueue.t) : gmap N EventQueue.t :=
  alter (EventQueue.set_active false) queue heap.

(** [EventRouter::route] *)
Definition route (connection_identity : N) (method : string) (params : Value.t)
    (s : EventRouter.t) : EventRouter.t :=
  match normalize_event method params with
  | None => s
  | Some normalized =>
    let s := retain_alive s in
    match list_find (concerns connection_identity normalized) s.(EventRouter.routes) with
    | None => s
    | Some (index, route) =>
      if is_none route.(Route.turn_id)
         && negb (bool_decide (normalized.(NormalizedEvent.kind) = RunEventKind.Running))
      then s else
      let route := if is_none route.(Route.turn_id)
                   then Route.set_turn (Some normalized.(NormalizedEvent.turn_id)) route
                   else route in
      let (route', sent) := route_push normalized.(NormalizedEvent.kind) route in
      let heap := send route.(Route.queue) sent s.(EventRouter.heap) in
      let routes := <[ index := route' ]> s.(EventRouter.routes) in
      if normalized.(NormalizedEvent.terminal)
      then EventRouter.set_routes (delete index routes)
             (EventRouter.set_heap (deactivate route.(Route.queue) heap) s)
      else EventRouter.set_routes routes (EventRouter.set_heap heap s)
    end
  end.

Definition deactivate_all (s : EventRouter.t) : EventRouter.t :=
  EventRouter.set_routes []
    (EventRouter.set_heap
       (foldr (fun route => deactivate route.(Route.queue)) s.(EventRouter.heap)
          s.(EventRouter.routes)) s).

(** ** The stream *)

(** [RunEventStream::try_recv] *)
Definition try_recv (stream : RunEventStream.t) (s : EventRouter.t)
    : option RunEvent.t * EventRouter.t :=
  match s.(EventRouter.heap) !! stream.(RunEventStream.queue) with
  | Some q =>
    match q.(EventQueue.events) with
    | event :: rest =>
      (Some event, EventRouter.set_heap
         (<[ stream.(RunEventStream.queue) := EventQueue.set_events rest q ]> s.(EventRouter.heap)) s)
    | [] => (None, s)
    end
  | None => (None, s)
  end.

Definition is_active (stream : RunEventStream.t) (s : EventRouter.t) : bool :=
  is_some_and EventQueue.active (s.(EventRouter.heap) !! stream.(RunEventStream.queue)).

(** The stream goes out of scope: the last strong reference to its queue. *)
Definition drop_stream (stream : RunEventStream.t) (s : EventRouter.t) : EventRouter.t :=
  EventRouter.set_heap (delete stream.(RunEventStream.queue) s.(EventRouter.heap)) s.
End Router.
