(* ===== verification/EventThm.v ===== *)
(** * What a run's event stream shows

    The invariant of the router, and its consequences for the observer of a run: events of
    its own run only, in order, without silent loss, within bounds. *)

From S2P Require Import Prelude AppJson EventRouter.

(** ** Queues *)

(** The three things that a push does to the events of a queue *)
Lemma push_cases event q :
  let events := q.(EventQueue.events) in
  let events' := (EventQueue.push event q).(EventQueue.events) in
  (EventQueue.push event q).(EventQueue.active) = q.(EventQueue.active) /\
  (events' = events ++ [event] /\ length events < EVENT_QUEUE_CAPACITY \/
   events' = events /\ length events >= EVENT_QUEUE_CAPACITY /\
     (exists front gap, events = front ++ [gap] /\ RunEventKind.is_gap gap.(RunEvent.kind) = true) \/
   (exists front back gap, events = front ++ [back] /\
     RunEventKind.is_gap back.(RunEvent.kind) = false /\
     RunEventKind.is_gap gap.(RunEvent.kind) = true /\ events' = front ++ [gap])).
Proof.
  destruct q as [active events]. unfold EventQueue.push. simpl.
  destruct (length events <? EVENT_QUEUE_CAPACITY) eqn:Hlen; simpl.
  { split; [done|]. left. split; [done|]. by apply Nat.ltb_lt. }
  apply Nat.ltb_ge in Hlen.
  destruct events as [|back front _] using rev_ind; [simpl in Hlen; unfold EVENT_QUEUE_CAPACITY in Hlen; lia|].
  rewrite last_snoc. simpl. destruct (RunEventKind.is_gap (RunEvent.kind back)) eqn:Hgap; simpl.
  - split; [done|]. right. left. split; [done|]. split; [lia|]. by exists front, back.
  - split; [done|]. right. right. rewrite removelast_last.
    by exists front, back, (RunEvent.mk event.(RunEvent.run_id) event.(RunEvent.sequence)
      (RunEventKind.Gap RunEventGapReason.ObserverLagged)).
Qed.

Lemma push_length event q :
  length q.(EventQueue.events) <= EVENT_QUEUE_CAPACITY ->
  length (EventQueue.push event q).(EventQueue.events) <= EVENT_QUEUE_CAPACITY.
Proof.
  intros Hlen. destruct (push_cases event q) as [_ [[-> Hlt]|[[-> _]|(front & back & gap & Heq & _ & _ & ->)]]];
    rewrite ?length_app; simpl; [lia|lia|]. rewrite Heq, length_app in Hlen. simpl in Hlen. lia.
Qed.

(** ** Operations and their histories *)

Section Histories.
Context `{RunEventJson}.

Inductive RouterOp :=
| Prepare (connection_identity : N) (run_id thread_id : string)
| Bind (stream : RunEventStream.t) (turn_id : string)
| Notify (connection_identity : N) (method : string) (params : Value.t)
| Disconnect
| Receive (stream : RunEventStream.t)
| Drop (stream : RunEventStream.t).

Definition router_step (op : RouterOp) (s : EventRouter.t) : EventRouter.t :=
  match op with
  | Prepare c run_id thread_id => (prepare_run c run_id thread_id s).2
  | Bind stream turn_id => (bind_turn stream turn_id s).2
  | Notify c method params => route c method params s
  | Disconnect => deactivate_all s
  | Receive stream => (try_recv stream s).2
  | Drop stream => drop_stream stream s
  end.

Definition run_ops (ops : list RouterOp) (s : EventRouter.t) : EventRouter.t :=
  foldl (fun s op => router_step op s) s ops.

Definition router_reachable (s : EventRouter.t) : Prop :=
  exists identity ops, s = run_ops ops (EventRouter.new identity).

(** The route that takes a notification, and the event it takes *)
Definition target (c : N) (method : string) (params : Value.t) (s : EventRouter.t)
    : option (Route.t * NormalizedEvent.t) :=
  normalized ← normalize_event method params;
  found ← list_find (concerns c normalized) (retain_alive s).(EventRouter.routes);
  if is_none found.2.(Route.turn_id)
     && negb (bool_decide (normalized.(NormalizedEvent.kind) = RunEventKind.Running))
  then None else Some (found.2, normalized).

(** What [route] does: nothing but a cleanup, or one event for one route. *)
Inductive routed (c : N) (method : string) (params : Value.t) (s s' : EventRouter.t) : Prop :=
| routed_away :
    target c method params s = None -> (s' = s \/ s' = retain_alive s) -> routed c method params s s'
| routed_to normalized i r r0 r' sent :
    target c method params s = Some (r, normalized) ->
    normalize_event method params = Some normalized ->
    (retain_alive s).(EventRouter.routes) !! i = Some r -> concerns c normalized r ->
    (r.(Route.turn_id) = None -> normalized.(NormalizedEvent.kind) = RunEventKind.Running) ->
    r0 = (if is_none r.(Route.turn_id)
          then Route.set_turn (Some normalized.(NormalizedEvent.turn_id)) r else r) ->
    route_push normalized.(NormalizedEvent.kind) r0 = (r', sent) ->
    s' = (if normalized.(NormalizedEvent.terminal)
          then EventRouter.set_routes
                 (delete i (<[ i := r' ]> (retain_alive s).(EventRouter.routes)))
                 (EventRouter.set_heap
                    (deactivate r.(Route.queue) (send r.(Route.queue) sent s.(EventRouter.heap))) s)
          else EventRouter.set_routes (<[ i := r' ]> (retain_alive s).(EventRouter.routes))
                 (EventRouter.set_heap (send r.(Route.queue) sent s.(EventRouter.heap)) s)) ->
    routed c method params s s'.

Lemma route_routed c method params s : routed c method params s (route c method params s).
Proof.
  unfold route. destruct (normalize_event method params) as [n|] eqn:Hn.
  2: { apply routed_away; [|by left]. unfold target. by rewrite Hn. }
  destruct (list_find _ _) as [[i r]|] eqn:Hfind.
  2: { apply routed_away; [|by right]. unfold target. rewrite Hn. simpl in *. by rewrite Hfind. }
  destruct (is_none r.(Route.turn_id) && _) eqn:Hbound.
  { apply routed_away; [|by right]. unfold target. rewrite Hn. simpl in *. rewrite Hfind. simpl.
    by rewrite Hbound. }
  destruct (route_push _ _) as [r' sent] eqn:Hpush.
  apply list_find_Some in Hfind as Hf. destruct Hf as (Hi & Hc & _).
  eapply (routed_to c method params s _ n i r _ r' sent); try done.
  - unfold target. rewrite Hn. simpl in *. rewrite Hfind. simpl. by rewrite Hbound.
  - intros Hnone. rewrite Hnone in Hbound. simpl in Hbound.
    by apply negb_false_iff, bool_decide_eq_true in Hbound.
  - assert (Route.queue (if is_none r.(Route.turn_id)
      then Route.set_turn (Some n.(NormalizedEvent.turn_id)) r else r) = r.(Route.queue)) as ->
      by (by destruct (is_none _)). done.
Qed.

(** ** The invariant *)

(** What of a route never changes *)
Definition route_key (r : Route.t) : N * string * string * N :=
  (r.(Route.connection_identity), r.(Route.run_id), r.(Route.thread_id), r.(Route.queue)).

Definition conn_of (k : N * string * string * N) : N := k.1.1.1.
Definition run_of_key (k : N * string * string * N) : string := k.1.1.2.
Definition thread_of (k : N * string * string * N) : string := k.1.2.
Definition queue_of (k : N * string * string * N) : N := k.2.

Record keys_ok (next_queue : N) (keys : list (N * string * string * N)) : Prop := {
  ko_fresh : Forall (fun k => queue_of k < next_queue)%N keys;
  ko_queues : NoDup (queue_of <$> keys);
  ko_threads : NoDup ((fun k => (conn_of k, thread_of k)) <$> keys);
  ko_runs : NoDup ((fun k => (conn_of k, run_of_key k)) <$> keys);
  ko_len : length keys <= MAX_ACTIVE_ROUTES;
}.

Lemma foldr_deactivate_lookup routes heap q :
  foldr (fun r => deactivate r.(Route.queue)) heap routes !! q =
  (if decide (q ∈ (Route.queue <$> routes)) then EventQueue.set_active false <$> heap !! q
   else heap !! q).
Proof.
  revert q. induction routes as [|r routes IH]; intros q.
  { simpl foldr. case_decide as Hin; [by apply not_elem_of_nil in Hin|done]. }
  cbn [foldr]. unfold deactivate at 1. rewrite lookup_alter, !IH, fmap_cons. clear IH.
  repeat case_decide; subst; try set_solver; by destruct (heap !! _).
Qed.

(** The invariant, with a property of routes that the router's writes keep *)
Variable P : Route.t -> Prop.
Hypothesis P_new : forall route_id c run_id thread_id queue,
  P (Route.mk route_id c run_id thread_id None 1 0 false queue).
Hypothesis P_turn : forall r turn_id, P r -> P (Route.set_turn turn_id r).
Hypothesis P_push : forall kind r r' sent, P r -> route_push kind r = (r', sent) -> P r'.

Record router_inv (s : EventRouter.t) : Prop := {
  ri_keys : keys_ok s.(EventRouter.next_queue) (route_key <$> s.(EventRouter.routes));
  ri_routes : Forall P s.(EventRouter.routes);
  ri_fresh q Q : s.(EventRouter.heap) !! q = Some Q -> (q < s.(EventRouter.next_queue))%N;
  ri_events q Q : s.(EventRouter.heap) !! q = Some Q ->
    length Q.(EventQueue.events) <= EVENT_QUEUE_CAPACITY;
  ri_active q Q : s.(EventRouter.heap) !! q = Some Q ->
    (Q.(EventQueue.active) = true <-> q ∈ (Route.queue <$> s.(EventRouter.routes)));
}.

Lemma keys_ok_sub n keys keys' :
  keys' `sublist_of` keys -> keys_ok n keys -> keys_ok n keys'.
Proof.
  intros Hsub []. split.
  - rewrite list.Forall_forall in *. eauto using elem_of_sublist.
  - eapply sublist_NoDup; [done|]. by apply fmap_sublist.
  - eapply sublist_NoDup; [exact ko_threads0|]. by apply fmap_sublist.
  - eapply sublist_NoDup; [exact ko_runs0|]. by apply fmap_sublist.
  - apply sublist_length in Hsub. lia.
Qed.

Lemma List_filter_sublist {A} (f : A -> bool) (l : list A) : List.filter f l `sublist_of` l.
Proof.
  induction l as [|x l IH]; simpl; [constructor|]. destruct (f x); by constructor.
Qed.

Lemma elem_of_List_filter {A} (f : A -> bool) (l : list A) x :
  x ∈ List.filter f l <-> f x = true /\ x ∈ l.
Proof. rewrite !list_elem_of_In, filter_In. naive_solver. Qed.

Lemma retain_inv s : router_inv s -> router_inv (retain_alive s).
Proof.
  intros []. split; simpl; try done.
  - eapply keys_ok_sub; [|done]. apply fmap_sublist, List_filter_sublist.
  - rewrite list.Forall_forall in *. intros r [_ Hin]%elem_of_List_filter. auto.
  - intros q Q Hq. rewrite (ri_active0 q Q Hq), !list_elem_of_fmap.
    setoid_rewrite elem_of_List_filter. split.
    + intros (r & -> & Hin). exists r. split_and!; try done. unfold alive. by rewrite Hq.
    + naive_solver.
Qed.

Lemma new_inv identity : router_inv (EventRouter.new identity).
Proof.
  split; simpl; try done.
  split; try constructor. simpl. lia.
Qed.

(** The same keys, the same queues, other contents: what [bind_turn] and [route] write *)
Lemma same_keys_queues (routes routes' : list Route.t) :
  route_key <$> routes' = route_key <$> routes ->
  Route.queue <$> routes' = Route.queue <$> routes.
Proof.
  intros Heq. change (Route.queue) with (fun r => queue_of (route_key r)).
  by rewrite !(list_fmap_compose route_key queue_of), Heq.
Qed.

Lemma insert_same_key (i : nat) r r' (routes : list Route.t) :
  routes !! i = Some r -> route_key r' = route_key r ->
  route_key <$> <[ i := r' ]> routes = route_key <$> routes.
Proof.
  intros Hi Hk. rewrite list_fmap_insert, Hk. apply list_insert_id. by rewrite list_lookup_fmap, Hi.
Qed.

Lemma route_push_key kind r r' sent : route_push kind r = (r', sent) -> route_key r' = route_key r.
Proof.
  unfold route_push. destruct r.(Route.saturated); [by intros [= <- _]|].
  destruct (_ || _); by intros [= <- _].
Qed.

Lemma prepare_inv c run_id thread_id s :
  router_inv s -> router_inv (prepare_run c run_id thread_id s).2.
Proof.
  intros Hinv. unfold prepare_run.
  destruct (negb _ || _); [done|]. rewrite (bind_ok _ _ _ tt s) by done.
  apply retain_inv in Hinv as Hinv1. rewrite (bind_ok _ _ _ tt (retain_alive s)) by done.
  rewrite (bind_ok _ _ _ (retain_alive s) (retain_alive s)) by done.
  set (s1 := retain_alive s) in *. clearbody s1. clear Hinv s.
  destruct (MAX_ACTIVE_ROUTES <=? _) eqn:Hlen; [done|]. rewrite (bind_ok _ _ _ tt s1) by done.
  destruct (existsb _ _) eqn:Hdup; [done|]. rewrite (bind_ok _ _ _ tt s1) by done.
  apply Nat.leb_gt in Hlen. unfold mbind, M_bind, modify, mret, M_ret. cbn [snd].
  assert (Forall (fun r => ~ (r.(Route.connection_identity) = c /\
    (r.(Route.run_id) = run_id \/ r.(Route.thread_id) = thread_id))) s1.(EventRouter.routes)) as Hnew.
  { rewrite list.Forall_forall. intros r Hin [Hc Hor]. apply not_true_iff_false in Hdup. apply Hdup.
    apply existsb_exists. exists r. split; [by apply list_elem_of_In|].
    rewrite Hc, N.eqb_refl. simpl. destruct Hor as [-> | ->]; rewrite str_eqb_refl; [done|].
    apply orb_true_r. }
  rewrite list.Forall_forall in Hnew.
  destruct Hinv1 as [[] Hroutes Hfresh Hevents Hactive]. split; simpl.
  - rewrite fmap_app. split.
    + apply Forall_app. split; [|apply list.Forall_singleton; unfold queue_of; simpl; lia].
      eapply list.Forall_impl; [exact ko_fresh0|]. simpl. intros k Hk. lia.
    + rewrite fmap_app. apply list.NoDup_app. split_and!; [done| |apply NoDup_singleton].
      intros q Hq ->%list_elem_of_singleton. rewrite list.Forall_forall in ko_fresh0.
      apply list_elem_of_fmap in Hq as (k & Heq & Hk). specialize (ko_fresh0 _ Hk).
      change (s1.(EventRouter.next_queue) = queue_of k) in Heq. lia.
    + rewrite fmap_app. apply list.NoDup_app. split_and!; [done| |apply NoDup_singleton].
      intros x Hx ->%list_elem_of_singleton. rewrite <- list_fmap_compose in Hx.
      apply list_elem_of_fmap in Hx as (r & [= Hc Ht] & Hin). apply (Hnew r Hin). auto.
    + rewrite fmap_app. apply list.NoDup_app. split_and!; [done| |apply NoDup_singleton].
      intros x Hx ->%list_elem_of_singleton. rewrite <- list_fmap_compose in Hx.
      apply list_elem_of_fmap in Hx as (r & [= Hc Ht] & Hin). apply (Hnew r Hin). auto.
    + rewrite length_app, length_fmap. simpl. lia.
  - apply Forall_app. split; [done|]. by apply list.Forall_singleton.
  - intros q Q [[<- <-]|[_ Hq]]%lookup_insert_Some; [lia|]. apply Hfresh in Hq. lia.
  - intros q Q [[<- <-]|[_ Hq]]%lookup_insert_Some; [simpl; lia|]. eauto.
  - intros q Q [[<- <-]|[Hne Hq]]%lookup_insert_Some; rewrite fmap_app, elem_of_app; simpl.
    + split; [|done]. intros _. right. by apply list_elem_of_singleton.
    + rewrite (Hactive q Q Hq). split; [by left|]. intros [Hin|Heq%list_elem_of_singleton]; done.
Qed.

(** A write that keeps the keys of the routes and the liveness of the queues *)
Lemma rewrite_inv s routes' heap' :
  router_inv s -> route_key <$> routes' = route_key <$> s.(EventRouter.routes) ->
  Forall P routes' ->
  (forall q Q', heap' !! q = Some Q' -> exists Q, s.(EventRouter.heap) !! q = Some Q /\
     Q'.(EventQueue.active) = Q.(EventQueue.active) /\
     length Q'.(EventQueue.events) <= EVENT_QUEUE_CAPACITY) ->
  router_inv (EventRouter.set_routes routes' (EventRouter.set_heap heap' s)).
Proof.
  intros [] Hkeys HP Hheap. split; simpl.
  - by rewrite Hkeys.
  - done.
  - intros q Q' (Q & Hq & _)%Hheap. eauto.
  - by intros q Q' (Q & _ & _ & ?)%Hheap.
  - intros q Q' (Q & Hq & -> & _)%Hheap. rewrite (same_keys_queues _ _ Hkeys). eauto.
Qed.

Lemma alter_insert {A} (f : A -> A) (l : list A) i x :
  l !! i = Some x -> alter f i l = <[ i := f x ]> l.
Proof.
  revert i. induction l as [|y l IH]; intros [|i] Hi; simpl in *; simplify_eq; [done|].
  f_equal. by apply IH.
Qed.

Lemma Forall_at (l : list Route.t) i r : Forall P l -> l !! i = Some r -> P r.
Proof. rewrite list.Forall_forall. intros Hall Hi. by eapply Hall, list_elem_of_lookup_2. Qed.

Lemma bind_inv stream turn_id s : router_inv s -> router_inv (bind_turn stream turn_id s).2.
Proof.
  intros Hinv. unfold bind_turn, get, reject_if, lift, modify, throw, mbind, M_bind, mret, M_ret.
  repeat case_match; simplify_eq/=; try done. bool_hyps.
  match goal with Hf : find_route _ (EventRouter.routes ?st) = Some (?i, ?r) |- _ =>
    unfold find_route in Hf; apply list_find_Some in Hf as (Hi & _ & _);
    rewrite (alter_insert _ _ _ r Hi);
    change (router_inv (EventRouter.set_routes
      (<[ i := Route.set_turn (Some turn_id) r ]> st.(EventRouter.routes))
      (EventRouter.set_heap st.(EventRouter.heap) st)));
    apply rewrite_inv; [done|by apply (insert_same_key _ r)|
      apply Forall_insert; [apply Hinv|]; eapply P_turn, Forall_at; [apply Hinv|exact Hi]|] end.
  intros q Q Hq. exists Q. split_and!; [done..|]. by eapply ri_events.
Qed.

(** What a queue looks like after a message was sent to it *)
Lemma send_lookup queue sent heap q Q' :
  send queue sent heap !! q = Some Q' ->
  exists Q, heap !! q = Some Q /\
    Q' = match sent with
         | Some event => if decide (q = queue) then EventQueue.push event Q else Q
         | None => Q
         end.
Proof.
  destruct sent as [event|]; simpl; [|by eauto]. destruct (decide (q = queue)) as [->|Hne].
  - rewrite lookup_alter_eq. intros (Q & Hq & ->)%fmap_Some. eauto.
  - rewrite lookup_alter_ne by done. eauto.
Qed.

Lemma route_inv c method params s : router_inv s -> router_inv (route c method params s).
Proof.
  intros Hinv.
  destruct (route_routed c method params s) as [_ [-> | ->]|n i r r0 r' sent _ Hn Hi Hc Hb Hr0 Hpush Hs'];
    [done|by apply retain_inv|].
  apply retain_inv in Hinv as Hinv1.
  assert (P r) as HPr by (eapply Forall_at; [apply Hinv1|exact Hi]).
  assert (route_key r' = route_key r) as Hk.
  { rewrite (route_push_key _ _ _ _ Hpush), Hr0. by destruct (is_none _). }
  assert (P r') as HPr'. { eapply P_push; [|exact Hpush]. subst r0. destruct (is_none _); auto. }
  assert (router_inv (EventRouter.set_routes (<[ i := r' ]> (retain_alive s).(EventRouter.routes))
    (EventRouter.set_heap (send r.(Route.queue) sent s.(EventRouter.heap)) (retain_alive s)))) as Hinv2.
  { apply rewrite_inv; [done|by apply (insert_same_key _ r)| |].
    - apply Forall_insert; [apply Hinv1|done].
    - intros q Q' (Q & Hq & ->)%send_lookup. exists Q. split; [done|].
      pose proof (ri_events _ Hinv _ _ Hq) as Hlen.
      destruct sent as [event|]; [|done]. destruct (decide _); [|done].
      split; [apply push_cases|by apply push_length]. }
  rewrite Hs'. destruct n.(NormalizedEvent.terminal); [|exact Hinv2]. clear Hs'.
  assert ((<[ i := r' ]> (retain_alive s).(EventRouter.routes)) !! i = Some r') as Hi'
    by (apply list_lookup_insert_eq; by eapply lookup_lt_Some).
  apply delete_Permutation, (fmap_Permutation Route.queue) in Hi'. simpl in Hi'.
  assert (r'.(Route.queue) = r.(Route.queue)) as Hq' by (by injection Hk).
  destruct Hinv2 as [Hkeys HP Hfresh Hevents Hactive]. split; simpl in *.
  - eapply keys_ok_sub; [|exact Hkeys]. apply fmap_sublist, sublist_delete.
  - rewrite list.Forall_forall in HP. rewrite list.Forall_forall. intros x Hx. apply HP.
    eapply elem_of_sublist; [exact Hx|apply sublist_delete].
  - intros q Q. unfold deactivate. rewrite lookup_alter. intros Hq. case_decide; [subst q|by eapply Hfresh].
    apply fmap_Some in Hq as (Q1 & Hq & ->). by eapply Hfresh.
  - intros q Q. unfold deactivate. rewrite lookup_alter. intros Hq. case_decide; [subst q|by eapply Hevents].
    apply fmap_Some in Hq as (Q1 & Hq & ->). by eapply (Hevents _ Q1).
  - intros q Q. unfold deactivate. rewrite lookup_alter. intros Hq.
    pose proof (ko_queues _ _ Hkeys) as Hnd. rewrite <- list_fmap_compose in Hnd.
    change (queue_of ∘ route_key) with Route.queue in Hnd. rewrite Hi' in Hnd.
    apply list.NoDup_cons in Hnd as [Hnotin _]. rewrite Hq' in *. case_decide.
    + subst q. apply fmap_Some in Hq as (Q1 & Hq & ->). simpl. naive_solver.
    + rewrite (Hactive q Q Hq), Hi', elem_of_cons. naive_solver.
Qed.

Lemma deactivate_all_inv s : router_inv s -> router_inv (deactivate_all s).
Proof.
  intros Hinv.
  assert (forall q Q, (deactivate_all s).(EventRouter.heap) !! q = Some Q ->
    exists Q1, s.(EventRouter.heap) !! q = Some Q1 /\ Q.(EventQueue.events) = Q1.(EventQueue.events) /\
      Q.(EventQueue.active) = false) as Hheap.
  { intros q Q. simpl. rewrite foldr_deactivate_lookup. case_decide as Hin; intros Hq.
    - apply fmap_Some in Hq as (Q1 & Hq & ->). by exists Q1.
    - exists Q. split_and!; [done..|]. apply not_true_iff_false. by rewrite (ri_active _ Hinv _ _ Hq). }
  split.
  - simpl. apply (keys_ok_sub _ (route_key <$> s.(EventRouter.routes))); [apply sublist_nil_l|apply Hinv].
  - constructor.
  - intros q Q (Q1 & Hq & _)%Hheap. exact (ri_fresh _ Hinv _ _ Hq).
  - intros q Q (Q1 & Hq & -> & _)%Hheap. exact (ri_events _ Hinv _ _ Hq).
  - intros q Q (Q1 & _ & _ & ->)%Hheap. simpl. split; [done|]. by intros ?%not_elem_of_nil.
Qed.

Lemma receive_inv stream s : router_inv s -> router_inv (try_recv stream s).2.
Proof.
  intros Hinv. unfold try_recv. destruct (_ !! _) as [Q|] eqn:HQ; [|done].
  destruct Q.(EventQueue.events) as [|event rest] eqn:Hev; [done|]. simpl.
  change (router_inv (EventRouter.set_routes s.(EventRouter.routes) (EventRouter.set_heap
    (<[ stream.(RunEventStream.queue) := EventQueue.set_events rest Q ]> s.(EventRouter.heap)) s))).
  apply rewrite_inv; [done|done|apply Hinv|].
  intros q Q' [[<- <-]|[_ Hq]]%lookup_insert_Some.
  - exists Q. split_and!; [done..|]. simpl. pose proof (ri_events _ Hinv _ _ HQ) as Hlen.
    rewrite Hev in Hlen. simpl in Hlen. lia.
  - exists Q'. split_and!; [done..|]. by eapply ri_events.
Qed.

Lemma drop_inv stream s : router_inv s -> router_inv (drop_stream stream s).
Proof.
  intros []. split; simpl; try done; intros q Q [_ Hq]%lookup_delete_Some; eauto.
Qed.

Lemma router_step_inv op s : router_inv s -> router_inv (router_step op s).
Proof.
  destruct op; simpl; auto using prepare_inv, bind_inv, route_inv, deactivate_all_inv, receive_inv, drop_inv.
Qed.

Lemma run_ops_inv ops s : router_inv s -> router_inv (run_ops ops s).
Proof. revert s. induction ops as [|op ops IH]; simpl; auto using router_step_inv. Qed.

Lemma router_reachable_inv s : router_reachable s -> router_inv s.
Proof. intros (identity & ops & ->). apply run_ops_inv, new_inv. Qed.
End Histories.

(** ** What the observer of a run sees *)

Section Observer.
Context `{RunEventJson}.

(** Events of a run, numbered from one *)
Definition numbered (run_id : string) (kinds : list RunEventKind.t) : list RunEvent.t :=
  imap (fun i kind => RunEvent.mk run_id (N.of_nat i + 1) kind) kinds.

Lemma numbered_snoc run_id kinds kind :
  numbered run_id (kinds ++ [kind]) =
  numbered run_id kinds ++ [RunEvent.mk run_id (N.of_nat (length kinds) + 1) kind].
Proof. unfold numbered. rewrite imap_app. simpl. by rewrite Nat.add_0_r. Qed.

(** The first events that happened, and a gap instead of what follows *)
Definition gapped (run_id : string) (kinds : list RunEventKind.t) (seen : list RunEvent.t) : Prop :=
  exists k gap more, k <= length kinds /\
    seen = numbered run_id (take k kinds) ++ gap :: more /\
    RunEventKind.is_gap gap.(RunEvent.kind) = true.

Lemma gapped_grow run_id kinds kinds' seen :
  gapped run_id kinds seen -> gapped run_id (kinds ++ kinds') seen.
Proof.
  intros (k & gap & more & Hk & -> & Hgap). exists k, gap, more.
  rewrite length_app, take_app_le by done. split_and!; [lia|done..].
Qed.

Lemma gapped_snoc run_id kinds seen event : gapped run_id kinds seen -> gapped run_id kinds (seen ++ [event]).
Proof.
  intros (k & gap & more & Hk & -> & Hgap). exists k, gap, (more ++ [event]).
  by rewrite <- app_assoc.
Qed.

(** The last event replaced by a gap *)
Lemma gapped_lagged run_id kinds seen back gap :
  RunEventKind.is_gap gap.(RunEvent.kind) = true -> RunEventKind.is_gap back.(RunEvent.kind) = false ->
  seen ++ [back] = numbered run_id kinds \/ gapped run_id kinds (seen ++ [back]) ->
  gapped run_id kinds (seen ++ [gap]).
Proof.
  intros Hgap Hback [Heq|(k & gap0 & more & Hk & Heq & Hgap0)].
  - destruct kinds as [|kind kinds _] using rev_ind; [by destruct seen|].
    rewrite numbered_snoc in Heq. apply app_inj_tail in Heq as [-> _].
    exists (length kinds), gap, []. rewrite length_app, take_app_length. split_and!; [lia|done..].
  - destruct more as [|last more _] using rev_ind.
    + apply app_inj_tail in Heq as [_ ->]. congruence.
    + change (gap0 :: more ++ [last]) with ((gap0 :: more) ++ [last]) in Heq.
      rewrite app_assoc in Heq. apply app_inj_tail in Heq as [-> _].
      exists k, gap0, (more ++ [gap]). by rewrite <- app_assoc.
Qed.

Lemma push_seen run_id kinds received event q :
  received ++ q.(EventQueue.events) = numbered run_id kinds \/
    gapped run_id kinds (received ++ q.(EventQueue.events)) ->
  received ++ (EventQueue.push event q).(EventQueue.events)
      = received ++ q.(EventQueue.events) ++ [event] \/
  gapped run_id kinds (received ++ (EventQueue.push event q).(EventQueue.events)).
Proof.
  intros Hseen. destruct (push_cases event q)
    as [_ [[-> _]|[(-> & _ & front & gap & Heq & Hgap)|(front & back & gap & Heq & Hback & Hgap & ->)]]].
  - by left.
  - right. destruct Hseen as [Hseen|]; [|done]. rewrite Heq, app_assoc in *.
    destruct kinds as [|kind kinds _] using rev_ind; [by destruct (received ++ front)|].
    rewrite numbered_snoc in Hseen. apply app_inj_tail in Hseen as [-> _].
    exists (length kinds), gap, []. rewrite length_app, take_app_length. split_and!; [lia|done..].
  - right. rewrite Heq, !app_assoc in *. by apply (gapped_lagged _ _ _ back).
Qed.

(** What a step of the router hands to the route of a queue, and what it takes from the queue *)
Definition handed (queue : N) (op : RouterOp) (s : EventRouter.t) : list RunEventKind.t :=
  match op with
  | Notify c method params =>
    match target c method params s with
    | Some (r, normalized) =>
      if (r.(Route.queue) =? queue)%N then [normalized.(NormalizedEvent.kind)] else []
    | None => []
    end
  | _ => []
  end.

Definition taken (queue : N) (op : RouterOp) (s : EventRouter.t) : list RunEvent.t :=
  match op with
  | Receive stream =>
    if (stream.(RunEventStream.queue) =? queue)%N
    then match (try_recv stream s).1 with Some event => [event] | None => [] end else []
  | _ => []
  end.

Fixpoint all_handed (queue : N) (ops : list RouterOp) (s : EventRouter.t) : list RunEventKind.t :=
  match ops with
  | [] => []
  | op :: ops => handed queue op s ++ all_handed queue ops (router_step op s)
  end.

Fixpoint all_taken (queue : N) (ops : list RouterOp) (s : EventRouter.t) : list RunEvent.t :=
  match ops with
  | [] => []
  | op :: ops => taken queue op s ++ all_taken queue ops (router_step op s)
  end.

Definition seq_ok (r : Route.t) : Prop := (1 <= r.(Route.next_sequence) <= MAX_RUN_EVENTS)%N.

Lemma seq_ok_push kind r r' sent : seq_ok r -> route_push kind r = (r', sent) -> seq_ok r'.
Proof.
  unfold route_push, seq_ok. intros Hseq Hpush. destruct r.(Route.saturated); [by simplify_eq|].
  destruct (_ || _) eqn:Hlimit; simplify_eq/=; [done|].
  apply orb_false_iff in Hlimit as [[Hl%N.leb_gt _]%orb_false_iff _]. unfold MAX_RUN_EVENTS in *. lia.
Qed.

Lemma seq_ok_step op s : router_inv seq_ok s -> router_inv seq_ok (router_step op s).
Proof.
  apply router_step_inv; [|done|apply seq_ok_push].
  intros. unfold seq_ok, MAX_RUN_EVENTS. simpl. lia.
Qed.

(** A route that counts what it was handed, for a queue without a gap so far *)
Definition counts (run_id : string) (kinds : list RunEventKind.t) (queue : N) (r : Route.t) : Prop :=
  r.(Route.queue) = queue ->
  r.(Route.run_id) = run_id /\ r.(Route.next_sequence) = (N.of_nat (length kinds) + 1)%N /\
  r.(Route.saturated) = false.

Record stream_inv (queue : N) (run_id : string) (s : EventRouter.t)
    (kinds : list RunEventKind.t) (received : list RunEvent.t) : Prop := {
  si_router : router_inv seq_ok s;
  si_queue : (queue < s.(EventRouter.next_queue))%N;
  si_seen Q : s.(EventRouter.heap) !! queue = Some Q ->
    received ++ Q.(EventQueue.events) = numbered run_id kinds /\
      Forall (counts run_id kinds queue) s.(EventRouter.routes) \/
    gapped run_id kinds (received ++ Q.(EventQueue.events));
}.

Lemma Forall_List_filter {A} (P : A -> Prop) (f : A -> bool) l : Forall P l -> Forall P (List.filter f l).
Proof. rewrite !list.Forall_forall. intros Hall x [_ Hx]%elem_of_List_filter. auto. Qed.

(** A step that leaves the queue alone and keeps the counts of its route *)
Lemma stream_inv_same queue run_id s s' kinds received :
  stream_inv queue run_id s kinds received ->
  router_inv seq_ok s' ->
  (s.(EventRouter.next_queue) <= s'.(EventRouter.next_queue))%N ->
  (forall Q', s'.(EventRouter.heap) !! queue = Some Q' ->
     exists Q, s.(EventRouter.heap) !! queue = Some Q /\
       Q'.(EventQueue.events) = Q.(EventQueue.events)) ->
  (Forall (counts run_id kinds queue) s.(EventRouter.routes) ->
   Forall (counts run_id kinds queue) s'.(EventRouter.routes)) ->
  stream_inv queue run_id s' kinds received.
Proof.
  intros [] Hinv Hnext Hheap Hroutes. split; [done|lia|].
  intros Q' (Q & HQ & ->)%Hheap. destruct (si_seen0 Q HQ) as [[]|]; auto.
Qed.

(** A push by a route that counts: the next event, or a gap *)
Lemma route_push_counted run_id (kinds : list RunEventKind.t) kind r r' sent :
  r.(Route.run_id) = run_id /\ r.(Route.next_sequence) = (N.of_nat (length kinds) + 1)%N /\
    r.(Route.saturated) = false ->
  route_push kind r = (r', sent) ->
  exists event, sent = Some event /\
    (event = RunEvent.mk run_id (N.of_nat (length kinds) + 1) kind /\
       (r'.(Route.run_id) = run_id /\ r'.(Route.next_sequence) = (N.of_nat (length kinds) + 2)%N /\
        r'.(Route.saturated) = false) \/
     RunEventKind.is_gap event.(RunEvent.kind) = true).
Proof.
  unfold route_push. intros (Hrun & Hseq & Hsat) Hpush. rewrite Hsat in Hpush.
  destruct (_ || _); simplify_eq/=.
  - eexists. split; [done|]. by right.
  - eexists. split; [done|]. left. unfold Route.event. rewrite Hseq. split_and!; [done..| |done].
    simpl. lia.
Qed.

(** The route of a queue is the only one. *)
Lemma counts_at i r r' run_id kinds queue s :
  router_inv seq_ok s -> s.(EventRouter.routes) !! i = Some r -> r.(Route.queue) = queue ->
  r'.(Route.queue) = queue -> counts run_id kinds queue r' ->
  Forall (counts run_id kinds queue) (<[ i := r' ]> s.(EventRouter.routes)).
Proof.
  intros Hinv Hi Hq Hq' Hc. rewrite list.Forall_forall. intros x [j Hj]%list_elem_of_lookup.
  apply list_lookup_insert_Some in Hj as [(<- & <- & _)|[Hne Hj]]; [done|]. intros Hqx.
  destruct Hne. pose proof (ko_queues _ _ (ri_keys _ _ Hinv)) as Hnd.
  rewrite <- list_fmap_compose in Hnd. change (queue_of ∘ route_key) with Route.queue in Hnd.
  apply (NoDup_lookup _ _ _ queue Hnd); rewrite list_lookup_fmap;
    [by rewrite Hi; simpl; f_equal|by rewrite Hj; simpl; f_equal].
Qed.

Lemma stream_inv_notify queue run_id s c method params kinds received :
  stream_inv queue run_id s kinds received ->
  stream_inv queue run_id (route c method params s)
    (kinds ++ handed queue (Notify c method params) s) received.
Proof.
  intros Hinv. pose proof (seq_ok_step (Notify c method params) s (si_router _ _ _ _ _ Hinv)) as Hstep.
  simpl in *. destruct (route_routed c method params s)
    as [-> Hs'|n i r r0 r' sent Ht Hn Hi Hc Hb Hr0 Hpush Hs'].
  { rewrite app_nil_r. eapply stream_inv_same; [done|done|..].
    - destruct Hs' as [-> | ->]; simpl; lia.
    - intros Q'. destruct Hs' as [-> | ->]; simpl; eauto.
    - destruct Hs' as [-> | ->]; [done|]. apply Forall_List_filter. }
  rewrite Ht.
  assert (Route.queue r' = Route.queue r /\ Route.queue r0 = Route.queue r) as [Hq' Hq0].
  { apply route_push_key in Hpush. injection Hpush as _ _ _ Hq. rewrite Hq, Hr0. by destruct (is_none _). }
  assert ((route c method params s).(EventRouter.next_queue) = s.(EventRouter.next_queue)) as Hnext
    by (rewrite Hs'; by destruct (NormalizedEvent.terminal n)).
  assert (forall P : Route.t -> Prop,
    Forall P (<[ i := r' ]> (retain_alive s).(EventRouter.routes)) ->
    Forall P (route c method params s).(EventRouter.routes)) as Hroutes.
  { intros P HP. rewrite Hs'. destruct (NormalizedEvent.terminal n); simpl in *; [|done].
    rewrite list.Forall_forall in *. intros x Hx. apply HP. eapply elem_of_sublist; [exact Hx|apply sublist_delete]. }
  assert (forall q Q', (route c method params s).(EventRouter.heap) !! q = Some Q' ->
    exists Q1, send r.(Route.queue) sent s.(EventRouter.heap) !! q = Some Q1 /\
      Q'.(EventQueue.events) = Q1.(EventQueue.events)) as Hheap.
  { intros q Q'. rewrite Hs'. destruct (NormalizedEvent.terminal n); simpl; [|by eauto].
    unfold deactivate. rewrite lookup_alter. case_decide; [subst q|by eauto].
    intros (Q1 & HQ1 & ->)%fmap_Some. by eauto. }
  destruct (N.eqb_spec r.(Route.queue) queue) as [Heq|Hne].
  - split; [done|rewrite Hnext; apply Hinv|].
    intros Q' (Q1 & HQ1 & ->)%Hheap. apply send_lookup in HQ1 as (Q & HQ & ->).
    destruct (si_seen _ _ _ _ _ Hinv Q HQ) as [[Hexact Hcounts]|Hgap].
    + destruct (route_push_counted run_id kinds n.(NormalizedEvent.kind) r0 r' sent)
        as (event & -> & Hevent).
      { subst r0. rewrite list.Forall_forall in Hcounts. apply list_elem_of_lookup_2 in Hi.
        apply elem_of_List_filter in Hi as [_ Hi]. specialize (Hcounts r Hi Heq).
        by destruct (is_none _). }
      { done. }
      rewrite decide_True by done. destruct (push_seen run_id kinds received event Q (or_introl Hexact)) as [Hseen|Hseen].
      2: { right. by apply gapped_grow. }
      rewrite Hseen, app_assoc, Hexact. destruct Hevent as [[-> Hr']|Hgap].
      * left. split; [by rewrite numbered_snoc|]. apply Hroutes.
        apply (counts_at i r); [apply retain_inv, Hinv|done|done|congruence|].
        intros _. destruct Hr' as (-> & -> & ->). rewrite length_app. simpl. split_and!; [done|lia|done].
      * right. exists (length kinds), event, []. rewrite length_app, take_app_length.
        split_and!; [lia|done..].
    + right. apply gapped_grow. destruct sent as [event|]; [|done].
      rewrite decide_True by done. destruct (push_seen run_id kinds received event Q (or_intror Hgap)) as [-> | ]; [|done].
      rewrite app_assoc. by apply gapped_snoc.
  - rewrite app_nil_r. eapply stream_inv_same; [done|done|lia|..].
    + intros Q' (Q1 & HQ1 & ->)%Hheap. apply send_lookup in HQ1 as (Q & HQ & ->).
      exists Q. split; [done|]. destruct sent; [|done]. by rewrite decide_False.
    + intros Hall. apply Hroutes, Forall_insert; [by apply Forall_List_filter|].
      intros Hq. congruence.
Qed.

Lemma prepare_effect c run_id thread_id s :
  let s' := (prepare_run c run_id thread_id s).2 in
  s' = s \/ s' = retain_alive s \/
  s' = EventRouter.mk s.(EventRouter.identity) ((s.(EventRouter.next_route_id) + 1) mod (u64_max + 1))
         ((retain_alive s).(EventRouter.routes) ++
          [Route.mk s.(EventRouter.next_route_id) c run_id thread_id None 1 0 false
             s.(EventRouter.next_queue)])
         (<[ s.(EventRouter.next_queue) := EventQueue.default ]> s.(EventRouter.heap))
         (s.(EventRouter.next_queue) + 1).
Proof.
  unfold prepare_run, reject_if, get, modify, throw, mbind, M_bind, mret, M_ret.
  destruct (negb _ || _); [by left|]. destruct (MAX_ACTIVE_ROUTES <=? _); [by right; left|].
  destruct (existsb _ _); [by right; left|]. by right; right.
Qed.

Lemma stream_inv_step queue run_id op s kinds received :
  stream_inv queue run_id s kinds received ->
  stream_inv queue run_id (router_step op s)
    (kinds ++ handed queue op s) (received ++ taken queue op s).
Proof.
  intros Hinv. pose proof (seq_ok_step op s (si_router _ _ _ _ _ Hinv)) as Hstep.
  destruct op as [c rid tid|stream turn|c method params| |stream|stream]; cbn [handed taken router_step] in *;
    rewrite ?app_nil_r.
  - pose proof (si_queue _ _ _ _ _ Hinv) as Hq. eapply stream_inv_same; [done|done|..];
      destruct (prepare_effect c rid tid s) as [-> |[-> | ->]]; simpl; eauto using Forall_List_filter; try lia.
    + intros Q' [[Heq _]|[_ HQ']]%lookup_insert_Some; [lia|by eauto].
    + intros Hall. apply Forall_app. split; [by apply Forall_List_filter|].
      apply list.Forall_singleton. intros Heq. simpl in Heq. lia.
  - eapply stream_inv_same; [done|done|..];
      unfold bind_turn, get, reject_if, lift, modify, throw, mbind, M_bind, mret, M_ret;
      repeat (case_match; simplify_eq/=); try done; try lia; eauto.
    intros Hall. by apply Forall_alter.
  - by apply stream_inv_notify.
  - eapply stream_inv_same; [done|done|simpl; lia|..].
    + intros Q'. simpl. rewrite foldr_deactivate_lookup. case_decide; [|by eauto].
      intros (Q & HQ & ->)%fmap_Some. by exists Q.
    + intros _. constructor.
  - unfold try_recv in *. destruct (N.eqb_spec stream.(RunEventStream.queue) queue) as [Heq|Hne].
    + rewrite Heq in *. destruct (s.(EventRouter.heap) !! queue) as [Q|] eqn:HQ;
        [|by rewrite app_nil_r].
      destruct Q.(EventQueue.events) as [|event rest] eqn:Hev; [by rewrite app_nil_r|].
      destruct Hinv as [_ Hq Hseen]. split; [done|done|]. simpl. rewrite lookup_insert_eq.
      intros Q' [= <-]. simpl. rewrite <- app_assoc. simpl. rewrite <- Hev. by apply Hseen.
    + rewrite app_nil_r. eapply stream_inv_same; [done|done|..];
        repeat (case_match; simplify_eq/=); try done; try lia; eauto.
      intros Q'. rewrite lookup_insert_ne by done. by eauto.
  - eapply stream_inv_same; [done|done|simpl; lia| |done].
    simpl. intros Q' [_ HQ']%lookup_delete_Some. by eauto.
Qed.

Lemma stream_inv_ops queue run_id ops s kinds received :
  stream_inv queue run_id s kinds received ->
  stream_inv queue run_id (run_ops ops s)
    (kinds ++ all_handed queue ops s) (received ++ all_taken queue ops s).
Proof.
  revert s kinds received. induction ops as [|op ops IH]; intros s kinds received Hinv; simpl.
  - by rewrite !app_nil_r.
  - rewrite !app_assoc. by apply IH, stream_inv_step.
Qed.

Lemma reachable_seq_ok s : router_reachable s -> router_inv seq_ok s.
Proof.
  apply router_reachable_inv; [|done|apply seq_ok_push].
  intros. unfold seq_ok, MAX_RUN_EVENTS. simpl. lia.
Qed.

(** C24: a run's observer never misses an event without being told. From the preparation of
    a stream on, under any interleaving of notifications, new and dropped streams,
    disconnections and reads: what was read from the stream and what still waits in it are
    the first events that the router took for the run, in order and numbered from one;
    when events are missing after them, the next one in the stream is a gap. *)
Theorem stream_tells_gaps c run_id thread_id s0 stream s ops Q :
  router_reachable s0 -> prepare_run c run_id thread_id s0 = (Ok stream, s) ->
  let queue := stream.(RunEventStream.queue) in
  (run_ops ops s).(EventRouter.heap) !! queue = Some Q ->
  all_taken queue ops s ++ Q.(EventQueue.events) = numbered run_id (all_handed queue ops s) \/
  gapped run_id (all_handed queue ops s) (all_taken queue ops s ++ Q.(EventQueue.events)).
Proof.
  intros Hr Hprep queue HQ. apply reachable_seq_ok in Hr as Hinv0.
  pose proof (seq_ok_step (Prepare c run_id thread_id) s0 Hinv0) as Hinv. simpl in Hinv.
  rewrite Hprep in Hinv. simpl in Hinv.
  assert (stream_inv queue run_id s [] []) as Hstream.
  { pose proof (prepare_effect c run_id thread_id s0) as Heff. rewrite Hprep in Heff. simpl in Heff.
    assert (queue = s0.(EventRouter.next_queue) /\ s = EventRouter.mk s0.(EventRouter.identity)
      ((s0.(EventRouter.next_route_id) + 1) mod (u64_max + 1))
      ((retain_alive s0).(EventRouter.routes) ++
        [Route.mk s0.(EventRouter.next_route_id) c run_id thread_id None 1 0 false
           s0.(EventRouter.next_queue)])
      (<[ s0.(EventRouter.next_queue) := EventQueue.default ]> s0.(EventRouter.heap))
      (s0.(EventRouter.next_queue) + 1)) as [Hq ->].
    { unfold prepare_run, reject_if, get, modify, throw, mbind, M_bind, mret, M_ret in Hprep.
      repeat (case_match; simplify_eq/=); done. }
    split; [done|simpl; lia|]. simpl. rewrite Hq, lookup_insert_eq. intros Q0 [= <-]. left.
    split; [done|]. apply Forall_app. split.
    - apply Forall_List_filter. rewrite list.Forall_forall. intros r Hin Heq.
      pose proof (ko_fresh _ _ (ri_keys _ _ Hinv0)) as Hfresh. rewrite list.Forall_forall in Hfresh.
      specialize (Hfresh (route_key r) (list_elem_of_fmap_2 _ _ _ Hin)).
      unfold queue_of in Hfresh. simpl in Hfresh. lia.
    - by apply list.Forall_singleton. }
  apply (stream_inv_ops _ _ ops) in Hstream. simpl in Hstream.
  destruct (si_seen _ _ _ _ _ Hstream Q HQ) as [[Hexact _]|Hgap]; auto.
Qed.

(** ** Isolation *)

Lemma push_eta event Q :
  EventQueue.push event Q
  = EventQueue.mk Q.(EventQueue.active) (EventQueue.push event Q).(EventQueue.events).
Proof. destruct (push_cases event Q) as [<- _]. by destruct (EventQueue.push event Q). Qed.

Lemma send_lookup_eq queue sent heap q :
  send queue sent heap !! q =
  (if decide (queue = q) then
     (fun Q => match sent with Some event => EventQueue.push event Q | None => Q end) <$> heap !! q
   else heap !! q).
Proof.
  destruct sent as [event|]; simpl; [rewrite lookup_alter|]; case_decide; subst; try done.
  by destruct (heap !! q).
Qed.

(** The route that a notification concerns is the one it goes to. *)
Lemma target_unique c method params n s i r :
  router_inv seq_ok s -> normalize_event method params = Some n ->
  (retain_alive s).(EventRouter.routes) !! i = Some r -> concerns c n r ->
  (r.(Route.turn_id) = None -> n.(NormalizedEvent.kind) = RunEventKind.Running) ->
  target c method params s = Some (r, n).
Proof.
  intros Hinv Hn Hi Hc Hb. unfold target. rewrite Hn. simpl in *.
  assert (list_find (concerns c n) (List.filter (alive s.(EventRouter.heap)) s.(EventRouter.routes))
    = Some (i, r)) as ->.
  { apply list_find_Some. split_and!; [done..|]. intros j y Hj Hlt Hcy.
    apply retain_inv, ri_keys, ko_threads in Hinv. simpl in Hinv. rewrite <- list_fmap_compose in Hinv.
    enough (i = j) by lia. destruct Hc as (Hc1 & Hc2 & _), Hcy as (Hc3 & Hc4 & _).
    apply (NoDup_lookup _ _ _ (c, n.(NormalizedEvent.thread_id)) Hinv); rewrite list_lookup_fmap;
      [rewrite Hi|rewrite Hj]; simpl; unfold conn_of, thread_of; simpl; congruence. }
  simpl. destruct r.(Route.turn_id) as [t|]; simpl; [done|]. by rewrite Hb, bool_decide_eq_true_2.
Qed.

(** A notification reaches the run it belongs to and no other. The run whose route has
    its connection, its thread and its turn, or no turn yet when a turn starts, gets the event
    (or the gap that its route sends instead), and its stream ends when the turn has ended;
    every other stream is as it was. A stream that has ended gets nothing any more. *)
Theorem events_reach_their_run c method params n s r Q :
  router_reachable s -> normalize_event method params = Some n ->
  r ∈ s.(EventRouter.routes) -> s.(EventRouter.heap) !! r.(Route.queue) = Some Q ->
  concerns c n r ->
  (r.(Route.turn_id) = None -> n.(NormalizedEvent.kind) = RunEventKind.Running) ->
  let s' := route c method params s in
  (exists Q', s'.(EventRouter.heap) !! r.(Route.queue) = Some Q' /\
     Q'.(EventQueue.active) = negb n.(NormalizedEvent.terminal) /\
     Q'.(EventQueue.events) =
       match (route_push n.(NormalizedEvent.kind) r).2 with
       | Some event => (EventQueue.push event Q).(EventQueue.events)
       | None => Q.(EventQueue.events)
       end) /\
  (forall q, q <> r.(Route.queue) ->
     s'.(EventRouter.heap) !! q = s.(EventRouter.heap) !! q) /\
  (forall q Q0, s.(EventRouter.heap) !! q = Some Q0 -> Q0.(EventQueue.active) = false ->
     s'.(EventRouter.heap) !! q = Some Q0).
Proof.
  intros Hreach Hn Hin HQ Hc Hb s'. apply reachable_seq_ok in Hreach as Hinv.
  assert (r ∈ (retain_alive s).(EventRouter.routes)) as Hin'.
  { apply elem_of_List_filter. split; [|done]. unfold alive. by rewrite HQ. }
  apply list_elem_of_lookup in Hin' as [i Hi].
  pose proof (target_unique _ _ _ _ _ _ _ Hinv Hn Hi Hc Hb) as Ht.
  assert (Q.(EventQueue.active) = true) as Hactive.
  { apply (ri_active _ _ Hinv _ _ HQ). by apply list_elem_of_fmap_2. }
  destruct (route_routed c method params s) as [Ht'|n' i' r1 r0 r' sent Ht' _ _ _ _ Hr0 Hpush Hs'];
    rewrite Ht in Ht'; [done|]. injection Ht' as <- <-.
  assert ((route_push n.(NormalizedEvent.kind) r).2 = sent) as Hsent.
  { assert ((route_push n.(NormalizedEvent.kind) r0).2 = (route_push n.(NormalizedEvent.kind) r).2)
      as <-; [|by rewrite Hpush]. subst r0. destruct (is_none _); [|done].
    unfold route_push, Route.event. simpl. destruct (Route.saturated r); [done|]. by destruct (_ || _). }
  rewrite Hsent. clear Hsent. fold s' in Hs'.
  assert (forall q, s'.(EventRouter.heap) !! q =
    (if decide (r.(Route.queue) = q) then
       (fun Q => EventQueue.mk (if n.(NormalizedEvent.terminal) then false else Q.(EventQueue.active))
          (match sent with
           | Some event => (EventQueue.push event Q).(EventQueue.events)
           | None => Q.(EventQueue.events) end)) <$> s.(EventRouter.heap) !! q
     else s.(EventRouter.heap) !! q)) as Hheap.
  { clear -Hs'. intros q. rewrite Hs'. destruct n.(NormalizedEvent.terminal); simpl;
      unfold deactivate; rewrite ?lookup_alter, !send_lookup_eq; repeat case_decide; subst; try done;
      destruct (s.(EventRouter.heap) !! _) as [Q1|]; try done; simpl; f_equal;
      destruct sent as [event|]; try by destruct Q1. apply push_eta. }
  split_and!.
  - rewrite Hheap, decide_True, HQ by done. simpl. eexists. split; [done|]. simpl. rewrite Hactive.
    by destruct n.(NormalizedEvent.terminal).
  - intros q Hne. by rewrite Hheap, decide_False.
  - intros q Q0 Hq Hinactive. rewrite Hheap. case_decide; [|done]. subst q. congruence.
Qed.

(** ** Bounds *)

Definition bytes_ok (r : Route.t) : Prop :=
  seq_ok r /\ (r.(Route.total_bytes) <= MAX_RUN_EVENT_TOTAL_BYTES)%N.

Lemma bytes_ok_push (Hlaws : RunEventJsonLaws) kind r r' sent :
  bytes_ok r -> route_push kind r = (r', sent) -> bytes_ok r'.
Proof.
  intros [Hseq Hbytes] Hpush. split; [by eapply seq_ok_push|]. unfold route_push in Hpush.
  destruct r.(Route.saturated); [by simplify_eq|].
  destruct (run_event_bytes (Route.event r (RunEventKind.Gap RunEventGapReason.LimitExceeded)))
    as (gap & Hgap & Hlen).
  destruct (_ || _) eqn:Hlimit; simplify_eq/=; [done|].
  apply orb_false_iff in Hlimit as [[_ Hb%N.ltb_ge]%orb_false_iff Ht%N.ltb_ge].
  unfold serialized_len at 2 in Ht. rewrite Hgap in Ht.
  set (e := serialized_len (Route.event r kind)) in *. unfold usize_add in *.
  unfold MAX_RUN_EVENT_TOTAL_BYTES, MAX_RUN_EVENT_BYTES, usize_max, u64_max, i64_max in *.
  rewrite (N.mod_small (r.(Route.total_bytes) + e)) in * by lia.
  rewrite N.mod_small in Ht by lia. lia.
Qed.

(** The router stays within its bounds: at most 32 routes, no two of them for the same
    thread or the same run of a connection, at most 8 waiting events per stream, at most 128
    events and 16 KiB per route; and a stream is active exactly as long as its route exists. *)
Theorem router_bounds (Hlaws : RunEventJsonLaws) s :
  router_reachable s ->
  length s.(EventRouter.routes) <= MAX_ACTIVE_ROUTES /\
  NoDup ((fun r => (r.(Route.connection_identity), r.(Route.thread_id))) <$> s.(EventRouter.routes)) /\
  NoDup ((fun r => (r.(Route.connection_identity), r.(Route.run_id))) <$> s.(EventRouter.routes)) /\
  Forall (fun r => r.(Route.next_sequence) <= MAX_RUN_EVENTS /\
                   r.(Route.total_bytes) <= MAX_RUN_EVENT_TOTAL_BYTES)%N s.(EventRouter.routes) /\
  (forall q Q, s.(EventRouter.heap) !! q = Some Q ->
     length Q.(EventQueue.events) <= EVENT_QUEUE_CAPACITY /\
     (Q.(EventQueue.active) = true <-> exists r, r ∈ s.(EventRouter.routes) /\ r.(Route.queue) = q)).
Proof.
  intros Hreach. apply (router_reachable_inv bytes_ok) in Hreach.
  2: { intros. unfold bytes_ok, seq_ok, MAX_RUN_EVENTS. simpl. split; [lia|done]. }
  2: { by intros r t []. }
  2: { by apply bytes_ok_push. }
  destruct Hreach as [Hkeys Hroutes _ Hevents Hactive]. split_and!.
  - pose proof (ko_len _ _ Hkeys) as Hlen. by rewrite length_fmap in Hlen.
  - pose proof (ko_threads _ _ Hkeys) as Hnd. by rewrite <- list_fmap_compose in Hnd.
  - pose proof (ko_runs _ _ Hkeys) as Hnd. by rewrite <- list_fmap_compose in Hnd.
  - eapply list.Forall_impl; [exact Hroutes|]. by intros r [[_ Hs] Hb].
  - intros q Q HQ. split; [by eapply Hevents|]. rewrite (Hactive q Q HQ), list_elem_of_fmap.
    naive_solver.
Qed.
End Observer.
