(* ===== verification/AppWire.v ===== *)
(** * The app-server wire (app_server/wire.rs)

    JSON lines: the decoder that assembles lines from the chunks that the process writes, and
    the classification of a line as a response, an error response, a notification or a request
    of the server. *)

From S2P Require Import Prelude AppJson.

Definition MAX_JSON_LINE_BYTES : N := 4 * 1024 * 1024.

Module InboundMessage.
Inductive t :=
| Response (id : N) (result : Value.t)
| ResponseError (id : N) (code : Z) (message : string)
| Notification (method : string) (params : Value.t)
| ServerRequest (id : Value.t) (method : string) (params : Value.t).
End InboundMessage.

Module AppWireError.
Inductive t :=
| InvalidJson | ExpectedObject | InvalidMethod | InvalidServerRequestId | InvalidResponseId
| InvalidResponseShape | InvalidErrorShape | InvalidUtf8 | LineTooLarge (max_bytes : N).
#[global] Instance eq_dec : EqDecision t.
Proof. solve_decision. Defined.
End AppWireError.

(** [serde_json::from_str::<Value>] *)
Class ValueJson := value_from_str : string -> option Value.t.

(** ** Messages *)

Section Messages.
Context `{ValueJson}.

Definition is_server_request_id (id : Value.t) : bool :=
  is_some (Value.as_str id) || is_some (Value.as_i64 id) || is_some (Value.as_u64 id).

Definition parse_call (object : list (string * Value.t)) : result AppWireError.t InboundMessage.t :=
  method ← ok_or (value ← Value.lookup "method" object; Value.as_str value)
             AppWireError.InvalidMethod;
  let params := default Value.Null (Value.lookup "params" object) in
  match Value.lookup "id" object with
  | None => Ok (InboundMessage.Notification method params)
  | Some id =>
    _ ← refuse (negb (is_server_request_id id)) AppWireError.InvalidServerRequestId;
    Ok (InboundMessage.ServerRequest id method params)
  end.

Definition parse_error_response (id : N) (error : Value.t)
    : result AppWireError.t InboundMessage.t :=
  error ← ok_or (Value.as_object error) AppWireError.InvalidErrorShape;
  code ← ok_or (value ← Value.lookup "code" error; Value.as_i64 value)
           AppWireError.InvalidErrorShape;
  message ← ok_or (value ← Value.lookup "message" error; Value.as_str value)
              AppWireError.InvalidErrorShape;
  Ok (InboundMessage.ResponseError id code message).

Definition parse_response (object : list (string * Value.t))
    : result AppWireError.t InboundMessage.t :=
  id ← ok_or (value ← Value.lookup "id" object; Value.as_u64 value) AppWireError.InvalidResponseId;
  match Value.lookup "result" object, Value.lookup "error" object with
  | Some result, None => Ok (InboundMessage.Response id result)
  | None, Some error => parse_error_response id error
  | _, _ => Err AppWireError.InvalidResponseShape
  end.

Definition parse_inbound_message (line : string) : result AppWireError.t InboundMessage.t :=
  value ← ok_or (value_from_str line) AppWireError.InvalidJson;
  object ← ok_or (Value.as_object value) AppWireError.ExpectedObject;
  if is_some (Value.lookup "method" object) then parse_call object else parse_response object.
End Messages.

(** ** Lines *)

Module JsonLineDecoder.
Record t := mk { buffer : string; max_line_bytes : N }.
Definition new (max_line_bytes : N) : t := mk EmptyString max_line_bytes.
Definition set_buffer (b : string) (d : t) : t := mk b d.(max_line_bytes).
End JsonLineDecoder.

Definition DecoderM := M JsonLineDecoder.t AppWireError.t.

(** [chunk.split_inclusive(|byte| *byte == b'\n')] *)
Fixpoint split_inclusive (chunk : string) : list string :=
  match chunk with
  | EmptyString => []
  | String a rest =>
    if bool_decide (a = NL) then String a EmptyString :: split_inclusive rest
    else match split_inclusive rest with
         | [] => [String a EmptyString]
         | segment :: segments => String a segment :: segments
         end
  end.

Definition extend_buffer (bytes : string) : DecoderM unit :=
  d ← get;
  let space := (d.(JsonLineDecoder.max_line_bytes) - len d.(JsonLineDecoder.buffer))%N in
  if (space <? len bytes)%N then
    _ ← modify (JsonLineDecoder.set_buffer EmptyString);
    throw (AppWireError.LineTooLarge d.(JsonLineDecoder.max_line_bytes))
  else modify (JsonLineDecoder.set_buffer (d.(JsonLineDecoder.buffer) +:+ bytes)).

(** [if self.buffer.last() == Some(&b'\r') { self.buffer.pop(); }] *)
Definition strip_cr (s : string) : string := strip_last CR s.

Definition take_line : DecoderM string :=
  d ← get;
  _ ← modify (JsonLineDecoder.set_buffer EmptyString);
  let line := strip_cr d.(JsonLineDecoder.buffer) in
  _ ← reject_if (negb (is_utf8 line)) AppWireError.InvalidUtf8;
  mret line.

(** The loop of [push] over the segments of a chunk *)
Fixpoint push_segments (segments : list string) : DecoderM (list string) :=
  match segments with
  | [] => mret []
  | segment :: segments =>
    let has_newline := ends_with NL segment in
    let content := if has_newline then without_last segment else segment in
    _ ← extend_buffer content;
    if has_newline then
      line ← take_line;
      lines ← push_segments segments;
      mret (line :: lines)
    else push_segments segments
  end.

(** [JsonLineDecoder::push] *)
Definition push (chunk : string) : DecoderM (list string) := push_segments (split_inclusive chunk).

(** ** Decoding does not depend on the chunks *)

(** A stream of chunks, up to the first error *)
Fixpoint push_all (chunks : list string) : DecoderM (list string) :=
  match chunks with
  | [] => mret []
  | chunk :: chunks =>
    lines ← push chunk;
    rest ← push_all chunks;
    mret (lines ++ rest)
  end.

(** The reference: byte by byte, with the bytes of the current line *)
Fixpoint decode_bytes (max : N) (line bytes : string) : result AppWireError.t (list string * string) :=
  match bytes with
  | EmptyString => Ok ([], line)
  | String a bytes =>
    if bool_decide (a = NL) then
      _ ← refuse (negb (is_utf8 (strip_cr line))) AppWireError.InvalidUtf8;
      rest ← decode_bytes max EmptyString bytes;
      Ok (strip_cr line :: rest.1, rest.2)
    else
      _ ← refuse (max <=? len line)%N (AppWireError.LineTooLarge max);
      decode_bytes max (line +:+ String a EmptyString) bytes
  end.

(** What a decoder run gives: the lines and the rest of the current line, or the error *)
Definition decoded (r : result AppWireError.t (list string) * JsonLineDecoder.t)
    : result AppWireError.t (list string * string) :=
  match r with
  | (Ok lines, d) => Ok (lines, d.(JsonLineDecoder.buffer))
  | (Err e, _) => Err e
  end.

(** The limit never changes, and the buffer stays within it. *)
Definition fits_limit (d : JsonLineDecoder.t) : Prop :=
  (len d.(JsonLineDecoder.buffer) <= d.(JsonLineDecoder.max_line_bytes))%N.

(** One more byte in front of the first segment *)
Definition prepend (a : ascii) (segments : list string) : list string :=
  match segments with
  | [] => [String a EmptyString]
  | segment :: segments => String a segment :: segments
  end.

Lemma append_assoc_byte s a t : (s +:+ String a EmptyString) +:+ t = s +:+ String a t.
Proof. induction s as [|b s IH]; [done|]. exact (f_equal (String b) IH). Qed.

Lemma len_string a s : len (String a s) = (1 + len s)%N.
Proof. unfold len. simpl. lia. Qed.

Lemma len_empty : len EmptyString = 0%N.
Proof. done. Qed.

Lemma split_inclusive_nonempty chunk : Forall (fun seg => seg <> EmptyString) (split_inclusive chunk).
Proof.
  induction chunk as [|a chunk IH]; simpl; [constructor|]. case_bool_decide; [by constructor|].
  destruct (split_inclusive chunk); constructor; try done. by apply list.Forall_cons in IH as [].
Qed.

Lemma extend_buffer_byte a content d :
  fits_limit d ->
  extend_buffer (String a content) d =
  (if (d.(JsonLineDecoder.max_line_bytes) <=? len d.(JsonLineDecoder.buffer))%N
   then (Err (AppWireError.LineTooLarge d.(JsonLineDecoder.max_line_bytes)),
         JsonLineDecoder.set_buffer EmptyString d)
   else extend_buffer content
          (JsonLineDecoder.set_buffer (d.(JsonLineDecoder.buffer) +:+ String a EmptyString) d)).
Proof.
  unfold fits_limit, extend_buffer, get, modify, throw, mbind, M_bind. intros Hfits. simpl.
  rewrite len_append, len_string, (len_string a), len_empty.
  destruct (N.leb_spec (JsonLineDecoder.max_line_bytes d) (len (JsonLineDecoder.buffer d)));
    repeat match goal with |- context [(?x <? ?y)%N] => destruct (N.ltb_spec x y) end;
    try lia; try done.
  by rewrite append_assoc_byte.
Qed.

Lemma ends_with_cons b a s : s <> EmptyString -> ends_with b (String a s) = ends_with b s.
Proof. by destruct s. Qed.

Lemma without_last_cons a s :
  s <> EmptyString -> without_last (String a s) = String a (without_last s).
Proof. by destruct s. Qed.

(** A byte in front of the segments is a byte at the end of the buffer. *)
Lemma push_segments_prepend a segments d :
  fits_limit d -> a <> NL -> Forall (fun seg => seg <> EmptyString) segments ->
  push_segments (prepend a segments) d =
  (if (d.(JsonLineDecoder.max_line_bytes) <=? len d.(JsonLineDecoder.buffer))%N
   then (Err (AppWireError.LineTooLarge d.(JsonLineDecoder.max_line_bytes)),
         JsonLineDecoder.set_buffer EmptyString d)
   else push_segments segments
          (JsonLineDecoder.set_buffer (d.(JsonLineDecoder.buffer) +:+ String a EmptyString) d)).
Proof.
  intros Hfits Ha Hne. destruct segments as [|segment segments]; cbn [prepend push_segments].
  - cbn [ends_with]. rewrite bool_decide_eq_false_2 by done.
    unfold mbind at 1, M_bind. rewrite extend_buffer_byte by done.
    destruct (_ <=? _)%N; [done|]. unfold extend_buffer, get, modify, mbind, M_bind. simpl.
    rewrite len_empty. destruct (N.ltb_spec (JsonLineDecoder.max_line_bytes d -
      len (JsonLineDecoder.buffer d +:+ String a "")) 0); [lia|].
    unfold mret, M_ret, JsonLineDecoder.set_buffer. simpl. by rewrite append_empty.
  - apply list.Forall_cons in Hne as [Hne _]. rewrite ends_with_cons, without_last_cons by done.
    set (content := if ends_with NL segment then without_last segment else segment).
    assert ((if ends_with NL segment then String a (without_last segment) else String a segment)
      = String a content) as -> by (unfold content; by destruct (ends_with NL segment)).
    unfold mbind at 1, M_bind. rewrite extend_buffer_byte by done.
    by destruct (_ <=? _)%N.
Qed.

Lemma decoded_bind d (m : DecoderM (list string)) (line : string) :
  decoded ((lines ← m; mret (line :: lines)) d) =
  (rest ← decoded (m d); Ok (line :: rest.1, rest.2)).
Proof. unfold mbind, M_bind, mret, M_ret, decoded. by destruct (m d) as [[] ?]. Qed.

(** One chunk is decoded as its bytes are, from the bytes that were left over. *)
Lemma push_decodes chunk d :
  fits_limit d ->
  decoded (push chunk d) =
    decode_bytes d.(JsonLineDecoder.max_line_bytes) d.(JsonLineDecoder.buffer) chunk /\
  (push chunk d).2.(JsonLineDecoder.max_line_bytes) = d.(JsonLineDecoder.max_line_bytes) /\
  fits_limit (push chunk d).2.
Proof.
  unfold push. revert d. induction chunk as [|a chunk IH]; intros d Hfits; [by simpl|].
  cbn [split_inclusive decode_bytes]. destruct (bool_decide (a = NL)) eqn:Hnl.
  - cbn [push_segments ends_with without_last]. rewrite Hnl.
    set (d0 := JsonLineDecoder.set_buffer EmptyString d).
    assert (extend_buffer EmptyString d = (Ok tt, d)) as Hext.
    { unfold extend_buffer, get, modify, mbind, M_bind. rewrite len_empty.
      destruct (N.ltb_spec (JsonLineDecoder.max_line_bytes d - len (JsonLineDecoder.buffer d)) 0); [lia|].
      rewrite append_empty. by destruct d. }
    rewrite (bind_ok _ _ _ _ _ Hext).
    assert (take_line d = (if negb (is_utf8 (strip_cr d.(JsonLineDecoder.buffer)))
      then (Err AppWireError.InvalidUtf8, d0) else (Ok (strip_cr d.(JsonLineDecoder.buffer)), d0))) as Htake.
    { unfold take_line, get, modify, reject_if, throw, mbind, M_bind, mret, M_ret. simpl.
      by destruct (negb _). }
    assert (fits_limit d0) as Hfits0 by (unfold fits_limit; simpl; rewrite len_empty; lia).
    destruct (negb (is_utf8 _)) eqn:Hutf; [by rewrite (bind_err _ _ _ _ _ Htake)|].
    rewrite (bind_ok _ _ _ _ _ Htake). destruct (IH d0 Hfits0) as (IH1 & IH2 & IH3).
    rewrite decoded_bind, IH1. split; [done|].
    unfold mbind, M_bind, mret, M_ret. by destruct (push_segments _ d0) as [[] ?].
  - apply bool_decide_eq_false in Hnl.
    change (match split_inclusive chunk with
            | [] => [String a EmptyString] | segment :: segments => String a segment :: segments end)
      with (prepend a (split_inclusive chunk)).
    rewrite push_segments_prepend by (auto using split_inclusive_nonempty).
    destruct (N.leb_spec (JsonLineDecoder.max_line_bytes d) (len (JsonLineDecoder.buffer d))) as [Hle|Hlt].
    + split_and!; [done..|]. unfold fits_limit. simpl. rewrite len_empty. lia.
    + cbn [refuse].
      apply (IH (JsonLineDecoder.set_buffer (d.(JsonLineDecoder.buffer) +:+ String a EmptyString) d)).
      unfold fits_limit in *. simpl.
      rewrite len_append, len_string, len_empty. lia.
Qed.

Fixpoint concat_bytes (chunks : list string) : string :=
  match chunks with [] => EmptyString | chunk :: chunks => chunk +:+ concat_bytes chunks end.

Lemma decode_bytes_app max line s t :
  decode_bytes max line (s +:+ t) =
  (first ← decode_bytes max line s;
   rest ← decode_bytes max first.2 t;
   Ok (first.1 ++ rest.1, rest.2)).
Proof.
  revert line. induction s as [|a s IH]; intros line.
  { change (EmptyString +:+ t) with t. simpl. by destruct (decode_bytes max line t) as [[]|]. }
  change (String a s +:+ t) with (String a (s +:+ t)). cbn [decode_bytes].
  destruct (bool_decide (a = NL)); unfold mbind, result_bind.
  - destruct (refuse _ _) as [[]|]; [|done]. rewrite IH. unfold mbind, result_bind.
    destruct (decode_bytes max EmptyString s) as [[ls b]|]; [|done]. simpl.
    by destruct (decode_bytes max b t) as [[]|].
  - destruct (refuse _ _) as [[]|]; [|done]. by rewrite IH.
Qed.

Lemma push_all_decodes chunks d :
  fits_limit d ->
  decoded (push_all chunks d) =
    decode_bytes d.(JsonLineDecoder.max_line_bytes) d.(JsonLineDecoder.buffer) (concat_bytes chunks).
Proof.
  revert d. induction chunks as [|chunk chunks IH]; intros d Hfits; [done|]. simpl.
  rewrite decode_bytes_app. destruct (push_decodes chunk d Hfits) as (<- & Hmax & Hfits').
  unfold mbind at 1, M_bind. destruct (push chunk d) as [[lines|e] d1]; simpl in *; [|done].
  rewrite <- Hmax, <- (IH d1 Hfits'). unfold mbind, M_bind, mret, M_ret.
  by destruct (push_all chunks d1) as [[] ?].
Qed.

(** C36: the decoder does not depend on how the process's output is cut into chunks: the
    lines it returns, the error it stops at and the bytes it keeps for the next line are those
    of the reference that reads the whole output byte by byte. *)
Theorem decoding_ignores_chunks max chunks :
  decoded (push_all chunks (JsonLineDecoder.new max)) =
  decode_bytes max EmptyString (concat_bytes chunks).
Proof. apply (push_all_decodes chunks (JsonLineDecoder.new max)). unfold fits_limit. simpl. rewrite len_empty. lia. Qed.

(** ** Lines survive the wire *)

Fixpoint has_byte (b : ascii) (s : string) : bool :=
  match s with EmptyString => false | String a s => bool_decide (a = b) || has_byte b s end.

(** A line as the other side writes it: UTF-8 of at most the limit, without a newline, and not
    ending in a carriage return *)
Definition line_ok (max : N) (line : string) : Prop :=
  has_byte NL line = false /\ ends_with CR line = false /\ is_utf8 line = true /\
  (len line <= max)%N.

Lemma decode_plain max line s rest :
  has_byte NL s = false -> (len line + len s <= max)%N ->
  decode_bytes max line (s +:+ rest) = decode_bytes max (line +:+ s) rest.
Proof.
  revert line. induction s as [|a s IH]; intros line Hnl Hlen; [by rewrite append_empty|].
  cbn [has_byte] in Hnl. apply orb_false_iff in Hnl as [Ha Hs]. rewrite len_string in Hlen.
  change (String a s +:+ rest) with (String a (s +:+ rest)). cbn [decode_bytes]. rewrite Ha.
  destruct (N.leb_spec max (len line)); [lia|]. cbn [refuse].
  change (decode_bytes max (line +:+ String a EmptyString) (s +:+ rest)
          = decode_bytes max (line +:+ String a s) rest).
  rewrite <- (append_assoc_byte line a s). apply IH; [done|]. rewrite len_append, len_string, len_empty. lia.
Qed.

Definition written (lines : list string) : string :=
  concat_bytes ((fun line => line +:+ String NL EmptyString) <$> lines).

Lemma decode_written max lines :
  Forall (line_ok max) lines -> decode_bytes max EmptyString (written lines) = Ok (lines, EmptyString).
Proof.
  induction 1 as [|line lines (Hnl & Hcr & Hutf & Hlen) _ IH]; [done|].
  unfold written in *. rewrite fmap_cons. cbn [concat_bytes]. rewrite append_assoc.
  rewrite decode_plain by (done || (rewrite len_empty; lia)).
  set (rest := concat_bytes _) in *.
  change (String NL EmptyString +:+ rest) with (String NL rest).
  change (EmptyString +:+ line) with line. cbn [decode_bytes].
  rewrite bool_decide_eq_true_2 by done. unfold strip_cr, strip_last. rewrite Hcr, Hutf, IH. done.
Qed.

(** What is written line by line is read line by line. Lines of UTF-8 within the limit,
    each ended by a newline, come out of the decoder unchanged and in order, however the
    output was cut into chunks, and nothing is left over. *)
Theorem lines_roundtrip max lines chunks :
  Forall (line_ok max) lines -> concat_bytes chunks = written lines ->
  decoded (push_all chunks (JsonLineDecoder.new max)) = Ok (lines, EmptyString).
Proof.
  intros Hlines Hchunks. rewrite push_all_decodes.
  - simpl. rewrite Hchunks. by apply decode_written.
  - unfold fits_limit. simpl. rewrite len_empty. lia.
Qed.
