(* ===== verification/AppConnection.v ===== *)
(** * Requests over the app-server connection (app_server/connection.rs)

    Any number of threads send requests, one reader completes them and a disconnection ends
    them all. Every critical section of the source is one step; what happens between two of
    them may interleave with every other thread. *)

From S2P Require Import Prelude AppJson AppWire.

Definition FIRST_REQUEST_ID : N := 1.
Definition MAX_PENDING_REQUESTS : nat := 64.
Definition METHOD_NOT_SUPPORTED_CODE : Z := -32601.
Definition METHOD_NOT_SUPPORTED_MESSAGE : string := "Method not supported".

Module ConnectionError.
Inductive t :=
| Serialize | WriteFailed | Timeout | TooManyPending | Disconnected | Remote (code : Z)
| RequestIdExhausted.
#[global] Instance eq_dec : EqDecision t.
Proof. solve_decision. Defined.
End ConnectionError.

Definition PendingResult : Type := result ConnectionError.t Value.t.

(** The sending half of a request's channel: in the map of pending requests, in the hands of
    a thread that has a result for it, or gone. *)
Module Sender.
Inductive t := InMap | Held (r : PendingResult) | Gone.
End Sender.

(** The receiving half: where the thread of the request is in [request_inner]. *)
Module Caller.
Inductive t := Writing | Waiting | TimedOut | Returned (r : PendingResult).
End Caller.

(** One request: the halves of its channel and what is in it *)
Module Pending.
Record t := mk { sender : Sender.t; message : option PendingResult; caller : Caller.t }.
Definition set_sender (v : Sender.t) (p : t) : t := mk v p.(message) p.(caller).
Definition set_caller (v : Caller.t) (p : t) : t := mk p.(sender) p.(message) v.
End Pending.

Module Connection.
Record t := mk {
  connected : bool;
  next_request_id : N;
  requests : gmap N Pending.t;
}.
Definition set_requests (v : gmap N Pending.t) (s : t) : t := mk s.(connected) s.(next_request_id) v.
Definition new : t := mk true FIRST_REQUEST_ID ∅.
End Connection.

Definition in_map (p : Pending.t) : bool :=
  match p.(Pending.sender) with Sender.InMap => true | _ => false end.

(** [state.pending.len()] *)
Definition pending_len (s : Connection.t) : nat :=
  size (filter (fun '(_, p) => in_map p = true) s.(Connection.requests)).

(** The first critical section of [request_inner]: a slot and an id *)
Definition begin_request : M Connection.t ConnectionError.t N :=
  s ← get;
  _ ← reject_if (negb s.(Connection.connected)) ConnectionError.Disconnected;
  _ ← reject_if (MAX_PENDING_REQUESTS <=? pending_len s) ConnectionError.TooManyPending;
  let id := s.(Connection.next_request_id) in
  next ← lift (ok_or (u64_checked_add id 1) ConnectionError.RequestIdExhausted);
  _ ← modify (fun s => Connection.mk s.(Connection.connected) next
        (<[ id := Pending.mk Sender.InMap None Caller.Writing ]> s.(Connection.requests)));
  mret id.

(** [remove_pending]: whether the sender was in the map; it is dropped. *)
Definition remove_pending (id : N) (s : Connection.t) : bool * Connection.t :=
  match s.(Connection.requests) !! id with
  | Some p =>
    if in_map p
    then (true, Connection.set_requests
                  (<[ id := Pending.set_sender Sender.Gone p ]> s.(Connection.requests)) s)
    else (false, s)
  | None => (false, s)
  end.

Definition set_caller (id : N) (c : Caller.t) (s : Connection.t) : Connection.t :=
  Connection.set_requests (alter (Pending.set_caller c) id s.(Connection.requests)) s.

(** [json_line] or the writer failed *)
Definition write_failed (id : N) (e : ConnectionError.t) (s : Connection.t) : Connection.t :=
  set_caller id (Caller.Returned (Err e)) (remove_pending id s).2.

(** [recv_timeout] timed out, and a result may have come since. *)
Definition timed_out (id : N) (s : Connection.t) : Connection.t :=
  let (removed, s) := remove_pending id s in
  if removed then set_caller id (Caller.Returned (Err ConnectionError.Timeout)) s
  else set_caller id Caller.TimedOut s.

(** The sender is gone and the channel is empty. *)
Definition hung_up (id : N) (s : Connection.t) : Connection.t :=
  set_caller id (Caller.Returned (Err ConnectionError.Disconnected)) (remove_pending id s).2.

(** [complete], up to the end of its critical section *)
Definition complete (id : N) (r : PendingResult) (s : Connection.t) : Connection.t :=
  match s.(Connection.requests) !! id with
  | Some p =>
    if in_map p
    then Connection.set_requests
           (<[ id := Pending.set_sender (Sender.Held r) p ]> s.(Connection.requests)) s
    else s
  | None => s
  end.

(** [waiter.send(result)] *)
Definition send_held (p : Pending.t) : Pending.t :=
  match p.(Pending.sender) with
  | Sender.Held r => Pending.mk Sender.Gone (Some r) p.(Pending.caller)
  | _ => p
  end.
Definition deliver (id : N) (s : Connection.t) : Connection.t :=
  Connection.set_requests (alter send_held id s.(Connection.requests)) s.

(** [disconnect], up to the end of its critical section: every pending sender is drained. *)
Definition drained (p : Pending.t) : Pending.t :=
  if in_map p then Pending.set_sender (Sender.Held (Err ConnectionError.Disconnected)) p else p.
Definition disconnect (s : Connection.t) : Connection.t :=
  if s.(Connection.connected)
  then Connection.mk false s.(Connection.next_request_id) (drained <$> s.(Connection.requests))
  else s.

(** ** Inbound messages *)

Module Reader.
Record t {O : Type} := mk { connection : Connection.t; observer : option O; written : list string }.
Arguments t : clear implicits.
Arguments mk {O} connection observer written.
End Reader.

Section Inbound.
(** The observer of notifications, and the line that answers a request of the server *)
Context {O : Type}.
Context (on_notification : string -> Value.t -> O -> O).
Context (on_server_request : Value.t -> string -> Value.t -> O -> O).
Context (error_line : Value.t -> Z -> string -> option string).

(** [handle_inbound], whose reply to a request of the server is always that the method is not
    supported; [write_ok] is the writer's outcome. *)
Definition handle_inbound (write_ok : bool) (message : InboundMessage.t)
    : M (Reader.t O) ConnectionError.t unit :=
  s ← get;
  match message with
  | InboundMessage.Response id result =>
    modify (fun s => Reader.mk (complete id (Ok result) s.(Reader.connection))
              s.(Reader.observer) s.(Reader.written))
  | InboundMessage.ResponseError id code _ =>
    modify (fun s => Reader.mk (complete id (Err (ConnectionError.Remote code)) s.(Reader.connection))
              s.(Reader.observer) s.(Reader.written))
  | InboundMessage.Notification method params =>
    modify (fun s => Reader.mk s.(Reader.connection)
              (on_notification method params <$> s.(Reader.observer)) s.(Reader.written))
  | InboundMessage.ServerRequest id method params =>
    _ ← modify (fun s => Reader.mk s.(Reader.connection)
          (on_server_request id method params <$> s.(Reader.observer)) s.(Reader.written));
    line ← lift (ok_or (error_line id METHOD_NOT_SUPPORTED_CODE METHOD_NOT_SUPPORTED_MESSAGE)
                   ConnectionError.Serialize);
    _ ← reject_if (negb write_ok) ConnectionError.WriteFailed;
    modify (fun s => Reader.mk s.(Reader.connection) s.(Reader.observer)
              (s.(Reader.written) ++ [line +:+ String NL EmptyString]))
  end.
End Inbound.

(** ** Interleavings *)

Inductive conn_step (s : Connection.t) : list (N * PendingResult) -> Connection.t -> Prop :=
| cs_request r s' : begin_request s = (r, s') -> conn_step s [] s'
| cs_write_failed id p e :
    s.(Connection.requests) !! id = Some p -> p.(Pending.caller) = Caller.Writing ->
    e = ConnectionError.Serialize \/ e = ConnectionError.WriteFailed ->
    conn_step s [] (write_failed id e s)
| cs_written id p :
    s.(Connection.requests) !! id = Some p -> p.(Pending.caller) = Caller.Writing ->
    conn_step s [] (set_caller id Caller.Waiting s)
| cs_received id p r :
    s.(Connection.requests) !! id = Some p ->
    p.(Pending.caller) = Caller.Waiting \/ p.(Pending.caller) = Caller.TimedOut ->
    p.(Pending.message) = Some r -> conn_step s [] (set_caller id (Caller.Returned r) s)
| cs_timed_out id p :
    s.(Connection.requests) !! id = Some p -> p.(Pending.caller) = Caller.Waiting ->
    conn_step s [] (timed_out id s)
| cs_hung_up id p :
    s.(Connection.requests) !! id = Some p ->
    p.(Pending.caller) = Caller.Waiting \/ p.(Pending.caller) = Caller.TimedOut ->
    p.(Pending.message) = None -> p.(Pending.sender) = Sender.Gone -> conn_step s [] (hung_up id s)
| cs_response id r :
    (exists v, r = Ok v) \/ (exists code, r = Err (ConnectionError.Remote code)) ->
    conn_step s [(id, r)] (complete id r s)
| cs_deliver id : conn_step s [] (deliver id s)
| cs_disconnect : conn_step s [] (disconnect s).

(** The states of a connection, with the responses that its reader has got *)
Inductive conn_reached : list (N * PendingResult) -> Connection.t -> Prop :=
| cr_new : conn_reached [] Connection.new
| cr_step responses s more s' :
    conn_reached responses s -> conn_step s more s' -> conn_reached (responses ++ more) s'.

(** Where a result may come from: a response with the request's own id, or the end of the
    connection *)
Definition origin (responses : list (N * PendingResult)) (connected : bool) (id : N)
    (r : PendingResult) : Prop :=
  (id, r) ∈ responses \/ r = Err ConnectionError.Disconnected /\ connected = false.

(** What a request may return *)
Definition outcome (responses : list (N * PendingResult)) (connected : bool) (id : N)
    (r : PendingResult) : Prop :=
  origin responses connected id r \/
  r = Err ConnectionError.Timeout \/ r = Err ConnectionError.Serialize \/
  r = Err ConnectionError.WriteFailed.

Record request_ok (responses : list (N * PendingResult)) (connected : bool) (id : N)
    (p : Pending.t) : Prop := {
  rq_in_map : p.(Pending.sender) = Sender.InMap ->
    p.(Pending.message) = None /\ connected = true /\
    (p.(Pending.caller) = Caller.Writing \/ p.(Pending.caller) = Caller.Waiting);
  rq_held r : p.(Pending.sender) = Sender.Held r ->
    p.(Pending.message) = None /\ origin responses connected id r;
  rq_gone : p.(Pending.sender) = Sender.Gone -> p.(Pending.message) = None ->
    exists r, p.(Pending.caller) = Caller.Returned r;
  rq_message r : p.(Pending.message) = Some r -> origin responses connected id r;
  rq_returned r : p.(Pending.caller) = Caller.Returned r -> outcome responses connected id r;
}.

Record conn_inv (responses : list (N * PendingResult)) (s : Connection.t) : Prop := {
  ci_requests id p : s.(Connection.requests) !! id = Some p ->
    request_ok responses s.(Connection.connected) id p;
  ci_fresh id p : s.(Connection.requests) !! id = Some p -> (id < s.(Connection.next_request_id))%N;
  ci_len : pending_len s <= MAX_PENDING_REQUESTS;
}.

Lemma origin_mono responses more connected connected' id r :
  (connected' = true -> connected = true) ->
  origin responses connected id r -> origin (responses ++ more) connected' id r.
Proof.
  unfold origin. rewrite elem_of_app. destruct connected, connected'; naive_solver.
Qed.

Lemma request_ok_mono responses more connected id p :
  request_ok responses connected id p -> request_ok (responses ++ more) connected id p.
Proof.
  intros []. assert (forall r, origin responses connected id r -> origin (responses ++ more) connected id r)
    as Hmono by (intros r0 Hr0; by apply (origin_mono _ _ connected)).
  split; unfold outcome in *; naive_solver.
Qed.

(** Changing one request *)
Lemma pending_len_alter f id s :
  (forall p, in_map (f p) = true -> in_map p = true) ->
  pending_len (Connection.set_requests (alter f id s.(Connection.requests)) s) <= pending_len s.
Proof.
  intros Hf. unfold pending_len. simpl. rewrite <- !size_dom. apply subseteq_size.
  intros i. rewrite !elem_of_dom. intros [p Hp]. apply map_lookup_filter_Some in Hp as [Hp Hin].
  rewrite lookup_alter in Hp. case_decide.
  - subst. apply fmap_Some in Hp as (p0 & Hp & ->). exists p0. apply map_lookup_filter_Some. auto.
  - exists p. by apply map_lookup_filter_Some.
Qed.

Lemma alter_request f id s responses more :
  conn_inv responses s ->
  (forall p, in_map (f p) = true -> in_map p = true) ->
  (forall p, s.(Connection.requests) !! id = Some p ->
     request_ok (responses ++ more) s.(Connection.connected) id (f p)) ->
  conn_inv (responses ++ more)
    (Connection.set_requests (alter f id s.(Connection.requests)) s).
Proof.
  intros [Hreq Hfresh Hlen] Hin Hok. split; simpl.
  - intros i p Hp. rewrite lookup_alter in Hp. case_decide.
    + subst. apply fmap_Some in Hp as (p0 & Hp & ->). auto.
    + by apply request_ok_mono, Hreq.
  - intros i p Hp. rewrite lookup_alter in Hp. case_decide; [|by eapply Hfresh].
    subst. apply fmap_Some in Hp as (p0 & Hp & _). by eapply Hfresh.
  - pose proof (pending_len_alter f id s Hin). lia.
Qed.

Lemma insert_alter {V} (f : V -> V) (m : gmap N V) id p :
  m !! id = Some p -> <[ id := f p ]> m = alter f id m.
Proof.
  intros Hp. apply map_eq. intros i. rewrite lookup_alter. case_decide.
  - subst. by rewrite lookup_insert_eq, Hp.
  - by rewrite lookup_insert_ne.
Qed.

Lemma alter_compose_requests f g id s :
  Connection.set_requests (alter f id
    (Connection.set_requests (alter g id s.(Connection.requests)) s).(Connection.requests))
    (Connection.set_requests (alter g id s.(Connection.requests)) s)
  = Connection.set_requests (alter (fun p => f (g p)) id s.(Connection.requests)) s.
Proof.
  unfold Connection.set_requests. simpl. f_equal. apply map_eq. intros i.
  rewrite !lookup_alter. repeat case_decide; subst; try done. by destruct (_ !! i).
Qed.

(** [remove_pending] as a change of one request *)
Definition without_sender (p : Pending.t) : Pending.t :=
  if in_map p then Pending.set_sender Sender.Gone p else p.

Lemma remove_pending_eq id p s :
  s.(Connection.requests) !! id = Some p ->
  remove_pending id s =
    (in_map p, Connection.set_requests (alter without_sender id s.(Connection.requests)) s).
Proof.
  intros Hp. unfold remove_pending. rewrite Hp. rewrite <- (insert_alter without_sender _ _ p Hp).
  unfold without_sender. destruct (in_map p); [done|]. rewrite insert_id by done. by destruct s.
Qed.

Lemma complete_eq id p r s :
  s.(Connection.requests) !! id = Some p ->
  complete id r s = Connection.set_requests
    (alter (fun p => if in_map p then Pending.set_sender (Sender.Held r) p else p) id
       s.(Connection.requests)) s.
Proof.
  intros Hp. unfold complete. rewrite Hp.
  rewrite <- (insert_alter (fun p => if in_map p then Pending.set_sender (Sender.Held r) p else p) _ _ p Hp).
  destruct (in_map p); [done|]. rewrite insert_id by done. by destruct s.
Qed.

Lemma conn_inv_nil responses s : conn_inv (responses ++ []) s -> conn_inv responses s.
Proof. by rewrite app_nil_r. Qed.

Lemma set_caller_inv responses s id c :
  conn_inv responses s ->
  (forall p, s.(Connection.requests) !! id = Some p ->
     request_ok responses s.(Connection.connected) id (Pending.set_caller c p)) ->
  conn_inv responses (set_caller id c s).
Proof.
  intros Hinv Hok. apply conn_inv_nil, alter_request; [done|by intros []|].
  intros p Hp. rewrite app_nil_r. auto.
Qed.

(** A request takes a fresh id and stays within the bound. *)
Lemma begin_request_eq s r s' :
  begin_request s = (r, s') ->
  (exists e, r = Err e /\ s' = s) \/
  r = Ok s.(Connection.next_request_id) /\
  s.(Connection.connected) = true /\ pending_len s < MAX_PENDING_REQUESTS /\
  s' = Connection.mk true (s.(Connection.next_request_id) + 1)%N
         (<[ s.(Connection.next_request_id) := Pending.mk Sender.InMap None Caller.Writing ]>
            s.(Connection.requests)).
Proof.
  destruct s as [[|] next reqs]; unfold begin_request, u64_checked_add; intros Hrun;
    run_cases Hrun; try (left; by eexists).
  match goal with H : (_ <=? _) = false |- _ => apply Nat.leb_gt in H end. by right.
Qed.

Lemma pending_len_insert id p s next :
  s.(Connection.requests) !! id = None ->
  pending_len (Connection.mk true next (<[ id := p ]> s.(Connection.requests))) <= S (pending_len s).
Proof.
  intros Hid. unfold pending_len. simpl.
  destruct (in_map p) eqn:Hp.
  - rewrite map_filter_insert_True by done. rewrite map_size_insert_None; [done|].
    apply map_lookup_filter_None. by left.
  - rewrite map_filter_insert_False by (by rewrite Hp). rewrite delete_id by done. lia.
Qed.

Lemma begin_request_inv responses s r s' :
  conn_inv responses s -> begin_request s = (r, s') -> conn_inv responses s'.
Proof.
  intros Hinv Hrun. apply begin_request_eq in Hrun as [(e & _ & ->)|(_ & Hconn & Hlen' & ->)]; [done|].
  destruct Hinv as [Hreq Hfresh Hlen]. split; simpl.
  - intros id p [[<- <-]|[Hne Hp]]%lookup_insert_Some.
    + split; simpl; naive_solver.
    + rewrite <- Hconn. by apply Hreq.
  - intros id p [[<- <-]|[Hne Hp]]%lookup_insert_Some; [lia|]. apply Hfresh in Hp. lia.
  - etrans; [apply pending_len_insert|lia].
    destruct (_ !! _) eqn:Hp; [|done]. apply Hfresh in Hp. lia.
Qed.

Lemma write_failed_inv responses s id p e :
  conn_inv responses s -> s.(Connection.requests) !! id = Some p ->
  e = ConnectionError.Serialize \/ e = ConnectionError.WriteFailed ->
  conn_inv responses (write_failed id e s).
Proof.
  intros Hinv Hp He. unfold write_failed, set_caller. rewrite (remove_pending_eq id p s Hp). cbn [snd].
  rewrite alter_compose_requests. apply conn_inv_nil, alter_request; [done|by intros [[] ? ?]|].
  rewrite app_nil_r. intros p0 Hp0. destruct (ci_requests _ _ Hinv _ _ Hp0).
  destruct p0 as [[] ? ?]; split; simpl in *; unfold outcome in *; naive_solver.
Qed.

Lemma timed_out_inv responses s id p :
  conn_inv responses s -> s.(Connection.requests) !! id = Some p ->
  p.(Pending.caller) = Caller.Waiting -> conn_inv responses (timed_out id s).
Proof.
  intros Hinv Hp Hc. unfold timed_out, set_caller. rewrite (remove_pending_eq id p s Hp).
  destruct (ci_requests _ _ Hinv _ _ Hp).
  destruct (in_map p) eqn:Hin; rewrite alter_compose_requests;
    (apply conn_inv_nil, alter_request; [done|by intros [[] ? ?]|]);
    rewrite app_nil_r; intros p0 Hp0; simplify_eq;
    destruct p as [[] ? ?]; split; simpl in *; unfold outcome in *; naive_solver.
Qed.

Lemma complete_inv responses s id r :
  conn_inv responses s -> conn_inv (responses ++ [(id, r)]) (complete id r s).
Proof.
  intros Hinv. destruct (s.(Connection.requests) !! id) as [p|] eqn:Hp.
  - rewrite (complete_eq id p r s Hp). apply alter_request; [done|by intros [[] ? ?]|].
    intros p0 Hp0. simplify_eq.
    pose proof (request_ok_mono _ [(id, r)] _ _ _ (ci_requests _ _ Hinv _ _ Hp)) as [].
    assert (origin (responses ++ [(id, r)]) s.(Connection.connected) id r)
      by (left; apply elem_of_app; right; by apply list_elem_of_singleton).
    destruct p as [[] ? ?]; split; simpl in *; naive_solver.
  - unfold complete. rewrite Hp. destruct Hinv as [Hreq Hfresh Hlen].
    split; [|done|done]. intros i q Hq. by apply request_ok_mono, Hreq.
Qed.

Lemma deliver_inv responses s id :
  conn_inv responses s -> conn_inv responses (deliver id s).
Proof.
  intros Hinv. apply conn_inv_nil, alter_request; [done|by intros [[] ? ?]|].
  rewrite app_nil_r. intros p Hp. destruct (ci_requests _ _ Hinv _ _ Hp).
  destruct p as [[] ? ?]; split; simpl in *; naive_solver.
Qed.

Lemma disconnect_inv responses s :
  conn_inv responses s -> conn_inv responses (disconnect s).
Proof.
  intros [Hreq Hfresh Hlen]. unfold disconnect. destruct (s.(Connection.connected)) eqn:Hconn; [|by split; try rewrite Hconn].
  split; simpl.
  - intros id p Hp. rewrite lookup_fmap in Hp. apply fmap_Some in Hp as (p0 & Hp & ->).
    destruct (Hreq _ _ Hp).
    assert (forall r, origin responses true id r -> origin responses false id r)
      by (intros r [?|[_ ?]]; [by left|done]).
    assert (origin responses false id (Err ConnectionError.Disconnected)) by (by right).
    destruct p0 as [[] ? ?]; split; simpl in *; unfold outcome in *; naive_solver.
  - intros id p Hp. rewrite lookup_fmap in Hp. apply fmap_Some in Hp as (p0 & Hp & ->). eauto.
  - unfold pending_len. simpl. rewrite map_empty_filter_2; [rewrite map_size_empty; lia|].
    intros id p Hp. rewrite lookup_fmap in Hp. apply fmap_Some in Hp as ([[] ? ?] & Hp & ->); done.
Qed.

Lemma conn_step_inv responses s more s' :
  conn_inv responses s -> conn_step s more s' -> conn_inv (responses ++ more) s'.
Proof.
  intros Hinv Hstep. inversion Hstep; subst; try (rewrite app_nil_r).
  - by eapply begin_request_inv.
  - by eapply write_failed_inv.
  - apply set_caller_inv; [done|]. intros p0 Hp0.
    destruct (ci_requests _ _ Hinv _ _ Hp0). simplify_eq. destruct p as [[] ? ?]; split; simpl in *; naive_solver.
  - apply set_caller_inv; [done|]. intros p0 Hp0.
    destruct (ci_requests _ _ Hinv _ _ Hp0). simplify_eq.
    destruct p as [[] ? ?]; split; simpl in *; unfold outcome in *; naive_solver.
  - by eapply timed_out_inv.
  - exfalso. match goal with Hp : _ !! id = Some p |- _ =>
      destruct (rq_gone _ _ _ _ (ci_requests _ _ Hinv _ _ Hp)) as [r Hr]; [done|done|] end.
    destruct_or!; congruence.
  - by apply complete_inv.
  - by apply deliver_inv.
  - by apply disconnect_inv.
Qed.

Lemma conn_reached_inv responses s : conn_reached responses s -> conn_inv responses s.
Proof.
  induction 1 as [|responses s more s' _ IH Hstep].
  - split; [done|done|]. unfold pending_len. simpl. rewrite map_filter_empty, map_size_empty. unfold MAX_PENDING_REQUESTS. lia.
  - by eapply conn_step_inv.
Qed.

(** ** What the connection promises *)

Definition has_returned (id : N) (r : PendingResult) (s : Connection.t) : Prop :=
  exists p, s.(Connection.requests) !! id = Some p /\ p.(Pending.caller) = Caller.Returned r.

Lemma alter_returned f id s i r :
  has_returned i r s ->
  (forall p, s.(Connection.requests) !! i = Some p -> i = id ->
     (f p).(Pending.caller) = p.(Pending.caller)) ->
  has_returned i r (Connection.set_requests (alter f id s.(Connection.requests)) s).
Proof.
  intros (p & Hp & Hr) Hf. unfold has_returned. simpl. rewrite lookup_alter. case_decide.
  - subst. rewrite Hp. simpl. eexists. split; [done|]. by rewrite Hf.
  - by exists p.
Qed.

Lemma remove_pending_returned id i r s :
  has_returned i r s -> has_returned i r (remove_pending id s).2.
Proof.
  intros Hr. destruct (s.(Connection.requests) !! id) as [p|] eqn:Hp.
  - rewrite (remove_pending_eq _ _ _ Hp). simpl. apply alter_returned; [done|].
    intros q _ _. unfold without_sender. by destruct (in_map q).
  - unfold remove_pending. by rewrite Hp.
Qed.

Lemma set_caller_returned id c i r s :
  has_returned i r s -> i <> id -> has_returned i r (set_caller id c s).
Proof. intros Hr Hne. apply alter_returned; [done|]. by intros p _ ->. Qed.

Lemma complete_returned id r' i r s :
  has_returned i r s -> has_returned i r (complete id r' s).
Proof.
  intros Hr. destruct (s.(Connection.requests) !! id) as [p|] eqn:Hp.
  - rewrite (complete_eq _ _ _ _ Hp). apply alter_returned; [done|].
    intros q _ _. by destruct (in_map q).
  - unfold complete. by rewrite Hp.
Qed.

(** A request that has returned has returned for good. *)
Lemma returned_final responses s more s' id r :
  conn_inv responses s -> conn_step s more s' -> has_returned id r s -> has_returned id r s'.
Proof.
  intros Hinv Hstep Hr. destruct Hr as (q & Hq & Hqr).
  assert (has_returned id r s) as Hret by (by exists q).
  destruct Hstep as [r0 s' Hrun|i p e Hp Hc He|i p Hp Hc|i p r0 Hp Hc Hm|i p Hp Hc|i p Hp Hc Hm Hs|i r0 Hr0|i|];
    try (assert (id <> i) as Hne by (intros ->; simplify_eq; destruct_or?; congruence)).
  - apply begin_request_eq in Hrun as [(e & _ & ->)|(_ & _ & _ & ->)]; [done|]. exists q. split; [|done].
    simpl. rewrite lookup_insert_ne; [done|]. intros <-. apply (ci_fresh _ _ Hinv) in Hq. lia.
  - by apply set_caller_returned, Hne; apply remove_pending_returned.
  - by apply set_caller_returned.
  - by apply set_caller_returned.
  - unfold timed_out. pose proof (remove_pending_returned i _ _ _ Hret) as Hrem.
    destruct (remove_pending i s) as [[] s1]; by apply set_caller_returned.
  - by apply set_caller_returned, Hne; apply remove_pending_returned.
  - by apply complete_returned.
  - apply alter_returned; [done|]. by intros [[] ? ?].
  - unfold disconnect. destruct (s.(Connection.connected)); [|done]. exists (drained q).
    split; [simpl; by rewrite lookup_fmap, Hq|]. unfold drained. by destruct (in_map q).
Qed.

(** What a returned result says of the connection *)
Definition result_justified (responses : list (N * PendingResult)) (connected : bool) (id : N)
    (r : PendingResult) : Prop :=
  match r with
  | Ok _ | Err (ConnectionError.Remote _) => (id, r) ∈ responses
  | Err ConnectionError.Disconnected => connected = false
  | Err ConnectionError.Timeout | Err ConnectionError.Serialize | Err ConnectionError.WriteFailed => True
  | Err ConnectionError.TooManyPending | Err ConnectionError.RequestIdExhausted => False
  end.

Lemma responses_are_answers responses s :
  conn_reached responses s ->
  Forall (fun '(_, r) => (exists v, r = Ok v) \/ exists code, r = Err (ConnectionError.Remote code)) responses.
Proof.
  induction 1 as [|responses s more s' _ IH Hstep]; [constructor|].
  apply list.Forall_app. split; [done|]. destruct Hstep; try constructor; [done|constructor].
Qed.

(** C27: Over every interleaving of requests, responses, deliveries, timeouts and the
    disconnection: a request that returns a result or a remote error returns what a response
    with its own id carried, [Disconnected] is returned only when the connection has ended,
    and no later step changes what a request has returned. Ids are fresh and at most 64
    requests are pending. *)
Theorem responses_correlate responses s :
  conn_reached responses s ->
  (forall id r, has_returned id r s ->
     result_justified responses s.(Connection.connected) id r /\
     forall more s', conn_step s more s' -> has_returned id r s') /\
  (forall id p, s.(Connection.requests) !! id = Some p -> (id < s.(Connection.next_request_id))%N) /\
  pending_len s <= MAX_PENDING_REQUESTS.
Proof.
  intros Hreach. pose proof (conn_reached_inv _ _ Hreach) as Hinv. split_and!.
  - intros id r Hr. split; [|intros more s' Hstep; by eapply returned_final].
    destruct Hr as (p & Hp & Hr). apply responses_are_answers in Hreach.
    destruct (rq_returned _ _ _ _ (ci_requests _ _ Hinv _ _ Hp) _ Hr) as [[Hin|[-> ?]]|Hl]; [|done|naive_solver].
    rewrite list.Forall_forall in Hreach. destruct (Hreach _ Hin) as [[v ->]|[code ->]]; done.
  - intros id p. apply (ci_fresh _ _ Hinv).
  - apply (ci_len _ _ Hinv).
Qed.

(** C28: A thread is never left waiting for a result that was lost. When its timeout came
    too late, or the connection has ended while it waits, a result is in its channel or in the
    hands of the thread that delivers it: the delivery makes the request return that result,
    and the result came from a response with its id or from the disconnection. After the
    connection has ended every new request is refused with [Disconnected] and changes
    nothing. *)
Theorem waiters_wake responses s id p :
  conn_reached responses s -> s.(Connection.requests) !! id = Some p ->
  p.(Pending.caller) = Caller.TimedOut \/
  p.(Pending.caller) = Caller.Waiting /\ s.(Connection.connected) = false ->
  exists r, result_justified responses s.(Connection.connected) id r /\
    conn_step s [] (deliver id s) /\
    conn_step (deliver id s) [] (set_caller id (Caller.Returned r) (deliver id s)) /\
    has_returned id r (set_caller id (Caller.Returned r) (deliver id s)) /\
    (s.(Connection.connected) = false -> begin_request s = (Err ConnectionError.Disconnected, s)).
Proof.
  intros Hreach Hp Hc. pose proof (conn_reached_inv _ _ Hreach) as Hinv.
  destruct (ci_requests _ _ Hinv _ _ Hp) as [Hmap Hheld Hgone Hmsg _].
  assert (exists r, (send_held p).(Pending.message) = Some r /\ origin responses s.(Connection.connected) id r)
    as (r & Hr & Horigin).
  { clear Hreach Hinv Hp. destruct p as [[|r|] m c]; simpl in *.
    - destruct (Hmap eq_refl) as (_ & Hconn & [Hw|Hw]); exfalso; destruct_or!; destruct_and?; congruence.
    - exists r. split; [done|]. by apply (Hheld r).
    - destruct m as [m|]; [exists m; auto|]. destruct (Hgone eq_refl eq_refl) as [r Hr].
      destruct_or!; destruct_and?; congruence. }
  exists r. split_and!.
  - apply responses_are_answers in Hreach. rewrite list.Forall_forall in Hreach.
    destruct Horigin as [Hin|[-> Hconn]]; [|done]. destruct (Hreach _ Hin) as [[v ->]|[code ->]]; done.
  - apply cs_deliver.
  - apply (cs_received _ _ (send_held p)); [|destruct p as [[] ? ?]; simpl in *; tauto|done].
    unfold deliver. simpl. by rewrite lookup_alter_eq, Hp.
  - exists (Pending.set_caller (Caller.Returned r) (send_held p)). split; [|done].
    unfold set_caller, deliver. simpl. rewrite lookup_alter_eq. by rewrite lookup_alter_eq, Hp.
  - intros Hconn. unfold begin_request, get, mbind, M_bind. by rewrite Hconn.
Qed.

(** What the reader does to the connection, whatever the observer and the writer do: responses
    and error responses complete their request, nothing else touches the connection. *)
Lemma handle_inbound_steps {O} (on_n : string -> Value.t -> O -> O)
    (on_r : Value.t -> string -> Value.t -> O -> O) error_line write_ok message st :
  let st' := (handle_inbound on_n on_r error_line write_ok message st).2 in
  match message with
  | InboundMessage.Response id v =>
    conn_step st.(Reader.connection) [(id, Ok v)] st'.(Reader.connection)
  | InboundMessage.ResponseError id code _ =>
    conn_step st.(Reader.connection) [(id, Err (ConnectionError.Remote code))] st'.(Reader.connection)
  | _ => st'.(Reader.connection) = st.(Reader.connection)
  end.
Proof.
  destruct message as [id v|id code msg|method params|id method params]; simpl.
  - apply cs_response. left. by exists v.
  - apply cs_response. right. by exists code.
  - done.
  - unfold handle_inbound, lift, reject_if, modify, get, mbind, M_bind, mret, M_ret, throw.
    simpl. destruct (error_line _ _ _); simpl; [|done]. by destruct write_ok.
Qed.
