(* ===== verification/Worktree.v ===== *)
(** * Worktrees of local runs (task/worktree.rs)

    Each run works in a directory of its own: a detached git worktree that is a direct child of
    the managed root and apart from the repository. Paths are lists of names; the file system
    answers each call in the way its environment says, and keeps which targets exist. *)

From S2P Require Import Prelude TaskArtifact TaskReceipt.

Definition MAX_RUN_ID_BYTES : N := 128.
Definition MAX_GIT_OUTPUT_BYTES : N := 4 * 1024.

(** ** Paths *)

Module PathBuf.
Record t := mk { absolute : bool; names : list string }.
#[global] Instance eq_dec : EqDecision t.
Proof. solve_decision. Defined.
(** [Path::parent], [Path::file_name], [Path::join] of one name, [Path::starts_with] *)
Definition parent (p : t) : option t :=
  match p.(names) with [] => None | _ => Some (mk p.(absolute) (removelast p.(names))) end.
Definition file_name (p : t) : option string :=
  opt_filter (fun name => negb (str_eqb name "..")) (list.last p.(names)).
Definition join (p : t) (name : string) : t := mk p.(absolute) (p.(names) ++ [name]).
Definition starts_with (p base : t) : Prop :=
  p.(absolute) = base.(absolute) /\ base.(names) `prefix_of` p.(names).
#[global] Instance starts_with_dec p base : Decision (starts_with p base).
Proof. unfold starts_with. apply _. Defined.
End PathBuf.

Definition exact_target (managed_root path : PathBuf.t) (name : string) : bool :=
  bool_decide (path = PathBuf.join managed_root name)
  && bool_decide (PathBuf.parent path = Some managed_root).

Definition paths_overlap (left right : PathBuf.t) : bool :=
  bool_decide (PathBuf.starts_with left right) || bool_decide (PathBuf.starts_with right left).

(** ** Data *)

Module WorktreeError.
Inductive t := InvalidRequest | GitUnavailable | NotRepository | DestinationExists | CreateFailed.
#[global] Instance eq_dec : EqDecision t.
Proof. solve_decision. Defined.
End WorktreeError.

Module WorktreeCleanupFailure.
Inductive t := EvidenceIncomplete | InvalidTarget | GitUnavailable | GitRejected.
#[global] Instance eq_dec : EqDecision t.
Proof. solve_decision. Defined.
End WorktreeCleanupFailure.

Module WorktreeCleanup.
Inductive t := Removed | Retained (reason : WorktreeCleanupFailure.t).
#[global] Instance eq_dec : EqDecision t.
Proof. solve_decision. Defined.
End WorktreeCleanup.

Module TaskWorktree.
Record t := mk {
  managed_root : PathBuf.t;
  repository : PathBuf.t;
  path : PathBuf.t;
  directory_name : string;
  cwd : string;
  baseline_commit : string;
}.
#[global] Instance eq_dec : EqDecision t.
Proof. solve_decision. Defined.
End TaskWorktree.

(** The targets that exist *)
Definition Disk : Type := list PathBuf.t.

(** What one [create] meets, in order: the canonical repository, git's three answers and what
    the canonical forms of the paths are, whether the managed root can be made, whether the
    destination can be looked at, what the last git command leaves, and the path as text. *)
Module CreateEnv.
Record t := mk {
  repository : option PathBuf.t;
  toplevel : GitRun;
  reported_root : string -> option PathBuf.t;
  head : GitRun;
  root_parent : option PathBuf.t;
  create_dir : bool;
  managed_root : option PathBuf.t;
  stat : bool;
  worktree_add : GitRun;
  added : bool;
  path : option PathBuf.t;
  path_str : option string;
}.
End CreateEnv.

(** What one [cleanup] meets: the canonical root and path, git, whether the target is gone
    afterwards, and whether it can be looked at. *)
Module CleanupEnv.
Record t := mk {
  managed_root : option PathBuf.t;
  path : option PathBuf.t;
  remove : GitRun;
  removed : bool;
  stat : bool;
}.
End CleanupEnv.

(** ** git *)

Definition git_line (run : GitRun) : result GitCommandError.t string :=
  output ← run_git run MAX_GIT_OUTPUT_BYTES;
  let output := strip_last CR (strip_last NL output) in
  _ ← refuse (negb (is_utf8 output)) GitCommandError.Failed;
  Ok output.

Definition map_repository_error (error : GitCommandError.t) : WorktreeError.t :=
  match error with
  | GitCommandError.Unavailable => WorktreeError.GitUnavailable
  | GitCommandError.Failed | GitCommandError.OutputTooLarge | GitCommandError.TimedOut =>
    WorktreeError.NotRepository
  end.

Definition map_create_error (error : GitCommandError.t) : WorktreeError.t :=
  match error with
  | GitCommandError.Unavailable => WorktreeError.GitUnavailable
  | GitCommandError.Failed | GitCommandError.OutputTooLarge | GitCommandError.TimedOut =>
    WorktreeError.CreateFailed
  end.

(** ** Operations *)

Section Worktrees.
Context `{Sha256}.

(** [format!("run-{:x}", Sha256::digest(run_id.as_bytes()))] *)
Definition directory_name_of (run_id : string) : string := "run-" +:+ sha256_hex run_id.

(** [TaskWorktreeManager::create], with the root of the manager *)
Definition create (root : PathBuf.t) (run_id : string) (env : CreateEnv.t)
    : M Disk WorktreeError.t TaskWorktree.t :=
  _ ← reject_if (trim_is_empty run_id || (MAX_RUN_ID_BYTES <? len run_id)%N)
        WorktreeError.InvalidRequest;
  repository ← lift (ok_or env.(CreateEnv.repository) WorktreeError.NotRepository);
  reported ← lift (map_err map_repository_error (git_line env.(CreateEnv.toplevel)));
  reported_root ← lift (ok_or (env.(CreateEnv.reported_root) reported) WorktreeError.NotRepository);
  _ ← reject_if (negb (bool_decide (reported_root = repository))) WorktreeError.NotRepository;
  baseline_commit ← lift (map_err map_repository_error (git_line env.(CreateEnv.head)));
  _ ← reject_if (negb (valid_commit baseline_commit)) WorktreeError.NotRepository;
  _ ← reject_if (negb root.(PathBuf.absolute)) WorktreeError.InvalidRequest;
  _ ← lift (ok_or (PathBuf.parent root) WorktreeError.InvalidRequest);
  root_name ← lift (ok_or (PathBuf.file_name root) WorktreeError.InvalidRequest);
  root_parent ← lift (ok_or env.(CreateEnv.root_parent) WorktreeError.CreateFailed);
  let intended_root := PathBuf.join root_parent root_name in
  _ ← reject_if (paths_overlap intended_root repository) WorktreeError.InvalidRequest;
  disk ← get;
  _ ← (if bool_decide (intended_root ∈ disk) then mret tt
       else _ ← reject_if (negb env.(CreateEnv.create_dir)) WorktreeError.CreateFailed;
            modify (cons intended_root));
  managed_root ← lift (ok_or env.(CreateEnv.managed_root) WorktreeError.CreateFailed);
  _ ← reject_if (paths_overlap managed_root repository) WorktreeError.InvalidRequest;
  let directory_name := directory_name_of run_id in
  let path := PathBuf.join managed_root directory_name in
  disk ← get;
  _ ← reject_if (bool_decide (path ∈ disk)) WorktreeError.DestinationExists;
  _ ← reject_if (negb env.(CreateEnv.stat)) WorktreeError.CreateFailed;
  _ ← (if env.(CreateEnv.added) then modify (cons path) else mret tt);
  _ ← lift (map_err map_create_error (run_git env.(CreateEnv.worktree_add) MAX_GIT_OUTPUT_BYTES));
  canonical_path ← lift (ok_or env.(CreateEnv.path) WorktreeError.CreateFailed);
  _ ← reject_if (negb (bool_decide (canonical_path = path))
                 || negb (exact_target managed_root canonical_path directory_name))
        WorktreeError.CreateFailed;
  cwd ← lift (ok_or env.(CreateEnv.path_str) WorktreeError.InvalidRequest);
  mret (TaskWorktree.mk managed_root repository canonical_path directory_name cwd baseline_commit).
End Worktrees.

Definition paths_still_match (env : CleanupEnv.t) (w : TaskWorktree.t) : bool :=
  bool_decide (env.(CleanupEnv.managed_root) = Some w.(TaskWorktree.managed_root))
  && bool_decide (env.(CleanupEnv.path) = Some w.(TaskWorktree.path))
  && exact_target w.(TaskWorktree.managed_root) w.(TaskWorktree.path) w.(TaskWorktree.directory_name).

(** [target_present] *)
Definition target_present (env : CleanupEnv.t) (path : PathBuf.t) (disk : Disk) : bool :=
  negb env.(CleanupEnv.stat) || bool_decide (path ∈ disk).

(** [TaskWorktree::cleanup] *)
Definition cleanup (w : TaskWorktree.t) (env : CleanupEnv.t) (disk : Disk)
    : WorktreeCleanup.t * Disk :=
  if negb (paths_still_match env w)
  then (WorktreeCleanup.Retained WorktreeCleanupFailure.InvalidTarget, disk) else
  let disk := if env.(CleanupEnv.removed)
              then filter (fun p => p <> w.(TaskWorktree.path)) disk else disk in
  match run_git env.(CleanupEnv.remove) MAX_GIT_OUTPUT_BYTES with
  | Err GitCommandError.Unavailable =>
    (WorktreeCleanup.Retained WorktreeCleanupFailure.GitUnavailable, disk)
  | Err (GitCommandError.Failed | GitCommandError.OutputTooLarge | GitCommandError.TimedOut) =>
    (WorktreeCleanup.Retained WorktreeCleanupFailure.GitRejected, disk)
  | Ok _ =>
    if target_present env w.(TaskWorktree.path) disk
    then (WorktreeCleanup.Retained WorktreeCleanupFailure.GitRejected, disk)
    else (WorktreeCleanup.Removed, disk)
  end.

(** ** A worktree is apart from the repository *)

Lemma prefix_snoc {A} (l k : list A) x : l `prefix_of` k ++ [x] -> l `prefix_of` k \/ l = k ++ [x].
Proof.
  intros [m Hm]. destruct m as [|y m] using rev_ind; [right; by rewrite app_nil_r in Hm|].
  left. rewrite app_assoc in Hm. apply app_inj_tail in Hm as [-> _]. by exists m.
Qed.

(** A child of a root that does not overlap the repository does not either. *)
Lemma join_apart root repository name :
  paths_overlap root repository = false -> paths_overlap (PathBuf.join root name) repository = false.
Proof.
  unfold paths_overlap. intros [Hl Hr]%orb_false_inv. bool_hyps.
  apply orb_false_intro; apply bool_decide_eq_false_2; intros [Habs Hpre]; simpl in *.
  - apply prefix_snoc in Hpre as [Hpre|Heq]; [by apply Hl|].
    apply Hr. split; [done|]. rewrite Heq. by exists [name].
  - apply Hr. split; [done|]. etrans; [|exact Hpre]. by exists [name].
Qed.

Lemma cleanup_disk w env disk r disk' p :
  cleanup w env disk = (r, disk') -> p <> w.(TaskWorktree.path) -> p ∈ disk' <-> p ∈ disk.
Proof.
  unfold cleanup. intros Hrun Hne. destruct (negb (paths_still_match env w)); [by simplify_eq|].
  assert (forall d, d = (if env.(CleanupEnv.removed)
    then filter (fun p => p <> w.(TaskWorktree.path)) disk else disk) -> p ∈ d <-> p ∈ disk) as Hd.
  { intros d ->. destruct (env.(CleanupEnv.removed)); [|done]. rewrite list_elem_of_filter. naive_solver. }
  destruct (run_git _ _) as [o|[]]; try (simplify_eq; by apply Hd).
  destruct (target_present _ _ _); simplify_eq; by apply Hd.
Qed.

Lemma cleanup_removed w env disk disk' :
  cleanup w env disk = (WorktreeCleanup.Removed, disk') ->
  w.(TaskWorktree.path) ∉ disk' /\
  exact_target w.(TaskWorktree.managed_root) w.(TaskWorktree.path) w.(TaskWorktree.directory_name) = true.
Proof.
  unfold cleanup. destruct (paths_still_match env w) eqn:Hm; [|done]. simpl.
  destruct (run_git _ _) as [o|[]]; try done.
  destruct (target_present _ _ _) eqn:Hp; [done|]. intros [= <-].
  apply orb_false_inv in Hp as [_ Hp]. apply bool_decide_eq_false_1 in Hp.
  split; [done|]. unfold paths_still_match in Hm. by bool_hyps.
Qed.

Section Apart.
Context `{Sha256}.

Lemma worktree_create_ok root run_id env disk w disk' :
  create root run_id env disk = (Ok w, disk') ->
  w.(TaskWorktree.path) = PathBuf.join w.(TaskWorktree.managed_root) (directory_name_of run_id) /\
  w.(TaskWorktree.directory_name) = directory_name_of run_id /\
  w.(TaskWorktree.path) ∉ disk /\
  env.(CreateEnv.managed_root) = Some w.(TaskWorktree.managed_root) /\
  paths_overlap w.(TaskWorktree.managed_root) w.(TaskWorktree.repository) = false /\
  valid_commit w.(TaskWorktree.baseline_commit) = true /\
  exact_target w.(TaskWorktree.managed_root) w.(TaskWorktree.path) w.(TaskWorktree.directory_name) = true /\
  (forall p, p ∈ disk -> p ∈ disk') /\
  (env.(CreateEnv.added) = true -> w.(TaskWorktree.path) ∈ disk').
Proof.
  unfold create. intros Hrun. run_inv Hrun.
  all: bool_hyps; subst; simpl in *; rewrite ?elem_of_cons in *; split_and!; try assumption; try reflexivity.
  all: first [tauto | intros; rewrite ?elem_of_cons; tauto | by intros Hadd; rewrite Hadd in *].
Qed.

(** A worktree is made for its run alone and apart from the repository: it is a new direct
    child of the managed root, named by the hash of the run id, at a valid commit, and
    neither contains the repository nor lies in it. Whatever the file system answers, its
    cleanup leaves every other path as it is, and says [Removed] only when it is gone. Two
    runs with the same directory name are the same run or a SHA-256 collision. *)
Theorem worktree_apart root run_id env disk w disk' :
  create root run_id env disk = (Ok w, disk') ->
  w.(TaskWorktree.path) ∉ disk /\
  PathBuf.parent w.(TaskWorktree.path) = Some w.(TaskWorktree.managed_root) /\
  paths_overlap w.(TaskWorktree.path) w.(TaskWorktree.repository) = false /\
  valid_commit w.(TaskWorktree.baseline_commit) = true /\
  (forall cleanup_env disk1 r disk2, cleanup w cleanup_env disk1 = (r, disk2) ->
     (r = WorktreeCleanup.Removed -> w.(TaskWorktree.path) ∉ disk2) /\
     forall p, p <> w.(TaskWorktree.path) -> p ∈ disk2 <-> p ∈ disk1) /\
  (forall run_id', w.(TaskWorktree.directory_name) = directory_name_of run_id' ->
     sha256_digest run_id' = sha256_digest run_id).
Proof.
  intros (Hpath & Hname & Hfresh & _ & Hroot & Hcommit & Hexact & _)%worktree_create_ok.
  unfold exact_target in Hexact. bool_hyps. split_and!; try done.
  - rewrite Hpath. by apply join_apart.
  - intros cenv d1 r d2 Hc. split; [intros ->; by apply cleanup_removed in Hc as [? _]|].
    intros p. by eapply cleanup_disk.
  - intros run_id'. rewrite Hname. intros Heq. symmetry. apply hex_of_bytes_inj.
    revert Heq. unfold directory_name_of, sha256_hex. intros [= Heq]. exact Heq.
Qed.
End Apart.
