(* ===== verification/Runtime.v ===== *)
(** * The Codex runtime (runtime/codex.rs)

    Starting and interrupting one run over a connection. The connection is a trait object: it
    has an identity, and each request returns a result while other threads may use the
    router. *)

From S2P Require Import Prelude AppJson AppWire AppConnection EventRouter EventThm Worktree.

Definition MAX_RUN_PROMPT_BYTES : N := 4 * 1024.

Module CodexRuntimeError.
Inductive t := InvalidRequest | RequestFailed | OutcomeUnknown | EventRouting | RunNotActive.
#[global] Instance eq_dec : EqDecision t.
Proof. solve_decision. Defined.
End CodexRuntimeError.

(** [dyn ConnectionControl]: its identity, and for each request what others do to the router
    until it returns, and what it returns *)
Module ConnectionControl.
Record t := mk {
  connection_identity : N;
  request : string -> Value.t -> list RouterOp * PendingResult;
}.
End ConnectionControl.

Module CodexRunRequest.
Record t := mk { run_id : string; thread_id : string; prompt : string; worktree : TaskWorktree.t }.
End CodexRunRequest.

Module ActiveCodexRun.
Record t := mk {
  runtime_identity : N;
  connection_identity : N;
  run_id : string;
  thread_id : string;
  turn_id : string;
  events : RunEventStream.t;
}.
End ActiveCodexRun.

(** The router, and the requests that were sent *)
Module Link.
Record t := mk { router : EventRouter.t; sent : list (string * Value.t) }.
Definition set_router (r : EventRouter.t) (s : t) : t := mk r s.(sent).
End Link.

(** [validate_request] *)
Definition validate_request (request : CodexRunRequest.t) : result CodexRuntimeError.t unit :=
  refuse (negb (valid_id request.(CodexRunRequest.run_id))
          || negb (valid_id request.(CodexRunRequest.thread_id))
          || trim_is_empty request.(CodexRunRequest.prompt)
          || (MAX_RUN_PROMPT_BYTES <? len request.(CodexRunRequest.prompt))%N)
    CodexRuntimeError.InvalidRequest.

Definition parse_started_turn (response : Value.t) : option string :=
  turn ← (turn ← Value.get "turn" response; Value.as_object turn);
  turn_id ← opt_filter valid_id (id ← Value.lookup "id" turn; Value.as_str id);
  if negb (bool_decide ((status ← Value.lookup "status" turn; Value.as_str status)
                        = Some "inProgress"))
  then None else Some turn_id.

Definition map_connection_error (error : ConnectionError.t) : CodexRuntimeError.t :=
  match error with
  | ConnectionError.WriteFailed | ConnectionError.Timeout | ConnectionError.Disconnected =>
    CodexRuntimeError.OutcomeUnknown
  | ConnectionError.Serialize | ConnectionError.TooManyPending | ConnectionError.Remote _
  | ConnectionError.RequestIdExhausted => CodexRuntimeError.RequestFailed
  end.

(** The policy leaves [excludeSlashTmp] and [excludeTmpdirEnvVar] out, so that the server reads them as [false]. *)
Definition turn_start_params (request : CodexRunRequest.t) : Value.t :=
  let cwd := request.(CodexRunRequest.worktree).(TaskWorktree.cwd) in
  Value.Object [
    ("threadId", Value.Str request.(CodexRunRequest.thread_id));
    ("clientUserMessageId", Value.Str request.(CodexRunRequest.run_id));
    ("input", Value.Array [Value.Object [("type", Value.Str "text");
                                         ("text", Value.Str request.(CodexRunRequest.prompt))]]);
    ("cwd", Value.Str cwd);
    ("approvalPolicy", Value.Str "on-request");
    ("approvalsReviewer", Value.Str "auto_review");
    ("sandboxPolicy", Value.Object [("type", Value.Str "workspaceWrite");
                                    ("writableRoots", Value.Array [Value.Str cwd]);
                                    ("networkAccess", Value.Bool false)])].

Definition turn_interrupt_params (run : ActiveCodexRun.t) : Value.t :=
  Value.Object [("threadId", Value.Str run.(ActiveCodexRun.thread_id));
                ("turnId", Value.Str run.(ActiveCodexRun.turn_id))].

Section Runtime.
Context `{RunEventJson}.

Definition LinkM := M Link.t CodexRuntimeError.t.

(** [connection.request(..)] *)
Definition send_request (connection : ConnectionControl.t) (method : string) (params : Value.t)
    : M Link.t ConnectionError.t Value.t :=
  fun s =>
    let (others, r) := connection.(ConnectionControl.request) method params in
    (r, Link.mk (run_ops others s.(Link.router)) (s.(Link.sent) ++ [(method, params)])).

Definition ask (connection : ConnectionControl.t) (method : string) (params : Value.t)
    : LinkM Value.t :=
  zoom id (fun s _ => s) map_connection_error (send_request connection method params).

Definition on_router {A} (f : EventRouterError.t -> CodexRuntimeError.t) (m : RouterM A) : LinkM A :=
  zoom Link.router Link.set_router f m.

(** The statements after the stream was made: a failure drops it on the way out. *)
Definition with_stream {A} (events : RunEventStream.t) (m : LinkM A) : LinkM A :=
  fun s =>
    match m s with
    | (Ok a, s) => (Ok a, s)
    | (Err e, s) => (Err e, Link.set_router (drop_stream events s.(Link.router)) s)
    end.

(** [CodexRuntime::start_run] of the runtime with this identity *)
Definition start_run (runtime_identity : N) (request : CodexRunRequest.t)
    (connection : ConnectionControl.t) : LinkM ActiveCodexRun.t :=
  _ ← lift (validate_request request);
  let connection_identity := connection.(ConnectionControl.connection_identity) in
  events ← on_router (fun _ => CodexRuntimeError.EventRouting)
             (prepare_run connection_identity request.(CodexRunRequest.run_id)
                request.(CodexRunRequest.thread_id));
  with_stream events (
    response ← ask connection "turn/start" (turn_start_params request);
    turn_id ← lift (ok_or (parse_started_turn response) CodexRuntimeError.OutcomeUnknown);
    _ ← on_router (fun _ => CodexRuntimeError.OutcomeUnknown) (bind_turn events turn_id);
    mret (ActiveCodexRun.mk runtime_identity connection_identity request.(CodexRunRequest.run_id)
            request.(CodexRunRequest.thread_id) turn_id events)).

(** [CodexRuntime::interrupt_run] *)
Definition interrupt_run (runtime_identity : N) (run : ActiveCodexRun.t)
    (connection : ConnectionControl.t) : LinkM unit :=
  s ← get;
  _ ← reject_if (negb (runtime_identity =? run.(ActiveCodexRun.runtime_identity))%N
                 || negb (connection.(ConnectionControl.connection_identity)
                          =? run.(ActiveCodexRun.connection_identity))%N
                 || negb (is_active run.(ActiveCodexRun.events) s.(Link.router)))
        CodexRuntimeError.RunNotActive;
  response ← ask connection "turn/interrupt" (turn_interrupt_params run);
  reject_if (match Value.as_object response with
             | Some [] => false
             | Some (_ :: _) | None => true
             end) CodexRuntimeError.OutcomeUnknown.
End Runtime.
