(* ===== verification/Orchestrator.v ===== *)
(** * Local Codex runs (task/orchestrator.rs)

    One run from its queue to its receipt: the worktree is made, the run is begun in the task
    service, a thread and a turn are started over the connection, and the run is polled until
    an event, a gap or the end of the stream gives its outcome. *)

From S2P Require Import Prelude AppJson AppWire AppConnection EventRouter EventThm TaskArtifact TaskReceipt TaskMachine TaskStore TaskService Worktree Runtime.

Definition CODEX_RUNTIME_ID : string := "codex".
Definition MAX_PROMPT_TOKEN_UPPER_BOUND : N := 1000.
Definition RUNTIME_FAILED_MESSAGE : string := "Codex Runtime reported that the run failed.".
Definition OUTCOME_UNKNOWN_MESSAGE : string := "The Codex run outcome could not be verified.".

Module TaskRunError.
Inductive t := InvalidRequest | TaskState | Worktree | Artifact | Runtime.
#[global] Instance eq_dec : EqDecision t.
Proof. solve_decision. Defined.
End TaskRunError.

Module ResolvedProject.
Record t := mk { id : string; cwd : string }.
End ResolvedProject.

Module StartLocalCodexRunRequest.
Record t := mk {
  project_id : string;
  task_id : string;
  run_id : string;
  node_id : string;
  runtime_version : string;
  project : ResolvedProject.t;
  connection : ConnectionControl.t;
}.
End StartLocalCodexRunRequest.

Module RunMetadata.
Record t := mk {
  task_id : string;
  run_id : string;
  node_id : string;
  runtime_version : string;
  started_at : Z;
}.
End RunMetadata.

Module LocalCodexRunCompletion.
Record t := mk { run : RunRecord.t; patch : PatchArtifact.t; cleanup : WorktreeCleanup.t }.
End LocalCodexRunCompletion.

Module LocalCodexRunProgress.
Inductive t := Pending (run : RunRecord.t) | Finished (completion : LocalCodexRunCompletion.t).
End LocalCodexRunProgress.

Module ActiveLocalCodexRun.
Record t := mk {
  runtime_identity : N;
  connection : ConnectionControl.t;
  metadata : RunMetadata.t;
  worktree : TaskWorktree.t;
  active : ActiveCodexRun.t;
  pending_outcome : option RunReceiptOutcome.t;
  completion : option LocalCodexRunCompletion.t;
}.
Definition set_pending_outcome (v : option RunReceiptOutcome.t) (a : t) : t :=
  mk a.(runtime_identity) a.(connection) a.(metadata) a.(worktree) a.(active) v a.(completion).
Definition set_completion (v : option LocalCodexRunCompletion.t) (a : t) : t :=
  mk a.(runtime_identity) a.(connection) a.(metadata) a.(worktree) a.(active) a.(pending_outcome) v.
End ActiveLocalCodexRun.

Module LocalCodexRunStart.
Inductive t :=
| Active (run : ActiveLocalCodexRun.t)
| Existing (run : RunRecord.t)
| Finished (completion : LocalCodexRunCompletion.t).
End LocalCodexRunStart.

(** What a run touches: the task service, the router with its connection, and the disk *)
Module Desk.
Record t := mk { service : Service.t; link : Link.t; disk : Disk }.
Definition set_service (v : Service.t) (s : t) : t := mk v s.(link) s.(disk).
Definition set_link (v : Link.t) (s : t) : t := mk s.(service) v s.(disk).
Definition set_disk (v : Disk) (s : t) : t := mk s.(service) s.(link) v.
Definition set_router (v : EventRouter.t) (s : t) : t := set_link (Link.set_router v s.(link)) s.
End Desk.

(** What one [finish_run] meets *)
Module FinishEnv.
Record t := mk {
  add_paths : bool;
  add : GitRun;
  diff_paths : bool;
  diff : GitRun;
  clock : option N;
  finalize : TaskEnv.t;
  cleanup : CleanupEnv.t;
}.
End FinishEnv.

(** What one [start] meets *)
Module StartEnv.
Record t := mk {
  lookup : TaskEnv.t;
  worktree : CreateEnv.t;
  begin : TaskEnv.t;
  cleanup : CleanupEnv.t;
  clock : option N;
  finish : FinishEnv.t;
}.
End StartEnv.

(** What one [poll] meets; [others] is what happens to the router between the two looks at the
    stream. *)
Module PollEnv.
Record t := mk {
  others : list RouterOp;
  lookup : TaskEnv.t;
  transition : TaskEnv.t;
  finish : FinishEnv.t;
}.
End PollEnv.

(** ** Parts *)

(** [SystemTaskRunClock]: the seconds since the epoch, unless the clock stands before it *)
Definition now_unix_seconds (since_epoch : option N) : Z :=
  let seconds := default 0%N since_epoch in
  if (Z.of_N seconds <=? i64_max)%Z then Z.of_N seconds else i64_max.

Fixpoint push_constraints (prompt : string) (constraints : list string) : string :=
  match constraints with
  | [] => prompt
  | constraint :: constraints =>
    push_constraints (prompt +:+ String NL "- " +:+ constraint) constraints
  end.

Definition task_prompt (spec : TaskSpec.t) : result TaskRunError.t string :=
  let prompt := "Goal:" +:+ String NL spec.(TaskSpec.goal) in
  let prompt := match spec.(TaskSpec.constraints) with
                | [] => prompt
                | constraints =>
                  push_constraints (prompt +:+ String NL (String NL "Constraints:")) constraints
                end in
  _ ← refuse ((MAX_RUN_PROMPT_BYTES <? len prompt)%N
              || (MAX_PROMPT_TOKEN_UPPER_BOUND <? len prompt)%N) TaskRunError.InvalidRequest;
  Ok prompt.

Definition validate_metadata (request : StartLocalCodexRunRequest.t) : result TaskRunError.t unit :=
  refuse (negb (str_eqb request.(StartLocalCodexRunRequest.project).(ResolvedProject.id)
                        request.(StartLocalCodexRunRequest.project_id))
          || negb (valid_id request.(StartLocalCodexRunRequest.task_id))
          || negb (valid_id request.(StartLocalCodexRunRequest.run_id))
          || negb (valid_id request.(StartLocalCodexRunRequest.node_id))
          || trim_is_empty request.(StartLocalCodexRunRequest.runtime_version)
          || (MAX_RUNTIME_VERSION_BYTES <? len request.(StartLocalCodexRunRequest.runtime_version))%N)
    TaskRunError.InvalidRequest.

Definition thread_start_params (worktree : TaskWorktree.t) : Value.t :=
  Value.Object [
    ("cwd", Value.Str worktree.(TaskWorktree.cwd));
    ("config", Value.Object [("skills.include_instructions", Value.Bool false)])].

(** The checks of [start_thread] on a response *)
Definition started_thread (worktree : TaskWorktree.t) (response : Value.t) : option string :=
  thread ← (thread ← Value.get "thread" response; Value.as_object thread);
  thread_id ← opt_filter valid_id (id ← Value.lookup "id" thread; Value.as_str id);
  if negb (bool_decide ((cwd ← Value.get "cwd" response; Value.as_str cwd)
                        = Some worktree.(TaskWorktree.cwd)))
     || negb (bool_decide ((cwd ← Value.lookup "cwd" thread; Value.as_str cwd)
                           = Some worktree.(TaskWorktree.cwd)))
  then None else Some thread_id.

(** The error of a receipt *)
Definition receipt_error (outcome : RunReceiptOutcome.t) : option string :=
  match outcome with
  | RunReceiptOutcome.Success | RunReceiptOutcome.Cancelled => None
  | RunReceiptOutcome.Failed => Some RUNTIME_FAILED_MESSAGE
  | RunReceiptOutcome.OutcomeUnknown => Some OUTCOME_UNKNOWN_MESSAGE
  end.

Definition start_failure_outcome (error : CodexRuntimeError.t) : RunReceiptOutcome.t :=
  match error with
  | CodexRuntimeError.OutcomeUnknown => RunReceiptOutcome.OutcomeUnknown
  | CodexRuntimeError.InvalidRequest | CodexRuntimeError.RequestFailed
  | CodexRuntimeError.EventRouting | CodexRuntimeError.RunNotActive => RunReceiptOutcome.Failed
  end.

(** A run and what it touches *)
Module Polled.
Record t := mk { desk : Desk.t; run : ActiveLocalCodexRun.t }.
Definition set_desk (v : Desk.t) (s : t) : t := mk v s.(run).
Definition set_run (v : ActiveLocalCodexRun.t) (s : t) : t := mk s.(desk) v.
End Polled.

Section Runs.
Context `{Sha256, ReceiptJson, TasksJson, RunEventJson}.

Definition DeskM := M Desk.t TaskRunError.t.

Definition on_tasks {A} (m : ServiceM A) : DeskM A :=
  zoom Desk.service Desk.set_service (fun _ => TaskRunError.TaskState) m.

(** [worktree.cleanup()] *)
Definition clean (w : TaskWorktree.t) (env : CleanupEnv.t) : DeskM WorktreeCleanup.t :=
  fun s => let (r, disk) := cleanup w env s.(Desk.disk) in (Ok r, Desk.set_disk disk s).

Definition start_thread (worktree : TaskWorktree.t) (connection : ConnectionControl.t)
    : M Desk.t unit string :=
  response ← zoom Desk.link Desk.set_link (fun _ => tt)
               (send_request connection "thread/start" (thread_start_params worktree));
  lift (ok_or (started_thread worktree response) tt).

Definition receipt_input (metadata : RunMetadata.t) (finished_at : Z)
    (outcome : RunReceiptOutcome.t) (patch : PatchArtifact.t) : RunReceiptInput.t :=
  RunReceiptInput.mk metadata.(RunMetadata.task_id) metadata.(RunMetadata.run_id)
    metadata.(RunMetadata.node_id) CODEX_RUNTIME_ID metadata.(RunMetadata.runtime_version)
    metadata.(RunMetadata.started_at) finished_at outcome None (receipt_error outcome)
    TestReport.NotReported patch.

Definition finish_run (env : FinishEnv.t) (worktree : TaskWorktree.t) (metadata : RunMetadata.t)
    (outcome : RunReceiptOutcome.t) : DeskM LocalCodexRunCompletion.t :=
  patch ← lift (map_err (fun _ => TaskRunError.Artifact)
            (collect worktree.(TaskWorktree.baseline_commit) env.(FinishEnv.add_paths)
               env.(FinishEnv.add) env.(FinishEnv.diff_paths) env.(FinishEnv.diff)));
  receipt ← lift (map_err (fun _ => TaskRunError.InvalidRequest)
              (receipt_new (receipt_input metadata
                 (Z.max (now_unix_seconds env.(FinishEnv.clock)) metadata.(RunMetadata.started_at))
                 outcome patch)));
  run ← on_tasks (finalize_run env.(FinishEnv.finalize) receipt);
  cleanup ← (if bool_decide (outcome = RunReceiptOutcome.OutcomeUnknown)
                || is_none patch.(PatchArtifact.patch)
             then mret (WorktreeCleanup.Retained WorktreeCleanupFailure.EvidenceIncomplete)
             else clean worktree env.(FinishEnv.cleanup));
  mret (LocalCodexRunCompletion.mk run patch cleanup).

(** [LocalCodexRunService::start] once the run is begun: the thread, the turn, and the receipt of a
    run that could not be started *)
Definition launch (runtime_identity : N) (env : StartEnv.t) (request : StartLocalCodexRunRequest.t)
    (prompt : string) (worktree : TaskWorktree.t) : DeskM LocalCodexRunStart.t :=
  let metadata := RunMetadata.mk request.(StartLocalCodexRunRequest.task_id)
    request.(StartLocalCodexRunRequest.run_id) request.(StartLocalCodexRunRequest.node_id)
    request.(StartLocalCodexRunRequest.runtime_version) (now_unix_seconds env.(StartEnv.clock)) in
  let finish_start_failure outcome :=
    completion ← finish_run env.(StartEnv.finish) worktree metadata outcome;
    mret (LocalCodexRunStart.Finished completion) in
  thread ← attempt (start_thread worktree request.(StartLocalCodexRunRequest.connection));
  match (thread : result unit string) with
  | Err _ => finish_start_failure RunReceiptOutcome.Failed
  | Ok thread_id =>
    started ← attempt (zoom Desk.link Desk.set_link id
                (start_run runtime_identity
                   (CodexRunRequest.mk request.(StartLocalCodexRunRequest.run_id) thread_id prompt
                      worktree) request.(StartLocalCodexRunRequest.connection)));
    match (started : result CodexRuntimeError.t ActiveCodexRun.t) with
    | Err error => finish_start_failure (start_failure_outcome error)
    | Ok active =>
      mret (LocalCodexRunStart.Active
              (ActiveLocalCodexRun.mk runtime_identity
                 request.(StartLocalCodexRunRequest.connection) metadata worktree active None None))
    end
  end.

(** [LocalCodexRunService::start]; [root] is the managed root of the worktrees *)
Definition start (runtime_identity : N) (root : PathBuf.t) (env : StartEnv.t)
    (request : StartLocalCodexRunRequest.t) : DeskM LocalCodexRunStart.t :=
  _ ← lift (validate_metadata request);
  task ← on_tasks (get_project_task env.(StartEnv.lookup)
           request.(StartLocalCodexRunRequest.project_id) request.(StartLocalCodexRunRequest.task_id));
  found ← lift (ok_or (find_run request.(StartLocalCodexRunRequest.run_id) task.(TaskRecord.runs))
                  TaskRunError.InvalidRequest);
  let run := (found : nat * RunRecord.t).2 in
  if negb (bool_decide (run.(RunRecord.status) = RunStatus.Queued))
  then mret (LocalCodexRunStart.Existing run) else
  prompt ← lift (task_prompt task.(TaskRecord.spec));
  worktree ← zoom Desk.disk Desk.set_disk (fun _ => TaskRunError.Worktree)
               (create root request.(StartLocalCodexRunRequest.run_id) env.(StartEnv.worktree));
  begun ← on_tasks (begin_run env.(StartEnv.begin) request.(StartLocalCodexRunRequest.task_id)
            request.(StartLocalCodexRunRequest.run_id));
  match (begun : BeginRunResult.t) with
  | BeginRunResult.Existing run =>
    _ ← clean worktree env.(StartEnv.cleanup);
    mret (LocalCodexRunStart.Existing run)
  | BeginRunResult.Started _ => launch runtime_identity env request prompt worktree
  end.

(** ** Polling *)

Definition PollM := M Polled.t TaskRunError.t.

Definition on_desk {A} (m : DeskM A) : PollM A := zoom Polled.desk Polled.set_desk id m.

(** [current_run] *)
Definition current_run (env : TaskEnv.t) : PollM RunRecord.t :=
  s ← get;
  let metadata := s.(Polled.run).(ActiveLocalCodexRun.metadata) in
  task ← on_desk (on_tasks (get_task env metadata.(RunMetadata.task_id)));
  found ← lift (ok_or (find_run metadata.(RunMetadata.run_id) task.(TaskRecord.runs))
                  TaskRunError.InvalidRequest);
  mret (found : nat * RunRecord.t).2.

(** [self.tasks.transition_run(..)] for the polled run *)
Definition move_run (env : TaskEnv.t) (status : RunStatus.t) : PollM LocalCodexRunProgress.t :=
  s ← get;
  let metadata := s.(Polled.run).(ActiveLocalCodexRun.metadata) in
  run ← on_desk (on_tasks (TaskService.transition_run env metadata.(RunMetadata.task_id)
                             metadata.(RunMetadata.run_id) status));
  mret (LocalCodexRunProgress.Pending run).

(** The second block of [poll]: the outcome is known, and the run is finished with it. *)
Definition settle (env : FinishEnv.t) (outcome : RunReceiptOutcome.t)
    : PollM LocalCodexRunProgress.t :=
  s ← get;
  let run := s.(Polled.run) in
  completion ← on_desk (finish_run env run.(ActiveLocalCodexRun.worktree)
                          run.(ActiveLocalCodexRun.metadata) outcome);
  _ ← modify (fun s => Polled.set_run
        (ActiveLocalCodexRun.set_completion (Some completion) s.(Polled.run)) s);
  mret (LocalCodexRunProgress.Finished completion).

(** The first block of [poll]: a completed run stays completed. *)
Definition unless_completed (m : PollM LocalCodexRunProgress.t) : PollM LocalCodexRunProgress.t :=
  s ← get;
  match s.(Polled.run).(ActiveLocalCodexRun.completion) with
  | Some completion => mret (LocalCodexRunProgress.Finished completion)
  | None => m
  end.

(** [finish], with the [poll] it ends in: the outcome is set, so that only the first two blocks
    of that [poll] are reached. *)
Definition finish (env : FinishEnv.t) (outcome : RunReceiptOutcome.t)
    : PollM LocalCodexRunProgress.t :=
  _ ← modify (fun s => Polled.set_run
        (ActiveLocalCodexRun.set_pending_outcome (Some outcome) s.(Polled.run)) s);
  unless_completed (settle env outcome).

(** [self.active.try_next_event()] *)
Definition next_event : PollM (option RunEvent.t) :=
  fun s =>
    let stream := s.(Polled.run).(ActiveLocalCodexRun.active).(ActiveCodexRun.events) in
    let (event, router) := try_recv stream s.(Polled.desk).(Desk.link).(Link.router) in
    (Ok event, Polled.set_desk (Desk.set_router router s.(Polled.desk)) s).

(** Other threads use the router. *)
Definition interleave (ops : list RouterOp) : PollM unit :=
  modify (fun s => Polled.set_desk
    (Desk.set_router (run_ops ops s.(Polled.desk).(Desk.link).(Link.router)) s.(Polled.desk)) s).

Definition on_event (env : PollEnv.t) (kind : RunEventKind.t) : PollM LocalCodexRunProgress.t :=
  match kind with
  | RunEventKind.Running =>
    current ← current_run env.(PollEnv.lookup);
    if bool_decide (current.(RunRecord.status) = RunStatus.WaitingApproval)
    then move_run env.(PollEnv.transition) RunStatus.Running
    else mret (LocalCodexRunProgress.Pending current)
  | RunEventKind.WaitingApproval => move_run env.(PollEnv.transition) RunStatus.WaitingApproval
  | RunEventKind.Completed => finish env.(PollEnv.finish) RunReceiptOutcome.Success
  | RunEventKind.Failed => finish env.(PollEnv.finish) RunReceiptOutcome.Failed
  | RunEventKind.Interrupted => finish env.(PollEnv.finish) RunReceiptOutcome.Cancelled
  | RunEventKind.Gap _ => finish env.(PollEnv.finish) RunReceiptOutcome.OutcomeUnknown
  end.

(** [ActiveLocalCodexRun::poll] *)
Definition poll (env : PollEnv.t) : PollM LocalCodexRunProgress.t :=
  s ← get;
  unless_completed
    match s.(Polled.run).(ActiveLocalCodexRun.pending_outcome) with
    | Some outcome => settle env.(PollEnv.finish) outcome
    | None =>
      event ← next_event;
      match event with
      | Some event => on_event env event.(RunEvent.kind)
      | None =>
        _ ← interleave env.(PollEnv.others);
        s ← get;
        if negb (is_active s.(Polled.run).(ActiveLocalCodexRun.active).(ActiveCodexRun.events)
                   s.(Polled.desk).(Desk.link).(Link.router))
        then finish env.(PollEnv.finish) RunReceiptOutcome.OutcomeUnknown
        else
          run ← current_run env.(PollEnv.lookup);
          mret (LocalCodexRunProgress.Pending run)
      end
    end.

(** [mark_disconnected] *)
Definition mark_disconnected (env : FinishEnv.t) : PollM LocalCodexRunProgress.t :=
  finish env RunReceiptOutcome.OutcomeUnknown.

(** [ActiveLocalCodexRun::interrupt] *)
Definition interrupt : PollM unit :=
  s ← get;
  let run := s.(Polled.run) in
  on_desk (zoom Desk.link Desk.set_link (fun _ => TaskRunError.Runtime)
    (interrupt_run run.(ActiveLocalCodexRun.runtime_identity) run.(ActiveLocalCodexRun.active)
       run.(ActiveLocalCodexRun.connection))).
End Runs.
