(* ===== verification/LocalState.v ===== *)
(** * Local runs and their workers (task/local_state.rs)

    The state behind the desktop's task commands: the task service, the runs that are active,
    each with a flag that asks it to stop, and one worker per active run that polls it until
    it has an outcome. *)

From S2P Require Import Prelude AppJson AppWire AppConnection EventRouter EventThm TaskArtifact TaskReceipt TaskMachine TaskStore TaskService TaskPlan TaskThm Worktree Runtime Orchestrator.

Definition MAX_ACTIVE_RUNS : nat := 32.
Definition WORKER_FAILED_MESSAGE : string := "Local Codex run observation failed.".

Module LocalTaskError.
Inductive t := InvalidRequest | State | Runtime | RunNotActive | Busy.
#[global] Instance eq_dec : EqDecision t.
Proof. solve_decision. Defined.
End LocalTaskError.

Module StartLocalTaskRequest.
Record t := mk {
  project_id : string;
  idempotency_key : string;
  goal : string;
  constraints : list string;
  node_id : string;
  runtime_version : string;
  project : ResolvedProject.t;
  connection : ConnectionControl.t;
}.
End StartLocalTaskRequest.

Module LocalTaskRun.
Record t := mk { task : TaskRecord.t; run_id : string }.
End LocalTaskRun.

Module LocalTaskUpdate.
Record t := mk { project_id : string; task : TaskRecord.t; patch : option PatchArtifact.t }.
End LocalTaskUpdate.

(** [stop] is the address of the shared flag. *)
Module ActiveRunControl.
Record t := mk { project_id : string; task_id : string; run_id : string; stop : nat }.
End ActiveRunControl.

(** A worker between two iterations of its loop *)
Module Worker.
Record t := mk {
  active : ActiveLocalCodexRun.t;
  control : ActiveRunControl.t;
  previous : option RunRecord.t;
  interrupt_sent : bool;
}.
End Worker.

(** The state, with what the runtime and the worktrees were made with, the flags by address, the
    updates that were published, and the workers that run *)
Module TaskRunState.
Record t := mk {
  runtime_identity : N;
  root : PathBuf.t;
  desk : Desk.t;
  active : gmap string ActiveRunControl.t;
  flags : list bool;
  updates : list LocalTaskUpdate.t;
  workers : list Worker.t;
}.
Definition set_desk (v : Desk.t) (s : t) : t :=
  mk s.(runtime_identity) s.(root) v s.(active) s.(flags) s.(updates) s.(workers).
Definition set_active (v : gmap string ActiveRunControl.t) (s : t) : t :=
  mk s.(runtime_identity) s.(root) s.(desk) v s.(flags) s.(updates) s.(workers).
Definition set_flags (v : list bool) (s : t) : t :=
  mk s.(runtime_identity) s.(root) s.(desk) s.(active) v s.(updates) s.(workers).
Definition push_update (v : LocalTaskUpdate.t) (s : t) : t :=
  mk s.(runtime_identity) s.(root) s.(desk) s.(active) s.(flags) (s.(updates) ++ [v]) s.(workers).
Definition set_workers (v : list Worker.t) (s : t) : t :=
  mk s.(runtime_identity) s.(root) s.(desk) s.(active) s.(flags) s.(updates) v.
Definition set_service (v : Service.t) (s : t) : t := set_desk (Desk.set_service v s.(desk)) s.
Definition set_router (v : EventRouter.t) (s : t) : t := set_desk (Desk.set_router v s.(desk)) s.
Definition service (s : t) : Service.t := s.(desk).(Desk.service).
Definition router (s : t) : EventRouter.t := s.(desk).(Desk.link).(Link.router).
End TaskRunState.

(** What [finish_unknown] meets *)
Module UnknownEnv.
Record t := mk { finish : FinishEnv.t; abandon : TaskEnv.t; publish : TaskEnv.t }.
End UnknownEnv.

(** What one iteration of a worker meets *)
Module WorkerEnv.
Record t := mk { poll : PollEnv.t; publish : TaskEnv.t; unknown : UnknownEnv.t }.
End WorkerEnv.

(** What one [start] meets; [lock] and [relock] are the two uses of the mutex over the active
    runs, [spawn] is whether a thread could be made. *)
Module LocalStartEnv.
Record t := mk {
  create : TaskEnv.t;
  accept : TaskEnv.t;
  register : TaskEnv.t;
  lock : bool;
  start : StartEnv.t;
  relock : bool;
  spawn : bool;
  unknown : UnknownEnv.t;
  publish : TaskEnv.t;
  lookup : TaskEnv.t;
}.
End LocalStartEnv.

Definition map_task_error (error : TaskServiceError.t) : LocalTaskError.t :=
  match error with
  | TaskServiceError.State | TaskServiceError.Storage => LocalTaskError.State
  | TaskServiceError.TaskNotFound | TaskServiceError.InvalidIdempotencyKey
  | TaskServiceError.IdempotencyConflict | TaskServiceError.InvalidProjectId
  | TaskServiceError.StateMachine => LocalTaskError.InvalidRequest
  end.

Definition map_run_error (error : TaskRunError.t) : LocalTaskError.t :=
  match error with
  | TaskRunError.InvalidRequest => LocalTaskError.InvalidRequest
  | TaskRunError.TaskState => LocalTaskError.State
  | TaskRunError.Worktree | TaskRunError.Artifact | TaskRunError.Runtime => LocalTaskError.Runtime
  end.

Section Local.
Context `{Sha256, ReceiptJson, TasksJson, RunEventJson}.

Definition derived_id (kind idempotency_key : string) : string :=
  kind +:+ "-v1-" +:+ hex_of_bytes (sha256_digest (kind +:+ String zero idempotency_key)).

Definition StateM := M TaskRunState.t LocalTaskError.t.

Definition with_tasks {A} (m : ServiceM A) : StateM A :=
  zoom TaskRunState.service TaskRunState.set_service map_task_error m.

(** ** Publishing *)

Definition publish (env : TaskEnv.t) (project_id task_id : string) (patch : option PatchArtifact.t)
    (s : TaskRunState.t) : TaskRunState.t :=
  match with_tasks (get_project_task env project_id task_id) s with
  | (Ok task, s) => TaskRunState.push_update (LocalTaskUpdate.mk project_id task patch) s
  | (Err _, s) => s
  end.

(** [publish_completion] *)
Definition publish_completion (env : TaskEnv.t) (project_id task_id : string)
    (completion : LocalCodexRunCompletion.t) : TaskRunState.t -> TaskRunState.t :=
  publish env project_id task_id (Some completion.(LocalCodexRunCompletion.patch)).

Definition remove_active (run_id : string) (s : TaskRunState.t) : TaskRunState.t :=
  TaskRunState.set_active (delete run_id s.(TaskRunState.active)) s.

(** The active run goes out of scope, and its stream with it. *)
Definition drop_run (active : ActiveLocalCodexRun.t) (s : TaskRunState.t) : TaskRunState.t :=
  TaskRunState.set_router
    (drop_stream active.(ActiveLocalCodexRun.active).(ActiveCodexRun.events) (TaskRunState.router s)) s.

(** A call on the active run *)
Definition on_run {A} (m : PollM A) (active : ActiveLocalCodexRun.t) (s : TaskRunState.t)
    : result TaskRunError.t A * ActiveLocalCodexRun.t * TaskRunState.t :=
  let (r, p) := m (Polled.mk s.(TaskRunState.desk) active) in
  (r, p.(Polled.run), TaskRunState.set_desk p.(Polled.desk) s).

(** ** Workers *)

Definition finish_unknown (env : UnknownEnv.t) (active : ActiveLocalCodexRun.t)
    (control : ActiveRunControl.t) (s : TaskRunState.t) : TaskRunState.t :=
  let project_id := control.(ActiveRunControl.project_id) in
  let task_id := control.(ActiveRunControl.task_id) in
  let '(r, active, s) := on_run (mark_disconnected env.(UnknownEnv.finish)) active s in
  let s :=
    match r with
    | Ok (LocalCodexRunProgress.Finished completion) =>
      publish_completion env.(UnknownEnv.publish) project_id task_id completion s
    | Ok (LocalCodexRunProgress.Pending _) | Err _ =>
      let (_, s) := with_tasks (abandon_run env.(UnknownEnv.abandon) task_id
                      control.(ActiveRunControl.run_id) WORKER_FAILED_MESSAGE) s in
      publish env.(UnknownEnv.publish) project_id task_id None s
    end in
  drop_run active s.

(** The end of [run_worker] *)
Definition leave (control : ActiveRunControl.t) (s : TaskRunState.t)
    : option Worker.t * TaskRunState.t :=
  (None, remove_active control.(ActiveRunControl.run_id) s).

(** [control.stop.load(..)] *)
Definition stop_requested (control : ActiveRunControl.t) (s : TaskRunState.t) : bool :=
  default false (s.(TaskRunState.flags) !! control.(ActiveRunControl.stop)).

(** The second half of an iteration: the poll *)
Definition worker_poll (env : WorkerEnv.t) (w : Worker.t) (s : TaskRunState.t)
    : option Worker.t * TaskRunState.t :=
  let control := w.(Worker.control) in
  let '(r, active, s) := on_run (poll env.(WorkerEnv.poll)) w.(Worker.active) s in
  match r with
  | Ok (LocalCodexRunProgress.Pending run) =>
    if bool_decide (w.(Worker.previous) = Some run)
    then (Some (Worker.mk active control w.(Worker.previous) w.(Worker.interrupt_sent)), s)
    else (Some (Worker.mk active control (Some run) w.(Worker.interrupt_sent)),
          publish env.(WorkerEnv.publish) control.(ActiveRunControl.project_id)
            control.(ActiveRunControl.task_id) None s)
  | Ok (LocalCodexRunProgress.Finished completion) =>
    leave control
      (drop_run active
         (publish_completion env.(WorkerEnv.publish) control.(ActiveRunControl.project_id)
            control.(ActiveRunControl.task_id) completion s))
  | Err _ => leave control (finish_unknown env.(WorkerEnv.unknown) active control s)
  end.

(** One iteration of the loop of [run_worker]: the worker that goes on, or its end. The iteration is one step: what
    other threads do while it reads the stop flag, polls and publishes comes before or after it. *)
Definition worker_step (env : WorkerEnv.t) (w : Worker.t) (s : TaskRunState.t)
    : option Worker.t * TaskRunState.t :=
  let control := w.(Worker.control) in
  if stop_requested control s && negb w.(Worker.interrupt_sent) then
    let '(r, active, s) := on_run interrupt w.(Worker.active) s in
    match r with
    | Err _ => leave control (finish_unknown env.(WorkerEnv.unknown) active control s)
    | Ok _ => worker_poll env (Worker.mk active control w.(Worker.previous) true) s
    end
  else worker_poll env w s.

(** ** Commands *)

(** [TaskRunState::with_spawner]: the state of a process that starts over this file *)
Definition open_state (runtime_identity : N) (root : PathBuf.t) (router : EventRouter.t)
    (disk : Disk) (env : TaskEnv.t) (file : TaskFile)
    : result LocalTaskError.t unit * TaskRunState.t :=
  (_ ← with_tasks (reconcile_incomplete_runs env); mret tt)
    (TaskRunState.mk runtime_identity root
       (Desk.mk (Service.new file) (Link.mk router []) disk) ∅ [] [] []).

Definition list_local (env : TaskEnv.t) (project_id : string) : StateM (list TaskRecord.t) :=
  with_tasks (list_tasks env project_id).

(** [spawn_active] *)
Definition spawn_active (env : LocalStartEnv.t) (project_id : string)
    (active : ActiveLocalCodexRun.t) : StateM unit :=
  let run_id := active.(ActiveLocalCodexRun.metadata).(RunMetadata.run_id) in
  let refused (e : LocalTaskError.t) : StateM unit :=
    _ ← modify (drop_run active); throw e in
  s ← get;
  let control := ActiveRunControl.mk project_id
    active.(ActiveLocalCodexRun.metadata).(RunMetadata.task_id) run_id
    (length s.(TaskRunState.flags)) in
  _ ← modify (TaskRunState.set_flags (s.(TaskRunState.flags) ++ [false]));
  if negb env.(LocalStartEnv.relock) then refused LocalTaskError.State else
  if bool_decide (is_Some (s.(TaskRunState.active) !! run_id))
  then refused LocalTaskError.Busy else
  _ ← modify (fun s => TaskRunState.set_active
        (<[ run_id := control ]> s.(TaskRunState.active)) s);
  if env.(LocalStartEnv.spawn)
  then modify (fun s => TaskRunState.set_workers
         (s.(TaskRunState.workers) ++ [Worker.mk active control None false]) s)
  else
    _ ← modify (finish_unknown env.(LocalStartEnv.unknown) active control);
    modify (remove_active run_id).

(** [TaskRunState::start], as one step: it takes the locks of the task service, the active runs and the stop flags
    one after the other, and what other threads do in between comes before or after it. *)
Definition start_local (env : LocalStartEnv.t) (request : StartLocalTaskRequest.t)
    : StateM LocalTaskRun.t :=
  let project_id := request.(StartLocalTaskRequest.project_id) in
  let key := request.(StartLocalTaskRequest.idempotency_key) in
  _ ← reject_if (negb (str_eqb request.(StartLocalTaskRequest.project).(ResolvedProject.id) project_id)
                 || negb (valid_idempotency_key key)) LocalTaskError.InvalidRequest;
  let task_id := derived_id "task" key in
  let run_id := derived_id "run" key in
  _ ← with_tasks (create_task env.(LocalStartEnv.create)
        (CreateTaskRequest.mk task_id key project_id
           (TaskSpec.mk request.(StartLocalTaskRequest.goal)
              request.(StartLocalTaskRequest.constraints))));
  _ ← with_tasks (accept_task env.(LocalStartEnv.accept) project_id task_id);
  run ← with_tasks (register_run env.(LocalStartEnv.register)
          (RegisterRunRequest.mk task_id run_id (derived_id "run-key" key) project_id));
  s ← get;
  _ ← (if bool_decide (run.(RunRecord.status) = RunStatus.Queued) then
         _ ← reject_if (negb env.(LocalStartEnv.lock)) LocalTaskError.State;
         reject_if (MAX_ACTIVE_RUNS <=? size s.(TaskRunState.active)) LocalTaskError.Busy
       else mret tt);
  started ← zoom TaskRunState.desk TaskRunState.set_desk map_run_error
    (start s.(TaskRunState.runtime_identity) s.(TaskRunState.root) env.(LocalStartEnv.start)
       (StartLocalCodexRunRequest.mk project_id task_id run_id
          request.(StartLocalTaskRequest.node_id) request.(StartLocalTaskRequest.runtime_version)
          request.(StartLocalTaskRequest.project) request.(StartLocalTaskRequest.connection)));
  _ ← match started with
      | LocalCodexRunStart.Active active => spawn_active env project_id active
      | LocalCodexRunStart.Existing existing =>
        reject_if (negb (str_eqb existing.(RunRecord.id) run_id)) LocalTaskError.State
      | LocalCodexRunStart.Finished completion =>
        modify (publish_completion env.(LocalStartEnv.publish) project_id task_id completion)
      end;
  task ← with_tasks (get_project_task env.(LocalStartEnv.lookup) project_id task_id);
  mret (LocalTaskRun.mk task run_id).

(** [TaskRunState::stop] *)
Definition stop_local (env : TaskEnv.t) (lock : bool) (project_id task_id run_id : string)
    : StateM TaskRecord.t :=
  task ← zoom TaskRunState.service TaskRunState.set_service (fun _ => LocalTaskError.RunNotActive)
           (get_project_task env project_id task_id);
  _ ← reject_if (negb (existsb (fun run => str_eqb run.(RunRecord.id) run_id && run_active run)
                         task.(TaskRecord.runs))) LocalTaskError.RunNotActive;
  _ ← reject_if (negb lock) LocalTaskError.State;
  s ← get;
  control ← lift (ok_or (s.(TaskRunState.active) !! run_id) LocalTaskError.RunNotActive);
  _ ← reject_if (negb (str_eqb control.(ActiveRunControl.project_id) project_id)
                 || negb (str_eqb control.(ActiveRunControl.task_id) task_id))
        LocalTaskError.RunNotActive;
  _ ← modify (fun s => TaskRunState.set_flags
        (<[ control.(ActiveRunControl.stop) := true ]> s.(TaskRunState.flags)) s);
  mret task.
End Local.
