(* ===== verification/RunThm.v ===== *)
(** * What becomes of a local run

    The orchestrator over the task service, the worktrees and the router: what a run may do
    and when, what is kept of it, and the two ways in which the code loses something. *)

From S2P Require Import Prelude AppJson AppWire AppConnection EventRouter EventThm TaskArtifact TaskReceipt TaskMachine TaskStore TaskService TaskPlan TaskThm TaskRuns Worktree Runtime Orchestrator.

Section Calls.
Context `{Sha256, ReceiptJson, TasksJson}.

(** Any call of the service, seen through its plan *)
Lemma service_call {A} (Hlaws : TasksJsonLaws) env call (f : A -> Answer.t) (m : ServiceM A) s tasks r s' :
  serve env call = answer_with f m -> coherent s tasks -> m s = (r, s') ->
  exists tasks', coherent s' tasks' /\ permitted env call tasks (f <$> r) tasks'.
Proof.
  intros Hserve Hco Hrun. apply (serve_refines Hlaws _ _ s); [done|]. rewrite Hserve.
  unfold answer_with, mbind, M_bind. rewrite Hrun. by destruct r.
Qed.

(** The same from the desk: nothing but the service is touched. *)
Lemma desk_call {A} (Hlaws : TasksJsonLaws) env call (f : A -> Answer.t) (m : ServiceM A) s tasks r s' :
  serve env call = answer_with f m -> coherent s.(Desk.service) tasks -> on_tasks m s = (r, s') ->
  s'.(Desk.link) = s.(Desk.link) /\ s'.(Desk.disk) = s.(Desk.disk) /\
  exists tasks', coherent s'.(Desk.service) tasks' /\
    match r with
    | Ok a => exists stored, spec call tasks = Ok (stored, f a) /\ tasks' = default tasks stored
    | Err e => e = TaskRunError.TaskState /\ tasks' = tasks
    end.
Proof.
  intros Hserve Hco Hrun. unfold on_tasks, zoom in Hrun. destruct (m s.(Desk.service)) as [r0 t] eqn:Hm.
  simplify_eq. split_and!; [done..|].
  destruct (service_call Hlaws env call f m _ _ _ _ Hserve Hco Hm) as (tasks' & Hco' & Hper).
  exists tasks'. split; [done|]. destruct r0; simpl in *; [done|]. by destruct Hper as [-> _].
Qed.

(** A stored run with a receipt is closed, in the way that its receipt says. *)
Lemma receipt_means_closed tasks task run receipt :
  tasks_ok tasks -> task ∈ tasks -> run ∈ task.(StoredTask.record).(TaskRecord.runs) ->
  run.(RunRecord.receipt) = Some receipt -> run_active run = false.
Proof.
  intros [_ Hok _ _] Hin Hrun Hrc. rewrite list.Forall_forall in Hok.
  destruct (Hok _ Hin) as [(_ & _ & _ & _ & _ & _ & Hruns & _) _ _ _ _ _]. rewrite list.Forall_forall in Hruns.
  destruct (Hruns _ Hrun) as (_ & _ & Hval).
  apply Hval, validate_receipt_ok in Hrc as [Hst _]. unfold run_active. rewrite Hst.
  by destruct (RunReceipt.outcome receipt).
Qed.

(** The run is over: its task is not running it any more. *)
Definition settled (task_id run_id : string) (tasks : list StoredTask.t) : Prop :=
  forall task run, task ∈ tasks -> StoredTask.task_id task = task_id ->
    run_of run_id task = Some run -> task.(StoredTask.record).(TaskRecord.status) = TaskStatus.Running ->
    run_active run = false.

Lemma same_task tasks i task task' :
  tasks_ok tasks -> tasks !! i = Some task -> task' ∈ tasks ->
  StoredTask.task_id task' = StoredTask.task_id task -> task' = task.
Proof.
  intros Hok Hi Hin Hid. apply list_elem_of_lookup_2 in Hi.
  eapply NoDup_fmap_unique; [exact (to_ids _ Hok)|done..].
Qed.

(** An accepted receipt settles its run. *)
Lemma finalize_settles receipt tasks stored run :
  tasks_ok tasks -> tasks_ok (default tasks stored) ->
  spec (Call.FinalizeRun receipt) tasks = Ok (stored, Answer.Run run) ->
  run.(RunRecord.receipt) = Some receipt /\ verify receipt = Ok tt /\
  settled receipt.(RunReceipt.task_id) receipt.(RunReceipt.run_id) (default tasks stored) /\
  exists task, task ∈ default tasks stored /\ StoredTask.task_id task = receipt.(RunReceipt.task_id) /\
    run_of receipt.(RunReceipt.run_id) task = Some run.
Proof.
  intros Hok Hok' Hspec. apply finalize_spec in Hspec as (i & task & run0 & [= <-] & Hv & Hfind & Hrun & Hrc & _); [|done].
  destruct (find_task_ok _ _ _ Hfind) as [Hi Hid]. simpl in Hi, Hid. unfold is_task in Hid.
  pose proof (list_elem_of_lookup_2 _ _ _ Hi) as Hin. split_and!; [done|done| |by eauto].
  intros task' run' Hin' Hid' Hrun' _.
  assert (task' = task) as -> by (eapply same_task; [done..|congruence]).
  simplify_eq. apply run_of_elem in Hrun as [Hrun _]. by eapply receipt_means_closed.
Qed.
End Calls.

(** ** Evidence *)

Section Evidence.
Context `{Sha256, ReceiptJson, TasksJson}.

Lemma coherent_ok s tasks : coherent s tasks -> tasks_ok tasks.
Proof. intros [Hl _]. by eapply loads_ok. Qed.

(** A patch that was read is what git wrote. *)
Lemma collect_text baseline paths1 add paths2 diff a text :
  collect baseline paths1 add paths2 diff = Ok a -> a.(PatchArtifact.patch) = Some text ->
  diff = Read text (Exited true).
Proof.
  unfold collect. intros Hc Ht. destruct (git_output paths1 add _); [|done].
  destruct (git_output paths2 diff _) as [o|[]] eqn:Hd; simplify_eq/=; try done.
  apply git_output_ok in Hd as [-> _]. destruct (is_utf8 o); by simplify_eq/=.
Qed.

(** The steps of a [finish_run] that succeeds *)
Lemma finish_run_ok (Hlaws : TasksJsonLaws) env w m outcome s tasks c s' :
  coherent s.(Desk.service) tasks -> finish_run env w m outcome s = (Ok c, s') ->
  exists receipt tasks',
    collect w.(TaskWorktree.baseline_commit) env.(FinishEnv.add_paths) env.(FinishEnv.add)
      env.(FinishEnv.diff_paths) env.(FinishEnv.diff) = Ok c.(LocalCodexRunCompletion.patch) /\
    receipt_new (receipt_input m
      (Z.max (now_unix_seconds env.(FinishEnv.clock)) m.(RunMetadata.started_at)) outcome
      c.(LocalCodexRunCompletion.patch)) = Ok receipt /\
    c.(LocalCodexRunCompletion.run).(RunRecord.receipt) = Some receipt /\
    coherent s'.(Desk.service) tasks' /\
    settled m.(RunMetadata.task_id) m.(RunMetadata.run_id) tasks' /\
    (exists task, task ∈ tasks' /\ StoredTask.task_id task = m.(RunMetadata.task_id) /\
       run_of m.(RunMetadata.run_id) task = Some c.(LocalCodexRunCompletion.run)) /\
    s'.(Desk.link) = s.(Desk.link) /\
    (if bool_decide (outcome = RunReceiptOutcome.OutcomeUnknown)
        || is_none c.(LocalCodexRunCompletion.patch).(PatchArtifact.patch)
     then c.(LocalCodexRunCompletion.cleanup)
          = WorktreeCleanup.Retained WorktreeCleanupFailure.EvidenceIncomplete /\
          s'.(Desk.disk) = s.(Desk.disk)
     else cleanup w env.(FinishEnv.cleanup) s.(Desk.disk)
          = (c.(LocalCodexRunCompletion.cleanup), s'.(Desk.disk))).
Proof.
  intros Hco Hrun. unfold finish_run in Hrun.
  apply bind_ok_iff in Hrun as (patch & s1 & Hcollect & Hrun). apply lift_inv in Hcollect as [Hcollect ->].
  destruct (collect _ _ _ _ _) as [patch0|] eqn:Hpatch; simpl in Hcollect; simplify_eq.
  apply bind_ok_iff in Hrun as (receipt & s1 & Hnew & Hrun). apply lift_inv in Hnew as [Hnew ->].
  destruct (receipt_new _) as [receipt0|] eqn:Hreceipt; simpl in Hnew; simplify_eq.
  apply bind_ok_iff in Hrun as (run & s1 & Hfin & Hrun).
  apply (desk_call Hlaws (FinishEnv.finalize env) (Call.FinalizeRun receipt0) Answer.Run _ _ tasks) in Hfin
    as (Hlink & Hdisk & tasks' & Hco' & stored & Hspec & ->); [|done..].
  pose proof (receipt_new_verifies _ _ Hreceipt) as (_ & Ht & Hr & _). simpl in Ht, Hr.
  apply finalize_settles in Hspec as (Hrc & _ & Hsettled & Hstored); [|by eapply coherent_ok..].
  rewrite Ht, Hr in *.
  apply bind_ok_iff in Hrun as (cl & s2 & Hclean & Hrun). apply ret_inv in Hrun as [[= ->] ->]. simpl.
  exists receipt0, (default tasks stored). destruct (_ || _).
  - apply ret_inv in Hclean as [[= ->] ->]. done.
  - unfold clean in Hclean. destruct (cleanup _ _ _) as [cl0 disk] eqn:Hcl. simplify_eq. simpl.
    rewrite Hdisk in Hcl. done.
Qed.

(** A [finish_run] that fails has touched no worktree, and the stored tasks are as they were. *)
Lemma finish_run_err (Hlaws : TasksJsonLaws) env w m outcome s tasks e s' :
  coherent s.(Desk.service) tasks -> finish_run env w m outcome s = (Err e, s') ->
  coherent s'.(Desk.service) tasks /\ s'.(Desk.link) = s.(Desk.link) /\ s'.(Desk.disk) = s.(Desk.disk).
Proof.
  intros Hco Hrun. unfold finish_run in Hrun.
  apply bind_err_iff in Hrun as [Hrun|(patch & s1 & Hcollect & Hrun)]; [by apply lift_inv in Hrun as [_ ->]|].
  apply lift_inv in Hcollect as [_ ->].
  apply bind_err_iff in Hrun as [Hrun|(receipt & s1 & Hnew & Hrun)]; [by apply lift_inv in Hrun as [_ ->]|].
  apply lift_inv in Hnew as [_ ->].
  apply bind_err_iff in Hrun as [Hrun|(run & s1 & Hfin & Hrun)].
  - apply (desk_call Hlaws (FinishEnv.finalize env) (Call.FinalizeRun receipt) Answer.Run _ _ tasks) in Hrun
      as (Hlink & Hdisk & tasks' & Hco' & _ & ->); done.
  - apply bind_err_iff in Hrun as [Hrun|(cl & s2 & _ & Hrun)]; [|by apply ret_inv in Hrun as [? _]].
    destruct (_ || _); [by apply ret_inv in Hrun as [? _]|].
    unfold clean in Hrun. by destruct (cleanup _ _ _).
Qed.

(** C5: Evidence of a run is not thrown away. When finishing a run changes the disk, the run
    was not of unknown outcome, its whole patch was read as text and is in the completion, a
    receipt that verifies and describes exactly this patch and outcome is stored with the
    run, and nothing but the worktree of the run was removed. *)
Theorem evidence_kept (Hlaws : TasksJsonLaws) env w m outcome s tasks r s' :
  coherent s.(Desk.service) tasks -> finish_run env w m outcome s = (r, s') -> s'.(Desk.disk) <> s.(Desk.disk) ->
  exists c receipt text tasks' task, r = Ok c /\ outcome <> RunReceiptOutcome.OutcomeUnknown /\
    c.(LocalCodexRunCompletion.patch).(PatchArtifact.patch) = Some text /\
    artifact_is_valid c.(LocalCodexRunCompletion.patch) = true /\
    env.(FinishEnv.diff) = Read text (Exited true) /\
    verify receipt = Ok tt /\ receipt.(RunReceipt.outcome) = outcome /\
    receipt.(RunReceipt.patch) = metadata_of c.(LocalCodexRunCompletion.patch) /\
    coherent s'.(Desk.service) tasks' /\ task ∈ tasks' /\
    StoredTask.task_id task = m.(RunMetadata.task_id) /\
    run_of m.(RunMetadata.run_id) task = Some c.(LocalCodexRunCompletion.run) /\
    c.(LocalCodexRunCompletion.run).(RunRecord.receipt) = Some receipt /\
    forall p, p <> w.(TaskWorktree.path) -> p ∈ s'.(Desk.disk) <-> p ∈ s.(Desk.disk).
Proof.
  intros Hco Hrun Hdisk. destruct r as [c|e]; [|by apply (finish_run_err Hlaws _ _ _ _ _ tasks) in Hrun as (_ & _ & ?)].
  apply (finish_run_ok Hlaws _ _ _ _ _ tasks) in Hrun as (receipt & tasks' & Hcollect & Hnew & Hrc & Hco' & _ & (task & Hin & Hid & Hrun) & _ & Hclean); [|done].
  destruct (bool_decide _ || _) eqn:Hwhole; [by destruct Hclean as [_ ?]|]. bool_hyps.
  destruct (PatchArtifact.patch _) as [text|] eqn:Htext; [|done].
  pose proof (receipt_new_verifies _ _ Hnew) as (Hv & _ & _ & Hout & _ & _ & Hmeta). simpl in Hout, Hmeta.
  unfold metadata in Hmeta. destruct (artifact_is_valid _) eqn:Hvalid; [|done].
  exists c, receipt, text, tasks', task. split_and!; try done; [by eapply collect_text|by simplify_eq|].
  - intros p. by eapply cleanup_disk.
Qed.
End Evidence.

(** ** Starting *)

Section Starting.
Context `{Sha256, ReceiptJson, TasksJson, RunEventJson}.

Lemma finish_run_link env w m outcome s r s' :
  finish_run env w m outcome s = (r, s') -> s'.(Desk.link) = s.(Desk.link).
Proof.
  intros Hrun. unfold finish_run, on_tasks, zoom, clean, lift, mbind, M_bind, mret, M_ret in Hrun.
  repeat (case_match; simplify_eq/=); done.
Qed.

Lemma finish_run_then_link {A} env w m outcome (f : LocalCodexRunCompletion.t -> A) s r s' :
  (completion ← finish_run env w m outcome; mret (f completion)) s = (r, s') ->
  s'.(Desk.link) = s.(Desk.link).
Proof.
  unfold mbind, M_bind. destruct (finish_run env w m outcome s) as [[c|e] s1] eqn:Hfin;
    apply finish_run_link in Hfin; intros Hrun; [apply ret_inv in Hrun as [_ ->]|simplify_eq]; done.
Qed.

Lemma start_run_sent rt request c l r l' :
  start_run rt request c l = (r, l') ->
  l'.(Link.sent) = l.(Link.sent) \/
  l'.(Link.sent) = l.(Link.sent) ++ [("turn/start", turn_start_params request)].
Proof.
  intros Hrun. unfold start_run, with_stream, ask, on_router, zoom, send_request, lift, mbind, M_bind, mret, M_ret in Hrun.
  repeat (case_match; simplify_eq/=); auto.
Qed.

Lemma start_thread_sent w c s r s' :
  start_thread w c s = (r, s') ->
  s'.(Desk.link).(Link.sent) = s.(Desk.link).(Link.sent) ++ [("thread/start", thread_start_params w)] /\
  s'.(Desk.service) = s.(Desk.service) /\ s'.(Desk.disk) = s.(Desk.disk).
Proof.
  intros Hrun. unfold start_thread, zoom, send_request, lift, mbind, M_bind in Hrun.
  repeat (case_match; simplify_eq/=); done.
Qed.

(** What a request of a run may be: the thread of its worktree, or a turn in it *)
Definition of_run (w : TaskWorktree.t) (run_id : string) (sent : string * Value.t) : Prop :=
  sent = ("thread/start", thread_start_params w) \/
  exists thread_id prompt,
    sent = ("turn/start", turn_start_params (CodexRunRequest.mk run_id thread_id prompt w)).

#[local] Ltac of_run_tac :=
  repeat (apply list.Forall_cons_2 || apply list.Forall_nil_2); unfold of_run; eauto.

Lemma launch_sent rt env request prompt w s r s' :
  launch rt env request prompt w s = (r, s') ->
  exists new, new <> [] /\ s'.(Desk.link).(Link.sent) = s.(Desk.link).(Link.sent) ++ new /\
    Forall (of_run w request.(StartLocalCodexRunRequest.run_id)) new.
Proof.
  intros Hrun. unfold launch, attempt in Hrun. unfold mbind, M_bind at 1 in Hrun.
  destruct (start_thread _ _ s) as [[thread|e] s1] eqn:Hthread;
    apply start_thread_sent in Hthread as (Hsent & _ & _).
  - unfold mbind, M_bind, zoom in Hrun. destruct (start_run _ _ _ _) as [[a|e] l] eqn:Hturn;
      apply start_run_sent in Hturn; simpl in Hrun.
    + apply ret_inv in Hrun as [_ ->]. simpl. rewrite Hsent in Hturn.
      destruct Hturn as [->| ->]; [|rewrite <- app_assoc]; (eexists; split_and!; [|done|]; [done|of_run_tac]).
    + apply finish_run_then_link in Hrun as ->. simpl. rewrite Hsent in Hturn.
      destruct Hturn as [->| ->]; [|rewrite <- app_assoc]; (eexists; split_and!; [|done|]; [done|of_run_tac]).
  - apply finish_run_then_link in Hrun as ->. rewrite Hsent. eexists. split_and!; [|done|]; [done|of_run_tac].
Qed.

(** A start either sends nothing and leaves the stored tasks, or it has begun the run and goes on
    to launch it. *)
Lemma start_cases (Hlaws : TasksJsonLaws) rt root env request s r s' tasks :
  coherent s.(Desk.service) tasks -> start rt root env request s = (r, s') ->
  (s'.(Desk.link) = s.(Desk.link) /\ coherent s'.(Desk.service) tasks) \/
  exists s1 w prompt run next,
    create root request.(StartLocalCodexRunRequest.run_id) env.(StartEnv.worktree) s.(Desk.disk)
      = (Ok w, s1.(Desk.disk)) /\
    s1.(Desk.link) = s.(Desk.link) /\
    plan (Call.BeginRun request.(StartLocalCodexRunRequest.task_id)
            request.(StartLocalCodexRunRequest.run_id)) tasks
      = Ok (Some next, Answer.Begin (BeginRunResult.Started run)) /\
    coherent s1.(Desk.service) next /\
    launch rt env request prompt w s1 = (r, s').
Proof.
  intros Hco Hrun. unfold start in Hrun.
  apply bind_cases in Hrun as [(e & Hv & ->)|(u & s0 & Hv & Hrun)];
    apply lift_inv in Hv as [_ ->]; [by left|].
  apply bind_cases in Hrun as [(e & Hget & ->)|(task & s1 & Hget & Hrun)];
    apply (desk_call Hlaws env.(StartEnv.lookup) (Call.GetProjectTask request.(StartLocalCodexRunRequest.project_id)
        request.(StartLocalCodexRunRequest.task_id)) Answer.Task _ _ tasks) in Hget
      as (Hlink & Hdisk & tasks1 & Hco1 & Hget); try done.
  { destruct Hget as [_ ->]. by left. }
  assert (tasks1 = tasks) as ->.
  { destruct Hget as (stored & Hspec & ->). unfold spec in Hspec. simpl in Hspec. unfold answered in Hspec.
    by result_inv Hspec. }
  clear Hget.
  apply bind_cases in Hrun as [(e & Hv & ->)|(found & s0 & Hv & Hrun)];
    apply lift_inv in Hv as [_ ->]; [by left|]. cbv zeta in Hrun.
  destruct (negb _); [apply ret_inv in Hrun as [_ ->]; by left|].
  apply bind_cases in Hrun as [(e & Hv & ->)|(prompt & s0 & Hv & Hrun)];
    apply lift_inv in Hv as [_ ->]; [by left|].
  apply bind_cases in Hrun as [(e & Hc & ->)|(w & s2 & Hc & Hrun)].
  { apply zoom_err in Hc as (e' & d & _ & _ & ->). by left. }
  apply zoom_ok in Hc as (d & Hc & ->). rewrite Hdisk in Hc.
  apply bind_cases in Hrun as [(e & Hb & ->)|(begun & s2 & Hb & Hrun)];
    apply (desk_call Hlaws env.(StartEnv.begin) (Call.BeginRun request.(StartLocalCodexRunRequest.task_id)
        request.(StartLocalCodexRunRequest.run_id)) Answer.Begin _ _ tasks) in Hb
      as (Hlink2 & Hdisk2 & tasks2 & Hco2 & Hb); try done.
  { destruct Hb as [_ ->]. left. by rewrite Hlink2. }
  destruct Hb as (stored & Hspec & ->). unfold spec in Hspec. rewrite result_seq_ok in Hspec.
  destruct Hspec as [_ Hspec]. destruct begun as [run|run].
  - right. pose proof (begin_run_plan _ _ _ _ _ (coherent_ok _ _ Hco) Hspec) as (_ & next & -> & _).
    exists s2, w, prompt, run, next. simpl in *. split_and!; [|by rewrite Hlink2|done..]. by rewrite Hdisk2.
  - left. assert (stored = None) as ->.
    { simpl in Hspec. unfold answered in Hspec. result_inv Hspec. destruct (negb _); [by simplify_eq|].
      result_inv Hspec. unfold planned_run in Hspec. by result_inv Hspec. }
    apply bind_cases in Hrun as [(e & Hc2 & ->)|(cl & s3 & Hc2 & Hrun)];
      unfold clean in Hc2; destruct (cleanup _ _ _); simplify_eq.
    apply ret_inv in Hrun as [_ ->]. simpl. by rewrite Hlink2.
Qed.

(** The parameters of a turn in this directory, with the policy of a workspace that names this directory as
    its only writable root and denies the network. These are the fields of the request and all of them: the
    server adds its defaults, which leave the temporary directories writable, and may grant more on approval. *)
Definition workspace_turn (cwd : string) (params : Value.t) : Prop :=
  Value.get "cwd" params = Some (Value.Str cwd) /\
  Value.get "approvalPolicy" params = Some (Value.Str "on-request") /\
  Value.get "sandboxPolicy" params = Some (Value.Object [
    ("type", Value.Str "workspaceWrite"); ("writableRoots", Value.Array [Value.Str cwd]);
    ("networkAccess", Value.Bool false)]).

(** C17: What a run asks of the server names its worktree and no other directory. Every request that a start
    sends is the start of a thread in the worktree that this start made, or a turn that works there under the
    policy of a workspace with that directory as the only writable root it names and without network; and the
    worktree is new, a child of the managed root and apart from the repository. What the server then enforces,
    its default temporary directories included, is the server's. *)
Theorem run_targets_worktree (Hlaws : TasksJsonLaws) rt root env request s tasks r s' :
  coherent s.(Desk.service) tasks -> start rt root env request s = (r, s') ->
  s'.(Desk.link).(Link.sent) <> s.(Desk.link).(Link.sent) ->
  exists w disk new,
    create root request.(StartLocalCodexRunRequest.run_id) env.(StartEnv.worktree) s.(Desk.disk)
      = (Ok w, disk) /\
    paths_overlap w.(TaskWorktree.path) w.(TaskWorktree.repository) = false /\
    (w.(TaskWorktree.path) ∉ s.(Desk.disk)) /\
    s'.(Desk.link).(Link.sent) = s.(Desk.link).(Link.sent) ++ new /\
    Forall (fun '(method, params) =>
      method = "thread/start" /\
        Value.get "cwd" params = Some (Value.Str w.(TaskWorktree.cwd)) \/
      method = "turn/start" /\ workspace_turn w.(TaskWorktree.cwd) params) new.
Proof.
  intros Hco Hrun Hsent.
  destruct (start_cases Hlaws _ _ _ _ _ _ _ _ Hco Hrun)
    as [[Hlink _]|(s1 & w & prompt & run & next & Hc & Hlink & _ & _ & Hlaunch)]; [by rewrite Hlink in Hsent|].
  apply launch_sent in Hlaunch as (new & _ & Hnew & Hall). rewrite Hlink in Hnew.
  exists w, s1.(Desk.disk), new. pose proof (worktree_create_ok _ _ _ _ _ _ Hc) as (Hpath & _ & Hfresh & _ & Hroot & _).
  split_and!; try done; [rewrite Hpath; by apply join_apart|].
  eapply list.Forall_impl; [exact Hall|]. intros [method params] [[= -> ->]|(thread & p & [= -> ->])].
  - left. done.
  - right. split; [done|]. by split_and!.
Qed.

(** *** A run is launched once *)

(** What the service stores only moves runs forward. *)
Definition keeps_started (tasks tasks' : list StoredTask.t) : Prop :=
  forall task_id run_id, started_before task_id run_id tasks -> started_before task_id run_id tasks'.

Lemma keeps_started_refl tasks : keeps_started tasks tasks.
Proof. by intros task_id run_id. Qed.
#[local] Hint Resolve keeps_started_refl : core.

Lemma permitted_keeps_started env call tasks r tasks' :
  permitted env call tasks r tasks' -> (forall task_id, ~ creates task_id call) ->
  keeps_started tasks tasks'.
Proof.
  intros Hper Hno task_id run_id Hb. apply permitted_step in Hper as [->|(a & _ & Hplan)]; [done|].
  by eapply plan_started_before.
Qed.

Lemma finish_run_started (Hlaws : TasksJsonLaws) env w m outcome s tasks r s' :
  coherent s.(Desk.service) tasks -> finish_run env w m outcome s = (r, s') ->
  exists tasks', coherent s'.(Desk.service) tasks' /\ keeps_started tasks tasks'.
Proof.
  intros Hco Hrun. unfold finish_run in Hrun.
  apply bind_cases in Hrun as [(e & Hv & _)|(patch & s0 & Hv & Hrun)];
    apply lift_inv in Hv as [_ ->]; [by exists tasks|].
  apply bind_cases in Hrun as [(e & Hv & _)|(receipt & s0 & Hv & Hrun)];
    apply lift_inv in Hv as [_ ->]; [by exists tasks|].
  assert (forall r1 s1, on_tasks (finalize_run env.(FinishEnv.finalize) receipt) s = (r1, s1) ->
    exists tasks', coherent s1.(Desk.service) tasks' /\ keeps_started tasks tasks') as Hfinal.
  { intros r1 s1 Hfin. unfold on_tasks, zoom in Hfin.
    destruct (finalize_run _ _ _) as [r0 t] eqn:Hf. simplify_eq.
    destruct (service_call Hlaws _ (Call.FinalizeRun receipt) Answer.Run _ _ _ _ _ eq_refl Hco Hf)
      as (tasks' & Hco' & Hper). exists tasks'. split; [done|].
    eapply permitted_keeps_started; [done|]. by intros task_id (? & ? & _). }
  apply bind_cases in Hrun as [(e & Hfin & _)|(run & s1 & Hfin & Hrun)]; [by eapply Hfinal|].
  destruct (Hfinal _ _ Hfin) as (tasks' & Hco' & Hkeep).
  exists tasks'. split; [|done].
  apply bind_cases in Hrun as [(e & Hc & _)|(cl & s2 & Hc & Hrun)].
  - destruct (_ || _); [by apply ret_inv in Hc as [? _]|]. unfold clean in Hc. by destruct (cleanup _ _ _).
  - apply ret_inv in Hrun as [_ ->]. destruct (_ || _); [by apply ret_inv in Hc as [_ ->]|].
    unfold clean in Hc. destruct (cleanup _ _ _). by simplify_eq.
Qed.

Lemma launch_started (Hlaws : TasksJsonLaws) rt env request prompt w s tasks r s' :
  coherent s.(Desk.service) tasks -> launch rt env request prompt w s = (r, s') ->
  exists tasks', coherent s'.(Desk.service) tasks' /\ keeps_started tasks tasks'.
Proof.
  intros Hco Hrun. unfold launch, attempt in Hrun.
  assert (forall s1 m outcome, s1.(Desk.service) = s.(Desk.service) ->
    (completion ← finish_run env.(StartEnv.finish) w m outcome;
     mret (LocalCodexRunStart.Finished completion)) s1 = (r, s') ->
    exists tasks', coherent s'.(Desk.service) tasks' /\ keeps_started tasks tasks') as Hfail.
  { intros s1 m outcome Hs1 Hfin. rewrite <- Hs1 in Hco.
    apply bind_cases in Hfin as [(e & Hfin & _)|(c & s2 & Hfin & Hret)]; [by eapply finish_run_started|].
    apply ret_inv in Hret as [_ ->]. by eapply finish_run_started. }
  apply bind_cases in Hrun as [(e & Hthread & _)|(thread & s1 & Hthread & Hrun)];
    destruct (start_thread _ _ s) as [r0 s0] eqn:Hst; simplify_eq.
  apply start_thread_sent in Hst as (_ & Hservice & _). destruct thread as [thread|]; [|by eapply Hfail].
  apply bind_cases in Hrun as [(e & Hturn & _)|(started & s2 & Hturn & Hrun)];
    unfold zoom in Hturn; destruct (start_run _ _ _ _) as [r0 l]; simplify_eq.
  destruct r0; simpl in Hrun; [|eapply Hfail; [|exact Hrun]; exact Hservice].
  apply ret_inv in Hrun as [_ ->]. simpl. rewrite Hservice. by exists tasks.
Qed.

(** A history of the desktop: starts of runs, and calls of the service by others *)
Inductive DeskOp :=
| StartRun (runtime_identity : N) (root : PathBuf.t) (env : StartEnv.t)
    (request : StartLocalCodexRunRequest.t)
| ServeTasks (env : TaskEnv.t) (call : Call.t).

Definition desk_step (op : DeskOp) (s : Desk.t) : Desk.t :=
  match op with
  | StartRun rt root env request => (start rt root env request s).2
  | ServeTasks env call => Desk.set_service (serve env call s.(Desk.service)).2 s
  end.

(** This step sends requests for the run *)
Definition launches_run (task_id run_id : string) (op : DeskOp) (s : Desk.t) : bool :=
  match op with
  | StartRun _ _ _ request =>
    str_eqb request.(StartLocalCodexRunRequest.task_id) task_id
    && str_eqb request.(StartLocalCodexRunRequest.run_id) run_id
    && (length s.(Desk.link).(Link.sent) <? length (desk_step op s).(Desk.link).(Link.sent))
  | ServeTasks _ _ => false
  end.

Fixpoint launches (task_id run_id : string) (ops : list DeskOp) (s : Desk.t) : nat :=
  match ops with
  | [] => 0
  | op :: ops =>
    (if launches_run task_id run_id op s then 1 else 0) + launches task_id run_id ops (desk_step op s)
  end.

Definition creates_nothing (task_id : string) (op : DeskOp) : Prop :=
  match op with ServeTasks _ call => ~ creates task_id call | StartRun _ _ _ _ => True end.

Lemma desk_step_started (Hlaws : TasksJsonLaws) task_id run_id op s tasks :
  coherent s.(Desk.service) tasks -> creates_nothing task_id op ->
  exists tasks', coherent (desk_step op s).(Desk.service) tasks' /\
    (started_before task_id run_id tasks ->
       started_before task_id run_id tasks' /\ launches_run task_id run_id op s = false) /\
    (launches_run task_id run_id op s = true -> started_before task_id run_id tasks').
Proof.
  intros Hco Hno. destruct op as [rt root env request|env call].
  - unfold launches_run. simpl. destruct (start rt root env request s) as [r s'] eqn:Hrun. simpl.
    destruct (start_cases Hlaws _ _ _ _ _ _ _ _ Hco Hrun)
      as [[Hlink Hco']|(s1 & w & prompt & run & next & _ & _ & Hplan & Hco1 & Hlaunch)].
    + exists tasks. rewrite Hlink, Nat.ltb_irrefl, andb_false_r. by split_and!.
    + destruct (launch_started Hlaws _ _ _ _ _ _ _ _ _ Hco1 Hlaunch) as (tasks' & Hco' & Hkeep).
      apply begin_run_plan in Hplan as Hbegin; [|by eapply coherent_ok].
      destruct Hbegin as (Hnew & next' & [= <-] & Hbegun).
      exists tasks'. split; [done|]. split.
      * intros Hb. split.
        -- apply Hkeep. eapply plan_started_before; [|done..]. by intros (? & ? & _).
        -- apply not_true_iff_false. intros Hl. bool_hyps. by subst.
      * intros Hl. bool_hyps. subst. by apply Hkeep.
  - simpl. destruct (serve env call _) as [r t] eqn:Hserve.
    destruct (serve_refines Hlaws _ _ _ _ _ _ Hco Hserve) as (tasks' & Hco' & Hper).
    exists tasks'. split_and!; [done| |done]. intros Hb. split; [|done].
    apply permitted_step in Hper as [->|(a & _ & Hplan)]; [done|]. by eapply plan_started_before.
Qed.

Lemma launches_none (Hlaws : TasksJsonLaws) task_id run_id ops s tasks :
  coherent s.(Desk.service) tasks -> started_before task_id run_id tasks ->
  Forall (creates_nothing task_id) ops -> launches task_id run_id ops s = 0.
Proof.
  revert s tasks. induction ops as [|op ops IH]; intros s tasks Hco Hb Hall; [done|].
  apply list.Forall_cons in Hall as [Hno Hall]. simpl.
  destruct (desk_step_started Hlaws _ run_id _ _ _ Hco Hno) as (tasks' & Hco' & Hkeep & _).
  destruct (Hkeep Hb) as [Hb' ->]. by eapply IH.
Qed.

(** The Codex process is asked to work on a run at most once. In any history of starts,
    repeated or concurrent ones included, and of service calls with their faults, at most
    one start sends requests for the run, as long as the task is not created anew. *)
Theorem run_launched_once (Hlaws : TasksJsonLaws) task_id run_id ops s tasks :
  coherent s.(Desk.service) tasks -> Forall (creates_nothing task_id) ops ->
  launches task_id run_id ops s <= 1.
Proof.
  revert s tasks. induction ops as [|op ops IH]; intros s tasks Hco Hall; [simpl; lia|].
  apply list.Forall_cons in Hall as [Hno Hall]. simpl.
  destruct (desk_step_started Hlaws _ run_id _ _ _ Hco Hno) as (tasks' & Hco' & _ & Hl).
  destruct (launches_run task_id run_id op s); [|by eapply IH].
  rewrite (launches_none Hlaws _ _ _ _ tasks'); auto.
Qed.

(** A worktree can strand its run. When a start fails after it made the worktree and
    before it sent anything, as when the begin of the run cannot be stored, the directory
    stays: the tasks are as before, and as long as it is there no start of this run over
    the same root begins it or sends anything. *)
Theorem worktree_strands_run (Hlaws : TasksJsonLaws) rt root env request s tasks e s' managed_root :
  let path := PathBuf.join managed_root
                (directory_name_of request.(StartLocalCodexRunRequest.run_id)) in
  coherent s.(Desk.service) tasks -> start rt root env request s = (Err e, s') ->
  s'.(Desk.link).(Link.sent) = s.(Desk.link).(Link.sent) ->
  (path ∉ s.(Desk.disk)) -> path ∈ s'.(Desk.disk) ->
  coherent s'.(Desk.service) tasks /\
  forall rt2 env2 request2 s2 tasks2 r2 s2',
    coherent s2.(Desk.service) tasks2 -> path ∈ s2.(Desk.disk) ->
    env2.(StartEnv.worktree).(CreateEnv.managed_root) = Some managed_root ->
    request2.(StartLocalCodexRunRequest.run_id) = request.(StartLocalCodexRunRequest.run_id) ->
    start rt2 root env2 request2 s2 = (r2, s2') ->
    coherent s2'.(Desk.service) tasks2 /\ s2'.(Desk.link).(Link.sent) = s2.(Desk.link).(Link.sent).
Proof.
  intros path Hco Hrun Hsent _ _. split.
  - destruct (start_cases Hlaws _ _ _ _ _ _ _ _ Hco Hrun)
      as [[_ Hco']|(s1 & w1 & prompt & run & next & _ & Hlink & _ & _ & Hlaunch)]; [done|].
    apply launch_sent in Hlaunch as (new & Hnil & Hnew & _). rewrite Hlink, Hsent in Hnew.
    exfalso. apply Hnil. by eapply app_inv_head; rewrite app_nil_r.
  - intros rt2 env2 request2 s2 tasks2 r2 s2' Hco2 Hin Hroot Hid Hrun2.
    destruct (start_cases Hlaws _ _ _ _ _ _ _ _ Hco2 Hrun2)
      as [[-> Hco']|(s1 & w1 & prompt & run & next & Hw1 & _)]; [done|]. exfalso.
    apply worktree_create_ok in Hw1 as (Hpath1 & _ & Hfresh & Hroot1 & _).
    apply Hfresh. rewrite Hpath1, Hid. rewrite Hroot in Hroot1. by injection Hroot1 as <-.
Qed.
End Starting.
