(* ===== verification/RunPoll.v ===== *)
(** * Polling a run

    How a poll finds the outcome of a run, and that a poll that finishes a run leaves it
    closed with a receipt of that outcome. *)

From S2P Require Import Prelude AppJson AppWire AppConnection EventRouter EventThm TaskArtifact TaskReceipt TaskMachine TaskStore TaskService TaskPlan TaskThm TaskRuns Worktree Runtime Orchestrator RunThm.

(** The outcome that an event of the run reports *)
Definition event_outcome (kind : RunEventKind.t) : option RunReceiptOutcome.t :=
  match kind with
  | RunEventKind.Running | RunEventKind.WaitingApproval => None
  | RunEventKind.Completed => Some RunReceiptOutcome.Success
  | RunEventKind.Failed => Some RunReceiptOutcome.Failed
  | RunEventKind.Interrupted => Some RunReceiptOutcome.Cancelled
  | RunEventKind.Gap _ => Some RunReceiptOutcome.OutcomeUnknown
  end.

(** The parts of a polled run *)
Definition stream_of (a : ActiveLocalCodexRun.t) : RunEventStream.t :=
  a.(ActiveLocalCodexRun.active).(ActiveCodexRun.events).
Definition router_of (p : Polled.t) : EventRouter.t := p.(Polled.desk).(Desk.link).(Link.router).
Definition service_of (p : Polled.t) : Service.t := p.(Polled.desk).(Desk.service).

Section Polling.
Context `{Sha256, ReceiptJson, TasksJson, RunEventJson}.

(** What a poll is going to finish the run with, if anything *)
Definition known_outcome (env : PollEnv.t) (p : Polled.t) : option RunReceiptOutcome.t :=
  let stream := stream_of p.(Polled.run) in
  match p.(Polled.run).(ActiveLocalCodexRun.pending_outcome) with
  | Some outcome => Some outcome
  | None =>
    match (try_recv stream (router_of p)).1 with
    | Some event => event_outcome event.(RunEvent.kind)
    | None =>
      if is_active stream (run_ops env.(PollEnv.others) (router_of p)) then None
      else Some RunReceiptOutcome.OutcomeUnknown
    end
  end.

(** The run is finished with this outcome: its receipt is stored and it is closed. *)
Definition finished_with (m : RunMetadata.t) (outcome : RunReceiptOutcome.t)
    (c : LocalCodexRunCompletion.t) (s : Service.t) : Prop :=
  exists receipt tasks task, c.(LocalCodexRunCompletion.run).(RunRecord.receipt) = Some receipt /\
    receipt.(RunReceipt.outcome) = outcome /\ verify receipt = Ok tt /\
    coherent s tasks /\ settled m.(RunMetadata.task_id) m.(RunMetadata.run_id) tasks /\
    task ∈ tasks /\ StoredTask.task_id task = m.(RunMetadata.task_id) /\
    run_of m.(RunMetadata.run_id) task = Some c.(LocalCodexRunCompletion.run).

Lemma settle_ok (Hlaws : TasksJsonLaws) env outcome p tasks progress p' :
  coherent (service_of p) tasks -> settle env outcome p = (Ok progress, p') ->
  exists c, progress = LocalCodexRunProgress.Finished c /\
    finished_with p.(Polled.run).(ActiveLocalCodexRun.metadata) outcome c (service_of p') /\
    p'.(Polled.run) = ActiveLocalCodexRun.set_completion (Some c) p.(Polled.run) /\
    p'.(Polled.desk).(Desk.link) = p.(Polled.desk).(Desk.link).
Proof.
  intros Hco Hrun. unfold settle in Hrun.
  apply bind_ok_iff in Hrun as (p0 & p1 & Hget & Hrun). apply get_inv in Hget as [[= ->] ->].
  apply bind_ok_iff in Hrun as (c & p1 & Hfin & Hrun).
  apply bind_ok_iff in Hrun as (u & p2 & Hmod & Hrun). apply modify_inv in Hmod as [_ ->].
  apply ret_inv in Hrun as [[= ->] ->]. apply zoom_ok in Hfin as (d & Hfin & ->).
  apply (finish_run_ok Hlaws _ _ _ _ _ tasks) in Hfin as (receipt & tasks' & _ & Hnew & Hrc & Hco' & Hs & (task & Hin & Hid & Hr) & Hlink & _); [|done].
  exists c. split_and!; try done. exists receipt, tasks', task.
  apply receipt_new_verifies in Hnew as (Hv & _ & _ & Hout & _). by split_and!.
Qed.

Lemma settle_err (Hlaws : TasksJsonLaws) env outcome p tasks e p' :
  coherent (service_of p) tasks -> settle env outcome p = (Err e, p') ->
  coherent (service_of p') tasks /\ p'.(Polled.run) = p.(Polled.run) /\
  p'.(Polled.desk).(Desk.link) = p.(Polled.desk).(Desk.link).
Proof.
  intros Hco Hrun. unfold settle in Hrun.
  apply bind_err_iff in Hrun as [Hrun|(p0 & p1 & Hget & Hrun)]; [by apply get_inv in Hrun as [? _]|].
  apply get_inv in Hget as [[= ->] ->].
  apply bind_err_iff in Hrun as [Hrun|(c & p1 & _ & Hrun)].
  - apply zoom_err in Hrun as (e' & d & Hfin & _ & ->).
    apply (finish_run_err Hlaws _ _ _ _ _ tasks) in Hfin as (Hco' & Hlink & _); done.
  - apply bind_err_iff in Hrun as [Hrun|(u & p2 & _ & Hrun)];
      [by apply modify_inv in Hrun as [? _]|by apply ret_inv in Hrun as [? _]].
Qed.

(** What no poll changes of a run *)
Definition same_run (a a' : ActiveLocalCodexRun.t) : Prop :=
  a'.(ActiveLocalCodexRun.runtime_identity) = a.(ActiveLocalCodexRun.runtime_identity) /\
  a'.(ActiveLocalCodexRun.connection) = a.(ActiveLocalCodexRun.connection) /\
  a'.(ActiveLocalCodexRun.metadata) = a.(ActiveLocalCodexRun.metadata) /\
  a'.(ActiveLocalCodexRun.worktree) = a.(ActiveLocalCodexRun.worktree) /\
  a'.(ActiveLocalCodexRun.active) = a.(ActiveLocalCodexRun.active).

(** How a call on a run that is not completed ends *)
Definition call_ends (known : option RunReceiptOutcome.t) (p : Polled.t)
    (r : result TaskRunError.t LocalCodexRunProgress.t) (p' : Polled.t) : Prop :=
  (exists tasks', coherent (service_of p') tasks') /\
  same_run p.(Polled.run) p'.(Polled.run) /\
  match r with
  | Ok (LocalCodexRunProgress.Finished c) => exists outcome, known = Some outcome /\
      finished_with p.(Polled.run).(ActiveLocalCodexRun.metadata) outcome c (service_of p')
  | Ok (LocalCodexRunProgress.Pending _) => known = None /\ p'.(Polled.run) = p.(Polled.run)
  | Err _ => p'.(Polled.run).(ActiveLocalCodexRun.completion) = None
  end.

Lemma settle_ends (Hlaws : TasksJsonLaws) env outcome p tasks r p' :
  coherent (service_of p) tasks -> p.(Polled.run).(ActiveLocalCodexRun.completion) = None ->
  settle env outcome p = (r, p') -> call_ends (Some outcome) p r p'.
Proof.
  intros Hco Hnone Hrun. destruct r as [progress|e].
  - destruct (settle_ok Hlaws _ _ _ _ _ _ Hco Hrun) as (c & -> & Hfin & Hr & _).
    unfold call_ends. rewrite Hr. split_and!; [|done|by exists outcome].
    destruct Hfin as (? & tasks' & ? & _ & _ & _ & Hco' & _). by exists tasks'.
  - destruct (settle_err Hlaws _ _ _ _ _ _ Hco Hrun) as (Hco' & Hr & _). unfold call_ends. rewrite Hr.
    split_and!; [by exists tasks|done..].
Qed.

Lemma finish_ends (Hlaws : TasksJsonLaws) env outcome p tasks r p' :
  coherent (service_of p) tasks -> p.(Polled.run).(ActiveLocalCodexRun.completion) = None ->
  finish env outcome p = (r, p') -> call_ends (Some outcome) p r p'.
Proof.
  intros Hco Hnone Hrun. unfold finish, unless_completed in Hrun.
  apply bind_cases in Hrun as [(e & Hm & _)|(u & p1 & Hm & Hrun)]; apply modify_inv in Hm as [Hm ->]; [done|].
  apply bind_cases in Hrun as [(e & Hg & _)|(p1 & p2 & Hg & Hrun)]; apply get_inv in Hg as [[= ->] ->].
  simpl in Hrun. rewrite Hnone in Hrun.
  apply (settle_ends Hlaws env outcome _ tasks) in Hrun as (Hco' & Hsame & Hr); [|done..].
  split_and!; [done|done|]. destruct r as [[]|]; [by destruct Hr|done|done].
Qed.

Lemma current_run_ends (Hlaws : TasksJsonLaws) env p tasks r p' :
  coherent (service_of p) tasks -> current_run env p = (r, p') ->
  coherent (service_of p') tasks /\ p'.(Polled.run) = p.(Polled.run).
Proof.
  intros Hco Hrun. unfold current_run in Hrun.
  apply bind_cases in Hrun as [(e & Hg & _)|(p1 & p2 & Hg & Hrun)]; apply get_inv in Hg as [[= ->] ->].
  assert (forall r1 p1, on_desk (on_tasks (get_task env
    p.(Polled.run).(ActiveLocalCodexRun.metadata).(RunMetadata.task_id))) p = (r1, p1) ->
    coherent (service_of p1) tasks /\ p1.(Polled.run) = p.(Polled.run)) as Hget.
  { intros r1 p1 Hg. unfold on_desk, zoom in Hg. destruct (on_tasks _ _) as [r2 d] eqn:Hd. simplify_eq.
    eapply (desk_call Hlaws env (Call.GetTask _) Answer.Task) in Hd as (_ & _ & tasks' & Hco' & Hr);
      [|done..]. split; [|done]. destruct r2 as [t|e]; [|by destruct Hr as [_ ->]].
    destruct Hr as (stored & Hspec & ->). unfold spec in Hspec. simpl in Hspec. unfold answered in Hspec.
    by result_inv Hspec. }
  apply bind_cases in Hrun as [(e & Hg & _)|(task & p1 & Hg & Hrun)]; apply Hget in Hg; [done|].
  apply bind_cases in Hrun as [(e & Hl & _)|(found & p2 & Hl & Hrun)]; apply lift_inv in Hl as [_ ->]; [done|].
  by apply ret_inv in Hrun as [_ ->].
Qed.

Lemma move_run_ends (Hlaws : TasksJsonLaws) env status p tasks r p' :
  coherent (service_of p) tasks -> p.(Polled.run).(ActiveLocalCodexRun.completion) = None ->
  move_run env status p = (r, p') -> call_ends None p r p'.
Proof.
  intros Hco Hnone Hrun. unfold move_run in Hrun.
  apply bind_cases in Hrun as [(e & Hg & _)|(p1 & p2 & Hg & Hrun)]; apply get_inv in Hg as [[= ->] ->].
  apply bind_cases in Hrun as [(e & Hm & ->)|(run & p1 & Hm & Hrun)];
    unfold on_desk, zoom in Hm; destruct (on_tasks _ _) as [r2 d] eqn:Hd; simplify_eq;
    eapply (desk_call Hlaws env (Call.TransitionRun _ _ _) Answer.Run) in Hd
      as (_ & _ & tasks' & Hco' & _); try done.
  - unfold call_ends. split_and!; [by exists tasks'|done..].
  - apply ret_inv in Hrun as [-> ->]. unfold call_ends. split_and!; [by exists tasks'|done..].
Qed.

Lemma on_event_ends (Hlaws : TasksJsonLaws) env kind p tasks r p' :
  coherent (service_of p) tasks -> p.(Polled.run).(ActiveLocalCodexRun.completion) = None ->
  on_event env kind p = (r, p') -> call_ends (event_outcome kind) p r p'.
Proof.
  intros Hco Hnone Hrun. destruct kind; simpl in *;
    try (by eapply finish_ends); try (by eapply move_run_ends).
  apply bind_cases in Hrun as [(e & Hc & ->)|(run & p1 & Hc & Hrun)];
    apply (current_run_ends Hlaws _ _ tasks) in Hc as [Hco' Hsame]; try done.
  - unfold call_ends. rewrite Hsame. split_and!; [by exists tasks|done..].
  - case_bool_decide.
    + apply (move_run_ends Hlaws _ _ _ tasks) in Hrun; [|done|by rewrite Hsame].
      unfold call_ends in *. by rewrite Hsame in Hrun.
    + apply ret_inv in Hrun as [-> ->]. unfold call_ends. rewrite Hsame.
      split_and!; [by exists tasks|done..].
Qed.

(** Every poll of a run that is not completed *)
Lemma poll_ends (Hlaws : TasksJsonLaws) env p tasks r p' :
  coherent (service_of p) tasks -> p.(Polled.run).(ActiveLocalCodexRun.completion) = None ->
  poll env p = (r, p') -> call_ends (known_outcome env p) p r p'.
Proof.
  intros Hco Hnone Hrun. unfold poll, unless_completed in Hrun.
  apply bind_cases in Hrun as [(e & Hg & _)|(p1 & p2 & Hg & Hrun)]; apply get_inv in Hg as [[= ->] ->].
  apply bind_cases in Hrun as [(e & Hg & _)|(p1 & p2 & Hg & Hrun)]; apply get_inv in Hg as [[= ->] ->].
  rewrite Hnone in Hrun. unfold known_outcome. cbv zeta.
  destruct (ActiveLocalCodexRun.pending_outcome p.(Polled.run)) as [outcome|]; [by eapply settle_ends|].
  apply bind_cases in Hrun as [(e & Hn & _)|(event & p1 & Hn & Hrun)]; unfold next_event in Hn;
    destruct (try_recv _ _) as [ev router] eqn:Hrecv; simplify_eq.
  fold (stream_of p.(Polled.run)) (router_of p) in Hrecv. simpl.
  destruct event as [event|]; [by apply (on_event_ends Hlaws _ _ _ tasks) in Hrun|].
  assert (router = router_of p) as ->.
  { unfold try_recv in Hrecv. repeat case_match; by simplify_eq. }
  apply bind_cases in Hrun as [(e & Hm & _)|(u & p1 & Hm & Hrun)]; apply modify_inv in Hm as [Hm ->]; [done|].
  apply bind_cases in Hrun as [(e & Hg & _)|(p1 & p2 & Hg & Hrun)]; apply get_inv in Hg as [[= ->] ->].
  simpl in Hrun. fold (stream_of p.(Polled.run)) in Hrun.
  destruct (is_active (stream_of p.(Polled.run)) (run_ops _ (router_of p))); simpl in Hrun.
  - apply bind_cases in Hrun as [(e & Hc & ->)|(run & p1 & Hc & Hrun)];
      apply (current_run_ends Hlaws _ _ tasks) in Hc as [Hco' Hsame]; try done; unfold call_ends.
    + rewrite Hsame. split_and!; [by exists tasks|done..].
    + apply ret_inv in Hrun as [-> ->]. rewrite Hsame. split_and!; [by exists tasks|done..].
  - by apply (finish_ends Hlaws _ _ _ tasks) in Hrun.
Qed.

(** C18: A run is finished with the outcome that was reported for it. A poll finishes a run
    exactly with the outcome kept from an earlier attempt, the one that the next event of its
    stream reports, or as unknown when the stream has ended without one; success is never
    recorded without a completion event. The run is then closed with a verified receipt
    of that outcome, in memory and on disk. When no outcome is known the run goes on. *)
Theorem poll_records_outcome (Hlaws : TasksJsonLaws) env p tasks r p' :
  coherent (service_of p) tasks -> p.(Polled.run).(ActiveLocalCodexRun.completion) = None ->
  poll env p = (r, p') ->
  match r with
  | Ok (LocalCodexRunProgress.Finished c) => exists outcome,
      known_outcome env p = Some outcome /\
      finished_with p.(Polled.run).(ActiveLocalCodexRun.metadata) outcome c (service_of p')
  | Ok (LocalCodexRunProgress.Pending _) => known_outcome env p = None
  | Err _ => exists tasks', coherent (service_of p') tasks'
  end.
Proof.
  intros Hco Hnone Hrun. destruct (poll_ends Hlaws _ _ _ _ _ Hco Hnone Hrun) as (Hco' & _ & Hr).
  destruct r as [[]|]; [by destruct Hr|done|done].
Qed.

(** A poll that finds the stream empty and then closed *)
Lemma poll_closed env p :
  p.(Polled.run).(ActiveLocalCodexRun.completion) = None ->
  p.(Polled.run).(ActiveLocalCodexRun.pending_outcome) = None ->
  (try_recv (stream_of p.(Polled.run)) (router_of p)).1 = None ->
  is_active (stream_of p.(Polled.run)) (run_ops env.(PollEnv.others) (router_of p)) = false ->
  poll env p = finish env.(PollEnv.finish) RunReceiptOutcome.OutcomeUnknown
    (Polled.set_desk (Desk.set_router (run_ops env.(PollEnv.others) (router_of p)) p.(Polled.desk)) p).
Proof.
  intros Hnone Hpending Hempty Hclosed. unfold poll, unless_completed, interleave, modify, get, mbind, M_bind.
  rewrite Hnone, Hpending. unfold next_event. fold (stream_of p.(Polled.run)) (router_of p).
  destruct (try_recv _ (router_of p)) as [ev router] eqn:Hrecv. simpl in Hempty. subst ev.
  assert (router = router_of p) as ->.
  { unfold try_recv in Hrecv. repeat case_match; by simplify_eq. }
  simpl. fold (stream_of p.(Polled.run)). rewrite Hclosed. done.
Qed.

Lemma finish_link (Hlaws : TasksJsonLaws) env outcome p tasks progress p' :
  coherent (service_of p) tasks -> p.(Polled.run).(ActiveLocalCodexRun.completion) = None ->
  finish env outcome p = (Ok progress, p') -> router_of p' = router_of p.
Proof.
  intros Hco Hnone Hrun. unfold finish, unless_completed in Hrun.
  apply bind_ok_iff in Hrun as (u & p1 & Hm & Hrun). apply modify_inv in Hm as [_ ->].
  apply bind_ok_iff in Hrun as (p1 & p2 & Hg & Hrun). apply get_inv in Hg as [[= ->] ->].
  simpl in Hrun. rewrite Hnone in Hrun.
  apply (settle_ok Hlaws _ _ _ tasks) in Hrun as (c & _ & _ & _ & Hlink); [|done].
  unfold router_of. by rewrite Hlink.
Qed.

(** C38: The report of a run can be lost between two looks at the stream. When the stream is
    empty at the first look and an event arrives and ends the stream before the second, a
    completion for instance, the poll records the run as of unknown outcome although the
    event that reports it is the next one in the stream. *)
Theorem late_report_lost (Hlaws : TasksJsonLaws) env p tasks event c p' :
  coherent (service_of p) tasks -> p.(Polled.run).(ActiveLocalCodexRun.completion) = None ->
  p.(Polled.run).(ActiveLocalCodexRun.pending_outcome) = None ->
  (try_recv (stream_of p.(Polled.run)) (router_of p)).1 = None ->
  (try_recv (stream_of p.(Polled.run)) (run_ops env.(PollEnv.others) (router_of p))).1 = Some event ->
  is_active (stream_of p.(Polled.run)) (run_ops env.(PollEnv.others) (router_of p)) = false ->
  poll env p = (Ok (LocalCodexRunProgress.Finished c), p') ->
  finished_with p.(Polled.run).(ActiveLocalCodexRun.metadata) RunReceiptOutcome.OutcomeUnknown c
    (service_of p') /\
  (try_recv (stream_of p.(Polled.run)) (router_of p')).1 = Some event.
Proof.
  intros Hco Hnone Hpending Hempty Hevent Hclosed Hrun. split.
  - destruct (poll_ends Hlaws _ _ _ _ _ Hco Hnone Hrun) as (_ & _ & outcome & Hknown & Hfin).
    unfold known_outcome in Hknown. cbv zeta in Hknown. rewrite Hpending, Hempty, Hclosed in Hknown. by simplify_eq.
  - rewrite poll_closed in Hrun by done. apply (finish_link Hlaws _ _ _ tasks) in Hrun as ->; done.
Qed.
End Polling.
