(* ===== verification/LocalThm.v ===== *)
(** * What a worker leaves behind

    A worker ends with its run closed, or with one of the reasons for which closing it could not
    be stored; and it ends when the stream of its run has ended. *)

From S2P Require Import Prelude AppJson AppWire AppConnection EventRouter EventThm TaskArtifact TaskReceipt TaskMachine TaskStore TaskService TaskPlan TaskThm TaskRuns Worktree Runtime Orchestrator LocalState RunThm RunPoll.

(** ** Abandoning a run *)

Section Abandon.
Context `{Sha256, ReceiptJson, TasksJson}.

Lemma transition_ready next details r :
  valid_task_transition r.(TaskRecord.status) next = true -> validate_details details = Ok tt ->
  length r.(TaskRecord.events) < MAX_EVENTS -> exists r', transition next details r = (Ok tt, r').
Proof.
  intros Hmove Hdetails Hlen. unfold transition, get, reject_if, ensure_event_capacity, lift, push_event, modify, mbind, M_bind.
  rewrite Hmove, Hdetails. apply Nat.leb_gt in Hlen. simpl. rewrite Hlen. by eexists.
Qed.

Lemma transition_run_ready run_id run next details r :
  snd <$> find_run run_id r.(TaskRecord.runs) = Some run ->
  valid_run_transition run.(RunRecord.status) next = true -> validate_details details = Ok tt ->
  length r.(TaskRecord.events) < MAX_EVENTS ->
  exists r', TaskMachine.transition_run run_id next details r = (Ok tt, r') /\
    r'.(TaskRecord.status) = r.(TaskRecord.status) /\
    length r'.(TaskRecord.events) = S (length r.(TaskRecord.events)).
Proof.
  intros Hfind Hmove Hdetails Hlen. apply fmap_Some in Hfind as ([i run'] & Hfind & ->). simpl in Hmove.
  unfold TaskMachine.transition_run, get, reject_if, ensure_event_capacity, lift, push_event, modify, mbind, M_bind.
  rewrite Hfind. simpl. rewrite Hmove, Hdetails. apply Nat.leb_gt in Hlen. simpl. rewrite Hlen. simpl.
  eexists. split_and!; [done|done|]. unfold pushed. simpl. rewrite length_app. simpl. lia.
Qed.

Lemma abandoned_ready run_id run error task :
  task.(StoredTask.record).(TaskRecord.status) = TaskStatus.Running ->
  run_of run_id task = Some run -> run_active run = true ->
  validate_details (TransitionDetails.with_error error) = Ok tt ->
  length task.(StoredTask.record).(TaskRecord.events) + 2 <= MAX_EVENTS ->
  exists task', abandoned run_id error task = Ok task'.
Proof.
  intros Hst Hrun Hactive Hdetails Hlen. unfold abandoned, on_record.
  destruct (transition_run_ready run_id run RunStatus.OutcomeUnknown (TransitionDetails.with_error error)
    task.(StoredTask.record)) as (r1 & Hr1 & Hst1 & Hlen1); [done| |done|lia|].
  { unfold run_active in Hactive. by destruct (RunRecord.status run). }
  rewrite Hr1. simpl.
  destruct (transition_ready TaskStatus.OutcomeUnknown (TransitionDetails.with_error error) r1) as (r2 & Hr2);
    [by rewrite Hst1, Hst|done|lia|].
  simpl. rewrite Hr2. by eexists.
Qed.

Lemma abandoned_closes run_id error task task' :
  abandoned run_id error task = Ok task' ->
  StoredTask.task_id task' = StoredTask.task_id task /\
  task'.(StoredTask.record).(TaskRecord.status) = TaskStatus.OutcomeUnknown /\
  is_Some (run_of run_id task').
Proof.
  intros Hab. unfold abandoned, on_record in Hab.
  destruct (TaskMachine.transition_run _ _ _ _) as [[u|e] r1] eqn:Hr1; [|done].
  apply transition_run_ok in Hr1 as (l1 & run & l2 & Hruns & Hid & _ & _ & _ & ->).
  simpl in Hab. destruct (transition _ _ _) as [[u2|e] r2] eqn:Hr2; [|done].
  apply transition_ok in Hr2 as (_ & _ & _ & ->). simplify_eq/=. split_and!; [done|done|].
  apply run_of_Some. unfold ids. simpl. rewrite fmap_app, fmap_cons. apply elem_of_app. right. left.
Qed.

(** What can keep the end of a run from being stored *)
Definition prevented (env : TaskEnv.t) (task_id run_id error : string) (tasks : list StoredTask.t) : Prop :=
  env.(TaskEnv.lock) = false \/ io_fault env \/
  (exists task, task ∈ tasks /\ StoredTask.task_id task = task_id /\
     MAX_EVENTS < length task.(StoredTask.record).(TaskRecord.events) + 2) \/
  (exists next a, spec (Call.AbandonRun task_id run_id error) tasks = Ok (Some next, a) /\ ~ storable next).

(** The plan of an abandonment goes through unless the run is over or the log is full. *)
Lemma abandon_plan task_id run_id error tasks e :
  tasks_ok tasks -> validate_details (TransitionDetails.with_error error) = Ok tt ->
  spec (Call.AbandonRun task_id run_id error) tasks = Err e ->
  settled task_id run_id tasks \/
  exists task, task ∈ tasks /\ StoredTask.task_id task = task_id /\
     MAX_EVENTS < length task.(StoredTask.record).(TaskRecord.events) + 2.
Proof.
  intros Hok Hdetails Hspec. unfold spec in Hspec. simpl in Hspec.
  destruct (find_task (is_task task_id) tasks) as [[i task]|] eqn:Hfind; simpl in Hspec.
  2: { left. intros task run Hin Hid. unfold find_task in Hfind.
       destruct (list_find _ _) as [|] eqn:Hl; [done|]. apply list_find_None in Hl.
       rewrite list.Forall_forall in Hl. by destruct (Hl task Hin). }
  destruct (find_task_ok _ _ _ Hfind) as [Hi Hid]. simpl in Hi, Hid. unfold is_task in Hid.
  pose proof (list_elem_of_lookup_2 _ _ _ Hi) as Hin.
  destruct (decide (MAX_EVENTS < length task.(StoredTask.record).(TaskRecord.events) + 2)) as [|Hroom];
    [right; by exists task|left].
  intros task' run Hin' Hid' Hrun Hst. assert (task' = task) as -> by (eapply same_task; [done..|congruence]).
  destruct (run_active run) eqn:Hactive; [|done].
  destruct (abandoned_ready run_id run error task) as (task' & Htask); [done..|lia|].
  rewrite Htask in Hspec. simpl in Hspec. unfold planned_run in Hspec.
  apply abandoned_closes in Htask as (_ & _ & [run' Hrun']). by rewrite Hrun' in Hspec.
Qed.

Lemma abandon_settles (Hlaws : TasksJsonLaws) env task_id run_id error s tasks r s' :
  coherent s tasks -> validate_details (TransitionDetails.with_error error) = Ok tt ->
  abandon_run env task_id run_id error s = (r, s') ->
  exists tasks', coherent s' tasks' /\
    (settled task_id run_id tasks' \/ prevented env task_id run_id error tasks').
Proof.
  intros Hco Hdetails Hrun. pose proof (coherent_ok _ _ Hco) as Hok.
  destruct (service_call Hlaws env (Call.AbandonRun task_id run_id error) Answer.Run _ _ _ _ _ eq_refl Hco Hrun)
    as (tasks' & Hco' & Hper). exists tasks'. split; [done|]. unfold permitted in Hper.
  destruct r as [run|e]; simpl in Hper.
  - left. destruct Hper as (stored & Hspec & ->). unfold spec in Hspec. simpl in Hspec.
    result_inv Hspec. unfold planned_run in Hspec. result_inv Hspec. simpl in *.
    match goal with Hf : find_task _ _ = Ok ?found, Ha : abandoned _ _ _ = Ok ?task |- _ =>
      destruct (find_task_ok _ _ _ Hf) as [Hi Hid]; destruct (abandoned_closes _ _ _ _ Ha) as (Hid' & Hst & _);
      unfold is_task in Hid; intros task' run' Hin' Htid _ Hrunning;
      assert (task' = task) as -> end; [|congruence].
    pose proof (coherent_ok _ _ Hco') as Hok'. eapply same_task; [done| |done|congruence].
    apply list_lookup_insert_eq. by eapply lookup_lt_Some.
  - destruct Hper as (-> & [Hspec|[[_ Hl]|[_ [Hio|Hst]]]]).
    + apply abandon_plan in Hspec as [|]; [by left|right; unfold prevented; tauto|done..].
    + right. by left.
    + right. by right; left.
    + right. by right; right; right.
Qed.
End Abandon.

(** ** Workers *)

Section Workers.
Context `{Sha256, ReceiptJson, TasksJson, RunEventJson}.

(** The control of a worker names the run that it polls. *)
Definition worker_ok (w : Worker.t) : Prop :=
  let metadata := w.(Worker.active).(ActiveLocalCodexRun.metadata) in
  w.(Worker.active).(ActiveLocalCodexRun.completion) = None /\
  metadata.(RunMetadata.task_id) = w.(Worker.control).(ActiveRunControl.task_id) /\
  metadata.(RunMetadata.run_id) = w.(Worker.control).(ActiveRunControl.run_id).

Definition queue_of_run (a : ActiveLocalCodexRun.t) : N := (stream_of a).(RunEventStream.queue).

(** The run of this control is closed, or closing it was not possible. *)
Definition over (env : TaskEnv.t) (control : ActiveRunControl.t) (s : TaskRunState.t) : Prop :=
  let task_id := control.(ActiveRunControl.task_id) in
  let run_id := control.(ActiveRunControl.run_id) in
  exists tasks, coherent (TaskRunState.service s) tasks /\
    (settled task_id run_id tasks \/ prevented env task_id run_id WORKER_FAILED_MESSAGE tasks).

(** Publishing reads the tasks and writes an update. *)
Lemma publish_keeps (Hlaws : TasksJsonLaws) env project_id task_id patch s tasks :
  coherent (TaskRunState.service s) tasks ->
  let s' := publish env project_id task_id patch s in
  coherent (TaskRunState.service s') tasks /\ s'.(TaskRunState.active) = s.(TaskRunState.active) /\
  s'.(TaskRunState.flags) = s.(TaskRunState.flags) /\ TaskRunState.router s' = TaskRunState.router s.
Proof.
  intros Hco s'. subst s'. unfold publish, with_tasks, zoom.
  destruct (get_project_task _ _ _ _) as [r t] eqn:Hget.
  eapply (service_call Hlaws env (Call.GetProjectTask _ _) Answer.Task) in Hget as (tasks' & Hco' & Hper); [|done..].
  assert (tasks' = tasks) as ->.
  { destruct r; simpl in Hper; [|by destruct Hper as [-> _]]. destruct Hper as (stored & Hspec & ->).
    unfold spec in Hspec. simpl in Hspec. unfold answered in Hspec. by result_inv Hspec. }
  by destruct r.
Qed.

Lemma finish_unknown_over (Hlaws : TasksJsonLaws) env active control s tasks :
  coherent (TaskRunState.service s) tasks -> worker_ok (Worker.mk active control None false) ->
  let s' := finish_unknown env active control s in
  over env.(UnknownEnv.abandon) control s' /\ s'.(TaskRunState.active) = s.(TaskRunState.active) /\
  s'.(TaskRunState.flags) = s.(TaskRunState.flags) /\
  (TaskRunState.router s').(EventRouter.heap) !! queue_of_run active = None.
Proof.
  intros Hco (Hnone & Ht & Hr) s'. subst s'. simpl in Hnone, Ht, Hr. unfold finish_unknown, on_run.
  destruct (mark_disconnected _ _) as [r p] eqn:Hmark.
  apply (finish_ends Hlaws _ _ _ tasks) in Hmark as ((tasks1 & Hco1) & Hsame & Hend); [|done..].
  simpl in Hsame, Hend. assert (queue_of_run p.(Polled.run) = queue_of_run active) as Hq.
  { unfold queue_of_run, stream_of. by destruct Hsame as (_ & _ & _ & _ & ->). }
  assert (forall s0, (TaskRunState.router (drop_run p.(Polled.run) s0)).(EventRouter.heap) !! queue_of_run active = None) as Hdrop.
  { intros s0. rewrite <- Hq. apply lookup_delete_eq. }
  destruct r as [[run|c]|e]; [by destruct Hend| |].
  - destruct Hend as (outcome & _ & (receipt & tasks2 & task & _ & _ & _ & Hco2 & Hset & _)). rewrite Ht, Hr in Hset.
    destruct (publish_keeps Hlaws env.(UnknownEnv.publish) control.(ActiveRunControl.project_id)
      control.(ActiveRunControl.task_id) (Some c.(LocalCodexRunCompletion.patch))
      (TaskRunState.set_desk p.(Polled.desk) s) tasks2 Hco2) as (Hco3 & Hact & Hfl & _).
    split_and!; [|done|done|apply Hdrop]. exists tasks2. split; [exact Hco3|by left].
  - unfold with_tasks, zoom. destruct (abandon_run _ _ _ _ _) as [r1 t1] eqn:Hab.
    apply (abandon_settles Hlaws _ _ _ _ _ tasks1) in Hab as (tasks2 & Hco2 & Hover); [|exact Hco1|done].
    pose proof (publish_keeps Hlaws env.(UnknownEnv.publish) control.(ActiveRunControl.project_id)
      control.(ActiveRunControl.task_id) None
      (TaskRunState.set_service t1 (TaskRunState.set_desk p.(Polled.desk) s)) tasks2 Hco2) as (Hco3 & Hact & Hfl & _).
    destruct r1; (split_and!; [|done|done|apply Hdrop]; exists tasks2; split; [exact Hco3|done]).
Qed.

(** An interruption uses the connection only. *)
Lemma interrupt_keeps p r p' :
  interrupt p = (r, p') -> p'.(Polled.run) = p.(Polled.run) /\ service_of p' = service_of p.
Proof.
  unfold interrupt, on_desk, zoom, get, mbind, M_bind. destruct (interrupt_run _ _ _ _). intros [= <- <-]. done.
Qed.

(** How an iteration ends *)
Definition iterated (env : WorkerEnv.t) (w : Worker.t) (s : TaskRunState.t)
    (r : option Worker.t) (s' : TaskRunState.t) : Prop :=
  let run_id := w.(Worker.control).(ActiveRunControl.run_id) in
  s'.(TaskRunState.flags) = s.(TaskRunState.flags) /\
  match r with
  | Some w' => worker_ok w' /\ w'.(Worker.control) = w.(Worker.control) /\
      same_run w.(Worker.active) w'.(Worker.active) /\ s'.(TaskRunState.active) = s.(TaskRunState.active) /\
      exists tasks', coherent (TaskRunState.service s') tasks'
  | None => over env.(WorkerEnv.unknown).(UnknownEnv.abandon) w.(Worker.control) s' /\
      s'.(TaskRunState.active) = delete run_id s.(TaskRunState.active) /\
      (TaskRunState.router s').(EventRouter.heap) !! queue_of_run w.(Worker.active) = None
  end.

(** The way out of the loop after an error *)
Lemma leave_unknown (Hlaws : TasksJsonLaws) env w active s tasks s0 r s' :
  coherent (TaskRunState.service s) tasks -> worker_ok w -> same_run w.(Worker.active) active ->
  active.(ActiveLocalCodexRun.completion) = None ->
  s.(TaskRunState.active) = s0.(TaskRunState.active) -> s.(TaskRunState.flags) = s0.(TaskRunState.flags) ->
  leave w.(Worker.control) (finish_unknown env.(WorkerEnv.unknown) active w.(Worker.control) s) = (r, s') ->
  iterated env w s0 r s'.
Proof.
  intros Hco (_ & Ht & Hr) (_ & _ & Hm & _ & Hev) Hnone Hact Hfl [= <- <-].
  destruct (finish_unknown_over Hlaws env.(WorkerEnv.unknown) active w.(Worker.control) s tasks)
    as (Hover & Hact' & Hfl' & Hq); [done|by unfold worker_ok; simpl; rewrite Hm|].
  split; [by simpl; rewrite Hfl'|]. split_and!; [done|by simpl; rewrite Hact', Hact|].
  unfold queue_of_run, stream_of in *. by rewrite Hev in Hq.
Qed.

Lemma worker_poll_ends (Hlaws : TasksJsonLaws) env w s tasks r s' :
  coherent (TaskRunState.service s) tasks -> worker_ok w -> worker_poll env w s = (r, s') ->
  iterated env w s r s'.
Proof.
  intros Hco Hw Hrun. pose proof Hw as (Hnone & Ht & Hr). unfold worker_poll, on_run in Hrun.
  destruct (poll _ _) as [rp p] eqn:Hpoll.
  apply (poll_ends Hlaws _ _ tasks) in Hpoll as ((tasks1 & Hco1) & Hsame & Hend); [|done..].
  simpl in Hsame, Hend. destruct rp as [[run|c]|e].
  - destruct Hend as [_ Hsm]. rewrite Hsm in Hrun. case_bool_decide; simplify_eq.
    + split; [done|]. split_and!; [done..|by exists tasks1].
    + destruct (publish_keeps Hlaws env.(WorkerEnv.publish) w.(Worker.control).(ActiveRunControl.project_id)
        w.(Worker.control).(ActiveRunControl.task_id) None
        (TaskRunState.set_desk p.(Polled.desk) s) tasks1 Hco1) as (Hco2 & Hact & Hfl & _).
      split; [done|]. split_and!; [done..|by exists tasks1].
  - destruct Hend as (outcome & _ & (receipt & tasks2 & task & _ & _ & _ & Hco2 & Hset & _)).
    rewrite Ht, Hr in Hset. unfold publish_completion, leave in Hrun.
    destruct (publish_keeps Hlaws env.(WorkerEnv.publish) w.(Worker.control).(ActiveRunControl.project_id)
      w.(Worker.control).(ActiveRunControl.task_id) (Some c.(LocalCodexRunCompletion.patch))
      (TaskRunState.set_desk p.(Polled.desk) s) tasks2 Hco2) as (Hco3 & Hact & Hfl & _).
    simplify_eq. split; [done|]. split_and!.
    + exists tasks2. split; [exact Hco3|by left].
    + simpl. by rewrite Hact.
    + destruct Hsame as (_ & _ & _ & _ & Hev). unfold queue_of_run, stream_of. rewrite <- Hev. apply lookup_delete_eq.
  - eapply (leave_unknown Hlaws env w _ (TaskRunState.set_desk p.(Polled.desk) s) tasks1); [exact Hco1|done..].
Qed.

Lemma worker_step_ends (Hlaws : TasksJsonLaws) env w s tasks r s' :
  coherent (TaskRunState.service s) tasks -> worker_ok w -> worker_step env w s = (r, s') ->
  iterated env w s r s'.
Proof.
  intros Hco Hw Hrun. unfold worker_step in Hrun. destruct (_ && _); [|by eapply worker_poll_ends].
  unfold on_run in Hrun. destruct (interrupt _) as [ri p] eqn:Hint.
  apply interrupt_keeps in Hint as [Hsame Hsv]. simpl in Hsame, Hsv. rewrite Hsame in Hrun.
  assert (coherent (TaskRunState.service (TaskRunState.set_desk p.(Polled.desk) s)) tasks) as Hco1.
  { unfold TaskRunState.service. simpl. unfold service_of in Hsv. by rewrite Hsv. }
  destruct ri as [u|e].
  - by eapply (worker_poll_ends Hlaws env (Worker.mk _ _ _ _)) in Hrun.
  - eapply (leave_unknown Hlaws env w _ _ tasks); [done|done|done|by destruct Hw|done..].
Qed.
End Workers.

(** ** Streams that have ended *)

Section Closed.
Context `{RunEventJson}.

(** The stream of this queue has ended, and [n] events are still to be read. *)
Record closed (q : N) (n : nat) (s : EventRouter.t) : Prop := {
  cl_queue : exists Q, s.(EventRouter.heap) !! q = Some Q /\ Q.(EventQueue.active) = false /\
    length Q.(EventQueue.events) = n;
  cl_routes : q ∉ (Route.queue <$> s.(EventRouter.routes));
  cl_fresh : (q < s.(EventRouter.next_queue))%N;
}.

(** A stream has one owner: nobody else reads or drops it. *)
Definition apart (q : N) (op : RouterOp) : Prop :=
  match op with
  | Receive stream | Drop stream => stream.(RunEventStream.queue) <> q
  | Prepare _ _ _ | Bind _ _ | Notify _ _ _ | Disconnect => True
  end.

Lemma closed_same q n s s' :
  closed q n s -> s'.(EventRouter.heap) !! q = s.(EventRouter.heap) !! q ->
  (forall r, r ∈ s'.(EventRouter.routes) -> r.(Route.queue) = q -> q ∈ (Route.queue <$> s.(EventRouter.routes))) ->
  (s.(EventRouter.next_queue) <= s'.(EventRouter.next_queue))%N -> closed q n s'.
Proof.
  intros [Hq Hr Hf] Hheap Hroutes Hnext. split; [by rewrite Hheap| |lia].
  intros (r & Heq & Hin)%list_elem_of_fmap. by eapply Hr, Hroutes.
Qed.

Lemma kept_route r (s : EventRouter.t) : r ∈ (retain_alive s).(EventRouter.routes) ->
  r.(Route.queue) ∈ (Route.queue <$> s.(EventRouter.routes)).
Proof. intros [_ Hin]%elem_of_List_filter. by apply list_elem_of_fmap_2. Qed.

Lemma closed_notify q n c method params s : closed q n s -> closed q n (route c method params s).
Proof.
  intros Hcl. pose proof (cl_routes _ _ _ Hcl) as Hno.
  destruct (route_routed c method params s) as [_ [->| ->]|normalized i r r0 r' sent _ _ Hi _ _ Hr0 Hpush ->]; [done| |].
  - eapply closed_same; [done|done| |simpl; lia]. intros r Hr <-. by apply kept_route.
  - assert (r.(Route.queue) <> q) as Hne.
    { intros <-. apply Hno, kept_route. by eapply list_elem_of_lookup_2. }
    assert (forall x, x ∈ <[ i := r' ]> (retain_alive s).(EventRouter.routes) -> x.(Route.queue) = q ->
      q ∈ (Route.queue <$> s.(EventRouter.routes))) as Hroutes.
    { intros x Hx <-. apply list_elem_of_lookup in Hx as [j Hj].
      apply list_lookup_insert_Some in Hj as [(_ & <- & _)|[_ Hj]].
      - destruct Hne. apply route_push_key in Hpush. unfold route_key in Hpush. simplify_eq.
        by destruct (is_none _).
      - apply kept_route. by eapply list_elem_of_lookup_2. }
    assert (forall heap, send r.(Route.queue) sent heap !! q = heap !! q) as Hsend.
    { intros heap. unfold send. destruct sent; [|done]. by rewrite lookup_alter_ne. }
    destruct (NormalizedEvent.terminal normalized); (eapply closed_same; [done| | |simpl; lia]); simpl.
    + unfold deactivate. by rewrite lookup_alter_ne, Hsend.
    + intros x Hx. apply Hroutes. eapply elem_of_sublist; [exact Hx|]. apply sublist_delete.
    + done.
    + done.
Qed.

Lemma closed_step q n op s : apart q op -> closed q n s -> closed q n (router_step op s).
Proof.
  intros Hop Hcl. destruct op as [c rid tid|stream turn|c method params| |stream|stream]; simpl in *.
  - pose proof (cl_fresh _ _ _ Hcl) as Hf. eapply closed_same; [done|..];
      destruct (prepare_effect c rid tid s) as [-> |[-> | ->]]; simpl; try done; try lia.
    + rewrite lookup_insert_ne; [done|lia].
    + intros r Hr <-. by apply list_elem_of_fmap_2.
    + intros r Hr <-. by apply kept_route.
    + intros r [Hr|Hr%list_elem_of_singleton]%elem_of_app Hq; [rewrite <- Hq; by apply kept_route|].
      subst r. simpl in Hq. lia.
  - assert (forall i t, closed q n (EventRouter.set_routes (alter (Route.set_turn t) i s.(EventRouter.routes)) s)) as Halter.
    { intros i t. eapply closed_same; [done|done| |simpl; lia]. simpl.
      intros r (j & Hj)%list_elem_of_lookup <-. apply list_elem_of_fmap.
      destruct (decide (i = j)) as [<-|Hne].
      - rewrite list_lookup_alter_eq in Hj. apply fmap_Some in Hj as (r0 & Hr0 & ->).
        exists r0. split; [done|]. by eapply list_elem_of_lookup_2.
      - rewrite list_lookup_alter_ne in Hj by done. exists r. split; [done|]. by eapply list_elem_of_lookup_2. }
    unfold bind_turn, get, reject_if, lift, modify, throw, mbind, M_bind, mret, M_ret.
    repeat (case_match; simplify_eq/=); done.
  - by apply closed_notify.
  - destruct Hcl as [(Q & HQ & Ha & Hn) Hr Hf]. split; simpl; [|by apply not_elem_of_nil|done].
    exists Q. split; [|done]. rewrite foldr_deactivate_lookup. by rewrite decide_False.
  - unfold try_recv. repeat (case_match; simplify_eq/=); try done.
    eapply closed_same; [done| |by intros r Hr <-; apply list_elem_of_fmap_2|simpl; lia].
    simpl. by rewrite lookup_insert_ne.
  - eapply closed_same; [done| |by intros r Hr <-; apply list_elem_of_fmap_2|simpl; lia].
    simpl. by rewrite lookup_delete_ne.
Qed.

Lemma closed_ops q n ops s : Forall (apart q) ops -> closed q n s -> closed q n (run_ops ops s).
Proof.
  revert s. induction ops as [|op ops IH]; intros s Hall Hcl; [done|].
  apply list.Forall_cons in Hall as [Hop Hall]. apply IH; [done|]. by apply closed_step.
Qed.

Lemma closed_inactive stream n s : closed stream.(RunEventStream.queue) n s -> is_active stream s = false.
Proof. intros [(Q & HQ & Ha & _) _ _]. unfold is_active. by rewrite HQ. Qed.

(** Reading a stream that has ended takes one event, if one is left. *)
Lemma closed_recv stream n s event s' :
  closed stream.(RunEventStream.queue) n s -> try_recv stream s = (Some event, s') ->
  exists m, n = S m /\ closed stream.(RunEventStream.queue) m s'.
Proof.
  intros [(Q & HQ & Ha & Hn) Hr Hf] Hrecv. unfold try_recv in Hrecv. rewrite HQ in Hrecv.
  destruct (EventQueue.events Q) as [|ev rest] eqn:He; [done|]. simplify_eq. exists (length rest).
  split; [done|]. split; [|done|done]. simpl. rewrite lookup_insert_eq. by eexists.
Qed.
End Closed.

(** ** Running a worker *)

Section Turns.
Context `{Sha256, ReceiptJson, TasksJson, RunEventJson}.

(** What happens next: an iteration of the worker, or something of another thread *)
Inductive Turn :=
| Mine (env : WorkerEnv.t)
| Serves (env : TaskEnv.t) (call : Call.t)
| Routes (op : RouterOp)
| Stops (flag : nat).

Definition other_turn (turn : Turn) (s : TaskRunState.t) : TaskRunState.t :=
  match turn with
  | Mine _ => s
  | Serves env call => TaskRunState.set_service (serve env call (TaskRunState.service s)).2 s
  | Routes op => TaskRunState.set_router (router_step op (TaskRunState.router s)) s
  | Stops flag => TaskRunState.set_flags (<[ flag := true ]> s.(TaskRunState.flags)) s
  end.

(** [run_worker], with the turns of the other threads between its iterations: the worker when the
    turns are used up, or none when it has ended *)
Fixpoint run_worker (turns : list Turn) (w : Worker.t) (s : TaskRunState.t)
    : option Worker.t * TaskRunState.t :=
  match turns with
  | [] => (Some w, s)
  | Mine env :: turns =>
    match worker_step env w s with
    | (Some w, s) => run_worker turns w s
    | (None, s) => (None, s)
    end
  | turn :: turns => run_worker turns w (other_turn turn s)
  end.

Definition is_mine (turn : Turn) : bool := match turn with Mine _ => true | _ => false end.

Definition apart_turn (q : N) (turn : Turn) : Prop :=
  match turn with
  | Mine env => Forall (apart q) env.(WorkerEnv.poll).(PollEnv.others)
  | Routes op => apart q op
  | Serves _ _ | Stops _ => True
  end.

(** Finishing a run and handling an event do not touch the connection. *)
Lemma finish_same_link env outcome p r p' :
  finish env outcome p = (r, p') -> p'.(Polled.desk).(Desk.link) = p.(Polled.desk).(Desk.link).
Proof.
  intros Hf. unfold finish, unless_completed, settle, modify, get, on_desk, zoom, mbind, M_bind, mret, M_ret in Hf.
  simpl in Hf. destruct (ActiveLocalCodexRun.completion _); [by simplify_eq|].
  destruct (finish_run _ _ _ _ _) as [[c|e1] d] eqn:Hd; apply finish_run_link in Hd; by simplify_eq/=.
Qed.

Lemma on_event_link env kind p r p' :
  on_event env kind p = (r, p') -> p'.(Polled.desk).(Desk.link) = p.(Polled.desk).(Desk.link).
Proof.
  destruct kind; simpl; intros Hrun; try (by eapply finish_same_link);
    unfold current_run, move_run, on_desk, on_tasks, zoom, get, lift, mbind, M_bind, mret, M_ret in Hrun;
    repeat (case_match; simplify_eq/=); done.
Qed.

(** A poll of a stream that has ended goes on only with an event. *)
Lemma closed_poll env p n run p' :
  p.(Polled.run).(ActiveLocalCodexRun.completion) = None ->
  closed (queue_of_run p.(Polled.run)) n (router_of p) ->
  Forall (apart (queue_of_run p.(Polled.run))) env.(PollEnv.others) ->
  poll env p = (Ok (LocalCodexRunProgress.Pending run), p') ->
  exists m, n = S m /\ closed (queue_of_run p.(Polled.run)) m (router_of p').
Proof.
  intros Hnone Hcl Hothers Hrun. unfold poll, unless_completed in Hrun.
  apply bind_ok_iff in Hrun as (p1 & p2 & Hg & Hrun). apply get_inv in Hg as [[= ->] ->].
  apply bind_ok_iff in Hrun as (p1 & p2 & Hg & Hrun). apply get_inv in Hg as [[= ->] ->].
  rewrite Hnone in Hrun.
  assert (forall e o p1, settle e o p1 <> (Ok (LocalCodexRunProgress.Pending run), p')) as Hsettle.
  { intros e o p1 Hf. unfold settle, modify, get, on_desk, zoom, mbind, M_bind, mret, M_ret in Hf.
    repeat (case_match; simplify_eq/=). }
  destruct (ActiveLocalCodexRun.pending_outcome _); [by apply Hsettle in Hrun|].
  apply bind_ok_iff in Hrun as (event & p1 & Hn & Hrun). unfold next_event in Hn.
  fold (stream_of p.(Polled.run)) (router_of p) in Hn.
  destruct (try_recv _ _) as [ev router] eqn:Hrecv. simplify_eq. destruct event as [event|].
  - apply closed_recv with (1 := Hcl) in Hrecv as (m & -> & Hcl'). exists m. split; [done|].
    apply on_event_link in Hrun. unfold router_of. by rewrite Hrun.
  - exfalso. assert (router = router_of p) as ->.
    { unfold try_recv in Hrecv. repeat case_match; by simplify_eq. }
    apply bind_ok_iff in Hrun as (u & p1 & Hm & Hrun). apply modify_inv in Hm as [_ ->].
    apply bind_ok_iff in Hrun as (p1 & p2 & Hg & Hrun). apply get_inv in Hg as [[= ->] ->].
    simpl in Hrun. fold (stream_of p.(Polled.run)) in Hrun.
    rewrite (closed_inactive (stream_of p.(Polled.run)) n) in Hrun by (by apply closed_ops).
    simpl in Hrun. unfold finish, unless_completed in Hrun.
    apply bind_ok_iff in Hrun as (u' & p1 & Hm & Hrun). apply modify_inv in Hm as [_ ->].
    apply bind_ok_iff in Hrun as (p1 & p2 & Hg & Hrun). apply get_inv in Hg as [[= ->] ->].
    simpl in Hrun. rewrite Hnone in Hrun. by apply Hsettle in Hrun.
Qed.

Lemma publish_router env project_id task_id patch s :
  TaskRunState.router (publish env project_id task_id patch s) = TaskRunState.router s.
Proof. unfold publish, with_tasks, zoom. destruct (get_project_task _ _ _ _) as [[] ?]; done. Qed.

(** So an iteration over a stream that has ended uses up one of its events, or is the last. *)
Lemma closed_iteration env w s n w' s' :
  worker_ok w -> closed (queue_of_run w.(Worker.active)) n (TaskRunState.router s) ->
  apart_turn (queue_of_run w.(Worker.active)) (Mine env) -> worker_step env w s = (Some w', s') ->
  exists m, n = S m /\ closed (queue_of_run w.(Worker.active)) m (TaskRunState.router s').
Proof.
  intros (Hnone & _ & _) Hcl Hothers Hstep. unfold worker_step in Hstep. destruct (_ && _).
  - exfalso. unfold on_run, interrupt, on_desk, zoom, interrupt_run, get, reject_if, mbind, M_bind in Hstep.
    simpl in Hstep. fold (TaskRunState.router s) (stream_of w.(Worker.active)) in Hstep.
    rewrite (closed_inactive (stream_of w.(Worker.active)) n) in Hstep by done.
    rewrite orb_true_r in Hstep. done.
  - unfold worker_poll, on_run in Hstep. destruct (poll _ _) as [[[run|c]|e] p] eqn:Hpoll; [|done..].
    apply closed_poll with (n := n) in Hpoll as (m & -> & Hcl'); [|done..]. exists m. split; [done|].
    case_bool_decide; simplify_eq; rewrite ?publish_router; done.
Qed.

(** C6: A worker ends when the stream of its run has ended, and then its run is over. Whatever
    other threads do between its iterations to the tasks, the stop flags and the router, as
    long as they leave this stream to it, a worker that is given more iterations than the
    stream has events left ends. It is then not among the active runs any more, its stream
    is dropped, and the stored run is closed, unless the mutex was poisoned, the disk failed,
    the log of the task was full or the new list did not fit. *)
Theorem closed_stream_ends_worker (Hlaws : TasksJsonLaws) turns w s tasks n :
  coherent (TaskRunState.service s) tasks -> worker_ok w ->
  closed (queue_of_run w.(Worker.active)) n (TaskRunState.router s) ->
  Forall (apart_turn (queue_of_run w.(Worker.active))) turns ->
  n < length (List.filter is_mine turns) ->
  exists env s', Mine env ∈ turns /\ run_worker turns w s = (None, s') /\
    over env.(WorkerEnv.unknown).(UnknownEnv.abandon) w.(Worker.control) s' /\
    s'.(TaskRunState.active) !! w.(Worker.control).(ActiveRunControl.run_id) = None /\
    (TaskRunState.router s').(EventRouter.heap) !! queue_of_run w.(Worker.active) = None.
Proof.
  revert w s tasks n. induction turns as [|turn turns IH]; intros w s tasks n Hco Hw Hcl Hall Hn; [simpl in Hn; lia|].
  apply list.Forall_cons in Hall as [Hturn Hall].
  assert (forall s1 tasks1, is_mine turn = false -> coherent (TaskRunState.service s1) tasks1 ->
    closed (queue_of_run w.(Worker.active)) n (TaskRunState.router s1) ->
    exists env s', Mine env ∈ turn :: turns /\ run_worker turns w s1 = (None, s') /\
      over env.(WorkerEnv.unknown).(UnknownEnv.abandon) w.(Worker.control) s' /\
      s'.(TaskRunState.active) !! w.(Worker.control).(ActiveRunControl.run_id) = None /\
      (TaskRunState.router s').(EventRouter.heap) !! queue_of_run w.(Worker.active) = None) as Hother.
  { intros s1 tasks1 Hmine Hco1 Hcl1. cbn [List.filter] in Hn. rewrite Hmine in Hn.
    destruct (IH w s1 tasks1 n) as (env & s' & Hin & Hrest); [done..|].
    exists env, s'. split; [by right|done]. }
  destruct turn as [env|env call|op|flag]; cbn [run_worker].
  - destruct (worker_step env w s) as [r s1] eqn:Hstep.
    pose proof (worker_step_ends Hlaws _ _ _ _ _ _ Hco Hw Hstep) as [_ Hend]. destruct r as [w1|].
    + destruct Hend as (Hw1 & Hctl & Hsame & Hact & tasks1 & Hco1).
      destruct (closed_iteration _ _ _ _ _ _ Hw Hcl Hturn Hstep) as (m & -> & Hcl1).
      assert (queue_of_run w1.(Worker.active) = queue_of_run w.(Worker.active)) as Hq
        by (unfold queue_of_run, stream_of; by destruct Hsame as (_ & _ & _ & _ & ->)).
      destruct (IH w1 s1 tasks1 m) as (env' & s' & Hin & Hrest);
        [done..|by rewrite Hq|by rewrite Hq|simpl in Hn; lia|].
      rewrite Hctl, Hq in Hrest. exists env', s'. split; [by right|done].
    + destruct Hend as (Hover & Hact & Hheap). exists env, s1. split_and!; [left|done|done| |done].
      rewrite Hact. apply lookup_delete_eq.
  - destruct (serve env call (TaskRunState.service s)) as [r t] eqn:Hserve.
    destruct (serve_refines Hlaws _ _ _ _ _ _ Hco Hserve) as (tasks' & Hco' & _).
    apply (Hother _ tasks'); [done| |]; simpl; rewrite Hserve; done.
  - apply (Hother _ tasks); [done|done|]. by apply closed_step.
  - by apply (Hother _ tasks).
Qed.
End Turns.
