(* ===== verification/LocalSystem.v ===== *)
(** * The desktop's runs as a system

    The commands, the iterations of the workers and everything else that reaches the router or
    the tasks, in any order: each active run has one worker, and a stop reaches it. *)

From S2P Require Import Prelude AppJson AppWire AppConnection EventRouter EventThm TaskArtifact TaskReceipt TaskMachine TaskStore TaskService TaskPlan TaskThm TaskRuns Worktree Runtime Orchestrator LocalState RunThm RunPoll LocalThm.

Section System.
Context `{Sha256, ReceiptJson, TasksJson, RunEventJson}.

Inductive Act :=
| StartTask (env : LocalStartEnv.t) (request : StartLocalTaskRequest.t)
| StopRun (env : TaskEnv.t) (lock : bool) (project_id task_id run_id : string)
| ListTasks (env : TaskEnv.t) (project_id : string)
| Iterate (i : nat) (env : WorkerEnv.t)
| OnTasks (env : TaskEnv.t) (call : Call.t)
| OnRouter (op : RouterOp).

Definition act (a : Act) (s : TaskRunState.t) : TaskRunState.t :=
  match a with
  | StartTask env request => (start_local env request s).2
  | StopRun env lock project_id task_id run_id => (stop_local env lock project_id task_id run_id s).2
  | ListTasks env project_id => (list_local env project_id s).2
  | Iterate i env =>
    match s.(TaskRunState.workers) !! i with
    | None => s
    | Some w =>
      match worker_step env w s with
      | (Some w', s') => TaskRunState.set_workers (<[ i := w' ]> s'.(TaskRunState.workers)) s'
      | (None, s') => TaskRunState.set_workers (delete i s'.(TaskRunState.workers)) s'
      end
    end
  | OnTasks env call => TaskRunState.set_service (serve env call (TaskRunState.service s)).2 s
  | OnRouter op => TaskRunState.set_router (router_step op (TaskRunState.router s)) s
  end.

(** The states of a process that was started over a file it can read *)
Inductive reachable : TaskRunState.t -> Prop :=
| reachable_open rt root router disk env file tasks s :
    coherent (Service.new file) tasks ->
    open_state rt root router disk env file = (Ok tt, s) -> reachable s
| reachable_act a s : reachable s -> reachable (act a s).

Definition controls (s : TaskRunState.t) : list ActiveRunControl.t :=
  Worker.control <$> s.(TaskRunState.workers).

(** The run is polled and interrupted through the runtime and the connection that started it. *)
Definition wired (a : ActiveLocalCodexRun.t) : Prop :=
  a.(ActiveLocalCodexRun.active).(ActiveCodexRun.runtime_identity)
    = a.(ActiveLocalCodexRun.runtime_identity) /\
  a.(ActiveLocalCodexRun.active).(ActiveCodexRun.connection_identity)
    = a.(ActiveLocalCodexRun.connection).(ConnectionControl.connection_identity).

Record runs_inv (s : TaskRunState.t) : Prop := {
  rv_tasks : exists tasks, coherent (TaskRunState.service s) tasks;
  rv_workers : Forall (fun w => worker_ok w /\ wired w.(Worker.active)) s.(TaskRunState.workers);
  rv_active id c : s.(TaskRunState.active) !! id = Some c <->
    c ∈ controls s /\ c.(ActiveRunControl.run_id) = id;
  rv_once : NoDup (ActiveRunControl.run_id <$> controls s);
  rv_stops : NoDup (ActiveRunControl.stop <$> controls s);
  rv_flags : Forall (fun c => c.(ActiveRunControl.stop) < length s.(TaskRunState.flags)) (controls s);
}.

(** What no call but those that start and end workers changes *)
Definition quiet (s s' : TaskRunState.t) : Prop :=
  s'.(TaskRunState.active) = s.(TaskRunState.active) /\ s'.(TaskRunState.flags) = s.(TaskRunState.flags) /\
  s'.(TaskRunState.workers) = s.(TaskRunState.workers).

Lemma quiet_inv s s' tasks : runs_inv s -> quiet s s' -> coherent (TaskRunState.service s') tasks -> runs_inv s'.
Proof.
  intros [_ Hw Ha Ho Hs Hf] (Hact & Hfl & Hws) Hco. assert (controls s' = controls s) as Hc by (unfold controls; by rewrite Hws).
  split; rewrite ?Hc, ?Hact, ?Hfl, ?Hws; try done. by exists tasks.
Qed.

(** *** Calls of the service *)

Lemma on_service_inv (Hlaws : TasksJsonLaws) {A} env call (f : A -> Answer.t) (m : ServiceM A)
    (g : TaskServiceError.t -> LocalTaskError.t) s r s' :
  serve env call = answer_with f m -> runs_inv s ->
  zoom TaskRunState.service TaskRunState.set_service g m s = (r, s') -> runs_inv s' /\ quiet s s'.
Proof.
  intros Hserve Hinv Hrun. destruct (rv_tasks _ Hinv) as [tasks Hco].
  unfold zoom in Hrun. destruct (m _) as [r0 t] eqn:Hm. simplify_eq.
  destruct (service_call Hlaws _ _ _ _ _ _ _ _ Hserve Hco Hm) as (tasks' & Hco' & _).
  split; [|done]. by eapply (quiet_inv _ _ tasks' Hinv).
Qed.

Lemma with_tasks_inv (Hlaws : TasksJsonLaws) {A} env call (f : A -> Answer.t) (m : ServiceM A) s r s' :
  serve env call = answer_with f m -> runs_inv s -> with_tasks m s = (r, s') -> runs_inv s'.
Proof. intros. by eapply on_service_inv. Qed.

Lemma publish_inv (Hlaws : TasksJsonLaws) env project_id task_id patch s :
  runs_inv s -> runs_inv (publish env project_id task_id patch s).
Proof.
  intros Hinv. unfold publish. destruct (with_tasks _ s) as [r s1] eqn:Hget.
  eapply (with_tasks_inv Hlaws env (Call.GetProjectTask _ _) Answer.Task) in Hget as Hinv1; [|done..].
  destruct r; [|done]. destruct (rv_tasks _ Hinv1) as [tasks Hco]. by eapply (quiet_inv _ _ tasks Hinv1).
Qed.

(** *** Workers *)

Lemma publish_workers env project_id task_id patch s :
  (publish env project_id task_id patch s).(TaskRunState.workers) = s.(TaskRunState.workers).
Proof. unfold publish, with_tasks, zoom. destruct (get_project_task _ _ _ _) as [[] ?]; done. Qed.

Lemma finish_unknown_workers env active control s :
  (finish_unknown env active control s).(TaskRunState.workers) = s.(TaskRunState.workers).
Proof.
  unfold finish_unknown, on_run, publish_completion, with_tasks, zoom.
  destruct (mark_disconnected _ _) as [[[run|c]|e] p];
    [destruct (abandon_run _ _ _ _ _) as [r t]| |destruct (abandon_run _ _ _ _ _) as [r t]];
    unfold drop_run; simpl; by rewrite publish_workers.
Qed.

Lemma worker_poll_workers env w s :
  (worker_poll env w s).2.(TaskRunState.workers) = s.(TaskRunState.workers).
Proof.
  unfold worker_poll, on_run, leave, publish_completion. destruct (poll _ _) as [[[run|c]|e] p]; simpl.
  - case_bool_decide; simpl; by rewrite ?publish_workers.
  - by rewrite publish_workers.
  - by rewrite finish_unknown_workers.
Qed.

Lemma worker_step_workers env w s :
  (worker_step env w s).2.(TaskRunState.workers) = s.(TaskRunState.workers).
Proof.
  unfold worker_step. destruct (_ && _); [|apply worker_poll_workers].
  unfold on_run, leave. destruct (interrupt _) as [[u|e] p]; simpl.
  - by rewrite worker_poll_workers.
  - by rewrite finish_unknown_workers.
Qed.

Lemma wired_same a a' : same_run a a' -> wired a -> wired a'.
Proof. intros (Hrt & Hc & _ & _ & Hact). unfold wired. by rewrite Hrt, Hc, Hact. Qed.

Lemma iterate_inv (Hlaws : TasksJsonLaws) i env s : runs_inv s -> runs_inv (act (Iterate i env) s).
Proof.
  intros Hinv. simpl. destruct (s.(TaskRunState.workers) !! i) as [w|] eqn:Hi; [|done].
  destruct (rv_tasks _ Hinv) as [tasks Hco]. pose proof (rv_workers _ Hinv) as Hw.
  destruct (proj1 (Forall_lookup _ _) Hw _ _ Hi) as [Hok Hwired].
  pose proof (worker_step_workers env w s) as Hws.
  assert (controls s !! i = Some w.(Worker.control)) as Hci by (unfold controls; by rewrite list_lookup_fmap, Hi).
  destruct (worker_step env w s) as [r s'] eqn:Hstep. simpl in Hws.
  destruct (worker_step_ends Hlaws _ _ _ _ _ _ Hco Hok Hstep) as [Hfl Hend].
  destruct Hinv as [_ _ Ha Ho Hst Hf]. destruct r as [w'|].
  - destruct Hend as (Hok' & Hctl & Hsame & Hact & Hco').
    assert (controls (TaskRunState.set_workers (<[ i := w' ]> s'.(TaskRunState.workers)) s') = controls s) as Hc.
    { unfold controls. simpl. rewrite Hws, list_fmap_insert, Hctl. by apply list_insert_id. }
    split; rewrite ?Hc; simpl; rewrite ?Hact, ?Hfl; try done.
    rewrite Hws. apply Forall_insert; [done|]. split; [done|]. by eapply wired_same.
  - destruct Hend as ((tasks' & Hco' & _) & Hact & _).
    assert (controls (TaskRunState.set_workers (delete i s'.(TaskRunState.workers)) s') = delete i (controls s)) as Hc.
    { unfold controls. simpl. by rewrite Hws, list_fmap_delete. }
    assert (delete i (controls s) `sublist_of` controls s) as Hsub by apply sublist_delete.
    split; rewrite ?Hc; simpl; rewrite ?Hact, ?Hfl.
    + by exists tasks'.
    + rewrite Hws. by apply Forall_delete.
    + intros id c. rewrite lookup_delete_Some, Ha. split.
      * intros (Hne & Hin & Hid). split; [|done]. apply list_elem_of_lookup in Hin as [j Hj].
        destruct (decide (i = j)) as [<-|Hij]; [congruence|]. apply list_elem_of_lookup.
        destruct (decide (j < i)).
        -- exists j. by rewrite list_lookup_delete_lt.
        -- exists (pred j). rewrite list_lookup_delete_ge by lia. by replace (S (pred j)) with j by lia.
      * intros [Hin Hid]. split_and!; [|by eapply elem_of_sublist|done]. intros Heq.
        apply (delete_Permutation _ _ _) in Hci. rewrite Hci in Ho. rewrite fmap_cons in Ho.
        apply list.NoDup_cons in Ho as [Hno _]. apply Hno. rewrite Heq, <- Hid. by apply list_elem_of_fmap_2.
    + eapply sublist_NoDup; [exact Ho|]. by apply fmap_sublist.
    + eapply sublist_NoDup; [exact Hst|]. by apply fmap_sublist.
    + rewrite list.Forall_forall in *. eauto using elem_of_sublist.
Qed.

(** *** Starting *)

Lemma launch_active rt env request prompt w s a s' :
  launch rt env request prompt w s = (Ok (LocalCodexRunStart.Active a), s') ->
  a.(ActiveLocalCodexRun.completion) = None /\
  a.(ActiveLocalCodexRun.metadata).(RunMetadata.task_id) = request.(StartLocalCodexRunRequest.task_id) /\
  a.(ActiveLocalCodexRun.metadata).(RunMetadata.run_id) = request.(StartLocalCodexRunRequest.run_id) /\
  wired a.
Proof.
  intros Hrun. unfold launch, attempt in Hrun.
  assert (forall m outcome s1, (completion ← finish_run env.(StartEnv.finish) w m outcome;
    mret (LocalCodexRunStart.Finished completion)) s1 <> (Ok (LocalCodexRunStart.Active a), s')) as Hfail.
  { intros m outcome s1 (c & s2 & _ & Hret)%bind_ok_iff. by apply ret_inv in Hret as [? _]. }
  apply bind_ok_iff in Hrun as (thread & s1 & _ & Hrun). destruct thread as [thread|]; [|by apply Hfail in Hrun].
  apply bind_ok_iff in Hrun as (started & s2 & Hturn & Hrun). destruct started as [x|]; [|by apply Hfail in Hrun].
  apply ret_inv in Hrun as [[= ->] ->]. simpl. split_and!; [done..|]. unfold wired. simpl.
  unfold zoom in Hturn. destruct (start_run _ _ _ _) as [[x0|] l] eqn:Hr; simpl in Hturn; simplify_eq. unfold start_run in Hr.
  apply bind_ok_iff in Hr as (u & l1 & _ & Hr). apply bind_ok_iff in Hr as (ev & l2 & _ & Hr).
  unfold with_stream in Hr. case_match eqn:Hbody. case_match; simplify_eq.
  apply bind_ok_iff in Hbody as (v & l4 & _ & Hb). apply bind_ok_iff in Hb as (t & l5 & _ & Hb).
  apply bind_ok_iff in Hb as (u2 & l6 & _ & Hb). apply ret_inv in Hb as [[= ->] _]. done.
Qed.

Lemma start_active rt root env request s a s' :
  start rt root env request s = (Ok (LocalCodexRunStart.Active a), s') ->
  a.(ActiveLocalCodexRun.completion) = None /\
  a.(ActiveLocalCodexRun.metadata).(RunMetadata.task_id) = request.(StartLocalCodexRunRequest.task_id) /\
  a.(ActiveLocalCodexRun.metadata).(RunMetadata.run_id) = request.(StartLocalCodexRunRequest.run_id) /\
  wired a.
Proof.
  intros Hrun. unfold start in Hrun.
  apply bind_ok_iff in Hrun as (u & s1 & _ & Hrun). apply bind_ok_iff in Hrun as (task & s2 & _ & Hrun).
  apply bind_ok_iff in Hrun as (found & s3 & _ & Hrun). cbv zeta in Hrun.
  destruct (negb _); [by apply ret_inv in Hrun as [? _]|].
  apply bind_ok_iff in Hrun as (prompt & s4 & _ & Hrun). apply bind_ok_iff in Hrun as (w & s5 & _ & Hrun).
  apply bind_ok_iff in Hrun as (begun & s6 & _ & Hrun). destruct begun; [by eapply launch_active|].
  apply bind_ok_iff in Hrun as (cl & s7 & _ & Hrun). by apply ret_inv in Hrun as [? _].
Qed.

Lemma start_coherent (Hlaws : TasksJsonLaws) rt root env request s tasks r s' :
  coherent s.(Desk.service) tasks -> start rt root env request s = (r, s') ->
  exists tasks', coherent s'.(Desk.service) tasks'.
Proof.
  intros Hco Hrun. destruct (start_cases Hlaws _ _ _ _ _ _ _ _ Hco Hrun)
    as [[_ Hco']|(s1 & w & prompt & run & next & _ & _ & _ & Hco1 & Hlaunch)]; [by exists tasks|].
  destruct (launch_started Hlaws _ _ _ _ _ _ _ _ _ Hco1 Hlaunch) as (tasks' & Hco' & _). by exists tasks'.
Qed.

Lemma more_flags s : runs_inv s -> runs_inv (TaskRunState.set_flags (s.(TaskRunState.flags) ++ [false]) s).
Proof.
  intros [Hco Hw Ha Ho Hs Hf]. split; try done. eapply list.Forall_impl; [exact Hf|]. simpl. intros c Hlt.
  rewrite length_app. simpl. lia.
Qed.

(** One more worker, for a run that has none *)
Lemma spawned_inv s a project_id :
  let run_id := a.(ActiveLocalCodexRun.metadata).(RunMetadata.run_id) in
  let control := ActiveRunControl.mk project_id a.(ActiveLocalCodexRun.metadata).(RunMetadata.task_id)
    run_id (length s.(TaskRunState.flags)) in
  runs_inv s -> a.(ActiveLocalCodexRun.completion) = None -> wired a ->
  s.(TaskRunState.active) !! run_id = None ->
  runs_inv (TaskRunState.set_workers (s.(TaskRunState.workers) ++ [Worker.mk a control None false])
    (TaskRunState.set_active (<[ run_id := control ]> s.(TaskRunState.active))
       (TaskRunState.set_flags (s.(TaskRunState.flags) ++ [false]) s))).
Proof.
  intros run_id control [Hco Hw Ha Ho Hs Hf] Hnone Hwired Hfree.
  set (s' := TaskRunState.set_workers _ _).
  assert (controls s' = controls s ++ [control]) as Hc by (unfold controls; simpl; by rewrite fmap_app).
  assert (run_id ∉ (ActiveRunControl.run_id <$> controls s)) as Hnew.
  { intros (c & Hid & Hin)%list_elem_of_fmap. assert (s.(TaskRunState.active) !! run_id = Some c) as Hsome
      by (by apply Ha). congruence. }
  split; rewrite ?Hc; subst s'; simpl.
  - done.
  - apply list.Forall_app. split; [done|]. apply list.Forall_singleton. by split.
  - intros id c. rewrite lookup_insert_Some, Ha, elem_of_app, list_elem_of_singleton. split.
    + intros [[<- <-]|[Hne [Hin Hid]]]; [split; [by right|done]|split; [by left|done]].
    + intros [[Hin| ->] Hid]; [|by left]. right. split; [|done]. intros ->. apply Hnew.
      rewrite <- Hid. by apply list_elem_of_fmap_2.
  - rewrite fmap_app. apply list.NoDup_app. split_and!; [done| |apply NoDup_singleton].
    intros id Hin Hx%list_elem_of_singleton. subst id. by apply Hnew.
  - rewrite fmap_app. apply list.NoDup_app. split_and!; [done| |apply NoDup_singleton].
    intros n Hin Hx%list_elem_of_singleton. subst n. simpl in Hin.
    apply list_elem_of_fmap in Hin as (c & Hid & Hin). rewrite list.Forall_forall in Hf.
    specialize (Hf c Hin). simpl in Hf. lia.
  - rewrite length_app. apply list.Forall_app. split; [|apply list.Forall_singleton; simpl; lia].
    eapply list.Forall_impl; [exact Hf|]. simpl. lia.
Qed.

Lemma drop_run_inv a s : runs_inv s -> runs_inv (drop_run a s).
Proof. intros Hinv. destruct (rv_tasks _ Hinv) as [tasks Hco]. by eapply (quiet_inv _ _ tasks Hinv). Qed.

Lemma spawn_inv (Hlaws : TasksJsonLaws) env project_id a s r s' :
  runs_inv s -> a.(ActiveLocalCodexRun.completion) = None -> wired a ->
  spawn_active env project_id a s = (r, s') -> runs_inv s'.
Proof.
  intros Hinv Hnone Hwired Hrun. unfold spawn_active in Hrun. cbv zeta in Hrun.
  apply bind_cases in Hrun as [(e & Hg & _)|(s0 & s1 & Hg & Hrun)]; apply get_inv in Hg as [[= ->] ->].
  apply bind_cases in Hrun as [(e & Hm & _)|(u & s1 & Hm & Hrun)]; apply modify_inv in Hm as [Hm ->]; [done|].
  pose proof (more_flags _ Hinv) as Hmore. destruct (negb _).
  { unfold modify, throw, mbind, M_bind in Hrun. simplify_eq. by apply drop_run_inv. }
  case_bool_decide as Hthere.
  { unfold modify, throw, mbind, M_bind in Hrun. simplify_eq. by apply drop_run_inv. }
  apply eq_None_not_Some in Hthere.
  apply bind_cases in Hrun as [(e & Hm' & _)|(u' & s1 & Hm' & Hrun)]; apply modify_inv in Hm' as [Hm' ->]; [done|].
  set (s1 := TaskRunState.set_active _ _) in Hrun. destruct env.(LocalStartEnv.spawn).
  - apply modify_inv in Hrun as [_ ->]. exact (spawned_inv s a project_id Hinv Hnone Hwired Hthere).
  - apply bind_cases in Hrun as [(e & Hm1 & _)|(u1 & s2 & Hm1 & Hrun)]; apply modify_inv in Hm1 as [Hm1 ->]; [done|].
    apply modify_inv in Hrun as [_ ->]. destruct (rv_tasks _ Hinv) as [tasks Hco].
    match goal with |- runs_inv (remove_active _ (finish_unknown ?e a ?c s1)) =>
      destruct (finish_unknown_over Hlaws e a c s1 tasks) as ((tasks' & Hco' & _) & Hact & Hfl & _); [done|by split|];
      pose proof (finish_unknown_workers e a c s1) as Hws end.
    eapply (quiet_inv _ _ tasks' Hmore); [|exact Hco']. split_and!; simpl; [|done|done].
    rewrite Hact. simpl. by rewrite delete_insert_id.
Qed.

Lemma desk_inv s s' tasks :
  runs_inv s -> coherent s'.(Desk.service) tasks -> runs_inv (TaskRunState.set_desk s' s).
Proof. intros Hinv Hco. by eapply (quiet_inv _ _ tasks Hinv). Qed.

Lemma start_local_inv (Hlaws : TasksJsonLaws) env request s r s' :
  runs_inv s -> start_local env request s = (r, s') -> runs_inv s'.
Proof.
  intros Hinv Hrun. unfold start_local in Hrun. cbv zeta in Hrun.
  apply bind_cases in Hrun as [(e & Hv & _)|(u & s0 & Hv & Hrun)];
    apply reject_inv in Hv as [_ ->]; [done|].
  apply bind_cases in Hrun as [(e & Hc & _)|(t1 & s1 & Hc & Hrun)];
    (eapply (with_tasks_inv Hlaws _ (Call.CreateTask _) Answer.Task) in Hc as Hinv1; [|done..]); [done|clear Hc Hinv].
  apply bind_cases in Hrun as [(e & Hc & _)|(t2 & s2 & Hc & Hrun)];
    (eapply (with_tasks_inv Hlaws _ (Call.AcceptTask _ _) Answer.Task) in Hc as Hinv2; [|done..]); [done|clear Hc Hinv1].
  apply bind_cases in Hrun as [(e & Hc & _)|(run & s3 & Hc & Hrun)];
    (eapply (with_tasks_inv Hlaws _ (Call.RegisterRun _) Answer.Run) in Hc as Hinv3; [|done..]); [done|clear Hc Hinv2].
  apply bind_cases in Hrun as [(e & Hg & _)|(s4 & s5 & Hg & Hrun)]; apply get_inv in Hg as [[= ->] ->].
  assert (forall (r : result LocalTaskError.t unit) s4, (if bool_decide (run.(RunRecord.status) = RunStatus.Queued) then
    _ ← reject_if (negb env.(LocalStartEnv.lock)) LocalTaskError.State;
    reject_if (MAX_ACTIVE_RUNS <=? size s3.(TaskRunState.active)) LocalTaskError.Busy
    else mret tt) s3 = (r, s4) -> s4 = s3) as Hroom.
  { intros r4 s4. case_bool_decide; [|by intros [_ ->]%ret_inv].
    intros [(e & Hv' & _)|(u' & s0' & Hv' & Hr)]%bind_cases; apply reject_inv in Hv' as [_ ->]; [done|].
    by apply reject_inv in Hr as [_ ->]. }
  apply bind_cases in Hrun as [(e & Hc & _)|(u1 & s4 & Hc & Hrun)]; apply Hroom in Hc as ->; [done|clear Hroom].
  destruct (rv_tasks _ Hinv3) as [tasks Hco].
  apply bind_cases in Hrun as [(e & Hs & _)|(started & s4 & Hs & Hrun)]; unfold zoom in Hs;
    destruct (start _ _ _ _ _) as [rs d] eqn:Hstart; simpl in Hs; simplify_eq;
    destruct (start_coherent Hlaws _ _ _ _ _ _ _ _ Hco Hstart) as (tasks' & Hco');
    pose proof (desk_inv _ _ _ Hinv3 Hco') as Hinv4; [done|].
  destruct rs as [started'|]; simpl in *; simplify_eq.
  assert (forall (r : result LocalTaskError.t unit) s5, match started with
    | LocalCodexRunStart.Active active => spawn_active env request.(StartLocalTaskRequest.project_id) active
    | LocalCodexRunStart.Existing existing => reject_if (negb (str_eqb existing.(RunRecord.id)
        (derived_id "run" request.(StartLocalTaskRequest.idempotency_key)))) LocalTaskError.State
    | LocalCodexRunStart.Finished completion => modify (publish_completion env.(LocalStartEnv.publish)
        request.(StartLocalTaskRequest.project_id)
        (derived_id "task" request.(StartLocalTaskRequest.idempotency_key)) completion)
    end (TaskRunState.set_desk d s3) = (r, s5) -> runs_inv s5) as Hspawn.
  { intros r5 s5. destruct started as [a|existing|c].
    - apply start_active in Hstart as (Hnone & _ & _ & Hwired). by apply spawn_inv.
    - by intros [_ ->]%reject_inv.
    - intros [_ ->]%modify_inv. by apply publish_inv. }
  apply bind_cases in Hrun as [(e & Hc & _)|(u2 & s5 & Hc & Hrun)]; apply Hspawn in Hc as Hinv5; [done|].
  apply bind_cases in Hrun as [(e & Hg & _)|(t6 & s6 & Hg & Hrun)];
    (eapply (with_tasks_inv Hlaws _ (Call.GetProjectTask _ _) Answer.Task) in Hg as Hinv6; [|done..]); [done|].
  by apply ret_inv in Hrun as [_ ->].
Qed.

(** *** Stopping *)

(** What a stop that succeeds does: one flag is set. *)
Lemma stop_local_ok (Hlaws : TasksJsonLaws) env lock project_id task_id run_id s task s' :
  runs_inv s -> stop_local env lock project_id task_id run_id s = (Ok task, s') ->
  exists s1 control, runs_inv s1 /\ quiet s s1 /\ s1.(TaskRunState.active) !! run_id = Some control /\
    control.(ActiveRunControl.project_id) = project_id /\ control.(ActiveRunControl.task_id) = task_id /\
    TaskRunState.router s1 = TaskRunState.router s /\
    s' = TaskRunState.set_flags (<[ control.(ActiveRunControl.stop) := true ]> s1.(TaskRunState.flags)) s1.
Proof.
  intros Hinv Hrun. unfold stop_local in Hrun.
  apply bind_ok_iff in Hrun as (t & s1 & Hget & Hrun).
  assert (TaskRunState.router s1 = TaskRunState.router s) as Hrouter
    by (apply zoom_ok in Hget as (? & _ & ->); done).
  eapply (on_service_inv Hlaws _ (Call.GetProjectTask _ _) Answer.Task) in Hget as [Hinv1 Hq]; [|done..].
  apply bind_ok_iff in Hrun as (u & s2 & Hv & Hrun). apply reject_inv in Hv as [_ ->].
  apply bind_ok_iff in Hrun as (u1 & s2 & Hv & Hrun). apply reject_inv in Hv as [_ ->].
  apply bind_ok_iff in Hrun as (s2 & s3 & Hg & Hrun). apply get_inv in Hg as [[= ->] ->].
  apply bind_ok_iff in Hrun as (control & s2 & Hl & Hrun). apply lift_inv in Hl as [Hl ->].
  destruct (s1.(TaskRunState.active) !! run_id) as [c|] eqn:Hc; simpl in Hl; simplify_eq.
  apply bind_ok_iff in Hrun as (u2 & s2 & Hv & Hrun). apply reject_if_ok in Hv as [Hids ->].
  apply bind_ok_iff in Hrun as (u3 & s2 & Hm & Hrun). apply modify_inv in Hm as [_ ->].
  apply ret_inv in Hrun as [_ ->]. bool_hyps. subst. by exists s1, c.
Qed.

Lemma flag_inv i s :
  runs_inv s -> runs_inv (TaskRunState.set_flags (<[ i := true ]> s.(TaskRunState.flags)) s).
Proof.
  intros [Hco Hw Ha Ho Hs Hf]. split; try done. simpl. by rewrite length_insert.
Qed.

Lemma stop_local_inv (Hlaws : TasksJsonLaws) env lock project_id task_id run_id s :
  runs_inv s -> runs_inv (stop_local env lock project_id task_id run_id s).2.
Proof.
  intros Hinv. destruct (stop_local _ _ _ _ _ _) as [r s'] eqn:Hrun. simpl. destruct r as [task|e].
  { destruct (stop_local_ok Hlaws _ _ _ _ _ _ _ _ Hinv Hrun) as (s1 & c & Hinv1 & _ & _ & _ & _ & _ & ->).
    by apply flag_inv. }
  unfold stop_local in Hrun.
  apply bind_cases in Hrun as [(e' & Hget & _)|(t & s1 & Hget & Hrun)];
    (eapply (on_service_inv Hlaws _ (Call.GetProjectTask _ _) Answer.Task) in Hget as [Hinv1 _]; [|done..]); [done|].
  apply bind_err_iff in Hrun as [Hv|(u & s2 & Hv & Hrun)]; apply reject_inv in Hv as [_ ->]; [done|].
  apply bind_err_iff in Hrun as [Hv|(u1 & s2 & Hv & Hrun)]; apply reject_inv in Hv as [_ ->]; [done|].
  apply bind_err_iff in Hrun as [Hg|(s2 & s3 & Hg & Hrun)]; apply get_inv in Hg as [[= ->] ->].
  apply bind_err_iff in Hrun as [Hl|(control & s2 & Hl & Hrun)]; apply lift_inv in Hl as [_ ->]; [done|].
  apply bind_err_iff in Hrun as [Hv|(u2 & s2 & Hv & Hrun)]; apply reject_inv in Hv as [_ ->]; [done|].
  apply bind_err_iff in Hrun as [Hm|(u3 & s2 & Hm & Hrun)]; apply modify_inv in Hm as [? _]; [done|].
  by apply ret_inv in Hrun as [? _].
Qed.

(** *** Everything that can happen *)

Lemma act_inv (Hlaws : TasksJsonLaws) a s : runs_inv s -> runs_inv (act a s).
Proof.
  intros Hinv. destruct a as [env request|env lock p t r|env p|i env|env call|op].
  - simpl. destruct (start_local _ _ _) as [r s'] eqn:Hrun. by eapply start_local_inv.
  - by apply stop_local_inv.
  - simpl. destruct (list_local _ _ _) as [r s'] eqn:Hrun. unfold list_local in Hrun.
    by eapply (with_tasks_inv Hlaws env (Call.ListTasks p) Answer.Tasks).
  - by apply iterate_inv.
  - simpl. destruct (rv_tasks _ Hinv) as [tasks Hco]. destruct (serve _ _ _) as [r t] eqn:Hserve.
    destruct (serve_refines Hlaws _ _ _ _ _ _ Hco Hserve) as (tasks' & Hco' & _).
    by eapply (quiet_inv _ _ tasks' Hinv).
  - destruct (rv_tasks _ Hinv) as [tasks Hco]. by eapply (quiet_inv _ _ tasks Hinv).
Qed.

Lemma reachable_inv (Hlaws : TasksJsonLaws) s : reachable s -> runs_inv s.
Proof.
  induction 1 as [rt root router disk env file tasks s Hco Hopen|a s _ IH]; [|by apply act_inv].
  unfold open_state in Hopen. apply bind_ok_iff in Hopen as (records & s1 & Hrun & Hret).
  apply ret_inv in Hret as [_ ->].
  eapply (with_tasks_inv Hlaws env Call.ReconcileIncompleteRuns Answer.Tasks); [done| |exact Hrun].
  split; simpl.
  - by exists tasks.
  - constructor.
  - intros id c. rewrite lookup_empty. split; [done|]. by intros [Hin%not_elem_of_nil _].
  - constructor.
  - constructor.
  - constructor.
Qed.

(** *** What is sent *)

Definition sent_of (s : TaskRunState.t) : list (string * Value.t) :=
  s.(TaskRunState.desk).(Desk.link).(Link.sent).

Lemma poll_sends_nothing env p :
  (poll env p).2.(Polled.desk).(Desk.link).(Link.sent) = p.(Polled.desk).(Desk.link).(Link.sent).
Proof.
  unfold poll, unless_completed, interleave, next_event, modify, get, mbind, M_bind.
  destruct (ActiveLocalCodexRun.completion _); [done|].
  destruct (ActiveLocalCodexRun.pending_outcome _) as [o|].
  { destruct (settle _ _ p) as [r p'] eqn:Hs. simpl.
    unfold settle, get, modify, on_desk, zoom, mbind, M_bind, mret, M_ret in Hs.
    destruct (finish_run _ _ _ _ _) as [[c|e] d] eqn:Hd; apply finish_run_link in Hd; simplify_eq/=; by rewrite Hd. }
  destruct (try_recv _ _) as [[event|] router].
  - destruct (on_event _ _ _) as [r p'] eqn:He. apply on_event_link in He. simpl. by rewrite He.
  - simpl. destruct (is_active _ _); simpl.
    + unfold current_run, on_desk, on_tasks, zoom, get, lift, mbind, M_bind, mret, M_ret.
      repeat (case_match; simplify_eq/=); done.
    + destruct (finish _ _ _) as [r p'] eqn:He. apply finish_same_link in He. simpl. by rewrite He.
Qed.

Lemma publish_sent env project_id task_id patch s : sent_of (publish env project_id task_id patch s) = sent_of s.
Proof. unfold publish, with_tasks, zoom. destruct (get_project_task _ _ _ _) as [[] ?]; done. Qed.

Lemma finish_unknown_sent env active control s : sent_of (finish_unknown env active control s) = sent_of s.
Proof.
  unfold finish_unknown, on_run, publish_completion, with_tasks, zoom.
  destruct (mark_disconnected _ _) as [r p] eqn:Hm. apply finish_same_link in Hm. simpl in Hm.
  destruct r as [[run|c]|e]; [destruct (abandon_run _ _ _ _ _) as [r t]| |destruct (abandon_run _ _ _ _ _) as [r t]];
    unfold drop_run, sent_of in *; simpl;
    match goal with |- Link.sent (Desk.link (TaskRunState.desk (publish ?e ?p ?t ?x ?s1))) = _ =>
      change (Link.sent (Desk.link (TaskRunState.desk (publish e p t x s1)))) with (sent_of (publish e p t x s1)) end;
    rewrite publish_sent; unfold sent_of; simpl; by rewrite Hm.
Qed.

Lemma worker_poll_sent env w s : sent_of (worker_poll env w s).2 = sent_of s.
Proof.
  unfold worker_poll, on_run, leave, publish_completion.
  pose proof (poll_sends_nothing env.(WorkerEnv.poll) (Polled.mk s.(TaskRunState.desk) w.(Worker.active))) as Hpoll.
  destruct (poll _ _) as [r p]. simpl in Hpoll.
  assert (sent_of (TaskRunState.set_desk p.(Polled.desk) s) = sent_of s) as Hs by done.
  destruct r as [[run|c]|e]; simpl.
  - case_bool_decide; simpl; by rewrite ?publish_sent.
  - unfold drop_run, remove_active. unfold sent_of at 1. simpl.
    etrans; [|exact Hs]. etrans; [|eapply (publish_sent env.(WorkerEnv.publish))]. done.
  - etrans; [|exact Hs]. etrans; [|eapply (finish_unknown_sent env.(WorkerEnv.unknown))]. done.
Qed.

(** An iteration of a worker whose run is to stop sends the interruption of its turn. *)
Lemma worker_interrupts env w s :
  wired w.(Worker.active) -> stop_requested w.(Worker.control) s = true -> w.(Worker.interrupt_sent) = false ->
  is_active (stream_of w.(Worker.active)) (TaskRunState.router s) = true ->
  sent_of (worker_step env w s).2 = sent_of s ++
    [("turn/interrupt", turn_interrupt_params w.(Worker.active).(ActiveLocalCodexRun.active))].
Proof.
  intros [Hrt Hconn] Hstop Hsent Hactive. unfold worker_step. rewrite Hstop, Hsent. simpl.
  unfold on_run, leave, interrupt, on_desk, zoom, interrupt_run, ask, zoom, send_request, reject_if, get, mbind, M_bind.
  simpl. unfold stream_of in Hactive. fold (TaskRunState.router s). rewrite Hrt, Hconn, !N.eqb_refl, Hactive. simpl.
  destruct (ConnectionControl.request _ _ _) as [others r]. destruct r as [v|e]; simpl.
  - destruct (Value.as_object v) as [[|]|]; simpl.
    + by rewrite worker_poll_sent.
    + etrans; [exact (finish_unknown_sent _ _ _ _)|done].
    + etrans; [exact (finish_unknown_sent _ _ _ _)|done].
  - etrans; [exact (finish_unknown_sent _ _ _ _)|done].
Qed.

(** C14: Each active run has one worker, and the other way round. In every state that commands,
    iterations of workers, service calls and events can reach, in any order and with any
    fault, the active runs are exactly the runs of the workers, no run has two of them, and
    no two workers share a stop flag. *)
Theorem one_worker_per_run (Hlaws : TasksJsonLaws) s :
  reachable s ->
  (forall id c, s.(TaskRunState.active) !! id = Some c <->
     c ∈ controls s /\ c.(ActiveRunControl.run_id) = id) /\
  NoDup (ActiveRunControl.run_id <$> controls s) /\ NoDup (ActiveRunControl.stop <$> controls s) /\
  (forall w, w ∈ s.(TaskRunState.workers) ->
     w.(Worker.active).(ActiveLocalCodexRun.metadata).(RunMetadata.run_id)
       = w.(Worker.control).(ActiveRunControl.run_id) /\
     is_Some (s.(TaskRunState.flags) !! w.(Worker.control).(ActiveRunControl.stop))).
Proof.
  intros [_ Hw Ha Ho Hs Hf]%(reachable_inv Hlaws). split_and!; try done. intros w Hin.
  rewrite list.Forall_forall in Hw. rewrite list.Forall_forall in Hf. destruct (Hw _ Hin) as [(_ & _ & Hid) _]. split; [done|].
  apply lookup_lt_is_Some, Hf. by apply list_elem_of_fmap_2.
Qed.

(** Setting one flag leaves the others. *)
Lemma stop_flag c c' s :
  c.(ActiveRunControl.stop) < length s.(TaskRunState.flags) ->
  stop_requested c' (TaskRunState.set_flags (<[ c.(ActiveRunControl.stop) := true ]> s.(TaskRunState.flags)) s)
    = (if decide (c'.(ActiveRunControl.stop) = c.(ActiveRunControl.stop)) then true else stop_requested c' s).
Proof.
  intros Hlt. unfold stop_requested. simpl. case_decide as Heq.
  - by rewrite Heq, list_lookup_insert_eq.
  - by rewrite list_lookup_insert_ne.
Qed.

(** A stop reaches the run it names and no other. When a stop succeeds, a worker polls that
    very run of that task and project and now finds its flag set, and the flags of all other
    workers are as before. If the run has not been interrupted and its stream is open, the
    next iteration of the worker sends exactly one request, the interruption of its turn. *)
Theorem stop_interrupts_run (Hlaws : TasksJsonLaws) env lock project_id task_id run_id s task s' :
  reachable s -> stop_local env lock project_id task_id run_id s = (Ok task, s') ->
  s'.(TaskRunState.workers) = s.(TaskRunState.workers) /\
  exists w, w ∈ s'.(TaskRunState.workers) /\
    w.(Worker.control).(ActiveRunControl.project_id) = project_id /\
    w.(Worker.active).(ActiveLocalCodexRun.metadata).(RunMetadata.task_id) = task_id /\
    w.(Worker.active).(ActiveLocalCodexRun.metadata).(RunMetadata.run_id) = run_id /\
    stop_requested w.(Worker.control) s' = true /\
    (forall w', w' ∈ s'.(TaskRunState.workers) -> w'.(Worker.control) <> w.(Worker.control) ->
       stop_requested w'.(Worker.control) s' = stop_requested w'.(Worker.control) s) /\
    (w.(Worker.interrupt_sent) = false ->
     is_active (stream_of w.(Worker.active)) (TaskRunState.router s') = true ->
     forall env', sent_of (worker_step env' w s').2 = sent_of s' ++
       [("turn/interrupt", turn_interrupt_params w.(Worker.active).(ActiveLocalCodexRun.active))]).
Proof.
  intros Hinv%(reachable_inv Hlaws) Hrun.
  destruct (stop_local_ok Hlaws _ _ _ _ _ _ _ _ Hinv Hrun)
    as (s1 & c & [Hco Hw Ha Ho Hs Hf] & (_ & Hfl & Hws) & Hc & Hp & Ht & _ & ->).
  apply Ha in Hc as [Hin Hid]. pose proof (proj1 (list.Forall_forall _ _) Hf _ Hin) as Hlt.
  split; [done|]. pose proof Hin as Hin'. apply list_elem_of_fmap in Hin' as (w & -> & Hwin).
  rewrite list.Forall_forall in Hw. destruct (Hw _ Hwin) as [(_ & Htid & Hrid) Hwired].
  assert (stop_requested w.(Worker.control) (TaskRunState.set_flags
    (<[ w.(Worker.control).(ActiveRunControl.stop) := true ]> s1.(TaskRunState.flags)) s1) = true) as Hset
    by (rewrite stop_flag by done; by rewrite decide_True).
  exists w. split_and!; [done|done|congruence|congruence|done| |].
  - intros w' Hw' Hne. rewrite stop_flag by done. case_decide as Heq; [|unfold stop_requested; by rewrite Hfl].
    destruct Hne. eapply NoDup_fmap_unique; [exact Hs|by apply list_elem_of_fmap_2|done|done].
  - intros Hint Hact env'. by apply worker_interrupts.
Qed.
End System.
