(* ===== verification/Account.v ===== *)
(** * The account service (account/)

    The account that the Codex process is signed in with: its status, the login that a browser
    completes, and the refreshes that notifications ask for. Commands, connection changes,
    notifications and refreshes run on threads of their own; every change of the state is a
    block under one mutex. An operation is a program whose steps are those blocks, the
    locks around them, and the calls that leave the service. *)

From S2P Require Import Prelude AppJson AppConnection.

Definition MAX_EARLY_COMPLETION_IDS : nat := 8.
Definition MAX_EARLY_COMPLETION_BYTES : N := 4 * 1024.
Definition ACCOUNT_UNAVAILABLE_MESSAGE : string := "账号状态暂时不可用。".
Definition BROWSER_OPEN_MESSAGE : string := "无法打开 ChatGPT 登录页面，请重试。".
Definition LOGIN_UNAVAILABLE_MESSAGE : string := "ChatGPT 登录暂时不可用，请重试。".
Definition UNSUPPORTED_ACCOUNT_MESSAGE : string := "当前核心服务配置不支持 ChatGPT 账号登录。".
Definition LOGOUT_UNAVAILABLE_MESSAGE : string := "无法退出 ChatGPT，请重试。".

(** ** Data *)

Module CodexRuntimeAuthStatus.
Inductive t :=
| Checking
| SignedOut
| BrowserPending
| SignedIn (email : option string) (plan_type : string)
| Error (message : string) (retryable : bool).
#[global] Instance eq_dec : EqDecision t.
Proof. solve_decision. Defined.
End CodexRuntimeAuthStatus.

Definition retryable_account_error : CodexRuntimeAuthStatus.t :=
  CodexRuntimeAuthStatus.Error ACCOUNT_UNAVAILABLE_MESSAGE true.
Definition login_unavailable_error : CodexRuntimeAuthStatus.t :=
  CodexRuntimeAuthStatus.Error LOGIN_UNAVAILABLE_MESSAGE true.
Definition browser_open_error : CodexRuntimeAuthStatus.t :=
  CodexRuntimeAuthStatus.Error BROWSER_OPEN_MESSAGE true.
Definition unsupported_account_error : CodexRuntimeAuthStatus.t :=
  CodexRuntimeAuthStatus.Error UNSUPPORTED_ACCOUNT_MESSAGE false.
Definition logout_unavailable_error : CodexRuntimeAuthStatus.t :=
  CodexRuntimeAuthStatus.Error LOGOUT_UNAVAILABLE_MESSAGE true.

Module LoginStartResponse.
Inductive t :=
| Chatgpt (login_id auth_url : string)
| ChatgptDeviceCode (login_id verification_url user_code : string)
| Unsupported.
End LoginStartResponse.

Module AccountPayload.
Inductive t := Chatgpt (email : Value.t) (plan_type : string) | Unsupported.
End AccountPayload.

Module CancelLoginStatus.
Inductive t := Canceled | NotFound.
End CancelLoginStatus.

Module AccountCommand.
Inductive t := GetStatus | StartChatgptLogin | CancelLogin | Logout.
End AccountCommand.

(** [serde_json::from_value] on the four types that the service reads *)
Class AccountJson := {
  login_from_value : Value.t -> option LoginStartResponse.t;
  read_from_value : Value.t -> option (Value.t * bool);
  account_from_value : Value.t -> option AccountPayload.t;
  cancel_from_value : Value.t -> option CancelLoginStatus.t;
}.

(** [tauri::Url] *)
Module Url.
Record t := mk {
  scheme : string;
  username : string;
  password : option string;
  host_str : option string;
  port_or_known_default : option N;
  as_str : string;
}.
End Url.
Class UrlParser := url_parse : string -> option Url.t.

(** ** Early completions *)

Module LoginStartState.
Record t := mk { connection_revision : N; completion_bytes : N; completion_ids : list string }.
End LoginStartState.

Module BackgroundRefreshState.
Inductive t := Idle | Scheduled | Running (requested : bool).
#[global] Instance eq_dec : EqDecision t.
Proof. solve_decision. Defined.
End BackgroundRefreshState.

Module LoginCompletionState.
Record t := mk { login_start : option LoginStartState.t; refresh : BackgroundRefreshState.t }.
Definition default : t := mk None BackgroundRefreshState.Idle.
Definition set_login_start (v : option LoginStartState.t) (s : t) : t := mk v s.(refresh).
Definition set_refresh (v : BackgroundRefreshState.t) (s : t) : t := mk s.(login_start) v.
(** [reset] *)
Definition reset (s : t) : t := mk None BackgroundRefreshState.Idle.
Definition begin_login_start (connection_revision : N) : t -> t :=
  set_login_start (Some (LoginStartState.mk connection_revision 0 [])).
End LoginCompletionState.

(** [while ids.len() >= .. || bytes > .. { pop_front }]; the sizes subtract without underflow, as
    [completion_bytes] is their sum. *)
Fixpoint evict (incoming bytes : N) (ids : list string) : N * list string :=
  if (MAX_EARLY_COMPLETION_IDS <=? length ids)
     || (MAX_EARLY_COMPLETION_BYTES - incoming <? bytes)%N
  then match ids with
       | [] => (bytes, [])
       | evicted :: ids => evict incoming (bytes - len evicted) ids
       end
  else (bytes, ids).

Definition remember_early_completion (connection_revision : N) (login_id : string)
    (s : LoginCompletionState.t) : LoginCompletionState.t :=
  match s.(LoginCompletionState.login_start) with
  | None => s
  | Some start =>
    if negb (start.(LoginStartState.connection_revision) =? connection_revision)%N
       || str_eqb login_id EmptyString
       || (MAX_EARLY_COMPLETION_BYTES <? len login_id)%N
    then s else
    let bytes := start.(LoginStartState.completion_bytes) in
    let ids := start.(LoginStartState.completion_ids) in
    let (bytes, ids) := match list_find (fun completed_id => completed_id = login_id) ids with
                        | Some (index, existing) => ((bytes - len existing)%N, delete index ids)
                        | None => (bytes, ids)
                        end in
    let (bytes, ids) := evict (len login_id) bytes ids in
    LoginCompletionState.set_login_start
      (Some (LoginStartState.mk start.(LoginStartState.connection_revision)
               (bytes + len login_id) (ids ++ [login_id]))) s
  end.

(** [LoginCompletionState::discard_login_start] *)
Definition discard_start (connection_revision : N) (s : LoginCompletionState.t)
    : LoginCompletionState.t :=
  if is_some_and (fun start => (start.(LoginStartState.connection_revision) =? connection_revision)%N)
       s.(LoginCompletionState.login_start)
  then LoginCompletionState.set_login_start None s else s.

Definition take_matching_early_completion (connection_revision : N) (login_id : string)
    (s : LoginCompletionState.t) : bool * LoginCompletionState.t :=
  match s.(LoginCompletionState.login_start) with
  | Some start =>
    if (start.(LoginStartState.connection_revision) =? connection_revision)%N
    then (existsb (fun completed_id => str_eqb completed_id login_id)
            start.(LoginStartState.completion_ids), LoginCompletionState.set_login_start None s)
    else (false, s)
  | None => (false, s)
  end.

(** ** The state under the mutex *)

(** A connection is its identity; [login_attempt] is the id of the attempt. *)
Module AccountServiceState.
Record t := mk {
  connection : option N;
  connection_identity : option N;
  connection_revision : N;
  login_completion : LoginCompletionState.t;
  login_attempt : option string;
  refresh_revision : N;
  status : CodexRuntimeAuthStatus.t;
}.
(** The state of a new service *)
Definition new : t :=
  mk None None 0 LoginCompletionState.default None 0 CodexRuntimeAuthStatus.Checking.
Definition set_login_completion (v : LoginCompletionState.t) (s : t) : t :=
  mk s.(connection) s.(connection_identity) s.(connection_revision) v s.(login_attempt)
    s.(refresh_revision) s.(status).
Definition set_refresh (v : BackgroundRefreshState.t) (s : t) : t :=
  set_login_completion (LoginCompletionState.set_refresh v s.(login_completion)) s.
Definition set_status (v : CodexRuntimeAuthStatus.t) (s : t) : t :=
  mk s.(connection) s.(connection_identity) s.(connection_revision) s.(login_completion)
    s.(login_attempt) s.(refresh_revision) v.
(** [refresh_revision.wrapping_add(1)] *)
Definition next_refresh (s : t) : t :=
  mk s.(connection) s.(connection_identity) s.(connection_revision) s.(login_completion)
    s.(login_attempt) ((s.(refresh_revision) + 1) mod (u64_max + 1)) s.(status).
(** An attempt and a status, with a new refresh revision *)
Definition settle (attempt : option string) (v : CodexRuntimeAuthStatus.t) (s : t) : t :=
  mk s.(connection) s.(connection_identity) s.(connection_revision) s.(login_completion)
    attempt ((s.(refresh_revision) + 1) mod (u64_max + 1)) v.
(** [connection_revision == r && connection.is_some()] *)
Definition current (r : N) (s : t) : bool := (s.(connection_revision) =? r)%N && is_some s.(connection).
End AccountServiceState.

(** ** Programs *)

Inductive Lock := LoginOperation | BrowserOpenOperation | PublishedStatus.
#[global] Instance Lock_eq_dec : EqDecision Lock.
Proof. solve_decision. Defined.

(** [Block f k]: under the mutex of the state, which was [s], it becomes [f s], and the program goes
    on with [k s]. The other constructors are the locks, the request to a connection, the
    browser, the spawner, and the status that was published last. *)
Inductive prog (A : Type) : Type :=
| Ret (a : A)
| Block (f : AccountServiceState.t -> AccountServiceState.t) (k : AccountServiceState.t -> prog A)
| Acquire (l : Lock) (k : prog A)
| Release (l : Lock) (k : prog A)
| Request (connection : N) (method : string) (params : option Value.t) (k : PendingResult -> prog A)
| OpenUrl (url : Url.t) (k : bool -> prog A)
| SpawnRefresh (connection_revision : N) (k : bool -> prog A)
| Published (k : option CodexRuntimeAuthStatus.t -> prog A)
| OnStatus (status : CodexRuntimeAuthStatus.t) (k : prog A).
Arguments Ret {A} a.
Arguments Block {A} f k.
Arguments Acquire {A} l k.
Arguments Release {A} l k.
Arguments Request {A} connection method params k.
Arguments OpenUrl {A} url k.
Arguments SpawnRefresh {A} connection_revision k.
Arguments Published {A} k.
Arguments OnStatus {A} status k.

#[global] Instance prog_ret : MRet prog := fun A a => Ret a.
#[global] Instance prog_bind : MBind prog := fun A B g =>
  fix bind (p : prog A) : prog B :=
    match p with
    | Ret a => g a
    | Block f k => Block f (fun s => bind (k s))
    | Acquire l k => Acquire l (bind k)
    | Release l k => Release l (bind k)
    | Request c method params k => Request c method params (fun r => bind (k r))
    | OpenUrl url k => OpenUrl url (fun ok => bind (k ok))
    | SpawnRefresh r k => SpawnRefresh r (fun ok => bind (k ok))
    | Published k => Published (fun status => bind (k status))
    | OnStatus status k => OnStatus status (bind k)
    end.

(** A block that returns a value *)
Definition block {A} (b : AccountServiceState.t -> A * AccountServiceState.t) : prog A :=
  Block (fun s => (b s).2) (fun s => Ret (b s).1).
Definition update (f : AccountServiceState.t -> AccountServiceState.t) : prog unit := block (fun s => (tt, f s)).
Definition read {A} (f : AccountServiceState.t -> A) : prog A := block (fun s => (f s, s)).
Definition acquire (l : Lock) : prog unit := Acquire l (Ret tt).
Definition release (l : Lock) : prog unit := Release l (Ret tt).
(** A guard that lives until the end of the function *)
Definition holding {A} (l : Lock) (p : prog A) : prog A :=
  _ ← acquire l; a ← p; _ ← release l; mret a.
Definition request (connection : N) (method : string) (params : option Value.t) : prog PendingResult :=
  Request connection method params Ret.

(** ** Machines *)

(** The service, the status that was published last and all that were, who holds each lock, and
    what the threads have left to do *)
Module Machine.
Record t := mk {
  service : AccountServiceState.t;
  published : option CodexRuntimeAuthStatus.t;
  observed : list CodexRuntimeAuthStatus.t;
  holder : Lock -> option nat;
  threads : list (prog unit);
}.
Definition new : t := mk AccountServiceState.new None [] (fun _ => None) [].
Definition set_service (v : AccountServiceState.t) (m : t) : t :=
  mk v m.(published) m.(observed) m.(holder) m.(threads).
Definition set_holder (l : Lock) (v : option nat) (m : t) : t :=
  mk m.(service) m.(published) m.(observed)
    (fun l' => if decide (l' = l) then v else m.(holder) l') m.(threads).
Definition set_threads (v : list (prog unit)) (m : t) : t :=
  mk m.(service) m.(published) m.(observed) m.(holder) v.
Definition observe (status : CodexRuntimeAuthStatus.t) (m : t) : t :=
  mk m.(service) (Some status) (m.(observed) ++ [status]) m.(holder) m.(threads).
End Machine.

(** What the world answers to a step *)
Module Response.
Record t := mk { reply : PendingResult; ok : bool }.
End Response.

(** ** Operations *)

Section Service.
Context `{AccountJson, UrlParser}.

Definition parse_account_status (result : Value.t) : CodexRuntimeAuthStatus.t :=
  match read_from_value result with
  | None => retryable_account_error
  | Some (Value.Null, requires_openai_auth) =>
    if requires_openai_auth then CodexRuntimeAuthStatus.SignedOut else unsupported_account_error
  | Some (account, _) =>
    match account_from_value account with
    | None => retryable_account_error
    | Some (AccountPayload.Chatgpt email plan_type) =>
      match email with
      | Value.Null => CodexRuntimeAuthStatus.SignedIn None plan_type
      | Value.Str email => CodexRuntimeAuthStatus.SignedIn (Some email) plan_type
      | _ => retryable_account_error
      end
    | Some AccountPayload.Unsupported => unsupported_account_error
    end
  end.

Definition is_cancel_confirmation (result : Value.t) : bool :=
  match cancel_from_value result with
  | None => false
  | Some (CancelLoginStatus.Canceled | CancelLoginStatus.NotFound) => true
  end.

(** [str::ends_with] *)
Fixpoint ends_with_str (suffix s : string) : bool :=
  str_eqb s suffix || match s with EmptyString => false | String _ s => ends_with_str suffix s end.

Definition official_host (host : string) : bool :=
  existsb (fun root => str_eqb host root || ends_with_str ("." +:+ root) host)
    ["chatgpt.com"; "openai.com"].

Definition parse_official_auth_url (raw_url : string) : option Url.t :=
  url ← url_parse raw_url;
  host ← url.(Url.host_str);
  if str_eqb url.(Url.scheme) "https"
     && str_eqb url.(Url.username) EmptyString
     && is_none url.(Url.password)
     && bool_decide (url.(Url.port_or_known_default) = Some 443%N)
     && official_host host
  then Some url else None.

(** *** Publishing *)

Definition publish_status (status : CodexRuntimeAuthStatus.t) : prog unit :=
  holding PublishedStatus (
    is_current ← read (fun s => bool_decide (s.(AccountServiceState.status) = status));
    published ← Published Ret;
    if negb is_current || bool_decide (published = Some status) then mret tt
    else OnStatus status (Ret tt)).

(** *** Connections *)

(** The block of [connect] and of [disconnect] *)
Definition change_connection (connection : option N) (status : CodexRuntimeAuthStatus.t)
    (s : AccountServiceState.t) : CodexRuntimeAuthStatus.t * AccountServiceState.t :=
  (status, AccountServiceState.mk connection connection
             ((s.(AccountServiceState.connection_revision) + 1) mod (u64_max + 1))
             (LoginCompletionState.reset s.(AccountServiceState.login_completion)) None
             s.(AccountServiceState.refresh_revision) status).

Definition connect (connection : N) : prog CodexRuntimeAuthStatus.t :=
  holding BrowserOpenOperation (
    status ← block (change_connection (Some connection) CodexRuntimeAuthStatus.Checking);
    _ ← publish_status status;
    mret status).

Definition disconnect : prog CodexRuntimeAuthStatus.t :=
  holding BrowserOpenOperation (
    status ← block (change_connection None retryable_account_error);
    _ ← publish_status status;
    mret status).

Definition status : prog CodexRuntimeAuthStatus.t := read AccountServiceState.status.

(** *** Refreshing *)

Definition read_params : Value.t := Value.Object [("refreshToken", Value.Bool false)].

Definition refresh_started (s : AccountServiceState.t) : (option N * N * N) * AccountServiceState.t :=
  let s := AccountServiceState.next_refresh s in
  ((s.(AccountServiceState.connection), s.(AccountServiceState.connection_revision),
    s.(AccountServiceState.refresh_revision)), s).

Definition refresh_finished (connection_revision refresh_revision : N)
    (next_status : CodexRuntimeAuthStatus.t) (s : AccountServiceState.t)
    : CodexRuntimeAuthStatus.t * AccountServiceState.t :=
  let s := if (s.(AccountServiceState.connection_revision) =? connection_revision)%N
              && (s.(AccountServiceState.refresh_revision) =? refresh_revision)%N
              && is_none s.(AccountServiceState.login_attempt)
           then AccountServiceState.set_status next_status s else s in
  (s.(AccountServiceState.status), s).

Definition refresh : prog CodexRuntimeAuthStatus.t :=
  started ← block refresh_started;
  let '(connection, connection_revision, refresh_revision) := started in
  next_status ← match connection with
                | Some connection =>
                  result ← request connection "account/read" (Some read_params);
                  mret match result with
                       | Ok result => parse_account_status result
                       | Err _ => retryable_account_error
                       end
                | None => mret retryable_account_error
                end;
  status ← block (refresh_finished connection_revision refresh_revision next_status);
  _ ← publish_status status;
  mret status.

(** *** Background refreshes *)

Definition schedule_refresh (connection_revision : N) (s : AccountServiceState.t) : bool * AccountServiceState.t :=
  if negb (AccountServiceState.current connection_revision s) then (false, s) else
  match s.(AccountServiceState.login_completion).(LoginCompletionState.refresh) with
  | BackgroundRefreshState.Idle => (true, AccountServiceState.set_refresh BackgroundRefreshState.Scheduled s)
  | BackgroundRefreshState.Scheduled => (false, s)
  | BackgroundRefreshState.Running _ =>
    (false, AccountServiceState.set_refresh (BackgroundRefreshState.Running true) s)
  end.

Definition spawn_failed (connection_revision : N) (s : AccountServiceState.t) : AccountServiceState.t :=
  if (s.(AccountServiceState.connection_revision) =? connection_revision)%N
     && bool_decide (s.(AccountServiceState.login_completion).(LoginCompletionState.refresh)
                     = BackgroundRefreshState.Scheduled)
  then AccountServiceState.set_refresh BackgroundRefreshState.Idle s else s.

Definition spawn_background_refresh (connection_revision : N) : prog unit :=
  spawned ← SpawnRefresh connection_revision Ret;
  if (spawned : bool) then mret tt else update (spawn_failed connection_revision).

Definition schedule_background_refresh (connection_revision : N) : prog unit :=
  should_spawn ← block (schedule_refresh connection_revision);
  if (should_spawn : bool) then spawn_background_refresh connection_revision else mret tt.

Definition refresh_begins (connection_revision : N) (s : AccountServiceState.t) : bool * AccountServiceState.t :=
  if negb (AccountServiceState.current connection_revision s) then (false, s)
  else if bool_decide (s.(AccountServiceState.login_completion).(LoginCompletionState.refresh)
                       = BackgroundRefreshState.Scheduled)
  then (true, AccountServiceState.set_refresh (BackgroundRefreshState.Running false) s)
  else (false, s).

Definition refresh_ends (connection_revision : N) (s : AccountServiceState.t) : bool * AccountServiceState.t :=
  if negb (AccountServiceState.current connection_revision s) then (false, s)
  else match s.(AccountServiceState.login_completion).(LoginCompletionState.refresh) with
       | BackgroundRefreshState.Running true =>
         (true, AccountServiceState.set_refresh BackgroundRefreshState.Scheduled s)
       | BackgroundRefreshState.Running false | BackgroundRefreshState.Scheduled
       | BackgroundRefreshState.Idle => (false, AccountServiceState.set_refresh BackgroundRefreshState.Idle s)
       end.

Definition run_background_refresh (connection_revision : N) : prog unit :=
  should_refresh ← block (refresh_begins connection_revision);
  if negb should_refresh then mret tt else
  _ ← refresh;
  should_repeat ← block (refresh_ends connection_revision);
  if (should_repeat : bool) then spawn_background_refresh connection_revision else mret tt.

(** *** Attempts *)

Definition attempt_is (login_id : string) (s : AccountServiceState.t) : bool :=
  is_some_and (fun id => str_eqb id login_id) s.(AccountServiceState.login_attempt).

Definition attempt_over (login_id : string) (s : AccountServiceState.t) : AccountServiceState.t :=
  if attempt_is login_id s
  then AccountServiceState.settle None CodexRuntimeAuthStatus.Checking s else s.
Definition clear_attempt (login_id : string) : prog unit := update (attempt_over login_id).

Definition cancel_params (login_id : string) : Value.t :=
  Value.Object [("loginId", Value.Str login_id)].

Definition cancel_login (connection : N) (login_id : string) : prog bool :=
  response ← request connection "account/login/cancel" (Some (cancel_params login_id));
  mret match response with Ok response => is_cancel_confirmation response | Err _ => false end.

Definition status_if_current (connection_revision : N) (status : CodexRuntimeAuthStatus.t)
    (s : AccountServiceState.t) : CodexRuntimeAuthStatus.t * AccountServiceState.t :=
  let s := if AccountServiceState.current connection_revision s
           then AccountServiceState.settle s.(AccountServiceState.login_attempt) status s else s in
  (s.(AccountServiceState.status), s).
Definition set_status_for_connection (connection_revision : N) (status : CodexRuntimeAuthStatus.t)
    : prog CodexRuntimeAuthStatus.t := block (status_if_current connection_revision status).

Definition attempt_installed (connection_revision : N) (login_id : string)
    (status : CodexRuntimeAuthStatus.t) (s : AccountServiceState.t) : AccountServiceState.t :=
  if AccountServiceState.current connection_revision s
  then AccountServiceState.settle (Some login_id) status s else s.
Definition install_attempt (connection_revision : N) (login_id : string)
    (status : CodexRuntimeAuthStatus.t) : prog unit :=
  update (attempt_installed connection_revision login_id status).

Definition cancel_started_attempt (connection connection_revision : N) (login_id : string)
    (next : CodexRuntimeAuthStatus.t) : prog CodexRuntimeAuthStatus.t :=
  cancelled ← cancel_login connection login_id;
  if (cancelled : bool) then
    _ ← clear_attempt login_id;
    set_status_for_connection connection_revision next
  else
    _ ← install_attempt connection_revision login_id next;
    status.

(** What [cancel_active_attempt] finds: nothing to cancel, no connection to do it with, or both *)
Definition active_attempt (s : AccountServiceState.t)
    : option (CodexRuntimeAuthStatus.t + (N * N * string)) :=
  match s.(AccountServiceState.login_attempt) with
  | None => None
  | Some login_id =>
    match s.(AccountServiceState.connection) with
    | None => Some (inl s.(AccountServiceState.status))
    | Some connection => Some (inr (connection, s.(AccountServiceState.connection_revision), login_id))
    end
  end.

Definition cancel_failed (connection_revision : N) (login_id : string) (s : AccountServiceState.t)
    : CodexRuntimeAuthStatus.t * AccountServiceState.t :=
  let s := if AccountServiceState.current connection_revision s && attempt_is login_id s
           then AccountServiceState.settle s.(AccountServiceState.login_attempt) login_unavailable_error s else s in
  (s.(AccountServiceState.status), s).

(** The error is the status to return. *)
Definition cancel_active_attempt : prog (result CodexRuntimeAuthStatus.t unit) :=
  found ← read active_attempt;
  match found with
  | None => mret (Ok tt)
  | Some (inl status) => mret (Err status)
  | Some (inr (connection, connection_revision, login_id)) =>
    cancelled ← cancel_login connection login_id;
    if (cancelled : bool) then
      _ ← clear_attempt login_id;
      mret (Ok tt)
    else
      status ← block (cancel_failed connection_revision login_id);
      mret (Err status)
  end.

(** *** Logging in *)

Inductive StartedAttemptDisposition := Installed | Completed | Stale.

Definition discard_login_start (connection_revision : N) : prog unit :=
  update (fun s => AccountServiceState.set_login_completion
            (discard_start connection_revision s.(AccountServiceState.login_completion)) s).

Definition start_finished (connection_revision : N) (login_id : string)
    (status : CodexRuntimeAuthStatus.t) (s : AccountServiceState.t)
    : StartedAttemptDisposition * AccountServiceState.t :=
  if negb (AccountServiceState.current connection_revision s)
  then (Stale, AccountServiceState.set_login_completion
                 (discard_start connection_revision s.(AccountServiceState.login_completion)) s)
  else
    let (completed, completion) :=
      take_matching_early_completion connection_revision login_id s.(AccountServiceState.login_completion) in
    let s := AccountServiceState.set_login_completion completion s in
    if (completed : bool)
    then (Completed, AccountServiceState.settle None CodexRuntimeAuthStatus.Checking s)
    else (Installed, AccountServiceState.settle (Some login_id) status s).

Definition finish_login_start_with_attempt (connection_revision : N) (login_id : string)
    (status : CodexRuntimeAuthStatus.t) : prog StartedAttemptDisposition :=
  disposition ← block (start_finished connection_revision login_id status);
  _ ← match disposition with
      | Completed => schedule_background_refresh connection_revision
      | Installed | Stale => mret tt
      end;
  mret disposition.

Definition login_prepared (s : AccountServiceState.t)
    : result CodexRuntimeAuthStatus.t (N * N) * AccountServiceState.t :=
  match s.(AccountServiceState.connection) with
  | None =>
    (Err login_unavailable_error,
     AccountServiceState.settle s.(AccountServiceState.login_attempt) login_unavailable_error s)
  | Some connection =>
    let connection_revision := s.(AccountServiceState.connection_revision) in
    (Ok (connection, connection_revision),
     AccountServiceState.set_login_completion
       (LoginCompletionState.begin_login_start connection_revision s.(AccountServiceState.login_completion)) s)
  end.

Definition prepare_login : prog (result CodexRuntimeAuthStatus.t (N * N)) :=
  cancelled ← cancel_active_attempt;
  match cancelled with
  | Err status => mret (Err status)
  | Ok _ => block login_prepared
  end.

Definition login_params : Value.t :=
  Value.Object [("type", Value.Str "chatgpt"); ("useHostedLoginSuccessPage", Value.Bool false)].

(** The part of [start_browser_login] that holds the browser operation *)
Definition open_browser (connection connection_revision : N) (login_id : string) (auth_url : Url.t)
    : prog CodexRuntimeAuthStatus.t :=
  _ ← acquire BrowserOpenOperation;
  disposition ← finish_login_start_with_attempt connection_revision login_id
                  CodexRuntimeAuthStatus.BrowserPending;
  match disposition with
  | Completed => _ ← release BrowserOpenOperation; status
  | Stale =>
    current ← status;
    _ ← release BrowserOpenOperation;
    cancel_started_attempt connection connection_revision login_id current
  | Installed =>
    opened ← OpenUrl auth_url Ret;
    if negb opened then
      _ ← release BrowserOpenOperation;
      cancel_started_attempt connection connection_revision login_id browser_open_error
    else
      current ← status;
      _ ← release BrowserOpenOperation;
      mret current
  end.

Definition start_browser_login : prog CodexRuntimeAuthStatus.t :=
  holding LoginOperation (
    prepared ← prepare_login;
    match prepared with
    | Err status => mret status
    | Ok (connection, connection_revision) =>
      response ← request connection "account/login/start" (Some login_params);
      let unavailable :=
        _ ← discard_login_start connection_revision;
        set_status_for_connection connection_revision login_unavailable_error in
      match (match response with Ok response => login_from_value response | Err _ => None end) with
      | Some (LoginStartResponse.Chatgpt login_id auth_url) =>
        if str_eqb login_id EmptyString then unavailable else
        match parse_official_auth_url auth_url with
        | None =>
          _ ← discard_login_start connection_revision;
          cancel_started_attempt connection connection_revision login_id browser_open_error
        | Some auth_url => open_browser connection connection_revision login_id auth_url
        end
      | Some (LoginStartResponse.ChatgptDeviceCode login_id _ _) =>
        if str_eqb login_id EmptyString then unavailable else
        _ ← discard_login_start connection_revision;
        cancel_started_attempt connection connection_revision login_id login_unavailable_error
      | Some LoginStartResponse.Unsupported | None => unavailable
      end
    end).

(** *** Cancelling and logging out *)

Definition cancel_account_login : prog CodexRuntimeAuthStatus.t :=
  holding LoginOperation (
    cancelled ← cancel_active_attempt;
    match cancelled with
    | Err status => mret status
    | Ok _ => refresh
    end).

Definition logout_account : prog CodexRuntimeAuthStatus.t :=
  holding LoginOperation (
    cancelled ← cancel_active_attempt;
    match cancelled with
    | Err status => mret status
    | Ok _ =>
      found ← read (fun s => (s.(AccountServiceState.connection), s.(AccountServiceState.connection_revision)));
      match found with
      | (None, _) => mret logout_unavailable_error
      | (Some connection, connection_revision) =>
        response ← request connection "account/logout" None;
        is_current ← read (AccountServiceState.current connection_revision);
        if negb is_current then status else
        match response with
        | Ok (Value.Object []) => refresh
        | _ => mret logout_unavailable_error
        end
      end
    end).

Definition execute_command (command : AccountCommand.t) : prog CodexRuntimeAuthStatus.t :=
  connected ← read (fun s => is_some s.(AccountServiceState.connection));
  status ← (if negb connected then mret retryable_account_error else
            match command with
            | AccountCommand.GetStatus => refresh
            | AccountCommand.StartChatgptLogin => start_browser_login
            | AccountCommand.CancelLogin => cancel_account_login
            | AccountCommand.Logout => logout_account
            end);
  _ ← publish_status status;
  mret status.

(** *** Notifications *)

(** The id of a completion that is well formed *)
Definition completed_login (params : Value.t) : option string :=
  params ← Value.as_object params;
  login_id ← (id ← Value.lookup "loginId" params; Value.as_str id);
  _ ← (success ← Value.lookup "success" params;
       match success with Value.Bool b => Some b | _ => None end);
  match Value.lookup "error" params with
  | None | Some Value.Null | Some (Value.Str _) => Some login_id
  | Some _ => None
  end.

Definition login_completed (connection_identity : N) (login_id : string) (s : AccountServiceState.t)
    : option N * AccountServiceState.t :=
  if negb (bool_decide (s.(AccountServiceState.connection_identity) = Some connection_identity))
  then (None, s)
  else if attempt_is login_id s
  then (Some s.(AccountServiceState.connection_revision),
        AccountServiceState.settle None CodexRuntimeAuthStatus.Checking s)
  else (None, AccountServiceState.set_login_completion
                (remember_early_completion s.(AccountServiceState.connection_revision) login_id
                   s.(AccountServiceState.login_completion)) s).

Definition handle_login_completed (connection_identity : N) (params : Value.t) : prog unit :=
  match completed_login params with
  | None => mret tt
  | Some login_id =>
    refresh_revision ← block (login_completed connection_identity login_id);
    match refresh_revision with
    | Some connection_revision => schedule_background_refresh connection_revision
    | None => mret tt
    end
  end.

Definition schedule_current_background_refresh (connection_identity : N) : prog unit :=
  found ← read (fun s =>
    if negb (bool_decide (s.(AccountServiceState.connection_identity) = Some connection_identity))
    then None else Some s.(AccountServiceState.connection_revision));
  match found with
  | None => mret tt
  | Some connection_revision => schedule_background_refresh connection_revision
  end.

(** [NotificationObserver::on_notification] *)
Definition on_notification (connection_identity : N) (method : string) (params : Value.t)
    : prog unit :=
  if str_eqb method "account/login/completed"
  then handle_login_completed connection_identity params
  else if str_eqb method "account/updated"
  then schedule_current_background_refresh connection_identity
  else mret tt.

(** ** Threads *)

(** What starts a thread: a command, a connection that comes or goes, a notification *)
Inductive Entry :=
| Command (command : AccountCommand.t)
| OnConnected (connection : N)
| OnDisconnected
| OnNotification (connection_identity : N) (method : string) (params : Value.t).

Definition entry_program (entry : Entry) : prog unit :=
  match entry with
  | Command command => _ ← execute_command command; mret tt
  | OnConnected connection => _ ← connect connection; mret tt
  | OnDisconnected => _ ← disconnect; mret tt
  | OnNotification connection_identity method params =>
    on_notification connection_identity method params
  end.

(** The next step of a thread, unless it waits for a lock or is done: what it has left to do, and
    the machine, perhaps with a new thread *)
Definition thread_step (i : nat) (answer : Response.t) (p : prog unit) (m : Machine.t)
    : option (prog unit * Machine.t) :=
  match p with
  | Ret _ => None
  | Block f k =>
    Some (k m.(Machine.service), Machine.set_service (f m.(Machine.service)) m)
  | Acquire l k =>
    match m.(Machine.holder) l with
    | None => Some (k, Machine.set_holder l (Some i) m)
    | Some _ => None
    end
  | Release l k => Some (k, Machine.set_holder l None m)
  | Request _ _ _ k => Some (k answer.(Response.reply), m)
  | OpenUrl _ k => Some (k answer.(Response.ok), m)
  | SpawnRefresh connection_revision k =>
    Some (k answer.(Response.ok),
          if answer.(Response.ok)
          then Machine.set_threads
                 (m.(Machine.threads) ++ [run_background_refresh connection_revision]) m
          else m)
  | Published k => Some (k m.(Machine.published), m)
  | OnStatus status k => Some (k, Machine.observe status m)
  end.

Definition advance (i : nat) (answer : Response.t) (m : Machine.t) : option Machine.t :=
  p ← m.(Machine.threads) !! i;
  next ← thread_step i answer p m;
  let (p, m) := (next : prog unit * Machine.t) in
  Some (Machine.set_threads (<[ i := p ]> m.(Machine.threads)) m).

Inductive machine_step (m : Machine.t) : Machine.t -> Prop :=
| step_enter entry :
    machine_step m (Machine.set_threads (m.(Machine.threads) ++ [entry_program entry]) m)
| step_thread i answer m' : advance i answer m = Some m' -> machine_step m m'.
End Service.
