(* ===== verification/AccountThm.v ===== *)
(** * The account service over all interleavings

    Early completions as a window over the ids that were reported, a logic for the programs of
    the service, and what it shows of every reachable machine. *)

From S2P Require Import Prelude AppJson AppConnection Account.

(** ** Early completions *)

Definition total (ids : list string) : N := sum_len (fun id => id) ids.

#[local] Arguments total : simpl never.

(** What may be remembered at once *)
Definition fits_window (ids : list string) : Prop :=
  length ids <= MAX_EARLY_COMPLETION_IDS /\ (total ids <= MAX_EARLY_COMPLETION_BYTES)%N.
#[global] Instance fits_window_dec ids : Decision (fits_window ids).
Proof. unfold fits_window. apply _. Defined.

(** The longest end of a list that may be *)
Fixpoint window (ids : list string) : list string :=
  if decide (fits_window ids) then ids
  else match ids with [] => [] | _ :: ids => window ids end.

(** The ids in the order in which each was reported last *)
Definition reported_again (ids : list string) (id : string) : list string :=
  filter (fun x => x <> id) ids ++ [id].
Definition by_last_report (history : list string) : list string :=
  foldl reported_again [] history.

(** An id that is remembered at all *)
Definition rememberable (id : string) : Prop :=
  id <> EmptyString /\ (len id <= MAX_EARLY_COMPLETION_BYTES)%N.

#[global] Instance rememberable_dec id : Decision (rememberable id).
Proof. unfold rememberable. apply _. Defined.

(** What is remembered of the completions that were reported, oldest first *)
Definition remembered (history : list string) : list string :=
  window (by_last_report (filter rememberable history)).

Lemma total_cons x l : total (x :: l) = (len x + total l)%N.
Proof. done. Qed.

Lemma total_app l k : total (l ++ k) = (total l + total k)%N.
Proof. induction l as [|x l IH]; [done|]. cbn [app]. rewrite !total_cons, IH. lia. Qed.

Lemma fits_window_app_r l k : fits_window (l ++ k) -> fits_window k.
Proof. unfold fits_window. rewrite length_app, total_app. intros [? ?]. split; lia. Qed.

Lemma window_fits ids : fits_window (window ids).
Proof.
  induction ids as [|x ids IH]; cbn [window]; case_decide as Hf; try done.
  destruct Hf. split; [unfold MAX_EARLY_COMPLETION_IDS; simpl; lia|done].
Qed.

(** What does not fit is not seen past its own window. *)
Lemma window_past l k : ~ fits_window k -> window (l ++ k) = window k.
Proof.
  intros Hno. induction l as [|y l IH]; [done|]. cbn [app window].
  rewrite decide_False; [exact IH|]. intros Hf. apply Hno. by apply (fits_window_app_r (y :: l)).
Qed.

Lemma window_cons x k : ~ fits_window (x :: k) -> window (x :: k) = window k.
Proof. intros Hno. cbn [window]. by rewrite decide_False. Qed.

(** The split of a list at its window *)
Lemma window_split ids :
  window ids = ids \/ exists l x, ids = l ++ x :: window ids /\ ~ fits_window (x :: window ids).
Proof.
  induction ids as [|x ids IH]; cbn [window]; case_decide as Hf; try (by left).
  right. destruct IH as [Heq|(l & y & Heq & Hno)].
  - exists [], x. by rewrite Heq.
  - exists (x :: l), y. split; [|done]. simpl. by rewrite <- Heq.
Qed.

Lemma filter_absent (id : string) (ids : list string) : id ∉ ids -> filter (fun x => x <> id) ids = ids.
Proof.
  induction ids as [|x ids IH]; intros Hno; [done|]. apply not_elem_of_cons in Hno as [Hne Hno].
  rewrite filter_cons_True by done. by rewrite IH.
Qed.

Lemma total_filter (id : string) (ids : list string) :
  NoDup ids -> id ∈ ids ->
  (total (filter (fun x => x <> id) ids) + len id)%N = total ids /\
  S (length (filter (fun x => x <> id) ids)) = length ids.
Proof.
  induction 1 as [|x ids Hx _ IH]; intros Hin; [by apply not_elem_of_nil in Hin|].
  apply elem_of_cons in Hin as [<-|Hin].
  - rewrite filter_cons_False by (intros Hne; by apply Hne). rewrite filter_absent by done.
    rewrite total_cons. simpl. lia.
  - rewrite filter_cons_True by (by intros ->). rewrite !total_cons. simpl. destruct (IH Hin). lia.
Qed.

(** The window forgets nothing that a later window would need. *)
Lemma window_again ids id :
  NoDup ids -> window (reported_again (window ids) id) = window (reported_again ids id).
Proof.
  intros Hnd. destruct (window_split ids) as [Heq|(l & x & Heq & Hno)]; [by rewrite Heq|].
  revert Hnd. unfold reported_again. rewrite Heq at 1 3. generalize (window ids), Hno. clear.
  intros w Hno Hnd. apply list.NoDup_app in Hnd as (_ & _ & Hnd). apply list.NoDup_cons in Hnd as [Hx Hnd].
  rewrite list.filter_app, <- app_assoc. destruct (decide (x = id)) as [->|Hne].
  - rewrite filter_cons_False by (intros H; by apply H). rewrite (filter_absent id w) by done.
    symmetry. apply window_past. revert Hno. unfold fits_window.
    rewrite !length_app, !total_app, !total_cons. simpl. intros Hno [? ?]. apply Hno. split; lia.
  - rewrite filter_cons_True by done. cbn [app].
    assert (~ fits_window (x :: filter (fun y => y <> id) w ++ [id])) as Hbig.
    { revert Hno. unfold fits_window. rewrite !total_cons. simpl. rewrite !length_app, !total_app. simpl.
      destruct (decide (id ∈ w)) as [Hin|Hout].
      - destruct (total_filter id w Hnd Hin). rewrite total_cons. simpl. intros Hno [? ?]. apply Hno. split; lia.
      - rewrite filter_absent by done. intros Hno [? ?]. apply Hno. split; lia. }
    symmetry. etrans; [by apply window_past|]. by apply window_cons.
Qed.

Lemma by_last_report_snoc history id :
  by_last_report (history ++ [id]) = reported_again (by_last_report history) id.
Proof. unfold by_last_report. by rewrite foldl_app. Qed.

Lemma NoDup_reported ids id : NoDup ids -> NoDup (reported_again ids id).
Proof.
  intros Hnd. unfold reported_again. apply list.NoDup_app. split_and!.
  - by apply list.NoDup_filter.
  - intros x [Hne _]%list_elem_of_filter Hx%list_elem_of_singleton. done.
  - apply NoDup_singleton.
Qed.

Lemma NoDup_by_last_report history : NoDup (by_last_report history).
Proof.
  induction history as [|id history IH] using rev_ind; [constructor|].
  rewrite by_last_report_snoc. by apply NoDup_reported.
Qed.

Lemma remembered_snoc history id :
  remembered (history ++ [id]) =
    if decide (rememberable id) then window (reported_again (remembered history) id)
    else remembered history.
Proof.
  unfold remembered. rewrite list.filter_app. case_decide as Hid.
  - rewrite filter_cons_True, filter_nil, by_last_report_snoc by done.
    symmetry. apply window_again, NoDup_by_last_report.
  - by rewrite filter_cons_False, filter_nil, app_nil_r.
Qed.

Lemma evict_eq incoming bytes ids :
  evict incoming bytes ids =
    if (MAX_EARLY_COMPLETION_IDS <=? length ids) || (MAX_EARLY_COMPLETION_BYTES - incoming <? bytes)%N
    then match ids with [] => (bytes, []) | evicted :: ids => evict incoming (bytes - len evicted) ids end
    else (bytes, ids).
Proof. by destruct ids. Qed.

(** Evicting makes room for the id, and for nothing more. *)
Lemma evict_window id ids :
  rememberable id ->
  exists w, evict (len id) (total ids) ids = (total w, w) /\ w ++ [id] = window (ids ++ [id]).
Proof.
  intros [_ Hlen]. assert (forall l, fits_window (l ++ [id]) <->
    (MAX_EARLY_COMPLETION_IDS <=? length l) || (MAX_EARLY_COMPLETION_BYTES - len id <? total l)%N = false) as Hcond.
  { intros l. unfold fits_window. rewrite length_app, total_app, total_cons, orb_false_iff, Nat.leb_gt, N.ltb_ge.
    simpl. change (total []) with 0%N. lia. }
  induction ids as [|x ids IH]; rewrite evict_eq.
  - assert (fits_window ([] ++ [id])) as Hf.
    { split; [unfold MAX_EARLY_COMPLETION_IDS; simpl; lia|]. cbn [app]. rewrite total_cons. change (total []) with 0%N. lia. }
    rewrite (proj1 (Hcond []) Hf). exists []. split; [done|]. cbn [app window]. by rewrite decide_True.
  - destruct (decide (fits_window ((x :: ids) ++ [id]))) as [Hf|Hf].
    + rewrite (proj1 (Hcond _) Hf). exists (x :: ids). split; [done|]. cbn [app window]. by rewrite decide_True.
    + destruct (_ || _) eqn:Hc; [|by apply Hcond in Hc]. rewrite total_cons.
      replace (len x + total ids - len x)%N with (total ids) by lia. destruct IH as (w & Hev & Hw).
      exists w. split; [done|]. cbn [app]. by rewrite window_cons.
Qed.

(** The state of a login that is being started *)
Definition starting (r : N) (history : list string) : LoginStartState.t :=
  LoginStartState.mk r (total (remembered history)) (remembered history).

Lemma list_find_filter (id : string) (ids : list string) :
  NoDup ids ->
  match list_find (fun x => x = id) ids with
  | Some (i, x) => x = id /\ id ∈ ids /\ delete i ids = filter (fun x => x <> id) ids
  | None => filter (fun x => x <> id) ids = ids
  end.
Proof.
  intros Hnd. destruct (list_find _ ids) as [[i x]|] eqn:Hfind.
  - apply list_find_Some in Hfind as (Hi & -> & _). split; [done|].
    split; [by eapply list_elem_of_lookup_2|]. apply list_elem_of_split_length in Hi as (l1 & l2 & -> & ->).
    apply list.NoDup_app in Hnd as (_ & Hd & Hn2). apply list.NoDup_cons in Hn2 as [Hx _].
    rewrite delete_middle, list.filter_app, filter_cons_False by (intros H; by apply H).
    rewrite !filter_absent; [done|done|]. intros Hin. apply (Hd id Hin). left.
  - apply list_find_None in Hfind. apply filter_absent. intros Hin.
    rewrite list.Forall_forall in Hfind. by apply (Hfind id).
Qed.

Lemma NoDup_window ids : NoDup ids -> NoDup (window ids).
Proof.
  intros Hnd. destruct (window_split ids) as [->|(l & x & Heq & _)]; [done|].
  rewrite Heq in Hnd. apply list.NoDup_app in Hnd as (_ & _ & Hn). by apply list.NoDup_cons in Hn as [_ ?].
Qed.

Lemma remember_one r history id s :
  s.(LoginCompletionState.login_start) = Some (starting r history) ->
  remember_early_completion r id s =
    LoginCompletionState.set_login_start (Some (starting r (history ++ [id]))) s.
Proof.
  intros Hs. unfold remember_early_completion. rewrite Hs. cbn [LoginStartState.connection_revision starting].
  rewrite N.eqb_refl. cbn [negb orb]. unfold starting. rewrite remembered_snoc.
  destruct (str_eqb id EmptyString || (MAX_EARLY_COMPLETION_BYTES <? len id)%N) eqn:Hid.
  - rewrite decide_False; [by destruct s; simpl in *; subst|]. intros [Hne Hlen].
    apply orb_true_iff in Hid as [Hid|Hid]; [by apply str_eqb_true in Hid|]. apply N.ltb_lt in Hid. lia.
  - assert (rememberable id) as Hr.
    { apply orb_false_inv in Hid as [Hne Hlen]. apply str_eqb_false in Hne. apply N.ltb_ge in Hlen. by split. }
    rewrite decide_True by done. cbn [LoginStartState.completion_ids LoginStartState.completion_bytes].
    assert (NoDup (remembered history)) as Hnd by apply NoDup_window, NoDup_by_last_report.
    pose proof (list_find_filter id _ Hnd) as Hfind. set (ids := remembered history) in *.
    assert (match list_find (fun x => x = id) ids with
      | Some (index, existing) => ((total ids - len existing)%N, delete index ids)
      | None => (total ids, ids) end
      = (total (filter (fun x => x <> id) ids), filter (fun x => x <> id) ids)) as ->.
    { destruct (list_find _ ids) as [[i x]|].
      - destruct Hfind as (-> & Hin & ->). destruct (total_filter id ids Hnd Hin). f_equal. lia.
      - by rewrite Hfind. }
    destruct (evict_window id (filter (fun x => x <> id) ids) Hr) as (w & -> & Hw).
    unfold reported_again. rewrite <- Hw. rewrite total_app, total_cons. change (total []) with 0%N.
    by rewrite N.add_0_r.
Qed.

(** Of the completions that arrive before the answer to the login, exactly a window is
    remembered: the most recently reported distinct ids, as many as eight and as fit into
    4096 bytes, with their size counted without underflow, and an early completion is found
    for the ids of the window and for no others. Empty and oversized ids count for nothing. *)
Theorem early_completions_window r history id s :
  let s' := foldl (fun s id => remember_early_completion r id s)
              (LoginCompletionState.begin_login_start r s) history in
  s'.(LoginCompletionState.login_start) = Some (starting r history) /\
  s'.(LoginCompletionState.refresh) = s.(LoginCompletionState.refresh) /\
  fits_window (remembered history) /\ NoDup (remembered history) /\
  ((take_matching_early_completion r id s').1 = true <-> id ∈ remembered history) /\
  (take_matching_early_completion r id s').2 = LoginCompletionState.set_login_start None s.
Proof.
  intros s'. assert (s' = LoginCompletionState.set_login_start (Some (starting r history)) s) as ->.
  { subst s'. induction history as [|x history IH] using rev_ind; [done|].
    rewrite foldl_app, IH. cbn [foldl]. by rewrite (remember_one r history). }
  split_and!; [done|done|apply window_fits|apply NoDup_window, NoDup_by_last_report| |];
    unfold take_matching_early_completion; cbn [LoginCompletionState.login_start LoginCompletionState.set_login_start
      starting LoginStartState.connection_revision]; rewrite N.eqb_refl; [|done].
  cbn [fst LoginStartState.completion_ids]. rewrite existsb_exists. split.
  - intros (x & Hin & ->%str_eqb_true). by apply list_elem_of_In.
  - intros Hin. exists id. split; [by apply list_elem_of_In|apply str_eqb_refl].
Qed.
