(* ===== verification/AccountLogic.v ===== *)
(** * A logic for the programs of the account service

    What a thread may rely on while the others run: the invariant of the state, and facts about
    the connection that no other thread can take away, given the locks it holds. From it
    follow the invariant of every reachable machine, which page a browser is opened on, and that
    the locks cannot block each other. *)

From S2P Require Import Prelude AppJson AppConnection Account AccountThm.

(** ** States *)

(** A status that says nothing about an account *)
Definition offline (status : CodexRuntimeAuthStatus.t) : Prop :=
  status = CodexRuntimeAuthStatus.Checking \/
  exists message, status = CodexRuntimeAuthStatus.Error message true.

Record service_inv (s : AccountServiceState.t) : Prop := {
  sv_identity : s.(AccountServiceState.connection_identity) = s.(AccountServiceState.connection);
  sv_offline : s.(AccountServiceState.connection) = None ->
    s.(AccountServiceState.login_attempt) = None /\
    s.(AccountServiceState.login_completion) = LoginCompletionState.default /\ offline s.(AccountServiceState.status);
  sv_start start : s.(AccountServiceState.login_completion).(LoginCompletionState.login_start) = Some start ->
    exists history, start = starting s.(AccountServiceState.connection_revision) history;
  sv_pending : s.(AccountServiceState.status) = CodexRuntimeAuthStatus.BrowserPending ->
    s.(AccountServiceState.login_attempt) <> None;
}.

Definition same_connection (s s' : AccountServiceState.t) : Prop :=
  s'.(AccountServiceState.connection_revision) = s.(AccountServiceState.connection_revision) /\
  s'.(AccountServiceState.connection) = s.(AccountServiceState.connection).

(** No login is being started. *)
Definition no_start (s : AccountServiceState.t) : Prop :=
  s.(AccountServiceState.login_completion).(LoginCompletionState.login_start) = None.

Inductive Phase := Waiting | Refreshing.

(** How far the background refresh is *)
Definition phase (s : AccountServiceState.t) : option Phase :=
  match s.(AccountServiceState.login_completion).(LoginCompletionState.refresh) with
  | BackgroundRefreshState.Idle => None
  | BackgroundRefreshState.Scheduled => Some Waiting
  | BackgroundRefreshState.Running _ => Some Refreshing
  end.

(** ** What a thread owns *)

(** The locks it holds, and the background refresh that it has to see to: that of a revision, and
    how far it is *)
Record Own := own { locks : list Lock; task : option (N * Phase) }.
Definition with_lock (l : Lock) (h : Own) : Own := own (l :: h.(locks)) h.(task).
Definition with_task (t : option (N * Phase)) (h : Own) : Own := own h.(locks) t.
Definition nothing : Own := own [] None.

(** What others may do to the state of a thread that holds these locks *)
Definition others_change (h : list Lock) (s s' : AccountServiceState.t) : Prop :=
  (same_connection s s' \/
   (BrowserOpenOperation ∉ h /\
    (s.(AccountServiceState.connection_revision) < s'.(AccountServiceState.connection_revision))%N /\ no_start s')) /\
  (LoginOperation ∈ h -> no_start s -> no_start s').

Definition stable (h : list Lock) (K : AccountServiceState.t -> Prop) : Prop :=
  forall s s', K s -> others_change h s s' -> K s'.

(** The background refresh of a thread is the one of the state, unless its revision is over. *)
Definition task_ok (t : option (N * Phase)) (s : AccountServiceState.t) : Prop :=
  match t with
  | None => True
  | Some (r, a) => (r <= s.(AccountServiceState.connection_revision))%N /\
                   (s.(AccountServiceState.connection_revision) = r -> phase s = Some a)
  end.

(** What becomes of the background refresh of a thread in a block that leaves the connection *)
Inductive task_step (r : N) : option (N * Phase) -> option (N * Phase) -> option Phase -> option Phase -> Prop :=
| task_kept t a : task_step r t t a a
| task_taken : task_step r None (Some (r, Waiting)) None (Some Waiting)
| task_moved a b : task_step r (Some (r, a)) (Some (r, b)) (Some a) (Some b)
| task_done a : task_step r (Some (r, a)) None (Some a) None
| task_stale r' a b : r' <> r -> task_step r (Some (r', a)) None b b.

(** What a block of a thread may do *)
Record block_ok (h : Own) (t : option (N * Phase)) (s s' : AccountServiceState.t) : Prop := {
  bk_inv : service_inv s';
  bk_connection :
    (same_connection s s' /\ task_step s.(AccountServiceState.connection_revision) h.(task) t (phase s) (phase s')) \/
    (BrowserOpenOperation ∈ h.(locks) /\ t = h.(task) /\ phase s' = None /\ no_start s' /\
     s'.(AccountServiceState.connection_revision) = ((s.(AccountServiceState.connection_revision) + 1) mod (u64_max + 1))%N);
  bk_start : LoginOperation ∈ h.(locks) \/ (no_start s -> no_start s');
}.

(** *** Facts that last *)

(** The connection of this revision is this one. *)
Definition cap (r c : N) (s : AccountServiceState.t) : Prop :=
  (r <= s.(AccountServiceState.connection_revision))%N /\
  (s.(AccountServiceState.connection_revision) = r -> s.(AccountServiceState.connection) = Some c).

(** The revision is over. *)
Definition past (r : N) (s : AccountServiceState.t) : Prop := (r < s.(AccountServiceState.connection_revision))%N.

(** The revision is the current one. *)
Definition pinned (r : N) (s : AccountServiceState.t) : Prop := AccountServiceState.current r s = true.

(** A login that is being started is one of this revision. *)
Definition start_of (r : N) (s : AccountServiceState.t) : Prop :=
  no_start s \/ s.(AccountServiceState.connection_revision) = r.

Lemma current_true r s :
  AccountServiceState.current r s = true <->
  s.(AccountServiceState.connection_revision) = r /\ s.(AccountServiceState.connection) <> None.
Proof.
  unfold AccountServiceState.current. rewrite andb_true_iff, N.eqb_eq.
  destruct (AccountServiceState.connection s); simpl; naive_solver.
Qed.

Lemma stable_true h : stable h (fun _ => True).
Proof. done. Qed.
Lemma stable_and h K L : stable h K -> stable h L -> stable h (fun s => K s /\ L s).
Proof. intros HK HL s s' [] Hch. split; eauto. Qed.
Lemma stable_pure h (P : Prop) : stable h (fun _ => P).
Proof. by intros s s'. Qed.
Lemma stable_cap h r c : stable h (cap r c).
Proof.
  unfold cap. intros s s' [Hle Hc] [[[-> ->]|(_ & Hlt & _)] _]; [done|]. split; [lia|]. intros Heq. lia.
Qed.
Lemma stable_past h r : stable h (past r).
Proof. unfold past. intros s s' Hlt [[[-> _]|(_ & Hlt' & _)] _]; [done|lia]. Qed.
Lemma stable_pinned h r : BrowserOpenOperation ∈ h -> stable h (pinned r).
Proof.
  unfold pinned. intros Hin s s' Hcur [[[Hr Hc]|[Hno _]] _]; [|done].
  rewrite current_true in *. by rewrite Hr, Hc.
Qed.
Lemma stable_no_start h : LoginOperation ∈ h -> stable h no_start.
Proof. intros Hin s s' Hs [_ Hno]. auto. Qed.
Lemma stable_start_of h r : LoginOperation ∈ h -> stable h (start_of r).
Proof.
  intros Hin s s' Hs [Hcon Hno]. destruct Hs as [Hs|Hs]; [left; auto|].
  destruct Hcon as [[Hr _]|(_ & _ & Hs')]; [right; congruence|by left].
Qed.
Lemma stable_more h l K : stable h K -> stable (l :: h) K.
Proof.
  intros HK s s' Hs [Hcon Hno]. eapply HK; [done|]. split.
  - destruct Hcon as [|(Hin & ? & ?)]; [by left|right]. split_and!; [|done..].
    intros ?. apply Hin. by right.
  - intros Hin. apply Hno. by right.
Qed.
Create HintDb stability.
#[global] Hint Resolve stable_true stable_and stable_pure stable_cap stable_past stable_pinned
  stable_no_start stable_start_of stable_more : stability.

(** ** The logic *)

(** The order in which the locks are taken *)
Definition rank (l : Lock) : nat :=
  match l with LoginOperation => 0 | BrowserOpenOperation => 1 | PublishedStatus => 2 end.
Definition free_for (l : Lock) (h : Own) : Prop := Forall (fun l' => rank l' < rank l) h.(locks).

Definition official (url : Url.t) : Prop :=
  url.(Url.scheme) = "https" /\ url.(Url.username) = EmptyString /\ url.(Url.password) = None /\
  url.(Url.port_or_known_default) = Some 443%N /\
  exists host, url.(Url.host_str) = Some host /\ official_host host = true.

(** [safe R he h K p]: owning [h] and knowing [K], the program does nothing it may not do, and it
    ends owning [he] with a result of which [R] is known. A login is being started only while
    [LoginOperation] is held, and only who has to see to a background refresh may spawn it. *)
Inductive safe {A} (R : A -> AccountServiceState.t -> Prop) (he : Own)
    : Own -> (AccountServiceState.t -> Prop) -> prog A -> Prop :=
| safe_ret K a : (forall s, K s -> R a s) -> safe R he he K (Ret a)
| safe_block_k h K (t : AccountServiceState.t -> option (N * Phase)) (K' : AccountServiceState.t -> AccountServiceState.t -> Prop) f k :
    (forall s, service_inv s -> task_ok h.(task) s -> K s ->
       block_ok h (t s) s (f s) /\ K' s (f s) /\ stable h.(locks) (K' s)) ->
    (forall s, service_inv s -> task_ok h.(task) s -> K s -> safe R he (with_task (t s) h) (K' s) (k s)) ->
    safe R he h K (Block f k)
| safe_acquire_k h K l k :
    free_for l h -> safe R he (with_lock l h) (fun s => K s /\ (l = LoginOperation -> no_start s)) k ->
    safe R he h K (Acquire l k)
| safe_release_k h K (K' : AccountServiceState.t -> Prop) l k :
    (forall s, K s -> K' s /\ (l = LoginOperation -> no_start s)) -> stable h.(locks) K' ->
    safe R he h K' k -> safe R he (with_lock l h) K (Release l k)
| safe_request_k h K c method params k :
    (forall r, safe R he h K (k r)) -> safe R he h K (Request c method params k)
| safe_open_k h K url k :
    official url -> BrowserOpenOperation ∈ h.(locks) -> (forall s, K s -> s.(AccountServiceState.connection) <> None) ->
    (forall ok, safe R he h K (k ok)) -> safe R he h K (OpenUrl url k)
| safe_spawn_k h K r k :
    h.(task) = Some (r, Waiting) ->
    safe R he (with_task None h) K (k true) -> safe R he h K (k false) ->
    safe R he h K (SpawnRefresh r k)
| safe_published_k h K k : (forall st, safe R he h K (k st)) -> safe R he h K (Published k)
| safe_on_status_k h K st k : safe R he h K k -> safe R he h K (OnStatus st k).

Lemma safe_weaken {A} (R : A -> AccountServiceState.t -> Prop) he h K1 K2 p :
  safe R he h K2 p -> (forall s, K1 s -> K2 s) -> safe R he h K1 p.
Proof.
  intros Hp. revert K1.
  induction Hp as [K a|h K t K' f k Hok Hk IH|h K l k Hfree Hk IH|h K K' l k Hsub Hst Hk IH|h K c m ps k Hk IH
    |h K url k Hurl Hin Hc Hk IH|h K r k Ht Hk IH Hk' IH'|h K k Hk IH|h K st k Hk IH]; intros K1 Hw.
  - constructor. auto.
  - apply (safe_block_k _ _ _ _ t K'); auto.
  - constructor; [done|]. apply IH. intros s []. auto.
  - apply (safe_release_k _ _ _ _ K'); auto.
  - constructor. auto.
  - constructor; auto.
  - constructor; auto.
  - constructor. auto.
  - constructor. auto.
Qed.

Lemma safe_bind {A B} (R : A -> AccountServiceState.t -> Prop) (R' : B -> AccountServiceState.t -> Prop) he he' h K p
    (g : A -> prog B) :
  safe R he h K p -> (forall a, safe R' he' he (R a) (g a)) -> safe R' he' h K (p ≫= g).
Proof.
  intros Hp Hg. unfold mbind. induction Hp; simpl; try (econstructor; by eauto).
  by eapply safe_weaken.
Qed.

Lemma safe_post {A} (R R' : A -> AccountServiceState.t -> Prop) he h K p :
  safe R he h K p -> (forall a s, R a s -> R' a s) -> safe R' he h K p.
Proof. intros Hp Hw. induction Hp; econstructor; by eauto. Qed.

(** ** The blocks keep the invariant *)

Section Blocks.
Context `{AccountJson, UrlParser}.

(** A block that leaves the connection, the background refresh, and a login that is not being
    started *)
Definition quiet_block (s s' : AccountServiceState.t) : Prop :=
  service_inv s' /\ same_connection s s' /\ phase s' = phase s /\ (no_start s -> no_start s').

Lemma quiet_block_ok h s s' : quiet_block s s' -> block_ok h h.(task) s s'.
Proof.
  intros (Hinv & Hsame & Hphase & Hno). split; [done| |by right]. left. split; [done|]. rewrite Hphase.
  constructor.
Qed.

Lemma quiet_others h s s' : quiet_block s s' -> others_change h s s'.
Proof. intros (_ & Hsame & _ & Hno). split; [by left|done]. Qed.

Lemma quiet_refl s : service_inv s -> quiet_block s s.
Proof. intros Hinv. by split_and!. Qed.

(** The parts of a state that the invariant is about *)
Ltac inv_start Hinv :=
  destruct Hinv as [Hident Hoff Hstart Hpend]; (split; [|by split_and!]); split; simpl; try done.

(** A block of the background refresh *)
Definition refresh_block (s s' : AccountServiceState.t) : Prop :=
  service_inv s' /\ same_connection s s' /\ (no_start s -> no_start s').

Lemma refresh_block_ok h t s s' :
  refresh_block s s' -> task_step s.(AccountServiceState.connection_revision) h.(task) t (phase s) (phase s') ->
  block_ok h t s s'.
Proof. intros (Hinv & Hsame & Hno) Ht. split; [done|by left|by right]. Qed.

Lemma refresh_others h s s' : refresh_block s s' -> others_change h s s'.
Proof. intros (_ & Hsame & Hno). split; [by left|done]. Qed.

Lemma refresh_started_ok s : service_inv s -> quiet_block s (refresh_started s).2.
Proof. intros Hinv. inv_start Hinv. Qed.

Lemma refresh_finished_ok r rr next s :
  service_inv s -> next <> CodexRuntimeAuthStatus.BrowserPending ->
  (s.(AccountServiceState.connection_revision) = r -> s.(AccountServiceState.connection) = None -> offline next) ->
  quiet_block s (refresh_finished r rr next s).2.
Proof.
  intros Hinv Hnext Hoffline. unfold refresh_finished. simpl. destruct (_ && _) eqn:Hc; [|by apply quiet_refl].
  bool_hyps. inv_start Hinv. intros Hnone. destruct (Hoff Hnone) as (? & ? & _). split_and!; [done..|].
  apply Hoffline; [|done]. by repeat match goal with Hx : (_ =? _)%N = true |- _ => apply N.eqb_eq in Hx end.
Qed.

Lemma set_refresh_ok v s :
  service_inv s -> s.(AccountServiceState.connection) <> None -> refresh_block s (AccountServiceState.set_refresh v s).
Proof. intros Hinv Hsome. by inv_start Hinv. Qed.

Lemma phase_connected s : service_inv s -> phase s <> None -> s.(AccountServiceState.connection) <> None.
Proof. intros [_ Hoff _ _] Hph Hnone. destruct (Hoff Hnone) as (_ & Hd & _). apply Hph. unfold phase. by rewrite Hd. Qed.

(** A refresh that is asked for: one more has to be seen to only if there was none. *)
Lemma schedule_refresh_ok r s :
  service_inv s ->
  refresh_block s (schedule_refresh r s).2 /\
  task_step s.(AccountServiceState.connection_revision) None
    (if (schedule_refresh r s).1 then Some (r, Waiting) else None) (phase s) (phase (schedule_refresh r s).2).
Proof.
  intros Hinv. destruct (quiet_refl s Hinv) as (? & ? & _ & ?). unfold schedule_refresh.
  destruct (AccountServiceState.current r s) eqn:Hcur; simpl; [|split; [done|constructor]].
  apply current_true in Hcur as [-> Hsome]. unfold phase at 1.
  destruct (LoginCompletionState.refresh _) eqn:Hr; simpl.
  - split; [by apply set_refresh_ok|constructor].
  - unfold phase. rewrite Hr. split; [done|constructor].
  - split; [by apply set_refresh_ok|constructor].
Qed.

Lemma spawn_failed_ok r s :
  service_inv s -> task_ok (Some (r, Waiting)) s ->
  refresh_block s (spawn_failed r s) /\
  task_step s.(AccountServiceState.connection_revision) (Some (r, Waiting)) None (phase s) (phase (spawn_failed r s)).
Proof.
  intros Hinv [_ Ht]. destruct (quiet_refl s Hinv) as (? & ? & _ & ?). unfold spawn_failed.
  destruct (N.eqb_spec s.(AccountServiceState.connection_revision) r) as [<-|Hne]; simpl.
  - specialize (Ht eq_refl). pose proof (phase_connected s Hinv) as Hsome. rewrite Ht in Hsome |- *.
    unfold phase in Ht. destruct (LoginCompletionState.refresh _); simplify_eq. simpl.
    split; [by apply set_refresh_ok, Hsome|constructor].
  - split; [done|by constructor].
Qed.

Lemma refresh_begins_ok r s :
  service_inv s -> task_ok (Some (r, Waiting)) s ->
  refresh_block s (refresh_begins r s).2 /\
  task_step s.(AccountServiceState.connection_revision) (Some (r, Waiting))
    (if (refresh_begins r s).1 then Some (r, Refreshing) else None) (phase s) (phase (refresh_begins r s).2).
Proof.
  intros Hinv [_ Ht]. destruct (quiet_refl s Hinv) as (? & ? & _ & ?). unfold refresh_begins.
  destruct (decide (s.(AccountServiceState.connection_revision) = r)) as [<-|Hne].
  - specialize (Ht eq_refl). pose proof (phase_connected s Hinv) as Hsome. rewrite Ht in Hsome |- *.
    specialize (Hsome ltac:(done)). rewrite (proj2 (current_true _ s)) by done. simpl.
    unfold phase in Ht. destruct (LoginCompletionState.refresh _); simplify_eq. simpl.
    split; [by apply set_refresh_ok|constructor].
  - destruct (AccountServiceState.current r s) eqn:Hcur; [by apply current_true in Hcur as [? _]|].
    split; [done|by constructor].
Qed.

Lemma refresh_ends_ok r s :
  service_inv s -> task_ok (Some (r, Refreshing)) s ->
  refresh_block s (refresh_ends r s).2 /\
  task_step s.(AccountServiceState.connection_revision) (Some (r, Refreshing))
    (if (refresh_ends r s).1 then Some (r, Waiting) else None) (phase s) (phase (refresh_ends r s).2).
Proof.
  intros Hinv [_ Ht]. destruct (quiet_refl s Hinv) as (? & ? & _ & ?). unfold refresh_ends.
  destruct (decide (s.(AccountServiceState.connection_revision) = r)) as [<-|Hne].
  - specialize (Ht eq_refl). pose proof (phase_connected s Hinv) as Hsome. rewrite Ht in Hsome |- *.
    specialize (Hsome ltac:(done)). rewrite (proj2 (current_true _ s)) by done. simpl.
    unfold phase in Ht. destruct (LoginCompletionState.refresh _) as [| |[]]; simplify_eq; simpl;
      (split; [by apply set_refresh_ok|constructor]).
  - destruct (AccountServiceState.current r s) eqn:Hcur; [by apply current_true in Hcur as [? _]|].
    split; [done|by constructor].
Qed.

Lemma attempt_over_ok login_id s : service_inv s -> quiet_block s (attempt_over login_id s).
Proof.
  intros Hinv. unfold attempt_over. destruct (attempt_is login_id s) eqn:Ha; [|by apply quiet_refl].
  inv_start Hinv. intros Hnone. destruct (Hoff Hnone) as (Hno & ? & ?). split_and!; [done..|by left].
Qed.

Lemma settle_current_ok r attempt status s :
  service_inv s -> AccountServiceState.current r s = true ->
  (status = CodexRuntimeAuthStatus.BrowserPending -> attempt <> None) ->
  quiet_block s (AccountServiceState.settle attempt status s).
Proof. intros Hinv [_ Hsome]%current_true Hp. by inv_start Hinv. Qed.

Lemma status_if_current_ok r status s :
  service_inv s ->
  (AccountServiceState.current r s = true -> status <> CodexRuntimeAuthStatus.BrowserPending) ->
  quiet_block s (status_if_current r status s).2.
Proof.
  intros Hinv Hp. unfold status_if_current. destruct (AccountServiceState.current r s) eqn:Hcur; simpl.
  - eapply settle_current_ok; [done..|]. intros ->. by destruct (Hp eq_refl).
  - by apply quiet_refl.
Qed.

Lemma attempt_installed_ok r login_id status s :
  service_inv s -> quiet_block s (attempt_installed r login_id status s).
Proof.
  intros Hinv. unfold attempt_installed. destruct (AccountServiceState.current r s) eqn:Hcur; [|by apply quiet_refl].
  by eapply settle_current_ok.
Qed.

Lemma cancel_failed_ok r login_id s : service_inv s -> quiet_block s (cancel_failed r login_id s).2.
Proof.
  intros Hinv. unfold cancel_failed. destruct (AccountServiceState.current r s) eqn:Hcur; simpl; [|by apply quiet_refl].
  destruct (attempt_is _ _); simpl; [|by apply quiet_refl]. by eapply settle_current_ok.
Qed.

(** Replacing the early completions of a login *)
Lemma completion_inv completion s :
  service_inv s ->
  (s.(AccountServiceState.connection) = None -> completion = LoginCompletionState.default) ->
  (forall start, completion.(LoginCompletionState.login_start) = Some start ->
     exists history, start = starting s.(AccountServiceState.connection_revision) history) ->
  service_inv (AccountServiceState.set_login_completion completion s).
Proof.
  intros [Hident Hoff Hstart Hpend] Hdef Hst. split; simpl; try done. intros Hnone.
  destruct (Hoff Hnone) as (? & _ & ?). split_and!; auto.
Qed.

Lemma completion_ok completion s :
  service_inv s ->
  completion.(LoginCompletionState.refresh) = s.(AccountServiceState.login_completion).(LoginCompletionState.refresh) ->
  (s.(AccountServiceState.connection) = None -> completion = LoginCompletionState.default) ->
  (forall start, completion.(LoginCompletionState.login_start) = Some start ->
     ~ no_start s /\ exists history, start = starting s.(AccountServiceState.connection_revision) history) ->
  quiet_block s (AccountServiceState.set_login_completion completion s).
Proof.
  intros Hinv Href Hdef Hst. split_and!; [|done|unfold phase; simpl; by rewrite Href|].
  - apply completion_inv; [done..|]. intros start Hs. by apply Hst.
  - intros Hno. unfold no_start. simpl. destruct (LoginCompletionState.login_start completion); [|done].
    by destruct (Hst _ eq_refl).
Qed.

Lemma start_present s start :
  s.(AccountServiceState.login_completion).(LoginCompletionState.login_start) = Some start -> ~ no_start s.
Proof. unfold no_start. by intros ->. Qed.

Lemma discard_start_ok r s :
  service_inv s ->
  quiet_block s (AccountServiceState.set_login_completion (discard_start r s.(AccountServiceState.login_completion)) s).
Proof.
  intros Hinv. pose proof Hinv as [_ Hoff Hstart _]. apply completion_ok; [done|..]; unfold discard_start.
  - by destruct (is_some_and _ _).
  - intros Hnone. destruct (Hoff Hnone) as (_ & Hd & _). by rewrite Hd.
  - destruct (is_some_and _ _); [done|]. intros start Hs. split; [by eapply start_present|by apply Hstart].
Qed.

Lemma take_completion_ok r login_id s :
  service_inv s -> s.(AccountServiceState.connection) <> None ->
  quiet_block s (AccountServiceState.set_login_completion
    (take_matching_early_completion r login_id s.(AccountServiceState.login_completion)).2 s).
Proof.
  intros Hinv Hsome. pose proof Hinv as [_ _ Hstart _]. unfold take_matching_early_completion.
  destruct (LoginCompletionState.login_start _) as [st|] eqn:Hst; [destruct (_ =? _)%N|]; simpl;
    (apply completion_ok; [done..|]); simpl; try done; intros start Hs;
    (split; [by eapply start_present|apply Hstart; congruence]).
Qed.

Lemma start_finished_ok r login_id s :
  service_inv s -> quiet_block s (start_finished r login_id CodexRuntimeAuthStatus.BrowserPending s).2.
Proof.
  intros Hinv. unfold start_finished. destruct (AccountServiceState.current r s) eqn:Hcur; simpl; [|by apply discard_start_ok].
  pose proof Hcur as [_ Hsome]%current_true. pose proof (take_completion_ok r login_id s Hinv Hsome) as Htake.
  destruct (take_matching_early_completion _ _ _) as [completed completion]. simpl in Htake.
  destruct Htake as (Hinv1 & Hsame & Hph & Hno).
  destruct completed; simpl;
    (split; [by apply (settle_current_ok r)|by split_and!]).
Qed.

Lemma login_prepared_ok h s :
  service_inv s -> LoginOperation ∈ h.(locks) ->
  block_ok h h.(task) s (login_prepared s).2 /\ same_connection s (login_prepared s).2.
Proof.
  intros Hinv Hin. unfold login_prepared. destruct (AccountServiceState.connection s) as [c|] eqn:Hc; simpl.
  - split; [|done]. split; [|left; split; [done|constructor]|by left].
    apply completion_inv; [done|by rewrite Hc|]. simpl. intros start [= <-]. by exists [].
  - assert (quiet_block s (AccountServiceState.settle (AccountServiceState.login_attempt s) login_unavailable_error s)) as Hq.
    { inv_start Hinv. intros _. destruct (Hoff Hc) as (? & ? & _). split_and!; [done..|right; by eexists]. }
    split; [by apply quiet_block_ok|apply Hq].
Qed.

Lemma login_completed_ok identity login_id s :
  service_inv s -> quiet_block s (login_completed identity login_id s).2.
Proof.
  intros Hinv. pose proof Hinv as [Hident Hoff Hstart _]. unfold login_completed.
  case_bool_decide as Hid; simpl; [|by apply quiet_refl].
  assert (AccountServiceState.connection s <> None) as Hsome by (rewrite <- Hident, Hid; done).
  destruct (attempt_is login_id s); simpl.
  - eapply (settle_current_ok (AccountServiceState.connection_revision s)); [done| |done]. by apply current_true.
  - destruct (LoginCompletionState.login_start (AccountServiceState.login_completion s)) as [st|] eqn:Hst.
    + destruct (Hstart _ eq_refl) as [history ->]. rewrite (remember_one _ history) by done.
      apply completion_ok; [done..|]. simpl. intros start [= <-]. split; [by eapply start_present|by eexists].
    + unfold remember_early_completion. rewrite Hst. by apply completion_ok; [done..|congruence].
Qed.

Lemma change_connection_ok h connection status s :
  BrowserOpenOperation ∈ h.(locks) -> status <> CodexRuntimeAuthStatus.BrowserPending -> offline status ->
  service_inv s -> block_ok h h.(task) s (change_connection connection status s).2.
Proof. intros Hin Hst Hoffline Hinv. split; [by split|by right|by right]. Qed.
End Blocks.

(** ** The programs are safe *)

Section Programs.
Context `{AccountJson, UrlParser}.

Lemma with_task_same h : with_task h.(task) h = h.
Proof. by destruct h. Qed.

(** A block, and what follows it *)
Lemma safe_block_then {A B} (R : B -> AccountServiceState.t -> Prop) he h K (t : A -> option (N * Phase))
    (K' : A -> AccountServiceState.t -> Prop) (b : AccountServiceState.t -> A * AccountServiceState.t) (g : A -> prog B) :
  (forall s, service_inv s -> task_ok h.(task) s -> K s ->
     block_ok h (t (b s).1) s (b s).2 /\ K' (b s).1 (b s).2 /\ stable h.(locks) (K' (b s).1)) ->
  (forall a, safe R he (with_task (t a) h) (K' a) (g a)) -> safe R he h K (a ← block b; g a).
Proof.
  intros Hb Hg. unfold mbind. simpl.
  apply (safe_block_k _ _ _ _ (fun s => t (b s).1) (fun s => K' (b s).1)); auto.
Qed.

Lemma safe_block {A} (R : A -> AccountServiceState.t -> Prop) h K (b : AccountServiceState.t -> A * AccountServiceState.t) :
  (forall s, service_inv s -> K s ->
     block_ok h h.(task) s (b s).2 /\ R (b s).1 (b s).2 /\ stable h.(locks) (R (b s).1)) ->
  safe R h h K (block b).
Proof.
  intros Hb. apply (safe_block_k _ _ _ _ (fun _ => h.(task)) (fun s => R (b s).1)); [auto|].
  intros s _ _ _. rewrite with_task_same. by constructor.
Qed.

Definition keeps (h : Own) (K : AccountServiceState.t -> Prop) {A} (p : prog A) : Prop := safe (fun _ => K) h h K p.

Lemma keeps_bind {A B} h K (p : prog A) (g : A -> prog B) :
  keeps h K p -> (forall a, keeps h K (g a)) -> keeps h K (p ≫= g).
Proof. apply safe_bind. Qed.

Lemma keeps_mret {A} h K (a : A) : keeps h K (mret a).
Proof. by constructor. Qed.

Lemma keeps_quiet {A} h K (b : AccountServiceState.t -> A * AccountServiceState.t) :
  stable h.(locks) K -> (forall s, service_inv s -> K s -> quiet_block s (b s).2) -> keeps h K (block b).
Proof.
  intros Hst Hb. apply safe_block. intros s Hinv Hs. pose proof (Hb s Hinv Hs) as Hq.
  split_and!; [by apply quiet_block_ok|by eapply Hst; [|apply quiet_others]|done].
Qed.

Lemma keeps_read {A} h K (f : AccountServiceState.t -> A) : stable h.(locks) K -> keeps h K (read f).
Proof. intros Hst. apply keeps_quiet; [done|]. intros s Hinv _. by apply quiet_refl. Qed.

Lemma keeps_request h K c method params : keeps h K (request c method params).
Proof. constructor. intros r. by constructor. Qed.
Hint Resolve keeps_mret keeps_read keeps_request : keeps.

Lemma safe_mret {A} (R : A -> AccountServiceState.t -> Prop) h (K : AccountServiceState.t -> Prop) a :
  (forall s, K s -> R a s) -> safe R h h K (mret a).
Proof. by constructor. Qed.

Lemma safe_request {A} (R : A -> AccountServiceState.t -> Prop) he h K c method params (g : PendingResult -> prog A) :
  (forall r, safe R he h K (g r)) -> safe R he h K (r ← request c method params; g r).
Proof. intros Hg. unfold mbind. simpl. by constructor. Qed.

Lemma safe_acquire {A} (R : A -> AccountServiceState.t -> Prop) he l h K (p : prog A) :
  free_for l h -> safe R he (with_lock l h) (fun s => K s /\ (l = LoginOperation -> no_start s)) p ->
  safe R he h K (_ ← acquire l; p).
Proof. intros Hfree Hp. unfold acquire, mbind. simpl. by constructor. Qed.

Lemma safe_release {A} (R : A -> AccountServiceState.t -> Prop) he l h (K K' : AccountServiceState.t -> Prop) (p : prog A) :
  (forall s, K s -> K' s /\ (l = LoginOperation -> no_start s)) -> stable h.(locks) K' -> safe R he h K' p ->
  safe R he (with_lock l h) K (_ ← release l; p).
Proof. intros Hsub Hst Hp. unfold release, mbind. simpl. by apply (safe_release_k _ _ _ _ K'). Qed.

Lemma safe_open {A} (R : A -> AccountServiceState.t -> Prop) he h K url (g : bool -> prog A) :
  official url -> BrowserOpenOperation ∈ h.(locks) -> (forall s, K s -> exists r, pinned r s) ->
  (forall opened, safe R he h K (g opened)) -> safe R he h K (opened ← OpenUrl url Ret; g opened).
Proof.
  intros Hurl Hin HK Hg. unfold mbind. simpl. constructor; [done|done| |done].
  intros s (r & [_ ?]%current_true)%HK. done.
Qed.

Lemma keeps_holding {A} l h K (p : prog A) :
  free_for l h -> stable h.(locks) K -> l <> LoginOperation -> keeps (with_lock l h) K p -> keeps h K (holding l p).
Proof.
  intros Hfree Hst Hl Hp. apply safe_acquire; [done|]. apply safe_weaken with (K2 := K); [|by intros s []].
  eapply (safe_bind (fun _ => K)); [exact Hp|]. intros a.
  by eapply (safe_release _ _ _ _ _ K); [|done|apply keeps_mret].
Qed.

(** A login is being started at most while the operation holds the lock. *)
Lemma login_operation {A} (p : prog A) :
  keeps (with_lock LoginOperation nothing) no_start p -> keeps nothing (fun _ => True) (holding LoginOperation p).
Proof.
  intros Hp. apply safe_acquire; [constructor|]. apply safe_weaken with (K2 := no_start); [|intros s []; auto].
  eapply (safe_bind (fun _ => no_start)); [exact Hp|]. intros a.
  by eapply (safe_release _ _ _ _ _ (fun _ => True)); [|apply stable_true|apply keeps_mret].
Qed.

Lemma publish_status_keeps status h K :
  free_for PublishedStatus h -> stable h.(locks) K -> keeps h K (publish_status status).
Proof.
  intros Hfree Hst. apply keeps_holding; [done..|]. apply keeps_bind; [apply keeps_read; by apply stable_more|].
  intros is_current. unfold mbind. simpl. constructor. intros st. destruct (_ || _); [apply keeps_mret|].
  constructor. by constructor.
Qed.

Lemma parse_account_status_not_pending result :
  parse_account_status result <> CodexRuntimeAuthStatus.BrowserPending.
Proof. unfold parse_account_status. repeat case_match; done. Qed.

Lemma refresh_keeps h K : free_for PublishedStatus h -> stable h.(locks) K -> keeps h K refresh.
Proof.
  intros Hfree Hst. unfold keeps, refresh.
  eapply (safe_bind (fun started s => K s /\ match started.1.1 with Some c => cap started.1.2 c s | None => True end)).
  { apply safe_block. intros s Hinv Hs. pose proof (refresh_started_ok s Hinv) as Hq.
    split_and!; [by apply quiet_block_ok|by eapply Hst; [|apply quiet_others]|..].
    - simpl. destruct (AccountServiceState.connection s) eqn:Hc; [|done]. by split.
    - simpl. destruct (AccountServiceState.connection s); auto with stability. }
  intros [[connection r] rr]. cbn [fst snd].
  eapply (safe_bind (fun next s => K s /\ (next <> CodexRuntimeAuthStatus.BrowserPending /\
    (offline next \/ exists c, cap r c s)))).
  { destruct connection as [c|].
    - apply safe_request. intros result. apply safe_mret. intros s [Hs Hcap].
      split_and!; [done| |right; by exists c].
      destruct result; [apply parse_account_status_not_pending|done].
    - apply safe_mret. intros s [Hs _]. split_and!; [done..|]. left. right. by eexists. }
  intros next. eapply (safe_bind (fun _ => K)); [|intros st; apply keeps_bind; [by apply publish_status_keeps|auto with keeps]].
  apply safe_block. intros s Hinv (Hs & Hnext & Hcap).
  assert (quiet_block s (refresh_finished r rr next s).2) as Hq.
  { apply refresh_finished_ok; [done..|]. intros Hr Hnone.
    destruct Hcap as [|(c & _ & Hc)]; [done|]. by rewrite Hc in Hnone. }
  split_and!; [by apply quiet_block_ok|by eapply Hst; [|apply quiet_others]|done].
Qed.

(** *** Background refreshes *)

Lemma spawn_background_refresh_safe r h K :
  h.(task) = Some (r, Waiting) -> stable h.(locks) K ->
  safe (fun _ => K) (with_task None h) h K (spawn_background_refresh r).
Proof.
  intros Ht Hst. unfold spawn_background_refresh, mbind. simpl. constructor; [done|apply keeps_mret|].
  apply (safe_block_k _ _ _ _ (fun _ => None) (fun _ => K)); [|intros s _ _ _; apply keeps_mret].
  intros s Hinv Htask Hs. rewrite Ht in Htask. destruct (spawn_failed_ok r s Hinv Htask) as [Hb Hstep].
  split_and!; [apply refresh_block_ok; [done|by rewrite Ht]|by eapply Hst; [|apply refresh_others]|done].
Qed.

Lemma schedule_background_refresh_keeps r h K :
  h.(task) = None -> stable h.(locks) K -> keeps h K (schedule_background_refresh r).
Proof.
  intros Ht Hst. eapply (safe_block_then _ _ _ _ (fun ok : bool => if ok then Some (r, Waiting) else None) (fun _ => K)).
  - intros s Hinv _ Hs. destruct (schedule_refresh_ok r s Hinv) as [Hb Hstep].
    split_and!; [apply refresh_block_ok; [done|by rewrite Ht]|by eapply Hst; [|apply refresh_others]|done].
  - assert (h = with_task None h) as Hh by (by rewrite <- Ht, with_task_same).
    intros []; [|rewrite <- Hh; apply keeps_mret]. rewrite Hh at 1.
    by apply (spawn_background_refresh_safe r (with_task (Some (r, Waiting)) h)).
Qed.

(** Who is spawned for a refresh sees to it. *)
Lemma run_background_refresh_safe r :
  safe (fun _ _ => True) nothing (own [] (Some (r, Waiting))) (fun _ => True) (run_background_refresh r).
Proof.
  eapply (safe_block_then _ _ _ _ (fun ok : bool => if ok then Some (r, Refreshing) else None) (fun _ _ => True)).
  { intros s Hinv Ht _. destruct (refresh_begins_ok r s Hinv Ht). split_and!; [by apply refresh_block_ok|done..]. }
  intros []; cbn [negb with_task]; [|by apply keeps_mret].
  eapply (safe_bind (fun _ _ => True)); [apply refresh_keeps; [constructor|apply stable_true]|]. intros _.
  eapply (safe_block_then _ _ _ _ (fun ok : bool => if ok then Some (r, Waiting) else None) (fun _ _ => True)).
  { intros s Hinv Ht _. destruct (refresh_ends_ok r s Hinv Ht). split_and!; [by apply refresh_block_ok|done..]. }
  intros []; [|by apply keeps_mret]. by apply (spawn_background_refresh_safe r (own [] (Some (r, Waiting)))).
Qed.

(** *** Attempts *)

Lemma clear_attempt_keeps login_id h K : stable h.(locks) K -> keeps h K (clear_attempt login_id).
Proof. intros Hst. apply keeps_quiet; [done|]. intros s Hinv _. by apply attempt_over_ok. Qed.

Lemma cancel_login_keeps c login_id h K : keeps h K (cancel_login c login_id).
Proof. apply keeps_bind; auto with keeps. Qed.

Lemma cancel_started_attempt_keeps c r login_id next h K :
  stable h.(locks) K -> (forall s, K s -> next <> CodexRuntimeAuthStatus.BrowserPending \/ past r s) ->
  keeps h K (cancel_started_attempt c r login_id next).
Proof.
  intros Hst Hnext. apply keeps_bind; [apply cancel_login_keeps|]. intros [].
  - apply keeps_bind; [by apply clear_attempt_keeps|]. intros _. apply keeps_quiet; [done|]. intros s Hinv Hs.
    apply status_if_current_ok; [done|]. intros [Hr _]%current_true.
    destruct (Hnext s Hs) as [|Hpast]; [done|]. unfold past in Hpast. lia.
  - apply keeps_bind; [apply keeps_quiet; [done|]; intros s Hinv _; by apply attempt_installed_ok|].
    intros _. by apply keeps_read.
Qed.

Lemma cancel_active_attempt_keeps h K : stable h.(locks) K -> keeps h K cancel_active_attempt.
Proof.
  intros Hst. apply keeps_bind; [by apply keeps_read|]. intros [[status|[[c r] login_id]]|]; try apply keeps_mret.
  apply keeps_bind; [apply cancel_login_keeps|]. intros [].
  - apply keeps_bind; [by apply clear_attempt_keeps|]. intros _. apply keeps_mret.
  - apply keeps_bind; [apply keeps_quiet; [done|]; intros s Hinv _; by apply cancel_failed_ok|].
    intros status. apply keeps_mret.
Qed.

(** *** Logging in *)

Definition prepared (outcome : result CodexRuntimeAuthStatus.t (N * N)) (s : AccountServiceState.t) : Prop :=
  match outcome with Ok (c, r) => cap r c s /\ start_of r s | Err _ => no_start s end.

Lemma stable_prepared h outcome : LoginOperation ∈ h -> stable h (prepared outcome).
Proof. intros Hin. unfold prepared. destruct outcome as [[c r]|]; auto with stability. Qed.

Lemma prepare_login_safe h :
  LoginOperation ∈ h.(locks) -> safe prepared h h no_start prepare_login.
Proof.
  intros Hin. eapply (safe_bind (fun _ => no_start)); [apply cancel_active_attempt_keeps; auto with stability|].
  intros [_|status]; [|by apply safe_mret].
  apply safe_block. intros s Hinv Hs. destruct (login_prepared_ok h s Hinv Hin) as [Hb Hsame].
  split_and!; [done| |by apply stable_prepared].
  unfold login_prepared. destruct (AccountServiceState.connection s) eqn:Hc; [|done]. by split; [split|right].
Qed.

Lemma discard_clears r s :
  service_inv s -> start_of r s ->
  no_start (AccountServiceState.set_login_completion (discard_start r s.(AccountServiceState.login_completion)) s).
Proof.
  intros [_ _ Hstart _] Hof. unfold no_start, discard_start. simpl.
  destruct (LoginCompletionState.login_start _) as [st|] eqn:Hst; [|done]. simpl.
  destruct (Hstart _ eq_refl) as [history ->]. destruct Hof as [Hno|<-]; [by apply start_present in Hst|].
  simpl. by rewrite N.eqb_refl.
Qed.

Lemma discard_login_start_safe r h K :
  LoginOperation ∈ h.(locks) -> (forall s, K s -> start_of r s) ->
  safe (fun _ => no_start) h h K (discard_login_start r).
Proof.
  intros Hin HK. apply safe_block. intros s Hinv Hs.
  split_and!; [by apply quiet_block_ok, discard_start_ok|by apply discard_clears; [|apply HK]|by apply stable_no_start].
Qed.

Lemma parse_official_auth_url_official raw_url url :
  parse_official_auth_url raw_url = Some url -> official url.
Proof.
  unfold parse_official_auth_url. intros (u & _ & Hu)%bind_Some. apply bind_Some in Hu as (host & Hhost & Hu).
  destruct (_ && _) eqn:Hc; [|done]. simplify_eq. bool_hyps.
  repeat match goal with Hx : str_eqb _ _ = true |- _ => apply str_eqb_true in Hx end.
  split_and!; [done|done|by destruct (Url.password url)|done|by exists host].
Qed.

(** Once a login has started: which revision is current, as far as the browser operation pins it *)
Definition started (r : N) (disposition : StartedAttemptDisposition) (s : AccountServiceState.t) : Prop :=
  no_start s /\ match disposition with Installed => pinned r s | Completed => True | Stale => past r s end.

Lemma stable_started h r disposition :
  LoginOperation ∈ h -> BrowserOpenOperation ∈ h -> stable h (started r disposition).
Proof. intros Hl Hb. apply stable_and; [by apply stable_no_start|]. destruct disposition; auto with stability. Qed.

Lemma take_clears r login_id s :
  service_inv s -> start_of r s ->
  no_start (AccountServiceState.set_login_completion
    (take_matching_early_completion r login_id s.(AccountServiceState.login_completion)).2 s).
Proof.
  intros [_ _ Hstart _] Hof. unfold no_start, take_matching_early_completion. simpl.
  destruct (LoginCompletionState.login_start _) as [st|] eqn:Hst; [|done].
  destruct (Hstart _ eq_refl) as [history ->]. destruct Hof as [Hno|<-]; [by apply start_present in Hst|].
  simpl. by rewrite N.eqb_refl.
Qed.

Lemma start_finished_started r c login_id status s :
  service_inv s -> cap r c s -> start_of r s ->
  started r (start_finished r login_id status s).1 (start_finished r login_id status s).2.
Proof.
  intros Hinv [Hle Hc] Hof. unfold start_finished. destruct (AccountServiceState.current r s) eqn:Hcur; simpl.
  - pose proof (take_clears r login_id s Hinv Hof) as Hno.
    destruct (take_matching_early_completion _ _ _) as [[] completion]; by split.
  - split; [by apply discard_clears|]. unfold past. simpl.
    destruct (decide (s.(AccountServiceState.connection_revision) = r)) as [Heq|]; [|lia].
    exfalso. assert (AccountServiceState.current r s = true); [|congruence]. apply current_true. split; [done|].
    by rewrite Hc.
Qed.

Lemma finish_login_start_safe r c login_id h :
  LoginOperation ∈ h.(locks) -> BrowserOpenOperation ∈ h.(locks) -> h.(task) = None ->
  safe (started r) h h (fun s => cap r c s /\ start_of r s)
    (finish_login_start_with_attempt r login_id CodexRuntimeAuthStatus.BrowserPending).
Proof.
  intros Hl Hb Ht. eapply (safe_bind (started r)).
  - apply safe_block. intros s Hinv [Hcap Hof]. pose proof (start_finished_ok r login_id s Hinv).
    split_and!; [by apply quiet_block_ok|by eapply start_finished_started|by apply stable_started].
  - intros disposition. eapply (safe_bind (fun _ => started r disposition));
      [|intros _; by apply safe_mret].
    destruct disposition; [apply keeps_mret| |apply keeps_mret].
    apply schedule_background_refresh_keeps; [done|by apply stable_started].
Qed.

Lemma open_browser_safe c r login_id auth_url h :
  LoginOperation ∈ h.(locks) -> h.(task) = None -> free_for BrowserOpenOperation h -> official auth_url ->
  safe (fun _ => no_start) h h (fun s => cap r c s /\ start_of r s) (open_browser c r login_id auth_url).
Proof.
  intros Hl Ht Hfree Hurl. apply safe_acquire; [done|]. eapply safe_weaken; [|intros s [Hs _]; exact Hs].
  assert (BrowserOpenOperation ∈ locks (with_lock BrowserOpenOperation h)) as Hin by left.
  assert (LoginOperation ∈ locks (with_lock BrowserOpenOperation h)) as Hin' by (by right).
  assert (stable h.(locks) no_start) as Hst by auto with stability.
  assert (forall K (p : prog CodexRuntimeAuthStatus.t), (forall s, K s -> no_start s) -> keeps h no_start p ->
    safe (fun _ => no_start) h (with_lock BrowserOpenOperation h) K (_ ← release BrowserOpenOperation; p)) as Hrel.
  { intros K p HK Hp. apply (safe_release _ _ _ _ _ no_start); auto. }
  eapply (safe_bind (started r)); [by apply finish_login_start_safe|]. intros [].
  - apply safe_open; [done..|by intros s [_ ?]; exists r|]. intros []; cbn [negb].
    + eapply (safe_bind (fun _ => started r Installed)); [apply keeps_read; by apply stable_started|].
      intros current. apply Hrel; [by intros s []|apply keeps_mret].
    + apply Hrel; [by intros s []|]. apply cancel_started_attempt_keeps; [done|]. intros s _. by left.
  - apply Hrel; [by intros s []|by apply keeps_read].
  - eapply (safe_bind (fun _ => started r Stale)); [apply keeps_read; by apply stable_started|]. intros current.
    eapply (safe_release _ _ _ _ _ (fun s => no_start s /\ past r s)); [by intros s []|auto with stability|].
    eapply safe_post; [apply cancel_started_attempt_keeps; [auto with stability|]; intros s []; by right|by intros ? s []].
Qed.

Lemma start_browser_login_runs : keeps nothing (fun _ => True) start_browser_login.
Proof.
  apply login_operation. set (h := with_lock LoginOperation nothing).
  assert (LoginOperation ∈ h.(locks)) as Hin by left.
  assert (stable h.(locks) no_start) as Hst by auto with stability.
  eapply (safe_bind prepared); [by apply prepare_login_safe|]. intros [[c r]|status]; [|by apply safe_mret].
  apply safe_request. intros response. cbn beta iota.
  assert (forall (p : prog CodexRuntimeAuthStatus.t), keeps h no_start p ->
    safe (fun _ => no_start) h h (prepared (Ok (c, r))) (_ ← discard_login_start r; p)) as Hdiscard.
  { intros p Hp. eapply (safe_bind (fun _ => no_start)); [|intros _; exact Hp].
    apply discard_login_start_safe; [done|]. by intros s []. }
  assert (keeps h no_start (set_status_for_connection r login_unavailable_error)) as Hun.
  { apply keeps_quiet; [done|]. intros s Hinv _. by apply status_if_current_ok. }
  assert (forall login_id next, next <> CodexRuntimeAuthStatus.BrowserPending ->
    keeps h no_start (cancel_started_attempt c r login_id next)) as Hcancel.
  { intros login_id next Hnext. apply cancel_started_attempt_keeps; [done|]. intros s _. by left. }
  destruct (match response with Ok _ => _ | Err _ => _ end) as [[login_id raw|login_id ? ?|]|];
    [| |apply Hdiscard, Hun..].
  - destruct (str_eqb login_id EmptyString); [apply Hdiscard, Hun|].
    destruct (parse_official_auth_url raw) as [url|] eqn:Hurl; [|by apply Hdiscard, Hcancel].
    apply open_browser_safe; [done|done| |by eapply parse_official_auth_url_official]. repeat constructor.
  - destruct (str_eqb login_id EmptyString); [apply Hdiscard, Hun|by apply Hdiscard, Hcancel].
Qed.

(** *** Threads *)

Hint Extern 1 (free_for _ _) => repeat constructor : keeps.
Hint Extern 1 (stable _ _) => solve [auto with stability] : keeps.
Hint Extern 1 (_ ∈ locks _) => left : keeps.
Hint Resolve refresh_keeps publish_status_keeps cancel_active_attempt_keeps schedule_background_refresh_keeps
  start_browser_login_runs : keeps.

Ltac keep := repeat (apply keeps_bind; [solve [auto with keeps]|intros ?]); auto with keeps.

Lemma stable_login : stable (locks (with_lock LoginOperation nothing)) no_start.
Proof. apply stable_no_start. left. Qed.
Hint Resolve stable_login : stability.

Lemma cancel_account_login_runs : keeps nothing (fun _ => True) cancel_account_login.
Proof. apply login_operation. keep. case_match; auto with keeps. Qed.

Lemma logout_account_runs : keeps nothing (fun _ => True) logout_account.
Proof.
  apply login_operation. keep. case_match; [|auto with keeps]. keep. case_match.
  case_match; [|auto with keeps]. keep. unfold status. repeat case_match; auto with keeps.
Qed.
Hint Resolve cancel_account_login_runs logout_account_runs : keeps.

Lemma execute_command_runs command : keeps nothing (fun _ => True) (execute_command command).
Proof.
  apply keeps_bind; [auto with keeps|]. intros connected. apply keeps_bind; [|intros status; keep].
  destruct (negb connected), command; auto with keeps.
Qed.

Lemma change_runs connection status :
  status <> CodexRuntimeAuthStatus.BrowserPending -> offline status ->
  keeps nothing (fun _ => True) (holding BrowserOpenOperation (
    status ← block (change_connection connection status); _ ← publish_status status; mret status)).
Proof.
  intros Hpend Hoff. apply keeps_holding; [constructor|apply stable_true|done|]. apply keeps_bind; [|intros st; keep].
  apply safe_block. intros s Hinv _. split_and!; [|done|done]. apply change_connection_ok; [left|done..].
Qed.

Lemma on_notification_runs identity method params :
  keeps nothing (fun _ => True) (on_notification identity method params).
Proof.
  unfold on_notification. destruct (str_eqb _ _); [|destruct (str_eqb _ _)]; [..|auto with keeps].
  - unfold handle_login_completed. destruct (completed_login params) as [login_id|]; [|auto with keeps].
    apply keeps_bind; [apply keeps_quiet; [done|]; intros s Hinv _; by apply login_completed_ok|].
    intros []; auto with keeps.
  - unfold schedule_current_background_refresh. keep. case_match; auto with keeps.
Qed.

(** Whatever a thread is started for, it is safe; it starts with nothing and ends with nothing. *)
Lemma entry_program_runs entry : keeps nothing (fun _ => True) (entry_program entry).
Proof.
  destruct entry; unfold entry_program; [| | |apply on_notification_runs];
    (apply keeps_bind; [|intros ?; apply keeps_mret]).
  - apply execute_command_runs.
  - apply change_runs; [done|by left].
  - apply change_runs; [done|right; by eexists].
Qed.
End Programs.
