(* ===== verification/AccountMachine.v ===== *)
(** * The threads of the account service

    Every thread keeps to what it owns, whatever the others do in between: the invariant of the
    machines that can be reached, and what follows from it for the state, the browser and the
    locks. *)

From S2P Require Import Prelude AppJson AppConnection Account AccountThm AccountLogic.

(** ** Worlds *)

(** What a thread owns and knows *)
Notation Ctx := (Own * (AccountServiceState.t -> Prop))%type.

Record ctx_ok (s : AccountServiceState.t) (x : Ctx) : Prop := {
  cx_stable : stable x.1.(locks) x.2;
  cx_known : x.2 s;
  cx_task : task_ok x.1.(task) s;
  cx_locks : NoDup x.1.(locks);
}.

(** Who holds a lock has it among those of the thread. *)
Definition lock_owners (holder : Lock -> option nat) (held : list (list Lock)) : Prop :=
  forall l i, holder l = Some i <-> exists h, held !! i = Some h /\ l ∈ h.

(** A background refresh has one thread that sees to it. *)
Record task_owner (s : AccountServiceState.t) (tasks : list (option (N * Phase))) : Prop := {
  to_some : phase s <> None ->
    exists i a, tasks !! i = Some (Some (s.(AccountServiceState.connection_revision), a));
  to_unique i j a b : tasks !! i = Some (Some (s.(AccountServiceState.connection_revision), a)) ->
    tasks !! j = Some (Some (s.(AccountServiceState.connection_revision), b)) -> i = j;
}.

Definition held_of (ctxs : list Ctx) : list (list Lock) := (fun x => x.1.(locks)) <$> ctxs.
Definition tasks_of (ctxs : list Ctx) : list (option (N * Phase)) := (fun x => x.1.(task)) <$> ctxs.

Record world_ok (s : AccountServiceState.t) (holder : Lock -> option nat) (ctxs : list Ctx) : Prop := {
  wd_inv : service_inv s;
  wd_ctxs i x : ctxs !! i = Some x -> ctx_ok s x;
  wd_locks : lock_owners holder (held_of ctxs);
  wd_start : holder LoginOperation = None -> no_start s;
  wd_tasks : task_owner s (tasks_of ctxs);
}.

Definition set_lock (l : Lock) (v : option nat) (holder : Lock -> option nat) : Lock -> option nat :=
  fun l' => if decide (l' = l) then v else holder l'.

Lemma held_lookup ctxs i (x : Ctx) : ctxs !! i = Some x -> held_of ctxs !! i = Some x.1.(locks).
Proof. intros Hi. unfold held_of. by rewrite list_lookup_fmap, Hi. Qed.
Lemma tasks_lookup ctxs i (x : Ctx) : ctxs !! i = Some x -> tasks_of ctxs !! i = Some x.1.(task).
Proof. intros Hi. unfold tasks_of. by rewrite list_lookup_fmap, Hi. Qed.

Lemma lookup_insert_cases {A} (l : list A) i j x x' y :
  l !! i = Some x -> <[ i := x' ]> l !! j = Some y -> (j = i /\ y = x') \/ (j <> i /\ l !! j = Some y).
Proof.
  intros Hi Hj. destruct (decide (j = i)) as [->|Hne].
  - rewrite list_lookup_insert_eq in Hj by by eapply lookup_lt_Some. left. by simplify_eq.
  - rewrite list_lookup_insert_ne in Hj by done. by right.
Qed.

(** *** Owners *)

Lemma lock_owner holder held l i j h h' :
  lock_owners holder held -> held !! i = Some h -> held !! j = Some h' -> l ∈ h -> l ∈ h' -> i = j.
Proof.
  intros Hl Hi Hj Hx Hy. assert (holder l = Some i) by (apply Hl; eauto).
  assert (holder l = Some j) by (apply Hl; eauto). congruence.
Qed.

Lemma lock_free holder held l i h :
  lock_owners holder held -> held !! i = Some h -> holder l = None -> (l ∉ h).
Proof. intros Hl Hi Hnone Hin. assert (holder l = Some i) by (apply Hl; eauto). congruence. Qed.

(** A thread that takes a lock, or gives it back *)
Lemma lock_owners_set holder held i h h' l v :
  lock_owners holder held -> held !! i = Some h ->
  (forall l', l' <> l -> l' ∈ h <-> l' ∈ h') ->
  (l ∈ h' <-> v = Some i) -> (v = None \/ v = Some i) -> (holder l = None \/ holder l = Some i) ->
  lock_owners (set_lock l v holder) (<[ i := h' ]> held).
Proof.
  intros Hl Hi Hsame Hv Hvi Hwas l' j. pose proof (lookup_lt_Some _ _ _ Hi) as Hlen. unfold set_lock.
  destruct (decide (l' = l)) as [->|Hne].
  - split.
    + intros Hj. assert (j = i) as -> by (destruct Hvi; congruence). exists h'.
      rewrite list_lookup_insert_eq by done. split; [done|by apply Hv].
    + intros (y & Hj & Hin). destruct (lookup_insert_cases _ _ _ _ _ _ Hi Hj) as [[-> ->]|[Hne Hj']].
      * by apply Hv.
      * assert (holder l = Some j) by (apply Hl; eauto). destruct Hwas; congruence.
  - rewrite (Hl l' j). split; intros (y & Hj & Hin).
    + destruct (decide (j = i)) as [->|Hnj]; [|exists y; by rewrite list_lookup_insert_ne].
      exists h'. rewrite list_lookup_insert_eq by done. split; [done|]. simplify_eq. by apply Hsame.
    + destruct (lookup_insert_cases _ _ _ _ _ _ Hi Hj) as [[-> ->]|[Hnj Hj']]; [|by exists y].
      exists h. split; [done|by apply Hsame].
Qed.

Lemma lock_owners_new holder held : lock_owners holder held -> lock_owners holder (held ++ [[]]).
Proof.
  intros Hl l i. rewrite (Hl l i). split; intros (h & Hi & Hin); exists h; (split; [|done]).
  - by apply lookup_app_l_Some.
  - apply lookup_app_Some in Hi as [?|[_ Hi]]; [done|]. apply list_lookup_singleton_Some in Hi as [_ <-].
    by apply not_elem_of_nil in Hin.
Qed.

Lemma task_owner_new s tasks : task_owner s tasks -> task_owner s (tasks ++ [None]).
Proof.
  intros [Hsome Hun]. split.
  - intros Hph. destruct (Hsome Hph) as (i & a & Hi). exists i, a. by apply lookup_app_l_Some.
  - assert (forall i a, (tasks ++ [None]) !! i = Some (Some (AccountServiceState.connection_revision s, a)) ->
      tasks !! i = Some (Some (AccountServiceState.connection_revision s, a))) as Hin.
    { intros i a [?|[_ Hi]]%lookup_app_Some; [done|]. by apply list_lookup_singleton_Some in Hi as [_ ?]. }
    intros i j a b Hi%Hin Hj%Hin. by eapply Hun.
Qed.

(** A thread hands its background refresh to a new one. *)
Lemma task_owner_spawn s tasks i t :
  task_owner s tasks -> tasks !! i = Some t -> task_owner s (<[ i := None ]> tasks ++ [t]).
Proof.
  intros [Hsome Hun] Hi. pose proof (lookup_lt_Some _ _ _ Hi) as Hlen.
  assert (forall j x, (<[ i := None ]> tasks ++ [t]) !! j = Some (Some x) ->
    (j <> i /\ tasks !! j = Some (Some x)) \/ (j = length tasks /\ t = Some x)) as Hin.
  { intros j x [Hj|[Hle Hj]]%lookup_app_Some.
    - left. by destruct (lookup_insert_cases _ _ _ _ _ _ Hi Hj) as [[-> ?]|[]].
    - right. rewrite length_insert in *. apply list_lookup_singleton_Some in Hj as [? <-]. split; [lia|done]. }
  split.
  - intros Hph. destruct (Hsome Hph) as (j & a & Hj). destruct (decide (j = i)) as [->|Hne].
    + exists (length tasks), a. rewrite lookup_app_r; rewrite length_insert; [|done].
      rewrite Nat.sub_diag. simpl. congruence.
    + exists j, a. apply lookup_app_l_Some. by rewrite list_lookup_insert_ne.
  - intros j k a b [[Hnj Hj]|[-> Hj]]%Hin [[Hnk Hk]|[-> Hk]]%Hin; [by eapply Hun| | |done].
    + subst t. exfalso. apply Hnj. by eapply Hun.
    + subst t. exfalso. apply Hnk. by eapply Hun.
Qed.

(** *** A block *)

Lemma block_others h t h' s s' :
  block_ok h t s s' -> (s.(AccountServiceState.connection_revision) < u64_max)%N ->
  (forall l, l ∈ h.(locks) -> (l ∉ h')) -> others_change h' s s'.
Proof.
  intros [_ Hcon Hstart] Hlt Hdis. split.
  - destruct Hcon as [[Hsame _]|(Hin & _ & _ & Hno & Hrev)]; [by left|right].
    split_and!; [by apply Hdis| |done]. rewrite Hrev, N.mod_small; lia.
  - intros Hin. destruct Hstart as [Hin'|]; [by apply Hdis in Hin'|done].
Qed.

Lemma block_task h t s s' :
  block_ok h t s s' -> (s.(AccountServiceState.connection_revision) < u64_max)%N ->
  task_ok h.(task) s -> task_ok t s'.
Proof.
  intros [_ Hcon _] Hlt Ht. destruct Hcon as [[[Hr Hc] Hstep]|(_ & -> & _ & _ & Hrev)].
  - inversion Hstep as [t0 a Heq|Heq|a b Heq|a Heq|r' a b Hne Heq]; subst; simpl in *; try done.
    + destruct (task h) as [[r a]|]; [|done]. simpl in *. rewrite Hr. destruct Ht as [? Hph]. split; [done|].
      intros Heq. rewrite <- (Hph Heq). congruence.
    + rewrite Hr. split; [lia|done].
    + rewrite Hr. split; [lia|done].
  - destruct (task h) as [[r a]|]; [|done]. simpl in *. rewrite Hrev, N.mod_small by lia.
    destruct Ht as [? _]. split; [lia|]. intros Heq. lia.
Qed.

(** The background refresh of another thread *)
Lemma block_task_other h t t' s s' :
  block_ok h t s s' -> (s.(AccountServiceState.connection_revision) < u64_max)%N -> task_ok h.(task) s -> task_ok t' s ->
  (forall a b, h.(task) = Some (s.(AccountServiceState.connection_revision), a) ->
     t' = Some (s.(AccountServiceState.connection_revision), b) -> False) ->
  task_ok t' s'.
Proof.
  intros [_ Hcon _] Hlt Ht Ht' Hun. destruct t' as [[r' b']|]; [|done]. destruct Ht' as [Hle Hph].
  destruct Hcon as [[[Hr Hc] Hstep]|(_ & _ & _ & _ & Hrev)]; simpl.
  - rewrite Hr. split; [done|]. intros Heq. rewrite <- (Hph Heq). subst r'. specialize (Hph eq_refl).
    rewrite Hph in Hstep |- *.
    inversion Hstep as [t0 a Heq1|Heq1|a b Heq1|a Heq1|r0 a b Hne Heq1]; subst; try done;
      exfalso; by eapply Hun.
  - rewrite Hrev, N.mod_small by lia. split; [lia|]. intros Heq. lia.
Qed.

(** Who owns the background refresh after a block: this thread, or who owned it before *)
Lemma block_task_owner h t s s' :
  block_ok h t s s' -> phase s' <> None ->
  (exists a, t = Some (s'.(AccountServiceState.connection_revision), a)) \/
  (s'.(AccountServiceState.connection_revision) = s.(AccountServiceState.connection_revision) /\ phase s <> None /\
   forall a, h.(task) <> Some (s.(AccountServiceState.connection_revision), a)).
Proof.
  intros [_ Hcon _] Hph. destruct Hcon as [[[Hr Hc] Hstep]|(_ & _ & Hnone & _)]; [|done]. rewrite Hr.
  inversion Hstep as [t0 a Heq|Heq|a b Heq|a Heq|r' a b Hne Heq]; subst.
  - destruct (task h) as [[r b]|]; [|right; split_and!; congruence].
    destruct (decide (r = s.(AccountServiceState.connection_revision))) as [->|]; [left; by eexists|right].
    split_and!; congruence.
  - left. by eexists.
  - left. by eexists.
  - congruence.
  - right. split_and!; congruence.
Qed.

Lemma block_task_from h t s s' b :
  block_ok h t s s' -> (s.(AccountServiceState.connection_revision) < u64_max)%N -> task_ok h.(task) s ->
  t = Some (s'.(AccountServiceState.connection_revision), b) ->
  s'.(AccountServiceState.connection_revision) = s.(AccountServiceState.connection_revision) /\
  (phase s = None \/ exists a, h.(task) = Some (s.(AccountServiceState.connection_revision), a)).
Proof.
  intros [_ Hcon _] Hlt Ht Hb. destruct Hcon as [[[Hr Hc] Hstep]|(_ & Heq & _ & _ & Hrev)].
  - split; [done|]. rewrite Hr in Hb. inversion Hstep; subst; simplify_eq; eauto.
  - rewrite Hb in Heq. rewrite <- Heq in Ht. destruct Ht as [Ht _]. rewrite Hrev, N.mod_small in Ht; lia.
Qed.

(** The background refreshes of all, when thread [i] runs a block *)
Lemma task_owner_block tasks i h t s s' :
  task_owner s tasks -> tasks !! i = Some h.(task) -> block_ok h t s s' ->
  (s.(AccountServiceState.connection_revision) < u64_max)%N ->
  (forall j t', tasks !! j = Some t' -> task_ok t' s) ->
  task_owner s' (<[ i := t ]> tasks).
Proof.
  intros [Hsome Hun] Hi Hb Hlt Hok. pose proof (lookup_lt_Some _ _ _ Hi) as Hlen.
  assert (forall j b, j <> i -> tasks !! j = Some (Some (s'.(AccountServiceState.connection_revision), b)) ->
    s'.(AccountServiceState.connection_revision) = s.(AccountServiceState.connection_revision) /\ phase s <> None) as Hcur.
  { intros j b Hne Hj. pose proof (Hok _ _ Hj) as [Hle Hph].
    destruct Hb as [_ [[[Hr _] _]|(_ & _ & _ & _ & Hrev)] _].
    - split; [done|]. by rewrite Hph.
    - rewrite Hrev, N.mod_small in Hle; lia. }
  assert (forall j a b, j <> i -> tasks !! j = Some (Some (s'.(AccountServiceState.connection_revision), a)) ->
    t = Some (s'.(AccountServiceState.connection_revision), b) -> False) as Hno.
  { intros j a b Hne Hj Hb'. destruct (Hcur _ _ Hne Hj) as [Hr Hph].
    destruct (block_task_from _ _ _ _ _ Hb Hlt (Hok _ _ Hi) Hb') as [_ [|[a' Ha']]]; [done|].
    apply Hne. rewrite Hr in Hj. rewrite Ha' in Hi. by eapply Hun. }
  split.
  - intros Hph. destruct (block_task_owner _ _ _ _ Hb Hph) as [[a ->]|(Hr & Hph' & Hnot)].
    + exists i, a. by rewrite list_lookup_insert_eq.
    + destruct (Hsome Hph') as (j & a & Hj). exists j, a. rewrite Hr.
      rewrite list_lookup_insert_ne; [done|]. intros <-. simplify_eq. by eapply Hnot.
  - intros j k a b Hj Hk.
    destruct (lookup_insert_cases _ _ _ _ _ _ Hi Hj) as [[-> Hj']|[Hnj Hj']];
      destruct (lookup_insert_cases _ _ _ _ _ _ Hi Hk) as [[-> Hk']|[Hnk Hk']]; [done| | |].
    + exfalso. by eapply (Hno k).
    + exfalso. by eapply (Hno j).
    + destruct (Hcur _ _ Hnj Hj') as [Hr _]. rewrite Hr in Hj', Hk'. by eapply Hun.
Qed.

(** ** Steps of a world *)

Lemma world_block s holder ctxs i h K t s' (K' : AccountServiceState.t -> Prop) :
  world_ok s holder ctxs -> ctxs !! i = Some (h, K) -> block_ok h t s s' ->
  (s.(AccountServiceState.connection_revision) < u64_max)%N -> K' s' -> stable h.(locks) K' ->
  world_ok s' holder (<[ i := (with_task t h, K') ]> ctxs).
Proof.
  intros [Hinv Hctx Hl Hstart Htask] Hi Hb Hlt HK' Hst. pose proof (Hctx _ _ Hi) as [_ _ Hti Hnd].
  simpl in Hti, Hnd. pose proof (held_lookup _ _ _ Hi) as Hhi. pose proof (tasks_lookup _ _ _ Hi) as Hti'. split.
  - apply Hb.
  - intros j y Hj. destruct (lookup_insert_cases _ _ _ _ _ _ Hi Hj) as [[-> ->]|[Hne Hj']].
    + split; [done|done| |done]. by eapply block_task.
    + pose proof (Hctx _ _ Hj') as [Hsj Hkj Htj Hnj]. split; [done| | |done].
      * eapply Hsj; [done|]. eapply block_others; [done|done|]. intros l Hin Hin'. apply Hne.
        by eapply (lock_owner _ _ l j i); [done|by apply held_lookup|..].
      * eapply block_task_other; [done..|]. intros a b Ha Hb'. apply Hne.
        eapply (to_unique _ _ Htask j i); [|by rewrite Hti', <- Ha]. by rewrite <- Hb'; apply tasks_lookup.
  - unfold held_of. rewrite list_fmap_insert. by rewrite list_insert_id.
  - intros Hnone. destruct Hb as [_ _ [Hin|Hno]]; [|by apply Hno, Hstart].
    by destruct (lock_free _ _ _ _ _ Hl Hhi Hnone).
  - unfold tasks_of. rewrite list_fmap_insert. simpl. eapply task_owner_block; [done..|].
    intros j t' Hj. unfold tasks_of in Hj. apply list_lookup_fmap_Some in Hj as (y & -> & Hj). apply (Hctx _ _ Hj).
Qed.

(** A step that changes what a thread owns and knows, but not the state *)
Lemma world_own s holder holder' ctxs i (x x' : Ctx) :
  world_ok s holder ctxs -> ctxs !! i = Some x -> ctx_ok s x' -> x'.1.(task) = x.1.(task) ->
  lock_owners holder' (<[ i := x'.1.(locks) ]> (held_of ctxs)) ->
  (holder' LoginOperation = None -> no_start s) ->
  world_ok s holder' (<[ i := x' ]> ctxs).
Proof.
  intros [Hinv Hctx Hl Hstart Htask] Hi Hx' Ht Hl' Hstart'. split; [done| | |done|].
  - intros j y Hj. destruct (lookup_insert_cases _ _ _ _ _ _ Hi Hj) as [[-> ->]|[Hne Hj']]; [done|by eapply Hctx].
  - unfold held_of. by rewrite list_fmap_insert.
  - unfold tasks_of. rewrite list_fmap_insert, list_insert_id; [done|]. rewrite Ht. by apply tasks_lookup.
Qed.

Lemma world_acquire s holder ctxs i h K l :
  world_ok s holder ctxs -> ctxs !! i = Some (h, K) -> holder l = None ->
  world_ok s (set_lock l (Some i) holder)
    (<[ i := (with_lock l h, fun s => K s /\ (l = LoginOperation -> no_start s)) ]> ctxs).
Proof.
  intros Hw Hi Hfree. pose proof Hw as [_ Hctx Hl Hstart _]. pose proof (Hctx _ _ Hi) as [Hst Hk Hti Hnd].
  pose proof (held_lookup _ _ _ Hi) as Hhi. pose proof (lock_free _ _ _ _ _ Hl Hhi Hfree) as Hnew.
  eapply world_own; [done|exact Hi| |done| |].
  - split; simpl; [|split; [done|intros ->; auto]|done|by constructor].
    apply stable_and; [by apply stable_more|]. intros s1 s2 H1 [_ Hno] ->. apply Hno; [left|auto].
  - eapply lock_owners_set; [exact Hl|exact Hhi| | |by right|by left]; simpl.
    + intros l' Hne. rewrite elem_of_cons. naive_solver.
    + split; [done|]. intros _. left.
  - unfold set_lock. case_decide; [done|apply Hstart].
Qed.

Lemma world_release s holder ctxs i h (K K' : AccountServiceState.t -> Prop) l :
  world_ok s holder ctxs -> ctxs !! i = Some (with_lock l h, K) ->
  (forall s, K s -> K' s /\ (l = LoginOperation -> no_start s)) -> stable h.(locks) K' ->
  world_ok s (set_lock l None holder) (<[ i := (h, K') ]> ctxs).
Proof.
  intros Hw Hi Hsub Hst. pose proof Hw as [_ Hctx Hl Hstart _]. pose proof (Hctx _ _ Hi) as [_ Hk Hti Hnd].
  pose proof (held_lookup _ _ _ Hi) as Hhi. simpl in *. apply list.NoDup_cons in Hnd as [Hnot Hnd].
  destruct (Hsub _ Hk) as [HK' Hno]. eapply world_own; [done|exact Hi|by split|done| |].
  - eapply lock_owners_set; [exact Hl|exact Hhi| | |by left|]; simpl.
    + intros l' Hne. rewrite elem_of_cons. naive_solver.
    + naive_solver.
    + right. apply Hl. eexists. split; [done|]. left.
  - unfold set_lock. case_decide; [auto|apply Hstart].
Qed.

Lemma world_enter s holder ctxs :
  world_ok s holder ctxs -> world_ok s holder (ctxs ++ [(nothing, fun _ => True)]).
Proof.
  intros [Hinv Hctx Hl Hstart Htask]. split; [done| | |done|].
  - intros j y [Hj|[_ Hj]]%lookup_app_Some; [by eapply Hctx|]. apply list_lookup_singleton_Some in Hj as [_ <-].
    split; [apply stable_true|done|done|constructor].
  - unfold held_of. rewrite fmap_app. by apply lock_owners_new.
  - unfold tasks_of. rewrite fmap_app. by apply task_owner_new.
Qed.

Lemma world_spawn s holder ctxs i h K r :
  world_ok s holder ctxs -> ctxs !! i = Some (h, K) -> h.(task) = Some (r, Waiting) ->
  world_ok s holder (<[ i := (with_task None h, K) ]> ctxs ++ [(own [] (Some (r, Waiting)), fun _ => True)]).
Proof.
  intros [Hinv Hctx Hl Hstart Htask] Hi Ht. pose proof (Hctx _ _ Hi) as [Hst Hk Hti Hnd].
  pose proof (held_lookup _ _ _ Hi) as Hhi. split; [done| | |done|].
  - intros j y [Hj|[_ Hj]]%lookup_app_Some.
    + destruct (lookup_insert_cases _ _ _ _ _ _ Hi Hj) as [[-> ->]|[Hne Hj']]; [by split|by eapply Hctx].
    + apply list_lookup_singleton_Some in Hj as [_ <-]. split; [apply stable_true|done| |constructor].
      simpl fst in Hti. by rewrite Ht in Hti.
  - unfold held_of. rewrite fmap_app, list_fmap_insert. simpl. apply lock_owners_new. by rewrite list_insert_id.
  - unfold tasks_of. rewrite fmap_app, list_fmap_insert. simpl. apply task_owner_spawn; [done|].
    rewrite <- Ht. by apply (tasks_lookup _ _ _ Hi).
Qed.

(** ** Steps of a machine *)

Section Machines.
Context `{AccountJson, UrlParser}.

Definition thread_ok (p : prog unit) (x : Ctx) : Prop := safe (fun _ _ => True) nothing x.1 x.2 p.

Definition machine_ok (m : Machine.t) : Prop :=
  exists ctxs, world_ok m.(Machine.service) m.(Machine.holder) ctxs /\
               Forall2 thread_ok m.(Machine.threads) ctxs.

Lemma new_machine_ok : machine_ok Machine.new.
Proof.
  exists []. split; [|constructor]. split; [|done| |done|].
  - split; [done| |done|done]. intros _. split_and!; [done..|by left].
  - intros l i. split; [done|]. by intros (h & ? & _).
  - by split.
Qed.

Lemma advance_ok m m' i answer :
  machine_ok m -> (m.(Machine.service).(AccountServiceState.connection_revision) < u64_max)%N ->
  advance i answer m = Some m' -> machine_ok m'.
Proof.
  intros (ctxs & Hw & Hth) Hlt (p & Hp & Hstep)%bind_Some.
  destruct (Forall2_lookup_l _ _ _ _ _ Hth Hp) as ([h K] & Hi & Hsafe). unfold thread_ok in Hsafe. simpl in Hsafe.
  pose proof Hw as [Hinv Hctx _ _ _]. pose proof (Hctx _ _ Hi) as [Hst Hk Hti _]. simpl in Hst, Hk, Hti.
  assert (forall x p' m1, ctxs !! i = Some x -> thread_ok p' x -> m1.(Machine.threads) = m.(Machine.threads) ->
    m1.(Machine.service) = m.(Machine.service) -> m1.(Machine.holder) = m.(Machine.holder) ->
    machine_ok (Machine.set_threads (<[ i := p' ]> m1.(Machine.threads)) m1)) as Hsame.
  { intros x p' m1 Hx Hok Ht Hs Hh. exists ctxs. simpl. rewrite Ht, Hs, Hh. split; [done|].
    rewrite <- (list_insert_id ctxs i x) by done. by apply Forall2_insert. }
  apply bind_Some in Hstep as ([p' m1] & Hstep & [= <-]).
  destruct Hsafe as [K a|h K t K' f k Hok Hk'|h K l k Hfree Hk'|h K K' l k Hsub Hst' Hk'|h K c me ps k Hk'
    |h K url k Hurl Hin Hc Hk'|h K r k Ht Hk' Hk''|h K k Hk'|h K st k Hk']; simpl in Hstep; simplify_eq.
  - destruct (Hok _ Hinv Hti Hk) as (Hb & HK & Hs). eexists. split; [by eapply world_block|].
    simpl. apply Forall2_insert; [done|]. by apply Hk'.
  - destruct (m.(Machine.holder) l) eqn:Hl; simplify_eq. eexists. split; [by apply (world_acquire _ _ _ _ _ _ l Hw Hi)|].
    by apply Forall2_insert.
  - eexists. split; [by eapply world_release|]. by apply Forall2_insert.
  - apply (Hsame (h, K)); [done|apply Hk'|done..].
  - apply (Hsame (h, K)); [done|apply Hk'|done..].
  - destruct (Response.ok answer).
    + eexists. split; [by eapply world_spawn|]. simpl.
      rewrite insert_app_l by by eapply lookup_lt_Some. apply Forall2_app; [by apply Forall2_insert|].
      constructor; [apply run_background_refresh_safe|constructor].
    + by apply (Hsame (h, K)).
  - apply (Hsame (h, K)); [done|apply Hk'|done..].
  - by apply (Hsame (h, K)).
Qed.

Lemma advance_revision m m' i answer :
  machine_ok m -> (m.(Machine.service).(AccountServiceState.connection_revision) < u64_max)%N ->
  advance i answer m = Some m' ->
  (m'.(Machine.service).(AccountServiceState.connection_revision)
     <= m.(Machine.service).(AccountServiceState.connection_revision) + 1)%N.
Proof.
  intros (ctxs & Hw & Hth) Hlt (p & Hp & Hstep)%bind_Some.
  destruct (Forall2_lookup_l _ _ _ _ _ Hth Hp) as ([h K] & Hi & Hsafe).
  pose proof Hw as [Hinv Hctx _ _ _]. pose proof (Hctx _ _ Hi) as [Hst Hk Hti _].
  apply bind_Some in Hstep as ([p' m1] & Hstep & [= <-]). unfold thread_ok in Hsafe. simpl in *.
  destruct p; simpl in Hstep; repeat case_match; simplify_eq; simpl; try lia.
  inversion Hsafe as [|? ? t K' ? ? Hok| | | | | | |]; subst. destruct (Hok _ Hinv Hti Hk) as ([_ Hcon _] & _).
  destruct Hcon as [[[-> _] _]|(_ & _ & _ & _ & ->)]; [lia|]. rewrite N.mod_small; lia.
Qed.

(** A run of so many steps *)
Definition account_run (n : nat) (m : Machine.t) : Prop := nsteps machine_step n Machine.new m.

(** As long as the revisions have not wrapped around, which takes 2^64 steps *)
Lemma run_ok n m :
  account_run n m -> (N.of_nat n <= u64_max)%N ->
  machine_ok m /\ (m.(Machine.service).(AccountServiceState.connection_revision) <= N.of_nat n)%N.
Proof.
  revert m. induction n as [|n IH]; intros m Hrun Hn.
  - inversion Hrun; subst. split; [apply new_machine_ok|done].
  - apply nsteps_inv_r in Hrun as (m1 & Hrun & Hstep). destruct (IH m1 Hrun) as [Hok Hle]; [lia|].
    destruct Hstep as [entry|i answer m' Hadv].
    + split; [|simpl; lia]. destruct Hok as (ctxs & Hw & Hth).
      exists (ctxs ++ [(nothing, fun _ => True)]). split; [by apply world_enter|].
      apply Forall2_app; [done|]. constructor; [apply entry_program_runs|constructor].
    + split; [eapply advance_ok; [done| |done]; lia|]. pose proof (advance_revision _ _ _ _ Hok ltac:(lia) Hadv). lia.
Qed.

(** ** Locks *)

Definition finished (p : prog unit) : bool := match p with Ret _ => true | _ => false end.

Lemma finished_owns_nothing p x : thread_ok p x -> finished p = true -> x.1 = nothing.
Proof. intros Hok Hp. destruct p; try done. by inversion Hok. Qed.

Lemma owner_unfinished m ctxs l j :
  world_ok m.(Machine.service) m.(Machine.holder) ctxs -> Forall2 thread_ok m.(Machine.threads) ctxs ->
  m.(Machine.holder) l = Some j ->
  exists p x, m.(Machine.threads) !! j = Some p /\ thread_ok p x /\ l ∈ x.1.(locks) /\ finished p = false.
Proof.
  intros [_ _ Hl _ _] Hth Hj. apply Hl in Hj as (h & Hj & Hin). unfold held_of in Hj.
  apply list_lookup_fmap_Some in Hj as (x & -> & Hj). destruct (Forall2_lookup_r _ _ _ _ _ Hth Hj) as (p & Hp & Hok).
  exists p, x. split_and!; [done..|]. destruct (finished p) eqn:Hf; [|done].
  by rewrite (finished_owns_nothing p x Hok Hf) in Hin; apply not_elem_of_nil in Hin.
Qed.

(** Whoever waits for a lock waits for one that comes after all that are held. *)
Lemma some_thread_advances m answer n i p :
  machine_ok m -> m.(Machine.threads) !! i = Some p -> finished p = false ->
  (forall l k, p = Acquire l k -> 3 - rank l < n) ->
  exists j m', advance j answer m = Some m'.
Proof.
  intros (ctxs & Hw & Hth). revert i p. induction n as [|n IH]; intros i p Hp Hf Hn.
  - destruct p as [| |l k| | | | | |]; try done; [|specialize (Hn l k eq_refl); lia|..];
      exists i; eexists; unfold advance; rewrite Hp; reflexivity.
  - destruct p as [| |l k| | | | | |]; try done;
      try (exists i; eexists; unfold advance; rewrite Hp; reflexivity).
    destruct (m.(Machine.holder) l) as [j|] eqn:Hj.
    + destruct (owner_unfinished m ctxs l j Hw Hth Hj) as (p & x & Hp' & Hok & Hin & Hf').
      apply (IH j p Hp' Hf'). intros l' k' ->. specialize (Hn l k eq_refl).
      inversion Hok as [| |? ? ? ? Hfree| | | | | |]; subst. unfold free_for in Hfree. rewrite list.Forall_forall in Hfree.
      specialize (Hfree l Hin). simpl in Hfree. destruct l, l'; simpl in *; lia.
    + exists i. eexists. unfold advance. rewrite Hp. simpl. rewrite Hj. reflexivity.
Qed.

(** ** Theorems *)

(** C30: in every machine that fewer than 2^64 steps lead to, whatever the order in which commands,
    connection changes, notifications and refreshes interleave: without a connection no
    login is active, none is being started, no refresh is pending, and the status says nothing
    of an account; a browser is pending only for an active login; and the early completions are
    those of the current connection. *)
Theorem account_state_consistent n m :
  account_run n m -> (N.of_nat n <= u64_max)%N -> service_inv m.(Machine.service).
Proof. intros Hrun Hn. destruct (run_ok n m Hrun Hn) as [(ctxs & Hw & _) _]. apply Hw. Qed.

(** C16: a thread that is about to open the browser opens an official page, over https on the
    standard port and without credentials, while there is a connection; and it holds the
    browser operation, so that the connection cannot change before the page is open. *)
Theorem browser_opens_official_page n m i url k :
  account_run n m -> (N.of_nat n <= u64_max)%N -> m.(Machine.threads) !! i = Some (OpenUrl url k) ->
  official url /\ m.(Machine.holder) BrowserOpenOperation = Some i /\
  m.(Machine.service).(AccountServiceState.connection) <> None.
Proof.
  intros Hrun Hn Hp. destruct (run_ok n m Hrun Hn) as [(ctxs & Hw & Hth) _].
  destruct (Forall2_lookup_l _ _ _ _ _ Hth Hp) as (x & Hi & Hok). pose proof Hw as [_ Hctx Hl _ _].
  inversion Hok as [| | | | |? ? ? ? Hurl Hin Hc _| | |]; subst. split_and!; [done| |].
  - apply Hl. exists x.1.(locks). split; [by apply held_lookup|done].
  - apply Hc. apply (Hctx _ _ Hi).
Qed.

(** C15: the threads cannot block each other. While one of them has something left to do, one can go
    on, whatever the calls answer. *)
Theorem account_never_deadlocks n m i p answer :
  account_run n m -> (N.of_nat n <= u64_max)%N -> m.(Machine.threads) !! i = Some p -> finished p = false ->
  exists j m', advance j answer m = Some m'.
Proof.
  intros Hrun Hn Hp Hf. destruct (run_ok n m Hrun Hn) as [Hok _].
  eapply (some_thread_advances m answer 4); [done..|]. intros l k _. lia.
Qed.

(** Once every thread is done, nothing is left behind: no lock is held, no login is being
    started, and no background refresh is scheduled or running, so that the next notification
    starts one. *)
Theorem account_leaves_nothing n m :
  account_run n m -> (N.of_nat n <= u64_max)%N -> forallb finished m.(Machine.threads) = true ->
  (forall l, m.(Machine.holder) l = None) /\
  m.(Machine.service).(AccountServiceState.login_completion) = LoginCompletionState.default.
Proof.
  intros Hrun Hn Hall. destruct (run_ok n m Hrun Hn) as [(ctxs & Hw & Hth) _].
  assert (forall i x, ctxs !! i = Some x -> x.1 = nothing) as Hnothing.
  { intros i x Hi. destruct (Forall2_lookup_r _ _ _ _ _ Hth Hi) as (p & Hp & Hok).
    eapply finished_owns_nothing; [done|]. rewrite forallb_forall in Hall. apply Hall.
    by apply list_elem_of_In, (list_elem_of_lookup_2 _ i). }
  assert (forall l, m.(Machine.holder) l = None) as Hlocks.
  { intros l. destruct (m.(Machine.holder) l) as [j|] eqn:Hj; [|done].
    destruct (owner_unfinished m ctxs l j Hw Hth Hj) as (p & x & Hp & _ & _ & Hf).
    rewrite forallb_forall in Hall. rewrite Hall in Hf; [done|]. by apply list_elem_of_In, (list_elem_of_lookup_2 _ j). }
  split; [done|]. destruct Hw as [_ _ _ Hstart [Hsome _]]. pose proof (Hstart (Hlocks _)) as Hno.
  unfold no_start in Hno. assert (phase m.(Machine.service) = None) as Hph.
  { destruct (phase m.(Machine.service)) eqn:Hph; [|done]. destruct Hsome as (i & a & Hi); [done|].
    unfold tasks_of in Hi. apply list_lookup_fmap_Some in Hi as (x & Hx & Hi). by rewrite (Hnothing _ _ Hi) in Hx. }
  unfold phase in Hph. destruct (AccountServiceState.login_completion _) as [start refresh]. simpl in *.
  by destruct refresh; simplify_eq.
Qed.
End Machines.
