(* ===== verification/StoredFile.v ===== *)
(** * Versioned documents in a file (identity/storage.rs, project/storage.rs)

    The two settings of the desktop that are kept in one JSON document each, the identity and
    the recent projects, are read and replaced by the same code over a different body: a read
    that moves a document which does not parse out of the way, and a write that installs a
    complete sibling. What the operating system may refuse is an argument ([Io]). *)

From S2P Require Import Prelude TaskArtifact TaskReceipt TaskMachine TaskStore.

Definition FILE_VERSION : N := 1.

Module StorageError.
Inductive t := Read | UnsupportedVersion | Write.
#[global] Instance eq_dec : EqDecision t.
Proof. solve_decision. Defined.
End StorageError.

Module Document.
Record t (A : Type) := mk { version : N; body : A }.
Arguments mk {A} version body.
Arguments version {A} _.
Arguments body {A} _.
End Document.

(** [serde_json] on a document and on its envelope, which looks at the version only *)
Class DocumentFormat (A : Type) := {
  document_to_pretty : Document.t A -> option string;
  envelope_from_slice : string -> option N;
  document_from_slice : string -> option (Document.t A);
}.
Class DocumentFormatLaws (A : Type) `{DocumentFormat A} : Prop := document_from_to d bytes :
  document_to_pretty d = Some bytes ->
  envelope_from_slice (bytes +:+ newline) = Some d.(Document.version) /\
  document_from_slice (bytes +:+ newline) = Some d.

Section File.
Context {A : Type} `{DocumentFormat A} (limit : N).

Definition FileM := M TaskFile StorageError.t.

Definition quarantine_document (io : Io.t) : FileM (option (Document.t A)) :=
  _ ← reject_if (negb io.(Io.quarantine)) StorageError.Read;
  _ ← modify (fun _ => None);
  mret None.

Definition read_versioned (io : Io.t) : FileM (option (Document.t A)) :=
  file ← get;
  _ ← reject_if (negb io.(Io.read)) StorageError.Read;
  match file with
  | None => mret None
  | Some contents =>
    _ ← reject_if (limit <? len contents)%N StorageError.Read;
    match envelope_from_slice contents with
    | None => quarantine_document io
    | Some version =>
      _ ← reject_if (negb (version =? FILE_VERSION)%N) StorageError.UnsupportedVersion;
      match document_from_slice contents with
      | Some document => mret (Some document)
      | None => quarantine_document io
      end
    end
  end.

Definition replace_document (io : Io.t) (body : A) : FileM unit :=
  document ← read_versioned io;
  _ ← reject_if (is_some_and (fun d => negb (d.(Document.version) =? FILE_VERSION)%N) document)
        StorageError.UnsupportedVersion;
  contents ← lift (ok_or (document_to_pretty (Document.mk FILE_VERSION body)) StorageError.Write);
  _ ← reject_if (negb io.(Io.write)) StorageError.Write;
  modify (fun _ => Some (contents +:+ newline)).

(** ** What the file holds *)

Definition file_holds (file : TaskFile) (d : Document.t A) : Prop :=
  exists bytes, file = Some bytes /\ (len bytes <= limit)%N /\
    envelope_from_slice bytes = Some FILE_VERSION /\ document_from_slice bytes = Some d.

Lemma file_holds_unique file d d' : file_holds file d -> file_holds file d' -> d = d'.
Proof. intros (? & -> & _ & _ & Hd) (? & [= <-] & _ & _ & Hd'). congruence. Qed.

Lemma read_versioned_ok io file d file' :
  read_versioned io file = (Ok d, file') ->
  match d with
  | Some d => file' = file /\ file_holds file d
  | None => file' = None
  end.
Proof.
  unfold read_versioned, quarantine_document. intros Hrun. run_cases Hrun; try done.
  match goal with Hl : (_ <? _)%N = false |- _ => apply N.ltb_ge in Hl end.
  match goal with Hv : negb _ = false |- _ => apply negb_false_iff, N.eqb_eq in Hv; subst end.
  split; [done|]. eexists. eauto.
Qed.

Lemma read_versioned_err io file e file' : read_versioned io file = (Err e, file') -> file' = file.
Proof. unfold read_versioned, quarantine_document. intros Hrun. by run_cases Hrun. Qed.

(** A file that holds a document is found as it is. *)
Lemma read_versioned_holds io file d :
  file_holds file d ->
  read_versioned io file = (if io.(Io.read) then Ok (Some d) else Err StorageError.Read, file).
Proof.
  intros (bytes & -> & Hlen & Henv & Hdoc). unfold read_versioned, get, reject_if, mbind, M_bind.
  destruct io.(Io.read); simpl; [|done]. apply N.ltb_ge in Hlen. rewrite Hlen, Henv. simpl. by rewrite Hdoc.
Qed.

(** A write installs the document or leaves a file that held one. *)
Lemma replace_document_wrote io body file file' :
  replace_document io body file = (Ok tt, file') ->
  exists bytes, document_to_pretty (Document.mk FILE_VERSION body) = Some bytes /\
    file' = Some (bytes +:+ newline).
Proof.
  unfold replace_document. intros Hrun. run_inv Hrun.
  match goal with Hok : ok_or _ _ = _ |- _ => apply ok_or_ok in Hok end. by eexists.
Qed.

Lemma replace_document_ok (Hlaws : DocumentFormatLaws A) io body file file' :
  replace_document io body file = (Ok tt, file') ->
  exists bytes, document_to_pretty (Document.mk FILE_VERSION body) = Some bytes /\
    file' = Some (bytes +:+ newline) /\
    ((len (bytes +:+ newline) <= limit)%N -> file_holds file' (Document.mk FILE_VERSION body)).
Proof.
  intros (bytes & Hto & ->)%replace_document_wrote. destruct (document_from_to _ _ Hto) as [Henv Hdoc].
  exists bytes. split_and!; [done..|]. intros Hlen. eexists. eauto.
Qed.

(** The file is absent, or holds a document of this version. *)
Definition file_usable (file : TaskFile) : Prop :=
  file = None \/ exists d, file_holds file d /\ d.(Document.version) = FILE_VERSION.

Lemma read_versioned_usable io file :
  file_usable file -> exists d, read_versioned io file = (if io.(Io.read) then Ok d else Err StorageError.Read, file) /\
    is_some_and (fun d => negb (d.(Document.version) =? FILE_VERSION)%N) d = false.
Proof.
  intros [->|(d & Hd & Hv)].
  - exists None. split; [|done]. unfold read_versioned, get, reject_if, mbind, M_bind. by destruct io.(Io.read).
  - exists (Some d). rewrite (read_versioned_holds io file d Hd). simpl. by rewrite Hv.
Qed.

(** A usable file is replaced whatever the size of the document. *)
Lemma replace_document_runs io body file bytes :
  file_usable file -> io.(Io.read) = true -> io.(Io.write) = true ->
  document_to_pretty (Document.mk FILE_VERSION body) = Some bytes ->
  replace_document io body file = (Ok tt, Some (bytes +:+ newline)).
Proof.
  intros Hf Hr Hw Hto. destruct (read_versioned_usable io file Hf) as (d & Hread & Hd). rewrite Hr in Hread.
  unfold replace_document. erewrite bind_ok by exact Hread. rewrite Hd. erewrite bind_ok by done.
  rewrite Hto. erewrite bind_ok by done. rewrite Hw. by erewrite bind_ok by done.
Qed.

Lemma replace_document_err io body file d e file' :
  file_holds file d -> replace_document io body file = (Err e, file') -> file' = file.
Proof.
  intros Hholds. pose proof (read_versioned_holds io file d Hholds) as Hread. unfold replace_document.
  intros Hrun. apply bind_err_iff in Hrun as [Hrun|(x & f1 & Hx & Hrun)]; [congruence|].
  assert (f1 = file) as -> by congruence. by err_inv Hrun.
Qed.
End File.
