(* ===== verification/Identity.v ===== *)
(** * The identity of this device (identity/)

    A name and two ids, made up on first use and kept in one file. The service caches the
    identity behind a mutex; what is stored was checked and what is read is checked again. *)

From S2P Require Import Prelude TaskArtifact TaskReceipt TaskMachine TaskStore StoredFile.

Definition DEFAULT_DISPLAY_NAME : string := "本机用户".
Definition MAX_DISPLAY_NAME_BYTES : N := 80.
Definition GENERATED_ID_HEX_BYTES : N := 32.
Definition MAX_MEMBERSHIP_ID_BYTES : N := 128.
Definition MAX_IDENTITY_BYTES : N := 16 * 1024.

(** ** Data *)

Module BrainMembershipRole.
Inductive t := Owner | Member.
#[global] Instance eq_dec : EqDecision t.
Proof. solve_decision. Defined.
End BrainMembershipRole.

Module BrainMembershipSummary.
Record t := mk { brain_id : string; member_id : string; role : BrainMembershipRole.t }.
#[global] Instance eq_dec : EqDecision t.
Proof. solve_decision. Defined.
End BrainMembershipSummary.

Module RivloomIdentity.
Record t := mk {
  identity_id : string;
  display_name : string;
  device_id : string;
  brain_membership : option BrainMembershipSummary.t;
}.
#[global] Instance eq_dec : EqDecision t.
Proof. solve_decision. Defined.
Definition set_display_name (v : string) (i : t) : t :=
  mk i.(identity_id) v i.(device_id) i.(brain_membership).
End RivloomIdentity.

Module IdentityServiceError.
Inductive t := Storage | InvalidDisplayName | InvalidStoredIdentity | State.
#[global] Instance eq_dec : EqDecision t.
Proof. solve_decision. Defined.
End IdentityServiceError.

(** ** Names *)

(** The characters of a string, each as its bytes *)
Fixpoint char_strings (s : string) : list string :=
  match s with
  | EmptyString => []
  | String a s1 =>
    let b0 := byte_of a in
    if (b0 <? 128)%N then String a EmptyString :: char_strings s1 else
    match s1 with
    | EmptyString => []
    | String a1 s2 =>
      if (b0 <? 224)%N then String a (String a1 EmptyString) :: char_strings s2 else
      match s2 with
      | EmptyString => []
      | String a2 s3 =>
        if (b0 <? 240)%N then String a (String a1 (String a2 EmptyString)) :: char_strings s3 else
        match s3 with
        | EmptyString => []
        | String a3 s4 =>
          String a (String a1 (String a2 (String a3 EmptyString))) :: char_strings s4
        end
      end
    end
  end.

Definition is_space (c : string) : bool := existsb is_whitespace (chars c).

(** [str::split_whitespace], with the word that is being read *)
Fixpoint words (word : string) (cs : list string) : list string :=
  match cs with
  | [] => if is_empty word then [] else [word]
  | c :: cs =>
    if is_space c
    then (if is_empty word then words EmptyString cs else word :: words EmptyString cs)
    else words (word +:+ c) cs
  end.
Definition split_whitespace (s : string) : list string := words EmptyString (char_strings s).

Definition normalize_display_name (display_name : string) : result IdentityServiceError.t string :=
  let normalized := String.concat " " (split_whitespace display_name) in
  if is_empty normalized || (MAX_DISPLAY_NAME_BYTES <? len normalized)%N
  then Err IdentityServiceError.InvalidDisplayName else Ok normalized.

(** ** Ids *)

Definition valid_generated_id (value prefix : string) : bool :=
  is_some_and (fun suffix => (len suffix =? GENERATED_ID_HEX_BYTES)%N && bytes_all is_lower_hex suffix)
    (strip_prefix prefix value).

Definition valid_membership_id (value : string) : bool :=
  negb (is_empty value) && (len value <=? MAX_MEMBERSHIP_ID_BYTES)%N
  && bytes_all (fun b => is_ascii_alphanumeric b || (b =? 45)%N || (b =? 95)%N || (b =? 46)%N) value.

Inductive IdentityIdKind := Identity | Device.
Definition id_prefix (kind : IdentityIdKind) : string :=
  match kind with Identity => "identity-v1-" | Device => "device-v1-" end.

(** [{:x}] with so many digits: the value is below 16 to their number. *)
Fixpoint hex_digits (n : nat) (v : N) : string :=
  match n with
  | O => EmptyString
  | S n => hex_digits n (v / 16) +:+ String (hex_digit (v mod 16)) EmptyString
  end.

(** The two [u64] that the hashers finish with are drawn. *)
Definition generate (kind : IdentityIdKind) (first second : N) : string :=
  id_prefix kind +:+ hex_digits 16 first +:+ hex_digits 16 second.

Definition validate_stored_identity (identity : RivloomIdentity.t) : result IdentityServiceError.t unit :=
  _ ← refuse (negb (valid_generated_id identity.(RivloomIdentity.identity_id) "identity-v1-")
              || negb (valid_generated_id identity.(RivloomIdentity.device_id) "device-v1-")
              || negb (bool_decide (normalize_display_name identity.(RivloomIdentity.display_name)
                                    = Ok identity.(RivloomIdentity.display_name))))
        IdentityServiceError.InvalidStoredIdentity;
  match identity.(RivloomIdentity.brain_membership) with
  | Some membership =>
    refuse (negb (valid_membership_id membership.(BrainMembershipSummary.brain_id))
            || negb (valid_membership_id membership.(BrainMembershipSummary.member_id)))
      IdentityServiceError.InvalidStoredIdentity
  | None => Ok tt
  end.

(** ** The service *)

(** The service and the file it owns *)
Module IdentityService.
Record t := mk { file : TaskFile; identity : option RivloomIdentity.t }.
Definition set_file (f : TaskFile) (s : t) : t := mk f s.(identity).
Definition set_identity (v : option RivloomIdentity.t) (s : t) : t := mk s.(file) v.
(** [IdentityService::new] *)
Definition new (f : TaskFile) : t := mk f None.
End IdentityService.

(** What one call meets: whether the mutex is poisoned, the operating system during the load, the
    save of a new identity and the save of an update, and the draws for two ids *)
Module IdentityEnv.
Record t := mk { lock : bool; load : Io.t; create : Io.t; save : Io.t; draws : (N * N) * (N * N) }.
End IdentityEnv.

Section Service.
Context `{DocumentFormat RivloomIdentity.t}.

Definition IdentityM := M IdentityService.t IdentityServiceError.t.

(** [IdentityStore::load] *)
Definition load_identity (io : Io.t) : FileM (option RivloomIdentity.t) :=
  document ← read_versioned MAX_IDENTITY_BYTES io;
  mret (Document.body <$> document).

(** [self.store.load()?] and [self.store.save(&identity)?] *)
Definition stored_identity (io : Io.t) : IdentityM (option RivloomIdentity.t) :=
  zoom IdentityService.file IdentityService.set_file (fun _ => IdentityServiceError.Storage)
    (load_identity io).
Definition save_identity (io : Io.t) (identity : RivloomIdentity.t) : IdentityM unit :=
  zoom IdentityService.file IdentityService.set_file (fun _ => IdentityServiceError.Storage)
    (replace_document MAX_IDENTITY_BYTES io identity).

Definition new_identity (env : IdentityEnv.t) : RivloomIdentity.t :=
  RivloomIdentity.mk (generate Identity env.(IdentityEnv.draws).1.1 env.(IdentityEnv.draws).1.2)
    DEFAULT_DISPLAY_NAME
    (generate Device env.(IdentityEnv.draws).2.1 env.(IdentityEnv.draws).2.2) None.

Definition load_or_create (env : IdentityEnv.t) : IdentityM RivloomIdentity.t :=
  s ← get;
  match s.(IdentityService.identity) with
  | Some identity => mret identity
  | None =>
    stored ← stored_identity env.(IdentityEnv.load);
    identity ← match stored with
               | Some identity =>
                 _ ← lift (validate_stored_identity identity);
                 mret identity
               | None =>
                 let identity := new_identity env in
                 _ ← save_identity env.(IdentityEnv.create) identity;
                 mret identity
               end;
    _ ← modify (IdentityService.set_identity (Some identity));
    mret identity
  end.

(** [IdentityService::get] *)
Definition get_identity (env : IdentityEnv.t) : IdentityM RivloomIdentity.t :=
  _ ← reject_if (negb env.(IdentityEnv.lock)) IdentityServiceError.State;
  load_or_create env.

Definition update_display_name (env : IdentityEnv.t) (display_name : string) : IdentityM RivloomIdentity.t :=
  display_name ← lift (normalize_display_name display_name);
  _ ← reject_if (negb env.(IdentityEnv.lock)) IdentityServiceError.State;
  identity ← load_or_create env;
  let identity := RivloomIdentity.set_display_name display_name identity in
  _ ← save_identity env.(IdentityEnv.save) identity;
  _ ← modify (IdentityService.set_identity (Some identity));
  mret identity.

(** ** Histories *)

Inductive IdentityCall :=
| Get (env : IdentityEnv.t)
| UpdateName (env : IdentityEnv.t) (display_name : string)
| RestartIdentity.

(** One call, with the identity it returned if it did *)
Definition identity_call (c : IdentityCall) (s : IdentityService.t)
    : option RivloomIdentity.t * IdentityService.t :=
  let run (m : IdentityM RivloomIdentity.t) :=
    match m s with (Ok i, s) => (Some i, s) | (Err _, s) => (None, s) end in
  match c with
  | Get env => run (get_identity env)
  | UpdateName env display_name => run (update_display_name env display_name)
  | RestartIdentity => (None, IdentityService.new s.(IdentityService.file))
  end.

(** The identities that a history returned, latest first *)
Fixpoint identity_history (calls : list IdentityCall) (s : IdentityService.t)
    : list RivloomIdentity.t * IdentityService.t :=
  match calls with
  | [] => ([], s)
  | c :: calls =>
    let (i, s) := identity_call c s in
    let (later, s) := identity_history calls s in
    (later ++ option_list i, s)
  end.
End Service.

(** ** Names are normalized once *)

Definition complete (c : string) : Prop := char_strings c = [c].

Lemma char_strings_step s :
  char_strings s = [] \/
  exists c t, s = c +:+ t /\ complete c /\ c <> EmptyString /\ char_strings s = c :: char_strings t.
Proof.
  unfold complete. destruct s as [|a s1]; [by left|]. simpl. destruct (byte_of a <? 128)%N eqn:H0.
  { right. exists (String a EmptyString), s1. simpl. by rewrite H0. }
  destruct s1 as [|a1 s2]; [by left|]. destruct (byte_of a <? 224)%N eqn:H1.
  { right. exists (String a (String a1 EmptyString)), s2. simpl. by rewrite H0, H1. }
  destruct s2 as [|a2 s3]; [by left|]. destruct (byte_of a <? 240)%N eqn:H2.
  { right. exists (String a (String a1 (String a2 EmptyString))), s3. simpl. by rewrite H0, H1, H2. }
  destruct s3 as [|a3 s4]; [by left|]. right.
  exists (String a (String a1 (String a2 (String a3 EmptyString)))), s4. simpl. by rewrite H0, H1, H2.
Qed.

Lemma complete_app c t : complete c -> char_strings (c +:+ t) = c :: char_strings t.
Proof.
  unfold complete. destruct c as [|a c1]; [done|]. simpl. destruct (byte_of a <? 128)%N eqn:H0.
  { intros [= ?]. destruct c1 as [|b c1]; [done|]. simpl in *. by repeat case_match. }
  destruct c1 as [|a1 c2]; [done|]. simpl. destruct (byte_of a <? 224)%N eqn:H1.
  { intros [= <-]. done. }
  destruct c2 as [|a2 c3]; [done|]. simpl. destruct (byte_of a <? 240)%N eqn:H2.
  { intros [= <-]. done. }
  destruct c3 as [|a3 c4]; [done|]. simpl. intros [= <-]. done.
Qed.

Definition flat (cs : list string) : string := foldr String.append EmptyString cs.

Definition in_word (c : string) : Prop := complete c /\ c <> EmptyString /\ is_space c = false.
Definition word_ok (w : string) : Prop := w <> EmptyString /\ exists cs, w = flat cs /\ Forall in_word cs.

Lemma flat_app cs cs' : flat (cs ++ cs') = flat cs +:+ flat cs'.
Proof. induction cs as [|c cs IH]; [done|]. cbn [app foldr flat]. fold (flat (cs ++ cs')). by rewrite IH, append_assoc. Qed.

Lemma char_strings_flat cs t : Forall complete cs -> char_strings (flat cs +:+ t) = cs ++ char_strings t.
Proof.
  induction 1 as [|c cs Hc Hcs IH]; [done|]. cbn [foldr flat]. fold (flat cs).
  by rewrite append_assoc, complete_app, IH.
Qed.

Lemma char_strings_complete n s : String.length s <= n -> Forall (fun c => complete c /\ c <> EmptyString) (char_strings s).
Proof.
  revert s. induction n as [|n IH]; intros s Hlen; (destruct (char_strings_step s) as [->|(c & t & -> & Hc & Hne & ->)];
    [constructor|]); rewrite length_append in Hlen; (destruct c as [|a c]; [done|]); simpl in Hlen; [lia|].
  constructor; [done|]. apply IH. lia.
Qed.

Lemma words_flat w cs rest :
  Forall in_word cs -> words w (cs ++ rest) = words (w +:+ flat cs) rest.
Proof.
  intros Hcs. revert w. induction Hcs as [|c cs (_ & _ & Hsp) Hcs IH]; intros w; simpl.
  - by rewrite append_empty.
  - rewrite Hsp, IH. by rewrite append_assoc.
Qed.

Lemma words_ok cs wcs :
  Forall (fun c => complete c /\ c <> EmptyString) cs -> Forall in_word wcs -> Forall word_ok (words (flat wcs) cs).
Proof.
  intros Hcs. revert wcs. induction Hcs as [|c cs [Hc Hne] Hcs IH]; intros wcs Hw; simpl.
  - destruct (is_empty (flat wcs)) eqn:He; [constructor|]. repeat constructor; [by destruct (flat wcs)|by exists wcs].
  - destruct (is_space c) eqn:Hsp.
    + destruct (is_empty (flat wcs)) eqn:He; [by apply (IH [])|]. constructor; [|by apply (IH [])].
      split; [by destruct (flat wcs)|by exists wcs].
    + replace (flat wcs +:+ c) with (flat (wcs ++ [c])); [|rewrite flat_app; simpl; by rewrite append_empty].
      apply IH. apply Forall_app. by repeat constructor.
Qed.

Lemma split_whitespace_concat ws :
  Forall word_ok ws -> split_whitespace (String.concat " " ws) = ws.
Proof.
  unfold split_whitespace. induction 1 as [|w ws (Hne & cs & -> & Hcs) Hws IH]; [done|].
  assert (Forall complete cs) as Hcomplete by (eapply list.Forall_impl; [exact Hcs|]; by intros c []).
  assert (is_empty (flat cs) = false) as He by (by destruct (flat cs)).
  destruct ws as [|w' ws].
  - change (String.concat " " [flat cs]) with (flat cs). rewrite <- (append_empty (flat cs)) at 1.
    rewrite char_strings_flat, words_flat by done. change (EmptyString +:+ flat cs) with (flat cs).
    cbn [char_strings words]. by rewrite He.
  - change (String.concat " " (flat cs :: w' :: ws)) with (flat cs +:+ (" " +:+ String.concat " " (w' :: ws))).
    rewrite char_strings_flat, words_flat by done.
    change (char_strings (" " +:+ String.concat " " (w' :: ws))) with (" " :: char_strings (String.concat " " (w' :: ws))).
    cbn [words]. change (is_space " ") with true. cbn iota. change (EmptyString +:+ flat cs) with (flat cs).
    by rewrite He, IH.
Qed.

Lemma normalize_idempotent name normalized :
  normalize_display_name name = Ok normalized -> normalize_display_name normalized = Ok normalized.
Proof.
  unfold normalize_display_name. destruct (_ || _) eqn:Hc; [done|]. intros [= <-].
  rewrite split_whitespace_concat; [by rewrite Hc|]. apply (words_ok _ []); [|constructor].
  by eapply char_strings_complete.
Qed.

(** ** What is stored is accepted again *)

Definition identity_valid (i : RivloomIdentity.t) : Prop := validate_stored_identity i = Ok tt.

Lemma hex_digits_ok n v : len (hex_digits n v) = N.of_nat n /\ bytes_all is_lower_hex (hex_digits n v) = true.
Proof.
  revert v. induction n as [|n IH]; intros v; [done|]. cbn [hex_digits]. rewrite len_append, bytes_all_append.
  destruct (IH (v / 16)%N) as [-> ->]. split; [rewrite Nat2N.inj_succ; unfold len; simpl; lia|].
  simpl. rewrite hex_digit_lower; [done|]. by apply N.mod_lt.
Qed.

Lemma generate_valid kind first second : valid_generated_id (generate kind first second) (id_prefix kind) = true.
Proof.
  unfold valid_generated_id, generate. rewrite strip_prefix_append. cbn [is_some_and].
  rewrite len_append, bytes_all_append. destruct (hex_digits_ok 16 first) as [-> ->].
  destruct (hex_digits_ok 16 second) as [-> ->]. done.
Qed.

Lemma identity_valid_iff i :
  identity_valid i <->
  valid_generated_id i.(RivloomIdentity.identity_id) "identity-v1-" = true /\
  valid_generated_id i.(RivloomIdentity.device_id) "device-v1-" = true /\
  normalize_display_name i.(RivloomIdentity.display_name) = Ok i.(RivloomIdentity.display_name) /\
  (forall m, i.(RivloomIdentity.brain_membership) = Some m ->
     valid_membership_id m.(BrainMembershipSummary.brain_id) = true /\
     valid_membership_id m.(BrainMembershipSummary.member_id) = true).
Proof.
  unfold identity_valid, validate_stored_identity. rewrite result_seq_ok, refuse_ok, !orb_false_iff, !negb_false_iff.
  rewrite bool_decide_eq_true. destruct (RivloomIdentity.brain_membership i) as [m|].
  - rewrite refuse_ok, orb_false_iff, !negb_false_iff. naive_solver.
  - naive_solver.
Qed.

Lemma renamed_valid i name normalized :
  identity_valid i -> normalize_display_name name = Ok normalized ->
  identity_valid (RivloomIdentity.set_display_name normalized i).
Proof. rewrite !identity_valid_iff. simpl. intros (? & ? & _ & ?) Hn. split_and!; eauto using normalize_idempotent. Qed.

Lemma new_identity_valid env : identity_valid (new_identity env).
Proof.
  apply identity_valid_iff. simpl. split_and!; [apply (generate_valid Identity)|apply (generate_valid Device)| |done].
  vm_compute. reflexivity.
Qed.

(** *** Sizes *)

(** The bytes of the strings of an identity *)
Definition identity_bytes (i : RivloomIdentity.t) : N :=
  len i.(RivloomIdentity.identity_id) + len i.(RivloomIdentity.display_name) + len i.(RivloomIdentity.device_id)
  + match i.(RivloomIdentity.brain_membership) with
    | Some m => len m.(BrainMembershipSummary.brain_id) + len m.(BrainMembershipSummary.member_id)
    | None => 0
    end.

(** The pretty form of an identity: at most six bytes for each byte of a string, as [\u00XX], and the
    names, braces and line breaks around them *)
Class IdentitySize `{DocumentFormat RivloomIdentity.t} : Prop := identity_pretty_size d bytes :
  document_to_pretty d = Some bytes -> (len bytes <= 1024 + 6 * identity_bytes d.(Document.body))%N.

Lemma generated_len v p : valid_generated_id v p = true -> len v = (len p + 32)%N.
Proof.
  unfold valid_generated_id. destruct (strip_prefix p v) as [s|] eqn:Hs; [|done]. cbn [is_some_and].
  intros [Hlen _]%andb_true_inv. apply N.eqb_eq in Hlen. apply strip_prefix_Some in Hs as ->.
  rewrite len_append, Hlen. done.
Qed.

Lemma membership_len v : valid_membership_id v = true -> (len v <= 128)%N.
Proof. unfold valid_membership_id. intros [[_ Hl]%andb_true_inv _]%andb_true_inv. by apply N.leb_le in Hl. Qed.

Lemma valid_identity_bytes i : identity_valid i -> (identity_bytes i <= 422)%N.
Proof.
  intros (Hid & Hdev & Hname & Hmem)%identity_valid_iff. unfold identity_bytes.
  rewrite (generated_len _ _ Hid), (generated_len _ _ Hdev).
  assert (len (RivloomIdentity.display_name i) <= 80)%N as Hn.
  { revert Hname. unfold normalize_display_name. destruct (_ || _) eqn:Hc; [done|]. intros [= <-].
    apply orb_false_inv in Hc as [_ Hc]. by apply N.ltb_ge in Hc. }
  change (len "identity-v1-") with 12%N. change (len "device-v1-") with 10%N.
  destruct (RivloomIdentity.brain_membership i) as [m|]; [|lia].
  destruct (Hmem m eq_refl) as [Hb%membership_len Hm%membership_len]. lia.
Qed.

Section Permanence.
Context `{DocumentFormat RivloomIdentity.t}.
Context (Hlaws : DocumentFormatLaws RivloomIdentity.t) (Hsize : IdentitySize).

(** The file holds this identity, and the cache no other. *)
Definition durable (s : IdentityService.t) (i : RivloomIdentity.t) : Prop :=
  identity_valid i /\
  (exists version, file_holds MAX_IDENTITY_BYTES s.(IdentityService.file) (Document.mk version i)) /\
  (s.(IdentityService.identity) = None \/ s.(IdentityService.identity) = Some i).

Definition identity_inv (s : IdentityService.t) : Prop :=
  s.(IdentityService.identity) = None \/ exists i, durable s i.

Lemma durable_unique s i j : durable s i -> durable s j -> i = j.
Proof. intros (_ & (v & Hi) & _) (_ & (v' & Hj) & _). pose proof (file_holds_unique _ _ _ _ Hi Hj). congruence. Qed.

Lemma replace_holds io i file file' :
  identity_valid i -> replace_document MAX_IDENTITY_BYTES io i file = (Ok tt, file') ->
  file_holds MAX_IDENTITY_BYTES file' (Document.mk FILE_VERSION i).
Proof.
  intros Hv Hrun. destruct (replace_document_ok _ Hlaws _ _ _ _ Hrun) as (bytes & Hto & -> & Hholds).
  apply Hholds. pose proof (identity_pretty_size _ _ Hto) as Hlen. pose proof (valid_identity_bytes i Hv).
  simpl in Hlen. rewrite len_append. change (len newline) with 1%N. unfold MAX_IDENTITY_BYTES. lia.
Qed.

(** What the store finds, or that there was nothing to find *)
Lemma stored_identity_ok io s stored s' :
  stored_identity io s = (Ok stored, s') ->
  s'.(IdentityService.identity) = s.(IdentityService.identity) /\
  match stored with
  | Some i => s' = s /\ exists version, file_holds MAX_IDENTITY_BYTES s.(IdentityService.file) (Document.mk version i)
  | None => s'.(IdentityService.file) = None /\
            forall d, ~ file_holds MAX_IDENTITY_BYTES s.(IdentityService.file) d
  end.
Proof.
  intros (file' & Hload & ->)%zoom_ok. split; [done|]. unfold load_identity in Hload.
  apply bind_ok_iff in Hload as (d & f1 & Hread & Hload). apply read_versioned_ok in Hread as Hfile.
  apply ret_inv in Hload as [[= ->] ->]. destruct d as [[version i]|]; simpl.
  - destruct Hfile as [-> Hholds]. split; [by destruct s|by exists version].
  - split; [done|]. intros d Hholds. rewrite (read_versioned_holds _ io _ _ Hholds) in Hread.
    by destruct (Io.read io).
Qed.

Lemma stored_identity_err io s e s' : stored_identity io s = (Err e, s') -> s' = s.
Proof.
  intros (e' & file' & Hload & _ & ->)%zoom_err. unfold load_identity in Hload.
  apply bind_err_iff in Hload as [Hread|(d & f1 & _ & Hload)]; [|by apply ret_inv in Hload as [? _]].
  apply read_versioned_err in Hread as ->. by destruct s.
Qed.

Lemma load_or_create_ok env s i s' :
  identity_inv s -> load_or_create env s = (Ok i, s') ->
  durable s' i /\ (forall j, durable s j -> j = i).
Proof.
  intros Hinv Hrun. unfold load_or_create in Hrun. rewrite (bind_ok _ _ _ s s) in Hrun by done.
  destruct (IdentityService.identity s) as [cached|] eqn:Hcache.
  { apply ret_inv in Hrun as [[= ->] ->]. destruct Hinv as [|[j Hj]]; [congruence|].
    assert (j = cached) as -> by (destruct Hj as (_ & _ & [|]); congruence).
    split; [done|]. intros j Hj'. by eapply durable_unique. }
  apply bind_ok_iff in Hrun as (stored & s1 & Hstored & Hrun).
  apply stored_identity_ok in Hstored as [_ Hstored]. destruct stored as [found|].
  - destruct Hstored as [-> [version Hholds]]. run_inv Hrun.
    match goal with a : unit |- _ => destruct a end.
    split; [split_and!; [done|by exists version|by right]|]. intros j (_ & (v & Hj) & _).
    pose proof (file_holds_unique _ _ _ _ Hj Hholds). congruence.
  - destruct Hstored as [_ Hnone]. run_inv Hrun. match goal with a : unit |- _ => destruct a end.
    match goal with Hr : save_identity _ _ _ = _ |- _ => apply zoom_ok in Hr as (file' & Hr & ->);
      apply replace_holds in Hr; [|apply new_identity_valid] end.
    split; [split_and!; [apply new_identity_valid|by eexists|by right]|].
    intros j (_ & (v & Hj) & _). by destruct (Hnone _ Hj).
Qed.

Lemma load_or_create_err env s e s' :
  identity_inv s -> load_or_create env s = (Err e, s') ->
  identity_inv s' /\ (forall j, durable s j -> durable s' j).
Proof.
  intros Hinv Hrun. unfold load_or_create in Hrun. rewrite (bind_ok _ _ _ s s) in Hrun by done.
  destruct (IdentityService.identity s) as [cached|] eqn:Hcache; [by apply ret_inv in Hrun as [? _]|].
  apply bind_err_iff in Hrun as [Hstored|(stored & s1 & Hstored & Hrun)].
  { apply stored_identity_err in Hstored as ->. done. }
  apply stored_identity_ok in Hstored as [Hsame Hstored]. destruct stored as [found|].
  - destruct Hstored as [-> _]. by err_inv Hrun.
  - destruct Hstored as [_ Hnone].
    assert (IdentityService.identity s' = None) as Hc'.
    { err_inv Hrun. match goal with Hr : save_identity _ _ _ = _ |- _ =>
        apply zoom_err in Hr as (e' & file' & _ & _ & ->) end. simpl. congruence. }
    split; [by left|]. intros j (_ & (v & Hj) & _). by destruct (Hnone _ Hj).
Qed.

Definition same_person (i j : RivloomIdentity.t) : Prop :=
  i.(RivloomIdentity.identity_id) = j.(RivloomIdentity.identity_id) /\
  i.(RivloomIdentity.device_id) = j.(RivloomIdentity.device_id) /\
  i.(RivloomIdentity.brain_membership) = j.(RivloomIdentity.brain_membership).

#[local] Instance same_person_equiv : Equivalence same_person.
Proof.
  unfold same_person. split; [by intros i|by intros i j (-> & -> & ->)|].
  intros i j k (-> & -> & ->) (-> & -> & ->). done.
Qed.

Definition call_ok (s s' : IdentityService.t) (r : option RivloomIdentity.t) : Prop :=
  identity_inv s' /\
  match r with
  | Some i => durable s' i /\ forall j, durable s j -> same_person j i
  | None => forall j, durable s j -> durable s' j
  end.

Lemma get_identity_eq env s :
  get_identity env s =
  if env.(IdentityEnv.lock) then load_or_create env s else (Err IdentityServiceError.State, s).
Proof. unfold get_identity, reject_if. by destruct (IdentityEnv.lock env). Qed.

Lemma update_display_name_eq env name s :
  update_display_name env name s =
  match normalize_display_name name with
  | Err e => (Err e, s)
  | Ok name =>
    if env.(IdentityEnv.lock) then
      match load_or_create env s with
      | (Err e, s1) => (Err e, s1)
      | (Ok i, s1) =>
        let i := RivloomIdentity.set_display_name name i in
        match save_identity env.(IdentityEnv.save) i s1 with
        | (Err e, s2) => (Err e, s2)
        | (Ok _, s2) => (Ok i, IdentityService.set_identity (Some i) s2)
        end
      end
    else (Err IdentityServiceError.State, s)
  end.
Proof.
  unfold update_display_name, reject_if, lift, mbind, M_bind.
  destruct (normalize_display_name name); [|done]. destruct (IdentityEnv.lock env); [|done]. simpl.
  destruct (load_or_create env s) as [[] s1]; [|done]. by destruct (save_identity _ _ s1) as [[] s2].
Qed.

Lemma get_identity_ok env s :
  identity_inv s ->
  match get_identity env s with (Ok i, s') => call_ok s s' (Some i) | (Err _, s') => call_ok s s' None end.
Proof.
  intros Hinv. rewrite get_identity_eq. destruct (IdentityEnv.lock env); [|done]. destruct (load_or_create env s) as [[i|e] s'] eqn:Hrun.
  - destruct (load_or_create_ok _ _ _ _ Hinv Hrun) as [Hi Huniq]. split; [right; by exists i|]. split; [done|].
    intros j Hj. by rewrite (Huniq j Hj).
  - by eapply load_or_create_err.
Qed.

Lemma update_display_name_ok env name s :
  identity_inv s ->
  match update_display_name env name s with
  | (Ok i, s') => call_ok s s' (Some i) | (Err _, s') => call_ok s s' None end.
Proof.
  intros Hinv. rewrite update_display_name_eq.
  destruct (normalize_display_name name) as [normalized|e] eqn:Hn; [|done].
  destruct (IdentityEnv.lock env); [|done]. destruct (load_or_create env s) as [[i|e] s1] eqn:Hload;
    [|by eapply load_or_create_err]. destruct (load_or_create_ok _ _ _ _ Hinv Hload) as [Hi Huniq].
  pose proof Hi as (Hv & [version Hholds] & _). pose proof (renamed_valid _ _ _ Hv Hn) as Hv'. cbn zeta.
  unfold save_identity, zoom.
  destruct (replace_document _ _ _ _) as [[[]|e] file'] eqn:Hr; simpl.
  - apply replace_holds in Hr; [|done]. assert (durable (IdentityService.mk file'
      (Some (RivloomIdentity.set_display_name normalized i))) (RivloomIdentity.set_display_name normalized i)).
    { split_and!; [done|by eexists|by right]. }
    split; [right; by eexists|]. split; [done|]. intros j Hj. by rewrite (Huniq j Hj).
  - apply (replace_document_err _ _ _ _ _ _ _ Hholds) in Hr as ->.
    assert (durable (IdentityService.set_file (IdentityService.file s1) s1) i) as Hi' by by destruct s1.
    split; [right; by exists i|]. intros j Hj. by rewrite (Huniq j Hj).
Qed.

Lemma identity_call_ok c s : identity_inv s -> call_ok s (identity_call c s).2 (identity_call c s).1.
Proof.
  intros Hinv. destruct c as [env|env name|]; simpl.
  - pose proof (get_identity_ok env s Hinv). by destruct (get_identity env s) as [[] ?].
  - pose proof (update_display_name_ok env name s Hinv). by destruct (update_display_name env name s) as [[] ?].
  - split; [by left|]. intros j (? & ? & _). split_and!; [done..|by left].
Qed.

Lemma identity_history_ok calls s found s' :
  identity_inv s -> identity_history calls s = (found, s') ->
  Forall identity_valid found /\ (forall i j, i ∈ found -> durable s j -> same_person j i) /\
  (forall i j, i ∈ found -> j ∈ found -> same_person i j) /\
  match head found with Some i => durable s' i | None => forall j, durable s j -> durable s' j end.
Proof.
  revert s found. induction calls as [|c calls IH]; intros s found Hinv Hrun; simpl in Hrun.
  { injection Hrun as <- <-. split; [apply Forall_nil_2|].
    split; [|split; [|by intros j Hj]]; intros i j Hi; by apply not_elem_of_nil in Hi. }
  pose proof (identity_call_ok c s Hinv) as [Hinv1 Hcall]. destruct (identity_call c s) as [r s1]. simpl in Hcall.
  destruct (identity_history calls s1) as [later s2] eqn:Hlater. simplify_eq.
  destruct (IH _ _ Hinv1 Hlater) as (Hv & Hsame & Hpair & Hhead). clear IH.
  destruct r as [i|]; simpl in *.
  - destruct Hcall as [Hi Hold].
    assert (forall x y, x ∈ later ++ [i] -> y ∈ later ++ [i] -> same_person x y) as Hall.
    { intros x y [Hx| ->%list_elem_of_singleton]%elem_of_app [Hy| ->%list_elem_of_singleton]%elem_of_app;
        [by apply Hpair| |by apply Hsame|done]. symmetry. by apply Hsame. }
    split_and!; [apply Forall_app; split; [done|repeat constructor; apply Hi]| |done|].
    + intros x j Hx Hj. transitivity i; [by apply Hold|]. apply Hall; [|done]. apply elem_of_app. right. left.
    + destruct later; simpl in *; auto.
  - rewrite app_nil_r. split_and!; [done|eauto..|]. destruct (head later); auto.
Qed.

(** C20: the identity of a device is permanent. Whatever was in its file at first, over every
    history of reads, renamings and restarts with any failing lock, read, quarantine or write,
    all calls that return an identity return the same ids and the same membership, each passes
    the check on stored identities, and the one returned last is what the file holds. *)
Theorem identity_permanent file calls found s :
  identity_history calls (IdentityService.new file) = (found, s) ->
  (forall i j, i ∈ found -> j ∈ found -> same_person i j) /\ Forall identity_valid found /\
  match head found with
  | Some i => exists version, file_holds MAX_IDENTITY_BYTES s.(IdentityService.file) (Document.mk version i)
  | None => True
  end.
Proof.
  intros Hrun. assert (identity_inv (IdentityService.new file)) as Hinv by (by left).
  destruct (identity_history_ok calls _ found s Hinv Hrun) as (Hv & _ & Hpair & Hhead).
  split_and!; [done..|]. destruct (head found); [|done]. by destruct Hhead as (_ & ? & _).
Qed.
End Permanence.
