(* ===== verification/Project.v ===== *)
(** * Recent projects (project/storage.rs, project/service.rs, project/state.rs)

    The directories that were opened last, in one file and behind two mutexes: the ordering and
    bounding of the list, and the operations that list, register, resolve and remove
    projects. A path is its bytes; what the file system says of it is an argument. *)

From S2P Require Import Prelude AppJson AppConnection EventRouter TaskArtifact TaskReceipt TaskMachine TaskStore StoredFile Worktree Runtime Orchestrator.

Definition MAX_PROJECTS : nat := 20.
Definition MAX_PROJECTS_BYTES : N := 1024 * 1024.

(** ** Data *)

Module StoredProject.
Record t := mk { id : string; path : string; name : string; last_opened_at : Z }.
#[global] Instance eq_dec : EqDecision t.
Proof. solve_decision. Defined.
End StoredProject.

Module ProjectAvailability.
Inductive t := Available | Missing | Unreadable.
End ProjectAvailability.

Module LocalProject.
Record t := mk {
  id : string; path : string; name : string; last_opened_at : Z; availability : ProjectAvailability.t }.
End LocalProject.

Module ProjectServiceError.
Inductive t := InvalidPath | NotDirectory | Unreadable | NonUnicodePath | NotFound | Unavailable | Storage.
#[global] Instance eq_dec : EqDecision t.
Proof. solve_decision. Defined.
End ProjectServiceError.

Inductive PersistenceWarning := RecentProjectsNotSaved.

Module ProjectSelection.
Record t := mk { project : LocalProject.t; warning : option PersistenceWarning }.
End ProjectSelection.

(** ** The order of the list *)

(** [right.last_opened_at.cmp(&left.last_opened_at).then_with(|| left.id.cmp(&right.id))] is not
    [Greater]. *)
Definition newer (left right : StoredProject.t) : bool :=
  match (right.(StoredProject.last_opened_at) ?= left.(StoredProject.last_opened_at))%Z with
  | Lt => true
  | Eq => String.leb left.(StoredProject.id) right.(StoredProject.id)
  | Gt => false
  end.

(** [sort_by], which is stable *)
Fixpoint insert_sorted (p : StoredProject.t) (l : list StoredProject.t) : list StoredProject.t :=
  match l with
  | [] => [p]
  | q :: l => if newer p q then p :: q :: l else q :: insert_sorted p l
  end.
Definition sort_projects : list StoredProject.t -> list StoredProject.t := foldr insert_sorted [].

(** [retain(|project| ids.insert(project.id.clone()))] *)
Fixpoint retain_first (ids : gset string) (l : list StoredProject.t) : list StoredProject.t :=
  match l with
  | [] => []
  | p :: l =>
    if bool_decide (p.(StoredProject.id) ∈ ids) then retain_first ids l
    else p :: retain_first ({[ p.(StoredProject.id) ]} ∪ ids) l
  end.

Definition normalize_projects (projects : list StoredProject.t) : list StoredProject.t :=
  take MAX_PROJECTS (retain_first ∅ (sort_projects projects)).

(** ** Paths *)

Inductive Metadata := IsDirectory | IsOther | IsMissing | IsUnknown.

(** What the file system says: the canonical form of a path, what is there, and whether a
    directory can be opened *)
Module ProjectFs.
Record t := mk {
  canonicalize : string -> option string;
  metadata : string -> Metadata;
  readable : string -> bool;
}.
End ProjectFs.

(** [path.to_str()] *)
Definition path_to_utf8 (path : string) : result ProjectServiceError.t string :=
  if is_utf8 path then Ok path else Err ProjectServiceError.NonUnicodePath.

(** [path.file_name()] of a canonical path: what follows its last separator, if anything does *)
Fixpoint last_component (name path : string) : string :=
  match path with
  | EmptyString => name
  | String a path =>
    if (byte_of a =? 47)%N then last_component EmptyString path
    else last_component (name +:+ String a EmptyString) path
  end.
Definition file_name (path : string) : option string :=
  let name := last_component EmptyString path in if is_empty name then None else Some name.

Definition display_name (path : string) : result ProjectServiceError.t string :=
  match file_name path with Some name => path_to_utf8 name | None => path_to_utf8 path end.

Definition local_project (project : StoredProject.t) (availability : ProjectAvailability.t) : LocalProject.t :=
  LocalProject.mk project.(StoredProject.id) project.(StoredProject.path) project.(StoredProject.name)
    project.(StoredProject.last_opened_at) availability.

Definition local_project_of (fs : ProjectFs.t) (project : StoredProject.t) : LocalProject.t :=
  let path := project.(StoredProject.path) in
  local_project project
    match fs.(ProjectFs.metadata) path with
    | IsDirectory => if fs.(ProjectFs.readable) path then ProjectAvailability.Available
                     else ProjectAvailability.Unreadable
    | IsOther => ProjectAvailability.Unreadable
    | IsMissing => ProjectAvailability.Missing
    | IsUnknown => ProjectAvailability.Unreadable
    end.

Definition validate_selected_path (fs : ProjectFs.t) (selected_path : string)
    : result ProjectServiceError.t (string * string) :=
  path ← ok_or (fs.(ProjectFs.canonicalize) selected_path) ProjectServiceError.InvalidPath;
  _ ← match fs.(ProjectFs.metadata) path with
      | IsMissing | IsUnknown => Err ProjectServiceError.InvalidPath
      | IsOther => Err ProjectServiceError.NotDirectory
      | IsDirectory => Ok tt
      end;
  _ ← refuse (negb (fs.(ProjectFs.readable) path)) ProjectServiceError.Unreadable;
  path_string ← path_to_utf8 path;
  mret (path, path_string).

(** ** The service *)

(** The service and the file it owns *)
Module ProjectService.
Record t := mk { file : TaskFile; projects : option (list StoredProject.t) }.
Definition set_file (f : TaskFile) (s : t) : t := mk f s.(projects).
Definition set_projects (v : option (list StoredProject.t)) (s : t) : t := mk s.(file) v.
(** [ProjectState::new] *)
Definition new (f : TaskFile) : t := mk f None.
End ProjectService.

(** What one call meets: the mutex of the state and that of the list, the clock, the file system,
    and the settings file during the load and during the save *)
Module ProjectEnv.
Record t := mk { state_lock : bool; lock : bool; now : Z; fs : ProjectFs.t; load : Io.t; save : Io.t }.
End ProjectEnv.

Section Service.
Context `{Sha256, DocumentFormat (list StoredProject.t)}.

Definition project_id_for_path (path : string) : result ProjectServiceError.t string :=
  path ← path_to_utf8 path;
  mret ("project-v1-" +:+ hex_of_bytes (sha256_digest path)).

(** [RecentProjectStore::load] and [save] *)
Definition load_projects (io : Io.t) : FileM (list StoredProject.t) :=
  document ← read_versioned MAX_PROJECTS_BYTES io;
  match document with
  | None => mret []
  | Some document =>
    _ ← reject_if (negb (document.(Document.version) =? FILE_VERSION)%N) StorageError.UnsupportedVersion;
    mret (normalize_projects document.(Document.body))
  end.
Definition save_projects (io : Io.t) (projects : list StoredProject.t) : FileM unit :=
  replace_document MAX_PROJECTS_BYTES io (normalize_projects projects).

Definition ProjectM := M ProjectService.t ProjectServiceError.t.

Definition on_file {A} (m : FileM A) : ProjectM A :=
  zoom ProjectService.file ProjectService.set_file (fun _ => ProjectServiceError.Storage) m.

Definition cached_projects (env : ProjectEnv.t) : ProjectM (list StoredProject.t) :=
  _ ← reject_if (negb env.(ProjectEnv.lock)) ProjectServiceError.Storage;
  s ← get;
  match s.(ProjectService.projects) with
  | Some projects => mret projects
  | None =>
    projects ← on_file (load_projects env.(ProjectEnv.load));
    _ ← modify (ProjectService.set_projects (Some projects));
    mret projects
  end.

Definition cache_projects (env : ProjectEnv.t) (projects : list StoredProject.t) : ProjectM unit :=
  _ ← reject_if (negb env.(ProjectEnv.lock)) ProjectServiceError.Storage;
  modify (ProjectService.set_projects (Some projects)).

(** [ProjectState::service] *)
Definition with_service {A} (env : ProjectEnv.t) (m : ProjectM A) : ProjectM A :=
  _ ← reject_if (negb env.(ProjectEnv.state_lock)) ProjectServiceError.Storage; m.

Definition list_recent (env : ProjectEnv.t) : ProjectM (list LocalProject.t) :=
  with_service env (
    projects ← cached_projects env;
    mret (local_project_of env.(ProjectEnv.fs) <$> projects)).

Definition select_project (env : ProjectEnv.t) (selected_path : option string)
    : ProjectM (option ProjectSelection.t) :=
  with_service env (
    match selected_path with
    | None => mret None
    | Some selected_path =>
      validated ← lift (validate_selected_path env.(ProjectEnv.fs) selected_path);
      let '(path, path_string) := (validated : string * string) in
      id ← lift (project_id_for_path path);
      name ← lift (display_name path);
      let project := StoredProject.mk id path_string name env.(ProjectEnv.now) in
      projects ← cached_projects env;
      let projects := filter (fun candidate => candidate.(StoredProject.id) <> id) projects ++ [project] in
      let projects := normalize_projects projects in
      _ ← cache_projects env projects;
      saved ← attempt (on_file (save_projects env.(ProjectEnv.save) projects));
      mret (Some (ProjectSelection.mk (local_project project ProjectAvailability.Available)
                    match (saved : result ProjectServiceError.t unit) with
                    | Ok _ => None
                    | Err _ => Some RecentProjectsNotSaved
                    end))
    end).

Definition lookup_project (env : ProjectEnv.t) (project_id : string) : ProjectM ResolvedProject.t :=
  with_service env (
    projects ← cached_projects env;
    found ← lift (ok_or (list_find (fun project => project.(StoredProject.id) = project_id) projects)
                    ProjectServiceError.NotFound);
    let stored := (found : nat * StoredProject.t).2 in
    validated ← lift (validate_selected_path env.(ProjectEnv.fs) stored.(StoredProject.path));
    id ← lift (project_id_for_path (validated : string * string).1);
    _ ← reject_if (negb (str_eqb id stored.(StoredProject.id))) ProjectServiceError.Unavailable;
    mret (ResolvedProject.mk stored.(StoredProject.id) stored.(StoredProject.path))).

Definition remove_recent (env : ProjectEnv.t) (project_id : string) : ProjectM unit :=
  with_service env (
    projects ← cached_projects env;
    let kept := filter (fun project => project.(StoredProject.id) <> project_id) projects in
    if length kept =? length projects then mret tt
    else
      _ ← on_file (save_projects env.(ProjectEnv.save) kept);
      cache_projects env kept).
End Service.
