(* ===== verification/ProjectThm.v ===== *)
(** * What the recent projects are

    The list that is kept, as a condition on its entries, and what becomes of a project that is
    selected, looked up, and written to a file that is too large to be read. *)

From S2P Require Import Prelude AppJson AppConnection EventRouter TaskArtifact TaskReceipt TaskMachine TaskStore StoredFile Worktree Runtime Orchestrator Project.

(** ** The order *)

Lemma string_compare_trans s t u :
  String.leb s t = true -> String.leb t u = true -> String.leb s u = true.
Proof.
  unfold String.leb. revert t u. induction s as [|a s IH]; intros [|b t] [|c u]; simpl; try done.
  unfold Ascii.compare. specialize (IH t u).
  destruct (N.compare_spec (N_of_ascii a) (N_of_ascii b)) as [Hab|Hab|Hab]; [| |done];
    destruct (N.compare_spec (N_of_ascii b) (N_of_ascii c)) as [Hbc|Hbc|Hbc]; try done; intros Hs Ht;
    destruct (N.compare_spec (N_of_ascii a) (N_of_ascii c)) as [Hac|Hac|Hac]; try done; try lia; by apply IH.
Qed.

Definition precedes (p q : StoredProject.t) : Prop := newer p q = true.

Lemma precedes_iff p q :
  precedes p q <->
  (q.(StoredProject.last_opened_at) < p.(StoredProject.last_opened_at))%Z \/
  (q.(StoredProject.last_opened_at) = p.(StoredProject.last_opened_at) /\
   String.leb p.(StoredProject.id) q.(StoredProject.id) = true).
Proof.
  unfold precedes, newer.
  destruct (Z.compare_spec (StoredProject.last_opened_at q) (StoredProject.last_opened_at p)).
  - split; [by right|]. intros [|[_ ?]]; [lia|done].
  - split; [by left|done].
  - split; [done|]. intros [|[? _]]; lia.
Qed.

#[global] Instance precedes_trans : Transitive precedes.
Proof.
  intros p q r. rewrite !precedes_iff. intros [|[Ht Hid]] [|[Ht' Hid']]; [left; lia..|].
  right. split; [lia|]. by eapply string_compare_trans.
Qed.

Lemma precedes_total p q : precedes p q \/ precedes q p.
Proof.
  rewrite !precedes_iff. destruct (Ztrichotomy (StoredProject.last_opened_at p) (StoredProject.last_opened_at q))
    as [|[Heq|]]; [right; left; lia| |left; left; lia].
  destruct (String.leb_total (StoredProject.id p) (StoredProject.id q)); [left; right|right; right]; split; done || lia.
Qed.

(** ** Sorting *)

Lemma insert_sorted_perm p l : insert_sorted p l ≡ₚ p :: l.
Proof.
  induction l as [|q l IH]; [done|]. simpl. destruct (newer p q); [done|]. rewrite IH. apply Permutation_swap.
Qed.

Lemma sort_projects_perm l : sort_projects l ≡ₚ l.
Proof. induction l as [|p l IH]; [done|]. simpl. by rewrite insert_sorted_perm, IH. Qed.

Lemma insert_sorted_sorted p l : StronglySorted precedes l -> StronglySorted precedes (insert_sorted p l).
Proof.
  induction 1 as [|q l Hl IH Hq]; simpl; [by repeat constructor|]. destruct (newer p q) eqn:Hpq.
  - constructor; [by constructor|]. constructor; [done|]. eapply list.Forall_impl; [exact Hq|].
    intros r Hr. by transitivity q.
  - constructor; [done|]. rewrite insert_sorted_perm. constructor; [|done].
    destruct (precedes_total p q) as [Hx|]; [|done]. unfold precedes in Hx. congruence.
Qed.

Lemma sort_projects_sorted l : StronglySorted precedes (sort_projects l).
Proof. induction l as [|p l IH]; [constructor|]. by apply insert_sorted_sorted. Qed.

(** ** Dropping repeated ids *)

Lemma retain_first_sublist ids l : retain_first ids l `sublist_of` l.
Proof.
  revert ids. induction l as [|p l IH]; intros ids; simpl; [constructor|].
  case_bool_decide; [by apply sublist_cons|by apply sublist_skip].
Qed.



(** Of a sorted list, the first entry of every id is kept. *)
Lemma retain_first_latest ids l p :
  StronglySorted precedes l -> p ∈ l -> (p.(StoredProject.id) ∉ ids) ->
  exists q, q ∈ retain_first ids l /\ q.(StoredProject.id) = p.(StoredProject.id) /\ (q = p \/ precedes q p).
Proof.
  intros Hl. revert ids. induction Hl as [|x l Hl IH Hx]; intros ids Hp Hids; [by apply not_elem_of_nil in Hp|].
  simpl. apply elem_of_cons in Hp as [->|Hp].
  - case_bool_decide; [done|]. exists x. split_and!; [left|done|by left].
  - case_bool_decide as Hxi; [by apply IH|]. destruct (decide (x.(StoredProject.id) = p.(StoredProject.id))) as [He|Hne].
    + exists x. split_and!; [left|done|right]. rewrite list.Forall_forall in Hx. by apply Hx.
    + destruct (IH ({[ x.(StoredProject.id) ]} ∪ ids) Hp) as (q & Hq & ? & ?); [set_solver|].
      exists q. split_and!; [by right|done..].
Qed.

Lemma sorted_sublist l k : k `sublist_of` l -> StronglySorted precedes l -> StronglySorted precedes k.
Proof.
  induction 1 as [|x l k Hlk IH|x l k Hlk IH]; intros Hs; [done|..]; inversion Hs as [|? ? Hs' Hx]; subst; [|by apply IH].
  constructor; [by apply IH|]. rewrite list.Forall_forall in Hx |- *. intros y Hy. apply Hx.
  by eapply elem_of_sublist.
Qed.

Lemma recent_sublist l : normalize_projects l `sublist_of` retain_first ∅ (sort_projects l).
Proof.
  unfold normalize_projects. set (all := retain_first ∅ (sort_projects l)).
  rewrite <- (take_drop MAX_PROJECTS all) at 2. by apply sublist_inserts_r.
Qed.


Lemma recent_given l p : p ∈ normalize_projects l -> p ∈ l.
Proof.
  intros Hp. rewrite <- (sort_projects_perm l). eapply elem_of_sublist; [exact Hp|].
  etrans; [apply recent_sublist|apply retain_first_sublist].
Qed.

(** An entry is kept or superseded, unless the list is full of earlier ones. *)
Lemma recent_kept l p :
  p ∈ l -> let recent := normalize_projects l in
  (exists q, q ∈ recent /\ q.(StoredProject.id) = p.(StoredProject.id) /\ (q = p \/ precedes q p)) \/
  (length recent = MAX_PROJECTS /\ forall q, q ∈ recent -> precedes q p).
Proof.
  intros Hp recent. unfold recent, normalize_projects.
  pose proof (sorted_sublist _ _ (retain_first_sublist ∅ _) (sort_projects_sorted l)) as Hall.
  destruct (retain_first_latest ∅ (sort_projects l) p (sort_projects_sorted l)) as (q & Hq & Hid & Hle);
    [by rewrite sort_projects_perm|set_solver|].
  set (all := retain_first ∅ (sort_projects l)) in *.
  rewrite <- (take_drop MAX_PROJECTS all) in Hq, Hall. apply elem_of_app in Hq as [Hq|Hq]; [left; by exists q|].
  right. assert (forall x, x ∈ take MAX_PROJECTS all -> precedes x q) as Hbefore.
  { intros x Hx. by eapply StronglySorted_app_1_elem_of. }
  split; [|intros x Hx; specialize (Hbefore x Hx); destruct Hle as [<-|]; [done|by transitivity q]].
  rewrite length_take. destruct (drop MAX_PROJECTS all) eqn:Hd; [by apply not_elem_of_nil in Hq|].
  assert (length (drop MAX_PROJECTS all) <> 0) as Hn by (rewrite Hd; done). rewrite length_drop in Hn. lia.
Qed.


(** ** Selecting and looking up *)

Section Selecting.
Context `{Sha256, DocumentFormat (list StoredProject.t)}.

Lemma with_service_eq {A} env (m : ProjectM A) s :
  with_service env m s =
  if env.(ProjectEnv.state_lock) then m s else (Err ProjectServiceError.Storage, s).
Proof. unfold with_service, reject_if. by destruct (ProjectEnv.state_lock env). Qed.

Lemma validate_selected_path_ok fs selected path path_string :
  validate_selected_path fs selected = Ok (path, path_string) <->
  fs.(ProjectFs.canonicalize) selected = Some path /\ fs.(ProjectFs.metadata) path = IsDirectory /\
  fs.(ProjectFs.readable) path = true /\ is_utf8 path = true /\ path_string = path.
Proof.
  unfold validate_selected_path. rewrite result_bind_ok. setoid_rewrite ok_or_ok. split.
  - intros (p & Hp & Hrest). destruct (fs.(ProjectFs.metadata) p) eqn:Hm; try done. revert Hrest.
    rewrite (result_seq_ok (Ok tt)), result_seq_ok, refuse_ok, negb_false_iff. unfold path_to_utf8.
    destruct (is_utf8 p) eqn:Hu; [|naive_solver]. intros (_ & Hr & Heq). injection Heq as <- <-. done.
  - intros (Hp & Hm & Hr & Hu & ->). exists path. split; [done|]. rewrite Hm, Hr. unfold path_to_utf8. by rewrite Hu.
Qed.

Lemma project_id_ok path id :
  project_id_for_path path = Ok id <->
  is_utf8 path = true /\ id = "project-v1-" +:+ hex_of_bytes (sha256_digest path).
Proof.
  unfold project_id_for_path, path_to_utf8. destruct (is_utf8 path); [|naive_solver].
  change (Ok path ≫= ?f) with (f path). split; [intros [= <-]|intros [_ ->]]; done.
Qed.

Lemma project_id_valid (Hsha : Sha256Laws) path id : project_id_for_path path = Ok id -> valid_project_id id = true.
Proof.
  intros [_ ->]%project_id_ok. unfold valid_project_id.
  assert (strip_prefix PROJECT_ID_PREFIX ("project-v1-" +:+ hex_of_bytes (sha256_digest path))
    = Some (hex_of_bytes (sha256_digest path))) as -> by reflexivity.
  cbn [is_some_and]. rewrite len_hex_of_bytes, sha256_len.
  rewrite (bytes_all_impl is_lower_hex is_ascii_hexdigit); [done| |apply hex_of_bytes_lower].
  intros b. unfold is_lower_hex, is_ascii_hexdigit. destruct (is_ascii_digit b), (in_range 97 102 b); simpl; try done.
  by rewrite orb_true_r.
Qed.

Lemma cached_projects_ok env s projects s' :
  cached_projects env s = (Ok projects, s') ->
  env.(ProjectEnv.lock) = true /\ s'.(ProjectService.projects) = Some projects.
Proof.
  unfold cached_projects. intros Hrun. apply bind_ok_iff in Hrun as (u & s1 & Hg & Hrun).
  apply reject_if_ok in Hg as [Hlock ->]. apply negb_false_iff in Hlock.
  rewrite (bind_ok _ _ _ s s) in Hrun by done. destruct (ProjectService.projects s) as [known|] eqn:Hk.
  - apply ret_inv in Hrun as [[= <-] ->]. done.
  - run_inv Hrun. done.
Qed.

Lemma cached_projects_known env s projects :
  s.(ProjectService.projects) = Some projects -> env.(ProjectEnv.lock) = true ->
  cached_projects env s = (Ok projects, s).
Proof.
  intros Hk Hlock. unfold cached_projects, reject_if. rewrite Hlock. unfold get, mbind, M_bind. simpl. by rewrite Hk.
Qed.

(** What a selection leaves in memory *)
Lemma select_project_ok env path selection s s' :
  select_project env (Some path) s = (Ok (Some selection), s') ->
  exists canonical id name others,
    let p := StoredProject.mk id canonical name env.(ProjectEnv.now) in
    validate_selected_path env.(ProjectEnv.fs) path = Ok (canonical, canonical) /\
    project_id_for_path canonical = Ok id /\
    selection.(ProjectSelection.project) = local_project p ProjectAvailability.Available /\
    s'.(ProjectService.projects) =
      Some (normalize_projects (filter (fun q => q.(StoredProject.id) <> id) others ++ [p])) /\
    (selection.(ProjectSelection.warning) = None -> exists bytes,
       document_to_pretty (Document.mk FILE_VERSION
         (normalize_projects (default [] s'.(ProjectService.projects)))) = Some bytes /\
       s'.(ProjectService.file) = Some (bytes +:+ newline)).
Proof.
  unfold select_project. rewrite with_service_eq. destruct (ProjectEnv.state_lock env); [|done]. intros Hrun.
  apply bind_ok_iff in Hrun as ([canonical path_string] & s1 & Hval & Hrun). apply lift_inv in Hval as [Hval ->].
  symmetry in Hval. apply validate_selected_path_ok in Hval as Hcanon. destruct Hcanon as (_ & _ & _ & _ & ->).
  apply bind_ok_iff in Hrun as (id & s1 & Hid & Hrun). apply lift_inv in Hid as [Hid ->].
  apply bind_ok_iff in Hrun as (name & s1 & Hname & Hrun). apply lift_inv in Hname as [Hname ->].
  apply bind_ok_iff in Hrun as (others & s1 & Hcache & Hrun).
  apply bind_ok_iff in Hrun as (u & s2 & Hset & Hrun). unfold cache_projects in Hset. run_inv Hset.
  apply bind_ok_iff in Hrun as (saved & s3 & Hsave & Hrun). apply ret_inv in Hrun as [[= ->] ->].
  exists canonical, id, name, others. cbn zeta. unfold attempt, on_file, zoom in Hsave.
  destruct (save_projects _ _ _) as [r file'] eqn:Hfile. simplify_eq/=. split_and!; [done..|].
  destruct r as [[]|]; [|done]. intros _. by apply replace_document_wrote in Hfile.
Qed.

(** The cache is filled without touching a usable file. *)
Lemma cached_projects_file env s r s' :
  file_usable MAX_PROJECTS_BYTES s.(ProjectService.file) -> cached_projects env s = (r, s') ->
  s'.(ProjectService.file) = s.(ProjectService.file).
Proof.
  intros Hf Hrun. unfold cached_projects, reject_if in Hrun. destruct (ProjectEnv.lock env); simpl in Hrun; [|by injection Hrun as _ <-].
  unfold get, mbind, M_bind in Hrun. simpl in Hrun.
  destruct (ProjectService.projects s); [by injection Hrun as _ <-|]. unfold on_file, zoom, load_projects, mbind, M_bind in Hrun.
  destruct (read_versioned_usable MAX_PROJECTS_BYTES (ProjectEnv.load env) _ Hf) as (d & Hread & Hd). rewrite Hread in Hrun.
  destruct (Io.read _); [|by injection Hrun as _ <-]. destruct d as [d|]; simpl in Hd, Hrun; [|by injection Hrun as _ <-].
  rewrite Hd in Hrun. by injection Hrun as _ <-.
Qed.

(** A selection whose list can be written reports that it was, whatever the size of the document. *)
Lemma select_project_saved env path selection s s' bytes :
  select_project env (Some path) s = (Ok (Some selection), s') ->
  file_usable MAX_PROJECTS_BYTES s.(ProjectService.file) ->
  env.(ProjectEnv.save).(Io.read) = true -> env.(ProjectEnv.save).(Io.write) = true ->
  document_to_pretty (Document.mk FILE_VERSION (normalize_projects (default [] s'.(ProjectService.projects))))
    = Some bytes ->
  selection.(ProjectSelection.warning) = None /\ s'.(ProjectService.file) = Some (bytes +:+ newline).
Proof.
  unfold select_project. rewrite with_service_eq. destruct (ProjectEnv.state_lock env); [|done]. intros Hrun Hf Hr Hw.
  apply bind_ok_iff in Hrun as ([canonical path_string] & s1 & Hval & Hrun). apply lift_inv in Hval as [_ ->].
  apply bind_ok_iff in Hrun as (id & s1 & Hid & Hrun). apply lift_inv in Hid as [_ ->].
  apply bind_ok_iff in Hrun as (name & s1 & Hname & Hrun). apply lift_inv in Hname as [_ ->].
  apply bind_ok_iff in Hrun as (others & s1 & Hcache & Hrun). apply cached_projects_file in Hcache as Hfile; [|done].
  apply bind_ok_iff in Hrun as (u & s2 & Hset & Hrun). unfold cache_projects in Hset. run_inv Hset.
  apply bind_ok_iff in Hrun as (saved & s3 & Hsave & Hrun). apply ret_inv in Hrun as [[= ->] ->].
  unfold attempt, on_file, zoom, save_projects in Hsave. simpl in Hsave. rewrite Hfile in Hsave.
  destruct (replace_document _ _ _ _) as [r file'] eqn:Hreplace. injection Hsave as <- <-. simpl. intros Hto.
  rewrite (replace_document_runs _ _ _ _ bytes Hf Hr Hw Hto) in Hreplace. by injection Hreplace as <- <-.
Qed.

(** A project that is selected can be looked up. After a selection, as long as the file system
    does not change, canonical paths are fixed points and no other entry of the list is as
    recent as the clock, looking its id up resolves to its canonical directory, whether or not
    the list could be saved; the id is that of the directory, and the task service accepts it. *)
Theorem selected_project_found (Hsha : Sha256Laws) env env' path selection s s' :
  select_project env (Some path) s = (Ok (Some selection), s') ->
  (forall p q, env.(ProjectEnv.fs).(ProjectFs.canonicalize) p = Some q ->
     env.(ProjectEnv.fs).(ProjectFs.canonicalize) q = Some q) ->
  env'.(ProjectEnv.fs) = env.(ProjectEnv.fs) -> env'.(ProjectEnv.state_lock) = true ->
  env'.(ProjectEnv.lock) = true ->
  let project := selection.(ProjectSelection.project) in
  (forall q, q ∈ default [] s'.(ProjectService.projects) -> q.(StoredProject.id) <> project.(LocalProject.id) ->
     (q.(StoredProject.last_opened_at) < env.(ProjectEnv.now))%Z) ->
  lookup_project env' project.(LocalProject.id) s'
    = (Ok (ResolvedProject.mk project.(LocalProject.id) project.(LocalProject.path)), s') /\
  env.(ProjectEnv.fs).(ProjectFs.canonicalize) path = Some project.(LocalProject.path) /\
  project_id_for_path project.(LocalProject.path) = Ok project.(LocalProject.id) /\
  valid_project_id project.(LocalProject.id) = true.
Proof.
  intros Hsel Hcanon Hfs Hstate Hlock project Hrecent.
  destruct (select_project_ok _ _ _ _ _ Hsel) as (canonical & id & name & others & Hval & Hid & Hproj & Hcache & _).
  set (p := StoredProject.mk id canonical name env.(ProjectEnv.now)) in *. unfold project in *. rewrite Hproj in *.
  cbn [local_project LocalProject.id LocalProject.path StoredProject.id StoredProject.path p] in *.
  rewrite Hcache in Hrecent. simpl in Hrecent.
  set (l := filter (fun q => q.(StoredProject.id) <> id) others ++ [p]) in *.
  apply validate_selected_path_ok in Hval as Hok. destruct Hok as (Hc & Hdir & Hread & Hutf & _).
  assert (forall q, q ∈ normalize_projects l -> q.(StoredProject.id) = id -> q = p) as Honly.
  { intros q Hq%recent_given Hqid. unfold l in Hq. apply elem_of_app in Hq as [Hq|Hq]; [|by apply list_elem_of_singleton in Hq].
    apply list_elem_of_filter in Hq as [Hne _]. done. }
  assert (p ∈ normalize_projects l) as Hin.
  { destruct (recent_kept l p) as [(q & Hq & Hqid & _)|[Hlen Hbefore]]; [unfold l; apply elem_of_app; right; left| |].
    - by rewrite <- (Honly q Hq Hqid).
    - destruct (normalize_projects l) as [|q rest] eqn:Hl; [done|]. specialize (Hbefore q ltac:(left)).
      destruct (decide (q.(StoredProject.id) = id)) as [Hqid|Hqid]; [rewrite <- (Honly q ltac:(left) Hqid); left|].
      specialize (Hrecent q ltac:(left) Hqid). apply precedes_iff in Hbefore. simpl in Hbefore. lia. }
  split_and!; [|done|done|by eapply project_id_valid].
  unfold lookup_project. rewrite with_service_eq, Hstate.
  rewrite (bind_ok _ _ _ _ _ (cached_projects_known env' s' _ Hcache Hlock)).
  destruct (list_find (fun q => q.(StoredProject.id) = id) (normalize_projects l)) as [[i q]|] eqn:Hfind.
  2: { apply list_find_None in Hfind. rewrite list.Forall_forall in Hfind. by destruct (Hfind p Hin). }
  apply list_find_Some in Hfind as (Hi & Hqid & _). apply list_elem_of_lookup_2 in Hi as Hq.
  rewrite (Honly q Hq Hqid). cbn [ok_or snd].
  unfold lift, mbind, M_bind. rewrite Hfs. cbn [snd].
  assert (validate_selected_path (ProjectEnv.fs env) (StoredProject.path p) = Ok (canonical, canonical)) as ->.
  { apply validate_selected_path_ok. split_and!; [by eapply Hcanon|done..]. }
  simpl. rewrite Hid. by rewrite str_eqb_refl.
Qed.

(** C39: the list is written without the bound under which it is read. When a path is selected, the
    file before is absent or readable and the file system does its part, but the document of the new
    list is at least a megabyte long, the selection still reports no warning and the document is
    installed; after a restart the recent projects can neither be listed, looked up nor removed, and
    no path can be selected: each of these calls fails and changes nothing. *)
Theorem oversized_projects_lock_out env path selection s s' bytes :
  select_project env (Some path) s = (Ok (Some selection), s') ->
  file_usable MAX_PROJECTS_BYTES s.(ProjectService.file) ->
  env.(ProjectEnv.save).(Io.read) = true -> env.(ProjectEnv.save).(Io.write) = true ->
  document_to_pretty (Document.mk FILE_VERSION (normalize_projects (default [] s'.(ProjectService.projects))))
    = Some bytes ->
  (MAX_PROJECTS_BYTES <= len bytes)%N ->
  let restarted := ProjectService.new s'.(ProjectService.file) in
  selection.(ProjectSelection.warning) = None /\ s'.(ProjectService.file) = Some (bytes +:+ newline) /\
  forall env' id other,
  list_recent env' restarted = (Err ProjectServiceError.Storage, restarted) /\
  lookup_project env' id restarted = (Err ProjectServiceError.Storage, restarted) /\
  remove_recent env' id restarted = (Err ProjectServiceError.Storage, restarted) /\
  exists e, select_project env' (Some other) restarted = (Err e, restarted).
Proof.
  intros Hsel Hf Hr Hw Hto Hbytes restarted.
  destruct (select_project_saved _ _ _ _ _ _ Hsel Hf Hr Hw Hto) as [Hwarn Hfile]. split_and!; [done..|]. intros env' id other.
  assert (MAX_PROJECTS_BYTES < len (bytes +:+ newline))%N as Hlen.
  { rewrite len_append. change (len newline) with 1%N. lia. }
  assert (forall env, cached_projects env restarted = (Err ProjectServiceError.Storage, restarted)) as Hfail.
  { intros env1. unfold cached_projects, reject_if. destruct (ProjectEnv.lock env1); [|done].
    unfold get, mbind, M_bind. simpl. unfold on_file, zoom, load_projects, mbind, M_bind. simpl.
    assert (exists e, read_versioned MAX_PROJECTS_BYTES (ProjectEnv.load env1) (ProjectService.file s')
      = (Err e, ProjectService.file s')) as [e ->]; [|done].
    rewrite Hfile. unfold read_versioned, get, reject_if, mbind, M_bind.
    destruct (Io.read (ProjectEnv.load env1)); [|by eexists]. cbn [negb]. apply N.ltb_lt in Hlen. unfold mret, M_ret. rewrite Hlen. by eexists. }
  unfold list_recent, lookup_project, remove_recent, select_project. rewrite !with_service_eq.
  destruct (ProjectEnv.state_lock env'); [|split_and!; [done..|by eexists]].
  rewrite !(bind_err _ _ _ _ _ (Hfail env')). split_and!; [done..|].
  unfold lift, mbind, M_bind at 1.
  destruct (validate_selected_path _ other) as [[p q]|e]; [|by eexists].
  unfold M_bind at 1. destruct (project_id_for_path p) as [pid|e]; [|by eexists].
  unfold M_bind at 1. destruct (display_name p) as [n|e]; [|by eexists].
  unfold M_bind at 1. rewrite Hfail. by eexists.
Qed.
End Selecting.
