(* ===== verification/ProjectThread.v ===== *)
(** * Threads of a project (project/protocol.rs, project/thread_service.rs, project/commands.rs)

    Listing, starting and reading the threads of a registered project over the connection to
    the Codex process: what is asked, what of an answer is accepted, and how much of it is
    kept. *)

From S2P Require Import Prelude AppJson AppConnection EventRouter TaskArtifact TaskReceipt TaskMachine TaskStore StoredFile Worktree Runtime Orchestrator Project ProjectThm.

Definition MAX_CURSOR_BYTES : N := 4 * 1024.
Definition MAX_PAGE_THREADS : nat := 50.
Definition MAX_THREAD_ID_BYTES : N := 1024.
Definition MAX_THREAD_NAME_BYTES : nat := 1024.
Definition MAX_THREAD_PREVIEW_BYTES : nat := 16 * 1024.
Definition MAX_ACCUMULATED_THREADS : nat := 500.

(** ** Data *)

Module ProjectThreadStatus.
Inductive t := NotLoaded | Idle | SystemError | Active.
End ProjectThreadStatus.

(** [ThreadWire] and [ProjectThread]: the same fields, before and after the checks; the two
    enumerations of a status have the same constructors. *)
Module ThreadWire.
Record t := mk {
  id : string;
  name : option string;
  preview : string;
  created_at : Z;
  updated_at : Z;
  recency_at : option Z;
  status : ProjectThreadStatus.t;
  cwd : string;
}.
End ThreadWire.
Module ProjectThread := ThreadWire.

Module ProjectThreadPage.
Record t := mk { data : list ProjectThread.t; next_cursor : option string }.
Definition set_next_cursor (v : option string) (p : t) : t := mk p.(data) v.
End ProjectThreadPage.

Module ThreadProtocolError.
Inductive t := InvalidResponse | CwdMismatch.
End ThreadProtocolError.

Module ThreadServiceError.
Inductive t := Disconnected | RequestFailed | InvalidRequest | InvalidResponse | ProjectMismatch.
Definition of_protocol (e : ThreadProtocolError.t) : t :=
  match e with
  | ThreadProtocolError.InvalidResponse => InvalidResponse
  | ThreadProtocolError.CwdMismatch => ProjectMismatch
  end.
End ThreadServiceError.

Module ProjectCommandError.
Inductive t := RecentProjects | Project | Core | Thread.
End ProjectCommandError.

(** [serde_json::from_value] on the three responses: a list with its cursor, a started thread with
    its directory, and a thread *)
Class ThreadJson := {
  thread_list_from_value : Value.t -> option (list ThreadWire.t * option string);
  thread_start_from_value : Value.t -> option (ThreadWire.t * string);
  thread_read_from_value : Value.t -> option ThreadWire.t;
}.

(** ** Cutting strings *)

Fixpoint byte_at (i : nat) (s : string) {struct s} : option N :=
  match s with
  | EmptyString => None
  | String a s => match i with O => Some (byte_of a) | S i => byte_at i s end
  end.

(** [str::is_char_boundary] *)
Definition is_char_boundary (s : string) (i : nat) : bool :=
  match i with
  | O => true
  | S _ => match byte_at i s with
           | Some b => negb (is_continuation b)
           | None => i =? String.length s
           end
  end.

(** [while !value.is_char_boundary(end) { end -= 1 }] *)
Fixpoint boundary_before (s : string) (i : nat) : nat :=
  if is_char_boundary s i then i else match i with O => O | S i => boundary_before s i end.

(** [String::truncate] *)
Fixpoint truncate (i : nat) (s : string) : string :=
  match i, s with
  | S i, String a s => String a (truncate i s)
  | _, _ => EmptyString
  end.

Definition truncate_utf8 (value : string) (max_bytes : nat) : string :=
  if max_bytes <? String.length value then truncate (boundary_before value max_bytes) value else value.

(** ** The protocol *)

Definition list_params (cwd : string) (cursor : option string) (limit : nat) : Value.t :=
  Value.Object ([("cwd", Value.Str cwd); ("limit", Value.Num (Number.PosInt (N.of_nat limit)));
                 ("sortKey", Value.Str "recency_at"); ("sortDirection", Value.Str "desc")]
                ++ match cursor with Some cursor => [("cursor", Value.Str cursor)] | None => [] end).
Definition start_params (cwd : string) : Value.t := Value.Object [("cwd", Value.Str cwd)].
Definition thread_read_params (thread_id : string) : Value.t :=
  Value.Object [("threadId", Value.Str thread_id); ("includeTurns", Value.Bool false)].

Definition normalize_thread (expected_cwd : string) (thread : ThreadWire.t)
    : result ThreadProtocolError.t ProjectThread.t :=
  _ ← refuse (negb (str_eqb thread.(ThreadWire.cwd) expected_cwd)) ThreadProtocolError.CwdMismatch;
  _ ← refuse (is_empty thread.(ThreadWire.id) || (MAX_THREAD_ID_BYTES <? len thread.(ThreadWire.id))%N)
        ThreadProtocolError.InvalidResponse;
  mret (ThreadWire.mk thread.(ThreadWire.id)
          ((fun name => truncate_utf8 name MAX_THREAD_NAME_BYTES) <$> thread.(ThreadWire.name))
          (truncate_utf8 thread.(ThreadWire.preview) MAX_THREAD_PREVIEW_BYTES)
          thread.(ThreadWire.created_at) thread.(ThreadWire.updated_at) thread.(ThreadWire.recency_at)
          thread.(ThreadWire.status) thread.(ThreadWire.cwd)).

(** [map(f).collect::<Result<_, _>>()] *)
Fixpoint collect_results {E A B} (f : A -> result E B) (l : list A) : result E (list B) :=
  match l with
  | [] => Ok []
  | a :: l => b ← f a; bs ← collect_results f l; mret (b :: bs)
  end.

Section Threads.
Context `{ThreadJson}.

Definition parse_list_response (response : Value.t) (expected_cwd : string) (max_items : nat)
    : result ThreadProtocolError.t ProjectThreadPage.t :=
  response ← ok_or (thread_list_from_value response) ThreadProtocolError.InvalidResponse;
  let '(data, next_cursor) := (response : list ThreadWire.t * option string) in
  _ ← refuse ((max_items <? length data)
              || is_some_and (fun cursor => (MAX_CURSOR_BYTES <? len cursor)%N) next_cursor)
        ThreadProtocolError.InvalidResponse;
  data ← collect_results (normalize_thread expected_cwd) data;
  mret (ProjectThreadPage.mk data next_cursor).

Definition parse_start_response (response : Value.t) (expected_cwd : string)
    : result ThreadProtocolError.t ProjectThread.t :=
  response ← ok_or (thread_start_from_value response) ThreadProtocolError.InvalidResponse;
  let '(thread, cwd) := (response : ThreadWire.t * string) in
  _ ← refuse (negb (str_eqb cwd expected_cwd)) ThreadProtocolError.CwdMismatch;
  normalize_thread expected_cwd thread.

Definition parse_read_response (response : Value.t) (expected_cwd : string)
    : result ThreadProtocolError.t ProjectThread.t :=
  thread ← ok_or (thread_read_from_value response) ThreadProtocolError.InvalidResponse;
  normalize_thread expected_cwd thread.

(** ** The service *)

Definition map_connection_error (error : ConnectionError.t) : ThreadServiceError.t :=
  match error with
  | ConnectionError.Disconnected => ThreadServiceError.Disconnected
  | _ => ThreadServiceError.RequestFailed
  end.

Definition ask (connection : ConnectionControl.t) (method : string) (params : Value.t)
    : result ThreadServiceError.t Value.t :=
  map_err map_connection_error (connection.(ConnectionControl.request) method params).2.

Definition list_threads (cursor : option string) (accumulated : nat) (project : ResolvedProject.t)
    (connection : ConnectionControl.t) : result ThreadServiceError.t ProjectThreadPage.t :=
  _ ← refuse ((MAX_ACCUMULATED_THREADS <? accumulated)
              || is_some_and (fun cursor => (MAX_CURSOR_BYTES <? len cursor)%N) cursor)
        ThreadServiceError.InvalidRequest;
  if accumulated =? MAX_ACCUMULATED_THREADS then Ok (ProjectThreadPage.mk [] None) else
  let limit := Nat.min MAX_PAGE_THREADS (MAX_ACCUMULATED_THREADS - accumulated) in
  response ← ask connection "thread/list" (list_params project.(ResolvedProject.cwd) cursor limit);
  page ← map_err ThreadServiceError.of_protocol
           (parse_list_response response project.(ResolvedProject.cwd) limit);
  mret (if accumulated + length page.(ProjectThreadPage.data) =? MAX_ACCUMULATED_THREADS
        then ProjectThreadPage.set_next_cursor None page else page).

Definition start_project_thread (project : ResolvedProject.t) (connection : ConnectionControl.t)
    : result ThreadServiceError.t ProjectThread.t :=
  response ← ask connection "thread/start" (start_params project.(ResolvedProject.cwd));
  map_err ThreadServiceError.of_protocol (parse_start_response response project.(ResolvedProject.cwd)).

Definition read_thread (thread_id : string) (project : ResolvedProject.t) (connection : ConnectionControl.t)
    : result ThreadServiceError.t ProjectThread.t :=
  _ ← refuse (is_empty thread_id || (MAX_THREAD_ID_BYTES <? len thread_id)%N) ThreadServiceError.InvalidRequest;
  response ← ask connection "thread/read" (thread_read_params thread_id);
  map_err ThreadServiceError.of_protocol (parse_read_response response project.(ResolvedProject.cwd)).

(** ** The commands *)

Definition map_project_error (error : ProjectServiceError.t) : ProjectCommandError.t :=
  match error with
  | ProjectServiceError.Storage => ProjectCommandError.RecentProjects
  | _ => ProjectCommandError.Project
  end.

Definition map_thread_error (error : ThreadServiceError.t) : ProjectCommandError.t :=
  match error with
  | ThreadServiceError.Disconnected | ThreadServiceError.RequestFailed => ProjectCommandError.Core
  | ThreadServiceError.InvalidRequest | ThreadServiceError.InvalidResponse
  | ThreadServiceError.ProjectMismatch => ProjectCommandError.Thread
  end.

Context `{Sha256, DocumentFormat (list StoredProject.t)}.

Definition CommandM := M ProjectService.t ProjectCommandError.t.

(** [list_recent], [register_selection] and [remove_recent] of the commands *)
Definition project_command {A} (m : ProjectM A) : CommandM A :=
  zoom (fun s => s) (fun s _ => s) map_project_error m.

Definition execute_thread_command {A} (env : ProjectEnv.t) (connection : option ConnectionControl.t)
    (project_id : string) (operation : ResolvedProject.t -> ConnectionControl.t -> result ThreadServiceError.t A)
    : CommandM A :=
  connection ← lift (ok_or connection ProjectCommandError.Core);
  project ← project_command (lookup_project env project_id);
  lift (map_err map_thread_error (operation project connection)).
End Threads.

(** ** Truncation cuts at the last character boundary *)

(** A character: a first byte, and continuation bytes *)
Inductive utf8_char : string -> Prop :=
| utf8_char_intro a rest :
    is_continuation (byte_of a) = false -> bytes_all is_continuation rest = true ->
    (forall u, is_utf8 (String a (rest +:+ u)) = is_utf8 u) ->
    (forall i, i < String.length rest -> is_utf8 (String a (truncate i rest)) = false) ->
    utf8_char (String a rest).

Lemma high_not_continuation lo hi b : (192 <= lo)%N -> in_range lo hi b = true -> is_continuation b = false.
Proof.
  unfold is_continuation, in_range. intros Hlo [H1%N.leb_le _]%andb_true_inv. apply andb_false_iff. right.
  apply N.leb_gt. lia.
Qed.

Lemma utf8_step s : is_utf8 s = true -> s = EmptyString \/ exists c t, s = c +:+ t /\ utf8_char c /\ is_utf8 t = true.
Proof.
  destruct s as [|a s1]; [by left|]. intros Hs. right. simpl in Hs.
  destruct (byte_of a <? 128)%N eqn:H0.
  { exists (String a EmptyString), s1. split_and!; [done| |done]. constructor; [|done|..].
    - unfold is_continuation, in_range. apply N.ltb_lt in H0. apply andb_false_iff. left. apply N.leb_gt. lia.
    - intros u. simpl. by rewrite H0.
    - simpl. lia. }
  destruct s1 as [|a1 s2]; [done|]. destruct (in_range 194 223 (byte_of a)) eqn:H1.
  { apply andb_true_inv in Hs as [Hc Hs]. exists (String a (String a1 EmptyString)), s2.
    split_and!; [done| |done]. constructor; [by eapply high_not_continuation in H1|..].
    - simpl. by rewrite Hc.
    - intros u. simpl. by rewrite H0, H1, Hc.
    - intros [|i] Hi; simpl in *; [|lia]. by rewrite H0. }
  destruct s2 as [|a2 s3]; [done|]. destruct (in_range 224 239 (byte_of a)) eqn:H2.
  { apply andb_true_inv in Hs as [Hc Hs]. exists (String a (String a1 (String a2 EmptyString))), s3.
    split_and!; [done| |done]. constructor; [by eapply high_not_continuation in H2|..].
    - do 2 apply andb_true_inv in Hc as [Hc _]. apply andb_true_inv in Hc as [Hc1 Hc2]. simpl. by rewrite Hc1, Hc2.
    - intros u. simpl. by rewrite H0, H1, H2, Hc.
    - intros [|[|i]] Hi; simpl in *; [..|lia]; by rewrite H0, ?H1. }
  destruct s3 as [|a3 s4]; [done|]. apply andb_true_inv in Hs as [Hc Hs].
  exists (String a (String a1 (String a2 (String a3 EmptyString)))), s4. split_and!; [done| |done].
  pose proof Hc as Hall. do 2 apply andb_true_inv in Hall as [Hall _]. apply andb_true_inv in Hall as [Hall Hc3].
  apply andb_true_inv in Hall as [Hall Hc2]. apply andb_true_inv in Hall as [H3 Hc1].
  constructor; [by eapply high_not_continuation in H3|simpl; by rewrite Hc1, Hc2, Hc3|..].
  - intros u. simpl. by rewrite H0, H1, H2, Hc.
  - intros [|[|[|i]]] Hi; simpl in *; [..|lia]; by rewrite H0, ?H1, ?H2.
Qed.

Lemma byte_at_app i s t :
  byte_at i (s +:+ t) = if i <? String.length s then byte_at i s else byte_at (i - String.length s) t.
Proof.
  revert i. induction s as [|a s IH]; intros i; [by rewrite Nat.sub_0_r|]. destruct i as [|i]; [done|].
  simpl. rewrite IH. by change (S i <? S (String.length s)) with (i <? String.length s).
Qed.

Lemma truncate_app i s t :
  truncate i (s +:+ t) = if i <? String.length s then truncate i s else s +:+ truncate (i - String.length s) t.
Proof.
  revert i. induction s as [|a s IH]; intros i; [by rewrite Nat.sub_0_r|]. destruct i as [|i]; [done|].
  simpl. rewrite IH. change (S i <? S (String.length s)) with (i <? String.length s).
  by destruct (i <? String.length s).
Qed.

Lemma byte_at_all f s i b : bytes_all f s = true -> byte_at i s = Some b -> f b = true.
Proof.
  revert i. induction s as [|a s IH]; intros i; [done|]. simpl. intros [Ha Hs]%andb_true_inv.
  destruct i as [|i]; [by intros [= <-]|by apply IH].
Qed.

Lemma byte_at_lt s i : i < String.length s -> is_Some (byte_at i s).
Proof. revert i. induction s as [|a s IH]; intros i Hi; simpl in *; [lia|]. destruct i; [by eexists|]. apply IH. lia. Qed.

(** The boundaries of a character followed by a string: its start, and those of the string *)
Lemma boundary_app c t i :
  utf8_char c -> is_utf8 t = true ->
  is_char_boundary (c +:+ t) i =
  bool_decide (i = 0) || (String.length c <=? i) && is_char_boundary t (i - String.length c).
Proof.
  intros [a rest Ha Hrest _ _] Ht. destruct i as [|i]; [done|]. rewrite bool_decide_false by done. cbn [orb].
  unfold is_char_boundary at 1. rewrite byte_at_app, length_append. simpl String.length.
  change (S i <? S (String.length rest)) with (i <? String.length rest).
  change (S (String.length rest) <=? S i) with (String.length rest <=? i).
  change (S i - S (String.length rest)) with (i - String.length rest).
  destruct (Nat.ltb_spec i (String.length rest)) as [Hlt|Hge].
  - rewrite (proj2 (Nat.leb_gt _ _)) by lia. destruct (byte_at_lt rest i Hlt) as [b Hb]. simpl. rewrite Hb.
    by rewrite (byte_at_all _ _ _ _ Hrest Hb).
  - rewrite (proj2 (Nat.leb_le _ _)) by lia. cbn [andb]. destruct (i - String.length rest) as [|j] eqn:Hj.
    + cbn [is_char_boundary]. destruct (utf8_step t Ht) as [->|(c' & t' & -> & [a' rest' Ha' _ _ _] & _)]; simpl.
      * rewrite Nat.add_0_r. apply Nat.eqb_eq. lia.
      * by rewrite Ha'.
    + unfold is_char_boundary. destruct (byte_at (S j) t); [done|].
      destruct (Nat.eqb_spec (S i) (S (String.length rest) + String.length t)), (Nat.eqb_spec (S j) (String.length t));
        (done || lia).
Qed.

(** Where the loop ends: at the last boundary up to where it starts *)
Lemma boundary_before_spec s i :
  boundary_before s i <= i /\ is_char_boundary s (boundary_before s i) = true /\
  forall j, boundary_before s i < j <= i -> is_char_boundary s j = false.
Proof.
  induction i as [|i (Hle & Hb & Hlast)]; cbn [boundary_before]; [split_and!; [done..|]; intros j; lia|].
  destruct (is_char_boundary s (S i)) eqn:Hi; [split_and!; [done..|]; intros j; lia|].
  split_and!; [lia|done|]. intros j Hj. destruct (decide (j = S i)) as [->|]; [done|]. apply Hlast. lia.
Qed.

(** A prefix of a string is well formed exactly at the boundaries. *)
Lemma truncate_boundary n s i :
  String.length s <= n -> is_utf8 s = true -> i <= String.length s ->
  is_utf8 (truncate i s) = is_char_boundary s i.
Proof.
  revert s i. induction n as [|n IH]; intros s i Hn Hs Hi;
    (destruct (utf8_step s Hs) as [->|(c & t & -> & Hc & Ht)]; [simpl in Hi; by destruct i; [|lia]|]).
  { destruct Hc. simpl in Hn. lia. }
  rewrite (boundary_app c t i Hc Ht), truncate_app. rewrite length_append in Hn, Hi.
  destruct (Nat.ltb_spec i (String.length c)) as [Hlt|Hge].
  - rewrite (proj2 (Nat.leb_gt _ _)) by done. cbn [andb]. rewrite orb_false_r.
    destruct i as [|i]; [by destruct c|]. rewrite bool_decide_false by done.
    destruct Hc as [a rest Ha Hrest Hfull Hpart]. simpl in Hlt |- *. apply Hpart. lia.
  - rewrite (proj2 (Nat.leb_le _ _)) by done. cbn [andb]. destruct Hc as [a rest Ha Hrest Hfull _]. simpl in Hn, Hge, Hi.
    rewrite bool_decide_false by lia. cbn [orb]. simpl String.length. rewrite <- (IH t) by (done || lia). apply Hfull.
Qed.

Lemma length_truncate i s : String.length (truncate i s) = Nat.min i (String.length s).
Proof. revert s. induction i as [|i IH]; intros [|a s]; simpl; [done..|]. by rewrite IH. Qed.

Lemma truncate_prefix i s : exists rest, s = truncate i s +:+ rest.
Proof.
  revert s. induction i as [|i IH]; intros [|a s]; simpl; [by eexists..|]. destruct (IH s) as [rest Hrest].
  exists rest. exact (f_equal (String a) Hrest).
Qed.

Lemma truncate_whole s t : truncate (String.length s) (s +:+ t) = s.
Proof. induction s as [|a s IH]; simpl; [by destruct t|]. by rewrite IH. Qed.

Lemma truncate_utf8_length value max : String.length (truncate_utf8 value max) <= max.
Proof.
  unfold truncate_utf8. destruct (Nat.ltb_spec max (String.length value)); [|done].
  rewrite length_truncate. destruct (boundary_before_spec value max) as [? _]. lia.
Qed.

(** A text that is too long is cut to exactly its longest prefix that fits and is well-formed
    UTF-8: no character is split, and no shorter cut is made than necessary. *)
Theorem truncate_utf8_longest value max :
  is_utf8 value = true ->
  let cut := truncate_utf8 value max in
  is_utf8 cut = true /\ String.length cut <= max /\ (exists rest, value = cut +:+ rest) /\
  (forall t rest, value = t +:+ rest -> is_utf8 t = true -> String.length t <= max ->
     String.length t <= String.length cut).
Proof.
  intros Hutf cut. split_and!; [|apply truncate_utf8_length|..]; unfold cut, truncate_utf8;
    destruct (Nat.ltb_spec max (String.length value)) as [Hlt|Hge]; try done.
  all: destruct (boundary_before_spec value max) as (Hle & Hb & Hlast).
  - rewrite (truncate_boundary (String.length value)); [done|lia|done|lia].
  - apply truncate_prefix.
  - exists EmptyString. by rewrite append_empty.
  - intros t rest -> Ht Hmax. rewrite length_truncate. apply Nat.min_glb; [|rewrite length_append; lia].
    apply Nat.nlt_ge. intros Hlong. specialize (Hlast (String.length t) (conj Hlong Hmax)).
    rewrite <- (truncate_boundary (String.length (t +:+ rest))) in Hlast; [|done..|rewrite length_append; lia].
    rewrite truncate_whole in Hlast. congruence.
  - intros t rest -> Ht _. rewrite length_append. lia.
Qed.

(** ** A project sees its own threads only *)

Section Confinement.
Context `{ThreadJson, Sha256, DocumentFormat (list StoredProject.t)}.

(** What is accepted of a thread *)
Record thread_ok (cwd : string) (t : ProjectThread.t) : Prop := {
  th_cwd : t.(ThreadWire.cwd) = cwd;
  th_id : t.(ThreadWire.id) <> EmptyString /\ (len t.(ThreadWire.id) <= MAX_THREAD_ID_BYTES)%N;
  th_name name : t.(ThreadWire.name) = Some name -> String.length name <= MAX_THREAD_NAME_BYTES;
  th_preview : String.length t.(ThreadWire.preview) <= MAX_THREAD_PREVIEW_BYTES;
}.

Lemma normalize_thread_ok cwd wire thread : normalize_thread cwd wire = Ok thread -> thread_ok cwd thread.
Proof.
  unfold normalize_thread. rewrite !result_seq_ok, !refuse_ok, negb_false_iff.
  intros (Hcwd%str_eqb_true & [Hid Hlen]%orb_false_inv & [= <-]). apply N.ltb_ge in Hlen. split; simpl; [done| | |].
  - split; [by destruct (ThreadWire.id wire)|done].
  - intros name. destruct (ThreadWire.name wire); simpl; [|done]. intros [= <-]. apply truncate_utf8_length.
  - apply truncate_utf8_length.
Qed.

Lemma collect_results_ok {E A B} (f : A -> result E B) l bs (P : B -> Prop) :
  (forall a b, f a = Ok b -> P b) -> collect_results f l = Ok bs -> Forall P bs /\ length bs = length l.
Proof.
  intros Hf. revert bs. induction l as [|a l IH]; intros bs; simpl; [intros [= <-]; by split|].
  intros (b & Hb & (bs' & Hbs & [= <-])%result_bind_ok)%result_bind_ok. destruct (IH _ Hbs) as [HP Hlen].
  split; [constructor; [by eapply Hf|done]|simpl; by rewrite Hlen].
Qed.

Lemma parse_list_response_ok response cwd max page :
  parse_list_response response cwd max = Ok page ->
  Forall (thread_ok cwd) page.(ProjectThreadPage.data) /\ length page.(ProjectThreadPage.data) <= max /\
  (forall cursor, page.(ProjectThreadPage.next_cursor) = Some cursor -> (len cursor <= MAX_CURSOR_BYTES)%N).
Proof.
  unfold parse_list_response. intros ([data cursor] & _ & Hrest)%result_bind_ok. revert Hrest.
  rewrite result_seq_ok, refuse_ok. intros [[Hlen%Nat.ltb_ge Hcur]%orb_false_inv (threads & Hc & [= <-])%result_bind_ok].
  destruct (collect_results_ok _ _ _ (thread_ok cwd) (normalize_thread_ok cwd) Hc) as [HP Hl]. simpl. rewrite Hl.
  split_and!; [done..|]. intros c ->. simpl in Hcur. by apply N.ltb_ge.
Qed.

Lemma list_threads_ok cursor accumulated project connection page :
  list_threads cursor accumulated project connection = Ok page ->
  Forall (thread_ok project.(ResolvedProject.cwd)) page.(ProjectThreadPage.data) /\
  length page.(ProjectThreadPage.data) <= MAX_PAGE_THREADS /\
  accumulated + length page.(ProjectThreadPage.data) <= MAX_ACCUMULATED_THREADS /\
  (forall c, page.(ProjectThreadPage.next_cursor) = Some c -> (len c <= MAX_CURSOR_BYTES)%N /\
     accumulated + length page.(ProjectThreadPage.data) < MAX_ACCUMULATED_THREADS).
Proof.
  unfold list_threads. rewrite result_seq_ok, refuse_ok. intros [[Hacc%Nat.ltb_ge _]%orb_false_inv Hrest].
  destruct (Nat.eqb_spec accumulated MAX_ACCUMULATED_THREADS) as [->|Hne].
  { injection Hrest as <-. cbn [ProjectThreadPage.data ProjectThreadPage.next_cursor length].
    split_and!; [by apply list.Forall_nil|lia|lia|done]. }
  apply result_bind_ok in Hrest as (response & _ & Hrest). apply result_bind_ok in Hrest as (p & Hp & [= <-]).
  destruct (parse_list_response _ _ _) as [q|] eqn:Hq; [|done]. injection Hp as ->.
  apply parse_list_response_ok in Hq as (HP & Hlen & Hcur).
  destruct (Nat.eqb_spec (accumulated + length (ProjectThreadPage.data p)) MAX_ACCUMULATED_THREADS); simpl;
    (split_and!; [done|lia|lia|]); [done|]. intros c Hc. split; [by apply Hcur|lia].
Qed.

(** What a lookup has checked *)
Lemma lookup_project_ok env project_id s project s' :
  lookup_project env project_id s = (Ok project, s') ->
  project.(ResolvedProject.id) = project_id /\
  (exists p, p ∈ default [] s'.(ProjectService.projects) /\ p.(StoredProject.id) = project_id /\
     p.(StoredProject.path) = project.(ResolvedProject.cwd)) /\
  exists path, env.(ProjectEnv.fs).(ProjectFs.canonicalize) project.(ResolvedProject.cwd) = Some path /\
    env.(ProjectEnv.fs).(ProjectFs.metadata) path = IsDirectory /\
    env.(ProjectEnv.fs).(ProjectFs.readable) path = true /\ project_id_for_path path = Ok project_id.
Proof.
  unfold lookup_project. rewrite with_service_eq. destruct (ProjectEnv.state_lock env); [|done]. intros Hrun.
  apply bind_ok_iff in Hrun as (projects & s1 & [_ Hcached]%cached_projects_ok & Hrun).
  apply bind_ok_iff in Hrun as ([i stored] & s2 & Hfind & Hrun). apply lift_inv in Hfind as [Hfind ->].
  symmetry in Hfind. apply ok_or_ok, list_find_Some in Hfind as (Hin%list_elem_of_lookup_2 & Hid & _). cbn [snd] in Hrun.
  apply bind_ok_iff in Hrun as ([path text] & s3 & Hval & Hrun). apply lift_inv in Hval as [Hval ->].
  symmetry in Hval. apply validate_selected_path_ok in Hval as (Hc & Hdir & Hread & _ & _).
  apply bind_ok_iff in Hrun as (id & s4 & Hpid & Hrun). apply lift_inv in Hpid as [Hpid ->].
  apply bind_ok_iff in Hrun as (u & s5 & Hg & Hrun). apply reject_if_ok in Hg as [Hg ->].
  apply negb_false_iff, str_eqb_true in Hg. apply ret_inv in Hrun as [[= ->] ->]. simpl. split; [done|]. split; [rewrite Hcached; by exists stored|].
  exists path. split_and!; [done..|]. simpl in Hpid. rewrite <- Hpid. congruence.
Qed.

(** The threads that a command lists are those of the project it names. The project is
    registered, its directory is there and readable, and its id is that of the directory; every
    thread has that directory, an id, and texts within their bounds; a page has at most 50
    threads, no sequence of pages goes beyond 500, and there is no cursor to go on from
    once they are reached. *)
Theorem project_threads_confined env connection project_id cursor accumulated s page s' :
  execute_thread_command env connection project_id (list_threads cursor accumulated) s = (Ok page, s') ->
  exists cwd path, (exists p, p ∈ default [] s'.(ProjectService.projects) /\
      p.(StoredProject.id) = project_id /\ p.(StoredProject.path) = cwd) /\
    env.(ProjectEnv.fs).(ProjectFs.canonicalize) cwd = Some path /\
    env.(ProjectEnv.fs).(ProjectFs.metadata) path = IsDirectory /\
    env.(ProjectEnv.fs).(ProjectFs.readable) path = true /\ project_id_for_path path = Ok project_id /\
    Forall (thread_ok cwd) page.(ProjectThreadPage.data) /\
    length page.(ProjectThreadPage.data) <= MAX_PAGE_THREADS /\
    accumulated + length page.(ProjectThreadPage.data) <= MAX_ACCUMULATED_THREADS /\
    (forall c, page.(ProjectThreadPage.next_cursor) = Some c -> (len c <= MAX_CURSOR_BYTES)%N /\
       accumulated + length page.(ProjectThreadPage.data) < MAX_ACCUMULATED_THREADS).
Proof.
  unfold execute_thread_command. intros (conn & s1 & _ & Hrun)%bind_ok_iff.
  apply bind_ok_iff in Hrun as (project & s2 & Hlook & Hrun). apply zoom_ok in Hlook as (t & Hlook & ->).
  apply lookup_project_ok in Hlook as (_ & Hreg & path & Hc & Hdir & Hread & Hid).
  apply lift_inv in Hrun as [Hlist ->]. destruct (list_threads _ _ _ _) as [p|] eqn:Hp; [|done].
  injection Hlist as <-. exists project.(ResolvedProject.cwd), path.
  refine (conj Hreg (conj Hc (conj Hdir (conj Hread (conj Hid _))))). by apply (list_threads_ok cursor accumulated project conn).
Qed.
End Confinement.
