(* ===== verification/Vault.v ===== *)
(** * The vault of a device (collaboration/secret_store.rs)

    What keeps the secrets of a Node is behind an interface, [SecretBackend]; the vault of
    Windows implements it over the credentials of the operating system, and on other systems
    there is none, so that every call of it fails. [save_new] and
    [vault_load] are what is stored in it for a binding. *)

From S2P Require Import Prelude Protocol Credential.

Definition MAX_SECRET_BYTES : N := 1024.
Definition VAULT_PREFIX : string := "Rivloom/node/v1/".
Definition SERVER_KEY_PREFIX : string := "Rivloom/brain-tls/v1/".
Definition MAX_VAULT_BYTES : N := 2560.

Module VaultError.
Inductive t := Invalid | Existing | Missing | Unavailable.
#[global] Instance eq_dec : EqDecision t.
Proof. solve_decision. Defined.
End VaultError.

(** ** The interface *)

Class SecretBackend (B : Type) := {
  backend_read : string -> B -> result VaultError.t (option string);
  backend_write_new : string -> string -> M B VaultError.t unit;
  backend_remove : string -> M B VaultError.t unit;
}.

(** What is kept under each target: reads find it, a write adds to it and never replaces, and only a
    removal takes away. *)
Class SecretBackendLaws (B : Type) `{SecretBackend B} := {
  kept : B -> gmap string string;
  read_kept target b v : backend_read target b = Ok v -> v = kept b !! target;
  write_new_kept target bytes b r b' :
    backend_write_new target bytes b = (r, b') ->
    match r with
    | Ok _ => kept b !! target = None /\ kept b' = <[ target := bytes ]> (kept b)
    | Err _ => kept b' = kept b
    end;
  remove_kept target b r b' :
    backend_remove target b = (r, b') ->
    match r with Ok _ => kept b' = delete target (kept b) | Err _ => kept b' = kept b end;
}.

(** ** The vault of Windows *)

(** A generic credential as the operating system returns it *)
Module OsCredential.
Record t := mk { generic : bool; local_machine : bool; blob : string }.
End OsCredential.

(** The credentials, whether the mutex of the writers is intact, and whether reads and whether writes succeed *)
Module OsVault.
Record t := mk { writer : bool; readable : bool; writable : bool; credentials : gmap string OsCredential.t }.
Definition set_credentials (v : gmap string OsCredential.t) (s : t) : t := mk s.(writer) s.(readable) s.(writable) v.
End OsVault.

Definition is_target (target : string) : bool :=
  let checked suffix := (len suffix =? 64)%N && bytes_all is_lower_hex suffix in
  match strip_prefix VAULT_PREFIX target with
  | Some suffix => checked suffix
  | None => is_some_and checked (strip_prefix SERVER_KEY_PREFIX target)
  end.

Definition native_read (target : string) (s : OsVault.t) : result VaultError.t (option string) :=
  _ ← refuse (negb (is_target target)) VaultError.Invalid;
  _ ← refuse (negb s.(OsVault.readable)) VaultError.Unavailable;
  match s.(OsVault.credentials) !! target with
  | None => Ok None
  | Some record =>
    let length := len record.(OsCredential.blob) in
    _ ← refuse (negb record.(OsCredential.generic) || negb record.(OsCredential.local_machine)
                || (length =? 0)%N || (MAX_VAULT_BYTES <? length)%N) VaultError.Invalid;
    Ok (Some record.(OsCredential.blob))
  end.

Definition native_write_new (target bytes : string) : M OsVault.t VaultError.t unit :=
  s ← get;
  _ ← reject_if (negb s.(OsVault.writer)) VaultError.Unavailable;
  _ ← reject_if (is_empty bytes || (MAX_VAULT_BYTES <? len bytes)%N) VaultError.Invalid;
  present ← lift (native_read target s);
  _ ← reject_if (is_some present) VaultError.Existing;
  _ ← reject_if (negb s.(OsVault.writable)) VaultError.Unavailable;
  modify (OsVault.set_credentials (<[ target := OsCredential.mk true true bytes ]> s.(OsVault.credentials))).

Definition native_remove (target : string) : M OsVault.t VaultError.t unit :=
  s ← get;
  _ ← reject_if (negb s.(OsVault.writer)) VaultError.Unavailable;
  _ ← reject_if (negb (is_target target)) VaultError.Invalid;
  _ ← reject_if (negb s.(OsVault.writable)) VaultError.Unavailable;
  modify (OsVault.set_credentials (delete target s.(OsVault.credentials))).

(** [NativeVault] under [cfg(windows)] *)
#[export] Instance native_vault : SecretBackend OsVault.t := {|
  backend_read := native_read;
  backend_write_new := native_write_new;
  backend_remove := native_remove;
|}.

(** ** Elsewhere *)

(** [NativeVault] under [cfg(not(windows))]: nothing is kept and every call fails. *)
Inductive NoVault := no_vault.
#[export] Instance unavailable_vault : SecretBackend NoVault := {|
  backend_read _ _ := Err VaultError.Unavailable;
  backend_write_new _ _ := throw VaultError.Unavailable;
  backend_remove _ := throw VaultError.Unavailable;
|}.

(** ** The secrets of a Node *)

Module VaultDocument.
Record t := mk { version : N; binding : CredentialBinding.t; expires_at : Z; secret : SecretToken }.
End VaultDocument.

(** serde_json on a binding and on the document; a secret is read through [SecretToken::parse]. *)
Class BindingJson := {
  binding_to_vec : CredentialBinding.t -> option string;
  binding_from_slice : string -> option CredentialBinding.t;
}.
Class VaultJson := {
  vault_document_to_vec : VaultDocument.t -> option string;
  vault_document_from_slice : string -> option VaultDocument.t;
}.
Class VaultJsonLaws `{VaultJson} : Prop :=
  vault_document_from_to d bytes :
    vault_document_to_vec d = Some bytes -> vault_document_from_slice bytes = Some d.

Section Secrets.
Context `{Sha256, BindingJson, VaultJson} {B : Type} `{SecretBackend B}.

Definition binding_ids (binding : CredentialBinding.t) : list string :=
  [binding.(CredentialBinding.brain_id); binding.(CredentialBinding.member_id);
   binding.(CredentialBinding.node_id); binding.(CredentialBinding.device_id)].

Definition vault_target (binding : CredentialBinding.t) : result VaultError.t string :=
  _ ← refuse (existsb (fun v => negb (id v)) (binding_ids binding)) VaultError.Invalid;
  bytes ← ok_or (binding_to_vec binding) VaultError.Invalid;
  mret (VAULT_PREFIX +:+ hex_of_bytes (sha256_digest bytes)).

Definition save_new (credential : IssuedCredential.t) (now : Z) : M B VaultError.t unit :=
  slot ← lift (vault_target credential.(IssuedCredential.binding));
  _ ← reject_if (negb (timestamp now) || negb (timestamp credential.(IssuedCredential.expires_at))
                 || (credential.(IssuedCredential.expires_at) <=? now)%Z
                 || (86400 <? credential.(IssuedCredential.expires_at) - now)%Z) VaultError.Invalid;
  secret ← lift (map_err (fun _ => VaultError.Invalid)
                   (token_parse credential.(IssuedCredential.secret).(expose_secret)));
  bytes ← lift (ok_or (vault_document_to_vec
                         (VaultDocument.mk 1 credential.(IssuedCredential.binding)
                            credential.(IssuedCredential.expires_at) secret)) VaultError.Invalid);
  _ ← reject_if (MAX_SECRET_BYTES <? len bytes)%N VaultError.Invalid;
  backend_write_new slot bytes.

Definition vault_load (binding : CredentialBinding.t) (now : Z) (b : B)
    : result VaultError.t IssuedCredential.t :=
  slot ← vault_target binding;
  found ← backend_read slot b;
  bytes ← ok_or found VaultError.Missing;
  _ ← refuse (MAX_SECRET_BYTES <? len bytes)%N VaultError.Invalid;
  document ← ok_or (vault_document_from_slice bytes) VaultError.Invalid;
  _ ← refuse (negb (document.(VaultDocument.version) =? 1)%N
              || negb (bool_decide (document.(VaultDocument.binding) = binding))
              || negb (timestamp now) || negb (timestamp document.(VaultDocument.expires_at))
              || (document.(VaultDocument.expires_at) <=? now)%Z) VaultError.Invalid;
  mret (IssuedCredential.mk document.(VaultDocument.binding) document.(VaultDocument.expires_at)
          document.(VaultDocument.secret)).

Definition vault_remove (binding : CredentialBinding.t) : M B VaultError.t unit :=
  slot ← lift (vault_target binding);
  backend_remove slot.
End Secrets.

(** ** The vault of Windows keeps the promise *)

Lemma native_read_ok target s v :
  native_read target s = Ok v -> v = OsCredential.blob <$> s.(OsVault.credentials) !! target.
Proof.
  unfold native_read. rewrite !result_seq_ok, !refuse_ok. intros (_ & _ & Hread).
  destruct (_ !! target) as [record|]; [|by injection Hread as <-].
  rewrite result_seq_ok, refuse_ok in Hread. by destruct Hread as [_ [= <-]].
Qed.

#[export] Program Instance native_vault_laws : SecretBackendLaws OsVault.t := {|
  kept s := OsCredential.blob <$> s.(OsVault.credentials)
|}.
Next Obligation.
  intros target b v Hread%native_read_ok. simpl. by rewrite lookup_fmap.
Qed.
Next Obligation.
  intros target bytes b r b' Hrun. simpl in Hrun. unfold native_write_new in Hrun. run_cases Hrun; try done.
  match goal with Hr : native_read _ _ = Ok _ |- _ => apply native_read_ok in Hr end.
  simpl. rewrite lookup_fmap, fmap_insert. split; [|done].
  match goal with Ha : ?a = OsCredential.blob <$> _ |- _ => rewrite <- Ha; by destruct a end.
Qed.
Next Obligation.
  intros target b r b' Hrun. simpl in Hrun. unfold native_remove in Hrun. run_cases Hrun; try done.
  simpl. by rewrite fmap_delete.
Qed.

#[export] Instance unavailable_vault_laws : SecretBackendLaws NoVault.
Proof.
  refine {| kept _ := ∅ |}; simpl; [done| |]; intros;
    match goal with H : throw _ _ = _ |- _ => by apply throw_inv in H as [-> ->] end.
Defined.

(** ** What was saved is found until it expires *)

Section Roundtrip.
Context `{Sha256, BindingJson, VaultJson} {B : Type} `{SecretBackend B}.
Context (Hbackend : SecretBackendLaws B) (Hjson : VaultJsonLaws).

(** What a save has checked and written *)
Lemma save_new_ok c now b b' :
  save_new c now b = (Ok tt, b') ->
  exists slot bytes, vault_target c.(IssuedCredential.binding) = Ok slot /\
    kept b !! slot = None /\ kept b' = <[ slot := bytes ]> (kept b) /\
    (len bytes <= MAX_SECRET_BYTES)%N /\ timestamp c.(IssuedCredential.expires_at) = true /\
    vault_document_from_slice bytes = Some (VaultDocument.mk 1 c.(IssuedCredential.binding)
      c.(IssuedCredential.expires_at) c.(IssuedCredential.secret)).
Proof.
  unfold save_new. intros Hrun. run_inv Hrun. bool_hyps.
  match goal with Ht : map_err _ (token_parse ?v) = Ok ?x |- _ =>
    assert (x = c.(IssuedCredential.secret)) as -> end.
  { match goal with Ht : map_err _ (token_parse _) = Ok _ |- _ => revert Ht end. unfold token_parse.
    destruct (_ || _); simpl; [done|]. intros [= <-]. by destruct (IssuedCredential.secret c). }
  match goal with Hw : backend_write_new _ _ _ = _ |- _ => apply write_new_kept in Hw as [Hnone Hkept] end.
  match goal with Hv : vault_document_to_vec _ = _ |- _ => apply vault_document_from_to in Hv end.
  match goal with Hl : (_ <? len _)%N = false |- _ => apply N.ltb_ge in Hl end.
  do 2 eexists. by split_and!.
Qed.

(** C33: a credential that was saved is found again exactly until it expires: while the vault can be
    read, loading it gives the same credential before its time is over and nothing after; and
    no other credential can be saved in its place. *)
Theorem vault_roundtrip c now b b' :
  save_new c now b = (Ok tt, b') ->
  (forall slot, is_ok (backend_read slot b') = true ->
     vault_target c.(IssuedCredential.binding) = Ok slot ->
     forall now', vault_load c.(IssuedCredential.binding) now' b' =
       if timestamp now' && (now' <? c.(IssuedCredential.expires_at))%Z then Ok c else Err VaultError.Invalid) /\
  (forall c2 now2 r b2, c2.(IssuedCredential.binding) = c.(IssuedCredential.binding) ->
     save_new c2 now2 b' = (r, b2) -> is_ok r = false).
Proof.
  intros (slot & bytes & Hslot & _ & Hkept & Hlen & Hexp & Hdoc)%save_new_ok. split.
  - intros slot' Hread Hslot' now'. assert (slot' = slot) as -> by congruence.
    destruct (backend_read slot b') as [v|e] eqn:Hv; [|done]. apply read_kept in Hv as Heq.
    rewrite Hkept, lookup_insert_eq in Heq. subst v.
    unfold vault_load. rewrite Hslot. simpl. rewrite Hv. simpl. apply N.ltb_ge in Hlen. rewrite Hlen, Hdoc. simpl.
    rewrite bool_decide_true by done. rewrite Hexp. simpl. rewrite (Z.ltb_antisym _ now').
    destruct (timestamp now'), (_ <=? now')%Z; simpl; try done. by destruct c.
  - intros c2 now2 r b2 Hbinding Hrun. destruct r as [[]|]; [|done].
    apply save_new_ok in Hrun as (slot2 & _ & Hslot2 & Hnone & _). rewrite Hbinding in Hslot2.
    assert (slot2 = slot) as -> by congruence. by rewrite Hkept, lookup_insert_eq in Hnone.
Qed.
End Roundtrip.
