(* ===== verification/Trust.v ===== *)
(** * Whom a Node trusts (collaboration/trust.rs, collaboration/tls.rs)

    The description of a Brain's endpoint, which anyone may hand over, and the peer that it
    becomes once its certificate was confirmed. Of TLS itself only the inputs are here: what
    rustls makes of a server name and of a certificate is a parameter. *)

From S2P Require Import Prelude Protocol.

Definition MAX_DESCRIPTOR_BYTES : N := 8192.

(** ** Addresses *)

(** Octets, and segments of 16 bits *)
Inductive IpAddr := V4 (a b c d : N) | V6 (segments : list N).
#[global] Instance IpAddr_eq_dec : EqDecision IpAddr.
Proof. solve_decision. Defined.

Module SocketAddr.
Record t := mk { ip : IpAddr; port : N }.
#[global] Instance eq_dec : EqDecision t.
Proof. solve_decision. Defined.
End SocketAddr.

(** [Ipv4Addr::is_loopback], [Ipv4Addr::is_private] and [Ipv6Addr::is_loopback] *)
Definition is_loopback (a : N) : bool := (a =? 127)%N.
Definition is_private (a b : N) : bool :=
  (a =? 10)%N || (a =? 172)%N && in_range 16 31 b || (a =? 192)%N && (b =? 168)%N.
Definition is_loopback_v6 (segments : list N) : bool := bool_decide (segments = [0; 0; 0; 0; 0; 0; 0; 1]%N).

Definition private_address (address : IpAddr) : bool :=
  match address with
  | V4 a b _ _ => is_loopback a || is_private a b || (a =? 100)%N && in_range 64 127 b
  | V6 segments => is_loopback_v6 segments || (N.land (default 0 (head segments)) 65024 =? 64512)%N
  end.

(** ** The endpoint *)

Module TlsError.
Inductive t := Configuration | Connection | Frame.
End TlsError.

Module Peer.
Record t := mk { address : SocketAddr.t; name : string; root : string; pin : string }.
End Peer.

(** What rustls accepts as a server name and as a root, and whether it can be configured *)
Class TlsInputs := {
  server_name_ok : string -> bool;
  root_certificate_ok : string -> bool;
  tls13_available : bool;
}.

Module TrustDescriptor.
Record t := mk {
  version : N;
  brain_id : string;
  address : SocketAddr.t;
  server_name : string;
  certificate_der : string;
}.
#[global] Instance eq_dec : EqDecision t.
Proof. solve_decision. Defined.
End TrustDescriptor.

Module TrustError.
Inductive t := Invalid | Unconfirmed.
End TrustError.

(** serde_json on a descriptor *)
Class DescriptorJson := {
  descriptor_to_vec : TrustDescriptor.t -> option string;
  descriptor_from_slice : string -> option TrustDescriptor.t;
}.
Class DescriptorJsonLaws `{DescriptorJson} : Prop := descriptor_from_to d bytes :
  descriptor_to_vec d = Some bytes -> descriptor_from_slice bytes = Some d.

Section Trust.
Context `{Sha256, TlsInputs, DescriptorJson}.

Definition peer_new (address : SocketAddr.t) (name root pin : string) : result TlsError.t Peer.t :=
  _ ← refuse (negb (private_address address.(SocketAddr.ip)) || (address.(SocketAddr.port) =? 0)%N
              || (16384 <? len root)%N) TlsError.Configuration;
  _ ← refuse (negb (server_name_ok name)) TlsError.Configuration;
  _ ← refuse (negb (root_certificate_ok root)) TlsError.Configuration;
  _ ← refuse (negb tls13_available) TlsError.Configuration;
  mret (Peer.mk address name root pin).

(** [TrustDescriptor::peer], which [TrustedPeer::peer] calls *)
Definition descriptor_peer (d : TrustDescriptor.t) : result TrustError.t Peer.t :=
  map_err (fun _ => TrustError.Invalid)
    (peer_new d.(TrustDescriptor.address) d.(TrustDescriptor.server_name)
       d.(TrustDescriptor.certificate_der) (sha256_digest d.(TrustDescriptor.certificate_der))).

Definition descriptor_validate (d : TrustDescriptor.t) : result TrustError.t unit :=
  _ ← refuse (negb (d.(TrustDescriptor.version) =? 1)%N || negb (id d.(TrustDescriptor.brain_id))
              || (d.(TrustDescriptor.address).(SocketAddr.port) =? 0)%N
              || negb (private_address d.(TrustDescriptor.address).(SocketAddr.ip))
              || (253 <? len d.(TrustDescriptor.server_name))%N
              || is_empty d.(TrustDescriptor.certificate_der)
              || (1024 <? len d.(TrustDescriptor.certificate_der))%N) TrustError.Invalid;
  _ ← descriptor_peer d;
  mret tt.

Definition descriptor_new (brain_id : string) (address : SocketAddr.t) (server_name certificate_der : string)
    : result TrustError.t TrustDescriptor.t :=
  let descriptor := TrustDescriptor.mk 1 brain_id address server_name certificate_der in
  _ ← descriptor_validate descriptor;
  mret descriptor.

Definition descriptor_decode (bytes : string) : result TrustError.t TrustDescriptor.t :=
  _ ← refuse (MAX_DESCRIPTOR_BYTES <? len bytes)%N TrustError.Invalid;
  descriptor ← ok_or (descriptor_from_slice bytes) TrustError.Invalid;
  _ ← descriptor_validate descriptor;
  mret descriptor.

Definition descriptor_encode (d : TrustDescriptor.t) : result TrustError.t string :=
  _ ← descriptor_validate d;
  bytes ← ok_or (descriptor_to_vec d) TrustError.Invalid;
  _ ← refuse (MAX_DESCRIPTOR_BYTES <? len bytes)%N TrustError.Invalid;
  mret bytes.

Definition fingerprint (d : TrustDescriptor.t) : string :=
  hex_of_bytes (sha256_digest d.(TrustDescriptor.certificate_der)).

(** [TrustedPeer::confirm]: a trusted peer is its descriptor. *)
Definition confirm (bytes confirmed_fingerprint : string) : result TrustError.t TrustDescriptor.t :=
  descriptor ← descriptor_decode bytes;
  _ ← refuse (negb (str_eqb confirmed_fingerprint (fingerprint descriptor))) TrustError.Unconfirmed;
  mret descriptor.
End Trust.

(** ** Private networks *)

(** The number of a version 4 address *)
Definition v4_number (a b c d : N) : N := a * 16777216 + b * 65536 + c * 256 + d.

(** The networks that a peer may be in: the loopback and private networks of version 4, the
    shared address space 100.64.0.0/10, and unique local addresses of version 6 *)
Definition v4_networks : list (N * N) :=
  [(2130706432, 2147483647); (167772160, 184549375); (2886729728, 2887778303);
   (3232235520, 3232301055); (1681915904, 1686110207)]%N.

Lemma unique_local s : (s < 65536)%N -> N.land s 65024 = 64512%N <-> (64512 <= s <= 65023)%N.
Proof.
  intros Hs. split; intros Hland.
  - assert (N.shiftr (N.land s 65024) 9 = 126%N) as Hshift by by rewrite Hland.
    rewrite N.shiftr_land in Hshift. change (N.shiftr 65024 9) with (N.ones 7) in Hshift.
    rewrite N.land_ones, N.shiftr_div_pow2 in Hshift. change (2 ^ 9)%N with 512%N in Hshift.
    change (2 ^ 7)%N with 128%N in Hshift. rewrite N.mod_small in Hshift by (apply N.Div0.div_lt_upper_bound; lia).
    pose proof (N.div_mod s 512 ltac:(done)). pose proof (N.mod_lt s 512 ltac:(done)). lia.
  - assert (forallb (fun i => N.land (64512 + N.of_nat i) 65024 =? 64512)%N (seq 0 512) = true) as Hall
      by by vm_compute.
    rewrite forallb_forall in Hall. specialize (Hall (N.to_nat (s - 64512))).
    rewrite N2Nat.id in Hall. replace (64512 + (s - 64512))%N with s in Hall by lia.
    apply N.eqb_eq, Hall, in_seq. lia.
Qed.

(** The test on octets is membership in one of the networks, and that on segments one of two
    networks. *)
Theorem private_address_networks :
  (forall a b c d, (a < 256)%N -> (b < 256)%N -> (c < 256)%N -> (d < 256)%N ->
     private_address (V4 a b c d) = true <->
     Exists (fun network => network.1 <= v4_number a b c d <= network.2)%N v4_networks) /\
  (forall s rest, (s < 65536)%N ->
     private_address (V6 (s :: rest)) = true <->
     s :: rest = [0; 0; 0; 0; 0; 0; 0; 1]%N \/ (64512 <= s <= 65023)%N).
Proof.
  split.
  - intros a b c d Ha Hb Hc Hd. unfold private_address, is_loopback, is_private, in_range, v4_networks, v4_number.
    rewrite !Exists_cons, Exists_nil. simpl. lia.
  - intros s rest Hs. unfold private_address, is_loopback_v6. cbn [head default from_option].
    rewrite orb_true_iff, bool_decide_eq_true, N.eqb_eq, unique_local by done. done.
Qed.

(** ** What was confirmed *)

Section Confirmed.
Context `{Sha256, TlsInputs, DescriptorJson}.

(** A peer that may be dialed for a descriptor: on a private network, its certificate pinned *)
Record peer_for (d : TrustDescriptor.t) (p : Peer.t) : Prop := {
  pf_address : p.(Peer.address) = d.(TrustDescriptor.address);
  pf_private : private_address p.(Peer.address).(SocketAddr.ip) = true;
  pf_root : p.(Peer.root) = d.(TrustDescriptor.certificate_der);
  pf_pin : hex_of_bytes p.(Peer.pin) = fingerprint d;
}.

Lemma descriptor_peer_ok d p : descriptor_peer d = Ok p -> peer_for d p.
Proof.
  unfold descriptor_peer. destruct (peer_new _ _ _ _) as [q|] eqn:Hq; [|done]. intros [= ->]. revert Hq.
  unfold peer_new. rewrite !result_seq_ok, !refuse_ok. intros (Hg & _ & _ & _ & [= <-]). bool_hyps. by split.
Qed.

Lemma confirm_ok bytes confirmed d :
  confirm bytes confirmed = Ok d -> descriptor_decode bytes = Ok d /\ confirmed = fingerprint d.
Proof.
  unfold confirm. intros (d' & Hd & Hrest)%result_bind_ok. revert Hrest. rewrite result_seq_ok, refuse_ok.
  intros [Hf%negb_false_iff%str_eqb_true [= ->]]. done.
Qed.

(** A descriptor that was encoded is confirmed by its own fingerprint and by no other. *)
Theorem confirm_encoded (Hjson : DescriptorJsonLaws) d bytes confirmed :
  descriptor_encode d = Ok bytes ->
  confirm bytes confirmed = if str_eqb confirmed (fingerprint d) then Ok d else Err TrustError.Unconfirmed.
Proof.
  unfold descriptor_encode. intros ([] & Hval & Hrest)%result_bind_ok.
  apply result_bind_ok in Hrest as (bytes' & Hto%ok_or_ok & Hrest). rewrite result_seq_ok, refuse_ok in Hrest.
  destruct Hrest as [Hlen [= ->]]. apply descriptor_from_to in Hto.
  unfold confirm, descriptor_decode. rewrite Hlen, Hto. simpl. rewrite Hval. simpl.
  by destruct (str_eqb confirmed _).
Qed.
End Confirmed.
