(* ===== verification/Channel.v ===== *)
(** * The channel between a Node and a host (collaboration/tls.rs, the exchange of collaboration/client.rs)

    Once TLS is set up, messages go over it as frames, each with its length in front. What
    rustls and the socket do to the bytes is given: a write is complete or ends early, and
    what arrives before the deadline does so in any chunks. *)

From S2P Require Import Prelude Protocol Credential Invitation Brain Reconcile Node Wire Client Trust.

(** ** Bytes *)

(** [u32::to_be_bytes] and [u32::from_be_bytes] *)
Definition to_be_bytes (n : N) : string :=
  String (ascii_of_N (n / 16777216 mod 256)) (String (ascii_of_N (n / 65536 mod 256))
    (String (ascii_of_N (n / 256 mod 256)) (String (ascii_of_N (n mod 256)) EmptyString))).
Fixpoint from_be_bytes_onto (acc : N) (s : string) : N :=
  match s with EmptyString => acc | String a s => from_be_bytes_onto (acc * 256 + byte_of a) s end.
Definition from_be_bytes (s : string) : N := from_be_bytes_onto 0 s.

Fixpoint drop_bytes (n : nat) (s : string) : string :=
  match n, s with
  | O, s => s
  | S n, EmptyString => EmptyString
  | S n, String _ s => drop_bytes n s
  end.
Fixpoint joined_bytes (chunks : list string) : string :=
  match chunks with [] => EmptyString | chunk :: chunks => chunk +:+ joined_bytes chunks end.

(** ** The channel *)

(** [incoming] is what can be read before the deadline; [outgoing] was written and not yet delivered. *)
Module TlsChannel.
Record t := mk { healthy : bool; incoming : list string; outgoing : string }.
Definition opened : t := mk true [] EmptyString.
Definition close (s : t) : t := mk false s.(incoming) s.(outgoing).
Definition set_incoming (v : list string) (s : t) : t := mk s.(healthy) v s.(outgoing).
Definition put (bytes : string) (s : t) : t := mk s.(healthy) s.(incoming) (s.(outgoing) +:+ bytes).
End TlsChannel.

Definition ChannelM := M TlsChannel.t TlsError.t.

(** The number of bytes of a frame that are written before a write fails *)
Definition WriteIo := option nat.

(** [read_plain]: a read returns the rest of a chunk, and no bytes at the end of the stream. *)
Fixpoint read_chunks (n : nat) (chunks : list string) : option string * list string :=
  match n with
  | O => (Some EmptyString, chunks)
  | _ =>
    match chunks with
    | [] => (None, [])
    | EmptyString :: chunks => (None, chunks)
    | chunk :: chunks =>
      if (String.length chunk <=? n)%nat
      then let (bytes, chunks) := read_chunks (n - String.length chunk) chunks in
           ((fun bytes => chunk +:+ bytes) <$> bytes, chunks)
      else (Some (String.substring 0 n chunk), drop_bytes n chunk :: chunks)
    end
  end.
Definition read_plain (n : nat) : ChannelM string :=
  s ← get;
  let (bytes, chunks) := read_chunks n s.(TlsChannel.incoming) in
  _ ← modify (TlsChannel.set_incoming chunks);
  lift (ok_or bytes TlsError.Connection).

(** [send]; the pieces that are written are the header and the message. *)
Definition send (bytes : string) (io : WriteIo) : ChannelM unit :=
  s ← get;
  _ ← reject_if (negb s.(TlsChannel.healthy)) TlsError.Connection;
  if is_empty bytes || (MAX_CONTROL_BYTES <? len bytes)%N then
    _ ← modify TlsChannel.close;
    throw TlsError.Frame
  else
  let frame := to_be_bytes (len bytes) +:+ bytes in
  match io with
  | None => modify (TlsChannel.put frame)
  | Some n =>
    _ ← modify (TlsChannel.put (String.substring 0 n frame));
    _ ← modify TlsChannel.close;
    throw TlsError.Connection
  end.

(** The closure of [receive] *)
Definition receive_frame : ChannelM string :=
  header ← read_plain 4;
  let length := from_be_bytes header in
  _ ← reject_if ((length =? 0)%N || (MAX_CONTROL_BYTES <? length)%N) TlsError.Frame;
  read_plain (N.to_nat length).

(** An error closes the channel. *)
Definition closing {A} (m : ChannelM A) : ChannelM A :=
  fun s => match m s with
           | (Ok a, s) => (Ok a, s)
           | (Err error, s) => (Err error, TlsChannel.close s)
           end.
Definition receive : ChannelM string :=
  s ← get;
  _ ← reject_if (negb s.(TlsChannel.healthy)) TlsError.Connection;
  closing receive_frame.

(** ** One exchange of the client *)

Section Exchange.
Context `{WireJson} {V P : Type}.
(** The other end: what it does with the bytes it is sent, and what comes back in time *)
Context (peer : string -> P -> list string * P).

#[local] Notation "'ExchangeM'" := (M (TlsChannel.t * P) (ClientError.t V)) (only parsing).

Definition on_channel {A} (m : ChannelM A) : ExchangeM A :=
  zoom fst (fun c s => (c, s.2)) (fun _ => ClientError.Transport) m.
Definition transmit : ExchangeM unit :=
  modify (fun s => let (chunks, p) := peer s.1.(TlsChannel.outgoing) s.2 in
                   (TlsChannel.mk s.1.(TlsChannel.healthy) (s.1.(TlsChannel.incoming) ++ chunks) EmptyString, p)).

(** [exchange], with the draw of the request's id *)
Definition channel_exchange (d : draw) (io : WriteIo) (operation : Operation.t) : ExchangeM Reply.t :=
  token ← lift (map_err (fun _ => ClientError.Invalid) (token_generate d));
  let request := Request.mk 1 token.(expose_secret) operation in
  bytes ← lift (map_err ClientError.Peer (request_encode request));
  _ ← on_channel (send bytes io);
  _ ← transmit;
  bytes ← on_channel receive;
  response ← lift (map_err ClientError.Peer (response_decode bytes request.(Request.id)));
  match response.(Response.result) with
  | Reply.Error error => throw (ClientError.Peer error)
  | reply => mret reply
  end.
End Exchange.

(** ** Frames *)

#[local] Ltac Zify.zify_post_hook ::= Z.to_euclidean_division_equations.
Lemma be_bytes_roundtrip n : (n < 4294967296)%N -> from_be_bytes (to_be_bytes n) = n.
Proof.
  intros Hn. unfold from_be_bytes, to_be_bytes. simpl from_be_bytes_onto. unfold byte_of.
  rewrite !N_ascii_embedding by (apply N.mod_lt; done). lia.
Qed.
Lemma length_be_bytes n : String.length (to_be_bytes n) = 4.
Proof. done. Qed.

(** What is written for a list of messages *)
Fixpoint frames (messages : list string) : string :=
  match messages with
  | [] => EmptyString
  | message :: messages => to_be_bytes (len message) +:+ message +:+ frames messages
  end.

Definition chunked (chunks : list string) (bytes : string) : Prop :=
  joined_bytes chunks = bytes /\ EmptyString ∉ chunks.

Lemma take_drop_bytes n s : String.substring 0 n s +:+ drop_bytes n s = s.
Proof. revert n. induction s as [|a s IH]; intros [|n]; try done. exact (f_equal (String a) (IH n)). Qed.

Lemma app_bytes_split c t a b :
  c +:+ t = a +:+ b -> String.length c <= String.length a -> exists a', a = c +:+ a' /\ t = a' +:+ b.
Proof.
  revert a. induction c as [|x c IH]; intros a Heq Hlen; [by exists a|].
  destruct a as [|y a]; [simpl in Hlen; lia|]. injection Heq as -> Heq.
  destruct (IH a Heq) as (a' & -> & ->); [simpl in Hlen; lia|]. by exists a'.
Qed.
Lemma app_bytes_inj a b a' b' : String.length a = String.length a' -> a +:+ b = a' +:+ b' -> a = a' /\ b = b'.
Proof.
  revert a'. induction a as [|x a IH]; intros [|y a']; try done. intros [= Hlen] Heq. injection Heq as -> Heq.
  destruct (IH a' Hlen Heq) as [-> ->]. done.
Qed.
Lemma length_substring_0 n s : n <= String.length s -> String.length (String.substring 0 n s) = n.
Proof. revert n. induction s as [|a s IH]; intros [|n]; simpl; try lia. intros Hn. by rewrite IH by lia. Qed.

(** Reading takes the bytes that were asked for and leaves the rest. *)
Lemma read_chunks_exact chunks a b :
  chunked chunks (a +:+ b) ->
  exists rest, read_chunks (String.length a) chunks = (Some a, rest) /\ chunked rest b.
Proof.
  revert a. induction chunks as [|chunk chunks IH]; intros a [Hjoin Hempty]; simpl in Hjoin.
  - destruct a; [|done]. by exists [].
  - destruct a as [|x a]; [by exists (chunk :: chunks)|]. apply not_elem_of_cons in Hempty as [Hne Hempty].
    cbn [read_chunks String.length]. destruct chunk as [|y chunk]; [done|].
    set (a1 := String x a) in *. set (c1 := String y chunk) in *. change (S (String.length a)) with (String.length a1).
    destruct (Nat.leb_spec (String.length c1) (String.length a1)) as [Hle|Hgt].
    + apply app_bytes_split in Hjoin as (a' & Ha & Hjoin); [|done]. rewrite Ha, length_append.
      replace (String.length c1 + String.length a' - String.length c1) with (String.length a') by lia.
      destruct (IH a' (conj Hjoin Hempty)) as (rest & -> & Hrest). by exists rest.
    + pose proof (take_drop_bytes (String.length a1) c1) as Hsplit.
      exists (drop_bytes (String.length a1) c1 :: chunks). rewrite <- Hsplit in Hjoin. rewrite append_assoc in Hjoin.
      apply app_bytes_inj in Hjoin as [Ha Hb]; [|rewrite length_substring_0; lia].
      rewrite Ha. split; [done|]. split; [done|]. apply not_elem_of_cons. split; [|done]. intros Heq.
      rewrite Ha, <- Heq, append_empty in Hsplit. rewrite Hsplit in Hgt. lia.
Qed.

Lemma read_chunks_short n chunks : String.length (joined_bytes chunks) < n -> (read_chunks n chunks).1 = None.
Proof.
  revert n. induction chunks as [|chunk chunks IH]; intros n Hn; (destruct n as [|n]; [lia|]); [done|].
  cbn [read_chunks]. destruct chunk as [|x chunk]; [done|]. cbn [joined_bytes] in Hn. rewrite length_append in Hn.
  destruct (Nat.leb_spec (String.length (String x chunk)) (S n)) as [Hle|Hgt]; [|lia].
  specialize (IH (S n - String.length (String x chunk)) ltac:(lia)).
  destruct (read_chunks _ chunks) as [bytes rest]. simpl in IH |- *. by rewrite IH.
Qed.

Definition sendable (message : string) : Prop := message <> EmptyString /\ (len message <= MAX_CONTROL_BYTES)%N.

Lemma sendable_bool message : sendable message -> is_empty message || (MAX_CONTROL_BYTES <? len message)%N = false.
Proof. intros [Hne Hlen]. apply orb_false_iff. split; [by destruct message|by apply N.ltb_ge]. Qed.

Lemma sendable_length message :
  sendable message -> (len message =? 0)%N || (MAX_CONTROL_BYTES <? len message)%N = false.
Proof.
  intros [Hne Hlen]. apply orb_false_iff. split; [|by apply N.ltb_ge]. apply N.eqb_neq. unfold len.
  destruct message; [done|]. simpl. lia.
Qed.

(** A frame that is there is received, and what follows is left. *)
Lemma receive_message c message b :
  c.(TlsChannel.healthy) = true -> sendable message ->
  chunked c.(TlsChannel.incoming) (to_be_bytes (len message) +:+ message +:+ b) ->
  exists rest, receive c = (Ok message, TlsChannel.set_incoming rest c) /\ chunked rest b.
Proof.
  intros Hhealthy Hmsg Hin. pose proof Hmsg as [_ Hlen].
  apply read_chunks_exact in Hin as (rest & Hread & Hin). rewrite length_be_bytes in Hread.
  apply read_chunks_exact in Hin as (rest' & Hread' & Hin). exists rest'. split; [|done].
  unfold receive, receive_frame, closing, read_plain, mbind, M_bind, get, reject_if, modify, lift, mret, M_ret.
  rewrite Hhealthy. simpl. rewrite Hread. simpl.
  rewrite be_bytes_roundtrip by (unfold MAX_CONTROL_BYTES in Hlen; lia).
  rewrite (sendable_length _ Hmsg).
  simpl. unfold len. rewrite Nat2N.id, Hread'. simpl. by destruct c.
Qed.

(** A frame of which a part is missing is not received, and the channel is closed. *)
Lemma receive_cut c message n :
  c.(TlsChannel.healthy) = true -> sendable message -> n < 4 + String.length message ->
  chunked c.(TlsChannel.incoming) (String.substring 0 n (to_be_bytes (len message) +:+ message)) ->
  exists c', receive c = (Err TlsError.Connection, c') /\ c'.(TlsChannel.healthy) = false.
Proof.
  intros Hhealthy Hmsg Hn Hin. pose proof Hmsg as [_ Hlen].
  assert (String.length (joined_bytes c.(TlsChannel.incoming)) = n) as Hall.
  { destruct Hin as [-> _]. apply length_substring_0. rewrite length_append, length_be_bytes. lia. }
  unfold receive, receive_frame, closing, read_plain, mbind, M_bind, get, reject_if, modify, lift, mret, M_ret.
  rewrite Hhealthy. simpl. destruct (decide (n < 4)) as [Hshort|Hlong].
  - pose proof (read_chunks_short 4 c.(TlsChannel.incoming) ltac:(lia)) as Hnone.
    destruct (read_chunks 4 _) as [bytes rest]. simpl in Hnone. subst bytes. simpl. by eexists.
  - assert (exists part, chunked c.(TlsChannel.incoming) (to_be_bytes (len message) +:+ part)) as (part & Hin').
    { exists (String.substring 0 (n - 4) message). destruct Hin as [Hj He]. split; [|done]. rewrite Hj.
      do 4 (destruct n as [|n]; [lia|]). simpl. by replace (n - 0) with n by lia. }
    destruct Hin' as [Hj He]. rewrite Hj, length_append, length_be_bytes in Hall.
    destruct (read_chunks_exact _ _ _ (conj Hj He)) as (rest & Hread & Hrest & _). rewrite length_be_bytes in Hread.
    rewrite Hread. simpl. rewrite be_bytes_roundtrip by (unfold MAX_CONTROL_BYTES in Hlen; lia).
    rewrite (sendable_length _ Hmsg).
    simpl. unfold len. rewrite Nat2N.id.
    pose proof (read_chunks_short (String.length message) rest ltac:(rewrite Hrest; lia)) as Hnone.
    destruct (read_chunks _ rest) as [bytes rest']. simpl in Hnone. subst bytes. simpl. by eexists.
Qed.

(** ** Messages arrive whole, in order, or not at all *)

Fixpoint send_all (messages : list string) : ChannelM unit :=
  match messages with
  | [] => mret tt
  | message :: messages => _ ← send message None; send_all messages
  end.
Fixpoint receive_messages (n : nat) : ChannelM (list string) :=
  match n with
  | O => mret []
  | S n => message ← receive; messages ← receive_messages n; mret (message :: messages)
  end.

Lemma send_message c message :
  c.(TlsChannel.healthy) = true -> sendable message ->
  send message None c = (Ok tt, TlsChannel.put (to_be_bytes (len message) +:+ message) c).
Proof.
  intros Hhealthy Hmsg. unfold send, mbind, M_bind, get, reject_if. rewrite Hhealthy. simpl.
  by rewrite (sendable_bool _ Hmsg).
Qed.

Lemma send_all_frames messages c :
  c.(TlsChannel.healthy) = true -> Forall sendable messages ->
  send_all messages c = (Ok tt, TlsChannel.put (frames messages) c).
Proof.
  intros Hhealthy Hmsgs. revert c Hhealthy. induction Hmsgs as [|message messages Hmsg _ IH]; intros c Hhealthy.
  - unfold TlsChannel.put. simpl. rewrite append_empty. by destruct c.
  - cbn [send_all frames]. rewrite (bind_ok _ _ _ _ _ (send_message c message Hhealthy Hmsg)).
    rewrite IH by done. f_equal. unfold TlsChannel.put. simpl. f_equal. by rewrite !append_assoc.
Qed.

Lemma receive_messages_frames messages c b :
  c.(TlsChannel.healthy) = true -> Forall sendable messages ->
  chunked c.(TlsChannel.incoming) (frames messages +:+ b) ->
  exists rest, receive_messages (length messages) c = (Ok messages, TlsChannel.set_incoming rest c) /\ chunked rest b.
Proof.
  intros Hhealthy Hmsgs. revert c Hhealthy. induction Hmsgs as [|message messages Hmsg _ IH]; intros c Hhealthy Hin.
  - exists c.(TlsChannel.incoming). split; [by destruct c|done].
  - cbn [frames] in Hin. rewrite !append_assoc in Hin.
    destruct (receive_message c message _ Hhealthy Hmsg Hin) as (rest & Hrecv & Hrest).
    destruct (IH (TlsChannel.set_incoming rest c)) as (rest' & Hrecvs & Hrest'); [done|done|].
    exists rest'. split; [|done]. cbn [receive_messages length]. rewrite (bind_ok _ _ _ _ _ Hrecv).
    by rewrite (bind_ok _ _ _ _ _ Hrecvs).
Qed.

(** C35: Messages arrive whole, in order, or not at all. When messages are sent and the next one breaks off anywhere,
    then however the bytes are cut on their way, the other end receives exactly the messages that were sent
    completely, then an error, after which both ends are closed. *)
Theorem channel_delivers_whole messages last n chunks c :
  Forall sendable messages -> sendable last -> n < 4 + String.length last ->
  (_ ← send_all messages; send last (Some n)) TlsChannel.opened = (Err TlsError.Connection, c) ->
  chunked chunks c.(TlsChannel.outgoing) ->
  c.(TlsChannel.healthy) = false /\
  exists c1 c2, receive_messages (length messages) (TlsChannel.set_incoming chunks TlsChannel.opened) = (Ok messages, c1) /\
    receive c1 = (Err TlsError.Connection, c2) /\ c2.(TlsChannel.healthy) = false.
Proof.
  intros Hmsgs Hlast Hn Hsend Hin. rewrite (bind_ok _ _ _ _ _ (send_all_frames messages TlsChannel.opened eq_refl Hmsgs)) in Hsend.
  unfold send, mbind, M_bind, get, reject_if in Hsend. simpl in Hsend. rewrite (sendable_bool _ Hlast) in Hsend.
  injection Hsend as <-. split; [done|]. simpl in Hin.
  destruct (receive_messages_frames messages (TlsChannel.set_incoming chunks TlsChannel.opened) _ eq_refl Hmsgs Hin)
    as (rest & Hrecv & Hrest).
  destruct (receive_cut (TlsChannel.set_incoming rest (TlsChannel.set_incoming chunks TlsChannel.opened)) last n)
    as (c2 & Hc2 & Hclosed); [done|done|done|exact Hrest|]. by exists (TlsChannel.set_incoming rest (TlsChannel.set_incoming chunks TlsChannel.opened)), c2.
Qed.
