(* ===== verification/Server.v ===== *)
(** * The listener of a host (collaboration/server.rs)

    A worker per connection reads requests from its channel, has its session handle them and
    writes the answers; the listener admits at most sixteen workers at a time. *)

From S2P Require Import Prelude Protocol Credential Invitation Brain BrainValid BrainInv BrainOps BrainThm Snapshot Storage Reconcile Node Delta Wire Client Sync Host Trust Channel.

(** ** A worker *)

Module PeerWorker.
Record t := mk { channel : TlsChannel.t; session : HostSession.t }.
Definition set_channel (c : TlsChannel.t) (w : t) : t := mk c w.(session).
End PeerWorker.

(** What one round meets: the stop flag before it, the clock, the host, and the write of the answer *)
Module RoundEnv.
Record t := mk { stopping : bool; time : result WireError.t Z; env : Env; io : WriteIo }.
End RoundEnv.

Section Worker.
Context `{Sha256, ProtocolJson, SnapshotJson, DocumentJson, PageJson, WireJson}.

(** One round of the loop: whether it goes on, and the worker, whose channel is closed when the loop is left *)
Definition serve_one (round : RoundEnv.t) (w : PeerWorker.t) : bool * PeerWorker.t :=
  let leave w := (false, PeerWorker.set_channel (TlsChannel.close w.(PeerWorker.channel)) w) in
  if round.(RoundEnv.stopping) then leave w else
  let (received, channel) := receive w.(PeerWorker.channel) in
  let w := PeerWorker.set_channel channel w in
  match received with
  | Err _ => leave w
  | Ok bytes =>
    match request_decode bytes with
    | Err _ => leave w
    | Ok request =>
      match round.(RoundEnv.time) with
      | Err _ => leave w
      | Ok time =>
        let (response, session) := handle round.(RoundEnv.env) request time w.(PeerWorker.session) in
        let w := PeerWorker.mk w.(PeerWorker.channel) session in
        match response_encode response with
        | Err _ => leave w
        | Ok bytes =>
          let (sent, channel) := send bytes round.(RoundEnv.io) w.(PeerWorker.channel) in
          let w := PeerWorker.set_channel channel w in
          if negb (is_ok sent) || closed session then leave w else (true, w)
        end
      end
    end
  end.

(** The loop, over its rounds *)
Fixpoint serve (rounds : list RoundEnv.t) (w : PeerWorker.t) : PeerWorker.t :=
  match rounds with
  | [] => w
  | round :: rounds => let (goes_on, w) := serve_one round w in if goes_on then serve rounds w else w
  end.

(** The worker as the other end of a client's channel: it is sent bytes, in the chunks that [cut] makes of
    them, serves one round, and what it has written comes back in chunks. *)
Definition served_by (cut : string -> list string) (round : RoundEnv.t) (bytes : string) (w : PeerWorker.t)
    : list string * PeerWorker.t :=
  let c := w.(PeerWorker.channel) in
  let (_, w) := serve_one round
                  (PeerWorker.set_channel (TlsChannel.set_incoming (c.(TlsChannel.incoming) ++ cut bytes) c) w) in
  let c := w.(PeerWorker.channel) in
  (cut c.(TlsChannel.outgoing),
   PeerWorker.set_channel (TlsChannel.mk c.(TlsChannel.healthy) c.(TlsChannel.incoming) EmptyString) w).
End Worker.

(** ** The listener *)

(** What [accept] gives, and what becomes of a connection *)
Inductive Accepted := Connection (cloned spawned : bool) | WouldBlock | AcceptFailed.

(** The workers by their number, each finished or not, and the host's count and admission *)
Module Listener.
Record t := mk { workers : list (N * bool); next : N; active : N; admission : Limiter.t }.
End Listener.

(** One round of the listener: whether it goes on *)
Definition listen_one (accepted : Accepted) (admission_lock : bool) (now : N) (s : Listener.t) : bool * Listener.t :=
  let workers := List.filter (fun w => negb w.2) s.(Listener.workers) in
  let next := s.(Listener.next) in
  match accepted with
  | WouldBlock => (true, Listener.mk workers next s.(Listener.active) s.(Listener.admission))
  | AcceptFailed => (false, Listener.mk workers next s.(Listener.active) s.(Listener.admission))
  | Connection cloned spawned =>
    if (16 <=? length workers)%nat then (true, Listener.mk workers next s.(Listener.active) s.(Listener.admission)) else
    match host_session admission_lock s.(Listener.active) s.(Listener.admission) now with
    | (Err _, (active, admission)) => (true, Listener.mk workers next active admission)
    | (Ok _, (active, admission)) =>
      (true, if cloned && spawned then Listener.mk (workers ++ [(next, false)]) (next + 1) active admission
             else Listener.mk workers next (active - 1) admission)
    end
  end.

(** A worker ends, and its session with it. *)
Definition ended (number : N) (w : N * bool) : N * bool := if (w.1 =? number)%N then (w.1, true) else w.
Definition worker_ends (number : N) (s : Listener.t) : Listener.t :=
  if existsb (fun w => (w.1 =? number)%N && negb w.2) s.(Listener.workers)
  then Listener.mk (ended number <$> s.(Listener.workers))
         s.(Listener.next) (s.(Listener.active) - 1) s.(Listener.admission)
  else s.

(** ** An exchange is one request handled *)

(** What is read from what was written is what was written, and nothing is read from nothing. *)
Class WireJsonLaws `{WireJson} : Prop := {
  request_read_back r bytes r' : request_to_vec r = Some bytes -> request_from_slice bytes = Some r' -> r' = r;
  response_read_back r bytes r' : response_to_vec r = Some bytes -> response_from_slice bytes = Some r' -> r' = r;
  request_not_empty : request_from_slice EmptyString = None;
  response_not_empty : response_from_slice EmptyString = None;
}.

Section Served.
Context `{Sha256, ProtocolJson, SnapshotJson, DocumentJson, PageJson, WireJson} (Hwire : WireJsonLaws).

Lemma request_encode_ok r bytes :
  request_encode r = Ok bytes -> sendable bytes /\ request_decode bytes = Ok r /\ id r.(Request.id) = true.
Proof.
  unfold request_encode. intros (b & Hto%ok_or_ok & Hrest)%result_bind_ok.
  apply result_bind_ok in Hrest as (r' & Hdec & [= <-]). pose proof Hdec as Hdec'. unfold request_decode in Hdec.
  rewrite result_seq_ok, refuse_ok in Hdec. destruct Hdec as [Hlen Hdec].
  apply result_bind_ok in Hdec as (r'' & Hfrom%ok_or_ok & Hdec). rewrite result_seq_ok, refuse_ok in Hdec.
  destruct Hdec as [Hid [= <-]]. pose proof (request_read_back _ _ _ Hto Hfrom) as ->. split_and!; [|done|].
  - split; [|by apply N.ltb_ge]. intros ->. by rewrite request_not_empty in Hfrom.
  - apply orb_false_inv in Hid as [_ Hid]. by apply negb_false_iff.
Qed.

Lemma response_encode_ok r bytes :
  response_encode r = Ok bytes -> sendable bytes /\ response_decode bytes r.(Response.id) = Ok r.
Proof.
  unfold response_encode. intros (b & Hto%ok_or_ok & Hrest)%result_bind_ok.
  apply result_bind_ok in Hrest as (r' & Hdec & [= <-]). pose proof Hdec as Hdec'. unfold response_decode in Hdec.
  rewrite result_seq_ok, refuse_ok in Hdec. destruct Hdec as [Hlen Hdec].
  apply result_bind_ok in Hdec as (r'' & Hfrom%ok_or_ok & Hdec). rewrite !result_seq_ok in Hdec.
  destruct Hdec as (_ & _ & [= <-]). pose proof (response_read_back _ _ _ Hto Hfrom) as ->. split; [|done].
  split; [|by apply N.ltb_ge]. intros ->. by rewrite response_not_empty in Hfrom.
Qed.

Lemma chunked_nothing chunks : chunked chunks EmptyString -> chunks = [].
Proof.
  intros [Hjoin Hempty]. destruct chunks as [|c chunks]; [done|]. apply not_elem_of_cons in Hempty as [Hne _].
  by destruct c.
Qed.

(** The answer to a request has its id. *)
Lemma handle_id env r now s : id r.(Request.id) = true -> (handle env r now s).1.(Response.id) = r.(Request.id).
Proof. intros Hid. unfold handle. destruct (handle_request env r now s) as [[] ?]; simpl; by rewrite Hid. Qed.
(** A frame alone *)
Lemma receive_one chunks message out :
  sendable message -> chunked chunks (to_be_bytes (len message) +:+ message) ->
  receive (TlsChannel.mk true chunks out) = (Ok message, TlsChannel.mk true [] out).
Proof.
  intros Hmsg Hin. rewrite <- (append_empty message) in Hin at 2.
  destruct (receive_message (TlsChannel.mk true chunks out) message EmptyString eq_refl Hmsg Hin)
    as (rest & -> & ->%chunked_nothing). done.
Qed.

(** What an exchange comes to: the request is handled once, in the session of the worker, and the answer is the
    client's; an answer that cannot be written ends the connection on both sides. *)
Definition exchanged {V} (round : RoundEnv.t) (request : Request.t) (now : Z) (w : PeerWorker.t)
    : result (ClientError.t V) Reply.t * (TlsChannel.t * PeerWorker.t) :=
  let (response, session) := handle round.(RoundEnv.env) request now w.(PeerWorker.session) in
  match response_encode response with
  | Err _ => (Err ClientError.Transport, (TlsChannel.close TlsChannel.opened, PeerWorker.mk (TlsChannel.close TlsChannel.opened) session))
  | Ok _ => (match response.(Response.result) with Reply.Error error => Err (ClientError.Peer error) | reply => Ok reply end,
             (TlsChannel.opened, PeerWorker.mk (TlsChannel.mk (negb (closed session)) [] EmptyString) session))
  end.

Lemma serve_one_request round chunks request bytes now session :
  round.(RoundEnv.stopping) = false -> round.(RoundEnv.time) = Ok now -> round.(RoundEnv.io) = None ->
  request_encode request = Ok bytes -> chunked chunks (to_be_bytes (len bytes) +:+ bytes) ->
  let (response, session') := handle round.(RoundEnv.env) request now session in
  serve_one round (PeerWorker.mk (TlsChannel.mk true chunks EmptyString) session) =
    match response_encode response with
    | Err _ => (false, PeerWorker.mk (TlsChannel.close TlsChannel.opened) session')
    | Ok bytes => (negb (closed session'),
                   PeerWorker.mk (TlsChannel.mk (negb (closed session')) [] (to_be_bytes (len bytes) +:+ bytes)) session')
    end.
Proof.
  intros Hstop Htime Hio (Hbytes & Hdec & _)%request_encode_ok Hin.
  destruct (handle _ request now session) as [response session'] eqn:Hhandle.
  unfold serve_one. cbn [PeerWorker.channel PeerWorker.session PeerWorker.set_channel].
  rewrite Hstop, (receive_one _ _ _ Hbytes Hin), Hdec, Htime. cbn [PeerWorker.channel PeerWorker.session PeerWorker.set_channel].
  rewrite Hhandle. destruct (response_encode response) as [answer|] eqn:Henc; [|done].
  apply response_encode_ok in Henc as [Hanswer _]. cbn [PeerWorker.channel PeerWorker.session PeerWorker.set_channel].
  rewrite Hio, send_message by done. simpl. by destruct (closed session').
Qed.

(** C9: An exchange of a client is one request handled by the host. Over an open channel whose bytes are cut in any
    way, the client's exchange with a worker returns the reply that the host's session gives to exactly the request
    that was made, with the session as handling it has left it; the connection stays open unless the session is
    closed, or the answer cannot be written, which the client sees as a broken connection. *)
Theorem exchange_reaches_host {V} (cut : string -> list string) round d token operation now bytes session :
  (forall s, chunked (cut s) s) ->
  round.(RoundEnv.stopping) = false -> round.(RoundEnv.time) = Ok now -> round.(RoundEnv.io) = None ->
  token_generate d = Ok token -> request_encode (Request.mk 1 token.(expose_secret) operation) = Ok bytes ->
  channel_exchange (V := V) (served_by cut round) d None operation (TlsChannel.opened, PeerWorker.mk TlsChannel.opened session)
    = exchanged round (Request.mk 1 token.(expose_secret) operation) now (PeerWorker.mk TlsChannel.opened session).
Proof.
  intros Hcut Hstop Htime Hio Htoken Henc. set (request := Request.mk 1 token.(expose_secret) operation) in *.
  pose proof (request_encode_ok _ _ Henc) as (Hbytes & _ & Hid).
  unfold channel_exchange. rewrite Htoken. unfold mbind at 1, M_bind at 1, lift at 1. simpl map_err. cbv iota beta.
  fold request. unfold mbind at 1, M_bind at 1, lift at 1. rewrite Henc. simpl map_err. cbv iota beta.
  set (frame := to_be_bytes (len bytes) +:+ bytes).
  assert (on_channel (V := V) (send bytes None) (TlsChannel.opened, PeerWorker.mk TlsChannel.opened session)
    = (Ok tt, (TlsChannel.mk true [] frame, PeerWorker.mk TlsChannel.opened session))) as Hsend.
  { unfold on_channel, zoom. by rewrite send_message. }
  rewrite (bind_ok _ _ _ _ _ Hsend). clear Hsend.
  pose proof (serve_one_request round (cut frame) request bytes now session Hstop Htime Hio Henc (Hcut frame)) as Hserve.
  unfold exchanged. simpl PeerWorker.session. destruct (handle _ request now session) as [response session'] eqn:Hhandle.
  unfold mbind at 1, M_bind at 1, transmit, modify. cbn [fst snd TlsChannel.outgoing TlsChannel.incoming TlsChannel.healthy].
  unfold served_by. cbn [PeerWorker.channel PeerWorker.session PeerWorker.set_channel TlsChannel.set_incoming
    TlsChannel.opened TlsChannel.incoming TlsChannel.healthy TlsChannel.outgoing app].
  change (PeerWorker.set_channel _ (PeerWorker.mk TlsChannel.opened session))
    with (PeerWorker.mk (TlsChannel.mk true (cut frame) EmptyString) session).
  rewrite Hserve. clear Hserve.
  destruct (response_encode response) as [answer|] eqn:Hanswer.
  - apply response_encode_ok in Hanswer as [Hsendable Hdec].
    cbn [PeerWorker.channel PeerWorker.session PeerWorker.set_channel TlsChannel.incoming TlsChannel.healthy
      TlsChannel.outgoing fst snd].
    unfold mbind at 1, M_bind at 1, on_channel, zoom. cbn [fst snd]. rewrite (receive_one _ answer) by done.
    simpl map_err. cbv iota beta. pose proof (handle_id round.(RoundEnv.env) request now session Hid) as Hsame.
    rewrite Hhandle in Hsame. simpl in Hsame. rewrite <- Hsame. unfold mbind, M_bind, lift. rewrite Hdec. simpl.
    by destruct (Response.result response).
  - cbn. by rewrite (chunked_nothing _ (Hcut EmptyString)).
Qed.
End Served.

(** ** The workers are counted *)

Definition running_workers (workers : list (N * bool)) : list (N * bool) := List.filter (fun w => negb w.2) workers.

Inductive listener_step : Listener.t -> Listener.t -> Prop :=
| ls_listen accepted admission_lock now s : listener_step s (listen_one accepted admission_lock now s).2
| ls_ends number s : listener_step s (worker_ends number s).

Record listening (s : Listener.t) : Prop := {
  li_room : length s.(Listener.workers) <= 16;
  li_active : s.(Listener.active) = N.of_nat (length (running_workers s.(Listener.workers)));
  li_numbers : NoDup s.(Listener.workers).*1;
  li_next w : w ∈ s.(Listener.workers) -> (w.1 < s.(Listener.next))%N;
}.

Lemma running_app l l' : running_workers (l ++ l') = running_workers l ++ running_workers l'.
Proof. apply List.filter_app. Qed.
Lemma running_running l : running_workers (running_workers l) = running_workers l.
Proof. induction l as [|[n []] l IH]; simpl; [done|done|]. by rewrite IH. Qed.
Lemma running_length l : length (running_workers l) <= length l.
Proof. induction l as [|[n []] l IH]; simpl; lia. Qed.
Lemma elem_of_running w l : w ∈ running_workers l -> w ∈ l.
Proof. unfold running_workers. rewrite !list_elem_of_In, filter_In. by intros [? _]. Qed.
Lemma running_NoDup l : NoDup l.*1 -> NoDup (running_workers l).*1.
Proof.
  induction l as [|[n f] l IH]; simpl; [done|]. intros [Hn Hl]%list.NoDup_cons. destruct f; simpl; [by apply IH|].
  apply list.NoDup_cons. split; [|by apply IH]. intros Hin. apply Hn.
  apply list_elem_of_fmap in Hin as (w & -> & Hw). apply list_elem_of_fmap. exists w. split; [done|]. by apply elem_of_running.
Qed.

Lemma listen_one_listening accepted admission_lock now s :
  listening s -> listening (listen_one accepted admission_lock now s).2.
Proof.
  intros [Hroom Hactive Hnum Hnext]. pose proof (running_length s.(Listener.workers)) as Hlen.
  pose proof (running_NoDup _ Hnum) as Hnum'.
  assert (forall active admission, active = s.(Listener.active) ->
    listening (Listener.mk (running_workers s.(Listener.workers)) s.(Listener.next) active admission)) as Hkept.
  { intros active admission ->. split; simpl; [lia|by rewrite running_running|done|].
    intros w Hw%elem_of_running. by apply Hnext. }
  unfold listen_one. fold (running_workers s.(Listener.workers)). destruct accepted; [|by apply Hkept..].
  destruct (Nat.leb_spec 16 (length (running_workers s.(Listener.workers)))) as [|Hfree]; [by apply Hkept|].
  unfold host_session. destruct admission_lock; simpl; [|by apply Hkept].
  destruct (16 <=? s.(Listener.active))%N; simpl; [by apply Hkept|].
  destruct (take_token now s.(Listener.admission)) as [[] admission]; simpl; [|by apply Hkept].
  destruct (cloned && spawned); [|apply Hkept; lia]. split; simpl.
  - rewrite length_app. simpl. lia.
  - rewrite running_app, running_running, length_app. simpl. lia.
  - rewrite fmap_app. apply list.NoDup_app. split_and!; [done| |apply NoDup_singleton].
    intros n Hn Heq. apply list_elem_of_singleton in Heq as ->. apply list_elem_of_fmap in Hn as (w & Hw & Hin%elem_of_running).
    apply Hnext in Hin. simpl in Hw. lia.
  - intros w [Hw%elem_of_running%Hnext| ->%list_elem_of_singleton]%elem_of_app; simpl; lia.
Qed.

Lemma ends_running number l :
  NoDup l.*1 -> existsb (fun w => (w.1 =? number)%N && negb w.2) l = true ->
  length (running_workers l) = S (length (running_workers (ended number <$> l))).
Proof.
  induction l as [|[n f] l IH]; [done|]. rewrite !fmap_cons. intros [Hn Hl]%list.NoDup_cons Hex.
  cbn [existsb fst snd] in Hex. unfold ended at 1. cbn [fst snd]. destruct (N.eqb_spec n number) as [->|Hne].
  - assert (ended number <$> l = l) as ->.
    { rewrite <- (list_fmap_id l) at 2. apply list_fmap_ext. intros i w Hw%list_elem_of_lookup_2. unfold ended.
      destruct (N.eqb_spec w.1 number) as [Heq|]; [|done]. exfalso. apply Hn. apply list_elem_of_fmap. by exists w. }
    destruct f; [|done]. simpl in Hex. apply existsb_exists in Hex as (w & Hw & Hm).
    apply andb_true_iff in Hm as [Hm%N.eqb_eq _]. exfalso. apply Hn, list_elem_of_fmap. exists w. split; [done|].
    by apply list_elem_of_In.
  - destruct f; simpl in *; rewrite IH by done; done.
Qed.

Lemma worker_ends_listening number s : listening s -> listening (worker_ends number s).
Proof.
  intros [Hroom Hactive Hnum Hnext]. unfold worker_ends. destruct (existsb _ _) eqn:Hex; [|by split].
  pose proof (ends_running _ _ Hnum Hex) as Hone.
  assert ((ended number <$> s.(Listener.workers)).*1
    = s.(Listener.workers).*1) as Hsame.
  { rewrite <- list_fmap_compose. apply list_fmap_ext. intros i [n f] _. unfold ended. simpl. by destruct (n =? number)%N. }
  split; simpl; [by rewrite length_fmap|lia|by rewrite Hsame|].
  intros w (w' & -> & Hw%Hnext)%list_elem_of_fmap. unfold ended. by destruct (w'.1 =? number)%N.
Qed.

(** The listener has at most sixteen workers, and the host counts as many sessions as workers that are not
    finished, whatever is accepted, refused or fails: no session is leaked. *)
Theorem sessions_counted now s :
  rtc listener_step (Listener.mk [] 0 0 (limiter_new 64 now)) s ->
  length s.(Listener.workers) <= 16 /\
  s.(Listener.active) = N.of_nat (length (running_workers s.(Listener.workers))).
Proof.
  intros Hsteps. assert (listening s) as [Hroom Hactive _ _]; [|done].
  assert (listening (Listener.mk [] 0 0 (limiter_new 64 now))) as Hnew.
  { split; simpl; [lia|done|apply NoDup_nil_2|]. intros w Hw. by apply elem_of_nil in Hw. }
  induction Hsteps as [|s1 s2 s3 [] _ IH]; [done|apply IH, listen_one_listening, Hnew|apply IH, worker_ends_listening, Hnew].
Qed.
