(* ===== verification/Registration.v ===== *)
(** * The registration of a Node (collaboration/node_registration.rs, collaboration/host_profile.rs)

    A directory with two files that are created and never replaced: the decision to trust a
    Brain, written before the first request to it, and the binding that the Brain has given. A
    host keeps its profile in the same way. What the file system does is an argument, and a
    write that fails may leave any bytes behind. *)

From S2P Require Import Prelude Protocol Credential Reconcile Node Vault Trust Identity.

Definition MAX_REGISTRATION_BYTES : N := 12 * 1024.
Definition MAX_BINDING_BYTES : N := 1024.
Definition MAX_PROFILE_BYTES : N := 12 * 1024.

Module NodeRegistration.
Record t := mk {
  version : N;
  identity_id : string;
  device_id : string;
  descriptor : TrustDescriptor.t;
  confirmed_fingerprint : string;
}.
#[global] Instance eq_dec : EqDecision t.
Proof. solve_decision. Defined.
End NodeRegistration.

Module RegistrationError.
Inductive t := Invalid | NotConfigured | Incomplete | Existing | Storage.
End RegistrationError.

(** ** The file system *)

(** What a name in the directory names, a link or a directory being [Special], and what the name of the
    directory names *)
Inductive Entry := Absent | File (bytes : string) | Special.
Module Directory.
Inductive t := NoEntry | NotDirectory | Folder (registration binding : Entry).
Definition registration_entry (d : t) : Entry := match d with Folder r _ => r | _ => Absent end.
Definition binding_entry (d : t) : Entry := match d with Folder _ b => b | _ => Absent end.
Definition set_registration_entry (e : Entry) (d : t) : t := match d with Folder _ b => Folder e b | d => d end.
Definition set_binding_entry (e : Entry) (d : t) : t := match d with Folder r _ => Folder r e | d => d end.
End Directory.

(** Whether each call succeeds: the metadata of the directory and of a file, reading, the parents of
    the directory, the directory, creating a file; and how many bytes a failed write leaves *)
Module RegIo.
Record t := mk { stat : bool; entry : bool; read : bool; parents : bool; mkdir : bool; create : bool;
                 left_behind : option nat }.
Definition fine : t := mk true true true true true true None.
End RegIo.

Definition read_entry {T} (parse : string -> option T) (limit : N) (io : RegIo.t) (e : Entry)
    : result RegistrationError.t T :=
  _ ← refuse (negb io.(RegIo.entry)) RegistrationError.Incomplete;
  match e with
  | Absent => Err RegistrationError.Incomplete
  | Special => Err RegistrationError.Invalid
  | File bytes =>
    _ ← refuse (limit <? len bytes)%N RegistrationError.Invalid;
    _ ← refuse (negb io.(RegIo.read)) RegistrationError.Storage;
    ok_or (parse bytes) RegistrationError.Invalid
  end.

Definition write_new (value : option string) (io : RegIo.t) : M Entry RegistrationError.t unit :=
  bytes ← lift (ok_or value RegistrationError.Invalid);
  _ ← reject_if (MAX_REGISTRATION_BYTES <? len bytes)%N RegistrationError.Invalid;
  _ ← reject_if (negb io.(RegIo.create)) RegistrationError.Storage;
  e ← get;
  match e with
  | Absent =>
    match io.(RegIo.left_behind) with
    | None => modify (fun _ => File bytes)
    | Some n => _ ← modify (fun _ => File (String.substring 0 n bytes)); throw RegistrationError.Storage
    end
  | _ => throw RegistrationError.Existing
  end.

(** serde_json on a registration *)
Class RegistrationJson := {
  registration_to_vec : NodeRegistration.t -> option string;
  registration_from_slice : string -> option NodeRegistration.t;
}.
(** What was written is read back, and an object that is cut short is not read at all. *)
Class RegistrationJsonLaws `{RegistrationJson} : Prop := {
  registration_from_to r bytes : registration_to_vec r = Some bytes -> registration_from_slice bytes = Some r;
  registration_cut r bytes n : registration_to_vec r = Some bytes -> n < String.length bytes ->
    registration_from_slice (String.substring 0 n bytes) = None;
}.

(** The same of a binding, whose ids need no escapes: the names and the punctuation take less than 64
    bytes. *)
Class BindingFileLaws `{BindingJson} : Prop := {
  binding_read_back b bytes : binding_to_vec b = Some bytes -> binding_from_slice bytes = Some b;
  binding_cut b bytes n : binding_to_vec b = Some bytes -> n < String.length bytes ->
    binding_from_slice (String.substring 0 n bytes) = None;
  binding_size b bytes : binding_to_vec b = Some bytes -> forallb id (binding_ids b) = true ->
    (len bytes <= 64 + sum_len (fun v => v) (binding_ids b))%N;
}.

(** ** A host's profile *)

Module HostProfile.
Record t := mk {
  version : N;
  binding : CredentialBinding.t;
  descriptor : TrustDescriptor.t;
  credential_expires_at : Z;
}.
#[global] Instance eq_dec : EqDecision t.
Proof. solve_decision. Defined.
End HostProfile.

Section Registration.
Context `{Sha256, TlsInputs, DescriptorJson, BindingJson, RegistrationJson}.

(** ** A registration *)

Definition trusted_peer (r : NodeRegistration.t) : result RegistrationError.t TrustDescriptor.t :=
  bytes ← map_err (fun _ => RegistrationError.Invalid) (descriptor_encode r.(NodeRegistration.descriptor));
  map_err (fun _ => RegistrationError.Invalid) (confirm bytes r.(NodeRegistration.confirmed_fingerprint)).

Definition registration_validate (r : NodeRegistration.t) : result RegistrationError.t unit :=
  _ ← refuse (negb (r.(NodeRegistration.version) =? 1)%N || negb (id r.(NodeRegistration.identity_id))
              || negb (id r.(NodeRegistration.device_id))) RegistrationError.Invalid;
  _ ← trusted_peer r;
  mret tt.

Definition confirmed (identity : RivloomIdentity.t) (descriptor confirmed_fingerprint : string)
    : result RegistrationError.t NodeRegistration.t :=
  trusted ← map_err (fun _ => RegistrationError.Invalid) (confirm descriptor confirmed_fingerprint);
  let registration := NodeRegistration.mk 1 identity.(RivloomIdentity.identity_id)
                        identity.(RivloomIdentity.device_id) trusted confirmed_fingerprint in
  _ ← registration_validate registration;
  mret registration.

Definition check_identity (r : NodeRegistration.t) (identity : RivloomIdentity.t)
    : result RegistrationError.t unit :=
  refuse (negb (str_eqb r.(NodeRegistration.identity_id) identity.(RivloomIdentity.identity_id))
          || negb (str_eqb r.(NodeRegistration.device_id) identity.(RivloomIdentity.device_id)))
    RegistrationError.Invalid.

Definition validate_binding (r : NodeRegistration.t) (binding : CredentialBinding.t)
    : result RegistrationError.t unit :=
  _ ← map_err (fun _ => RegistrationError.Invalid) (node_new binding);
  refuse (negb (str_eqb binding.(CredentialBinding.brain_id)
                  r.(NodeRegistration.descriptor).(TrustDescriptor.brain_id))
          || negb (str_eqb binding.(CredentialBinding.device_id) r.(NodeRegistration.device_id)))
    RegistrationError.Invalid.

(** ** The store *)

Definition StoreM := M Directory.t RegistrationError.t.

(** [RegistrationStore::begin] *)
Definition begin_registration (r : NodeRegistration.t) (io : RegIo.t) : StoreM unit :=
  _ ← lift (registration_validate r);
  _ ← reject_if (negb io.(RegIo.parents)) RegistrationError.Storage;
  _ ← reject_if (negb io.(RegIo.mkdir)) RegistrationError.Storage;
  d ← get;
  match d with
  | Directory.NoEntry =>
    _ ← modify (fun _ => Directory.Folder Absent Absent);
    zoom Directory.registration_entry Directory.set_registration_entry (fun e => e)
      (write_new (registration_to_vec r) io)
  | _ => throw RegistrationError.Existing
  end.

Definition read_registration (io : RegIo.t) (d : Directory.t) : result RegistrationError.t NodeRegistration.t :=
  _ ← refuse (negb io.(RegIo.stat)) RegistrationError.Storage;
  match d with
  | Directory.NoEntry => Err RegistrationError.NotConfigured
  | Directory.NotDirectory => Err RegistrationError.Invalid
  | Directory.Folder e _ =>
    registration ← read_entry registration_from_slice MAX_REGISTRATION_BYTES io e;
    _ ← registration_validate registration;
    mret registration
  end.

(** [RegistrationStore::load] *)
Definition load_registration (identity : RivloomIdentity.t) (io : RegIo.t) (d : Directory.t)
    : result RegistrationError.t NodeRegistration.t :=
  registration ← read_registration io d;
  _ ← check_identity registration identity;
  mret registration.

(** [RegistrationStore::complete] *)
Definition complete_registration (r : NodeRegistration.t) (binding : CredentialBinding.t) (io : RegIo.t)
    : StoreM unit :=
  d ← get;
  found ← lift (read_registration io d);
  _ ← reject_if (negb (bool_decide (found = r))) RegistrationError.Invalid;
  _ ← lift (validate_binding r binding);
  zoom Directory.binding_entry Directory.set_binding_entry (fun e => e)
    (write_new (binding_to_vec binding) io).

(** [RegistrationStore::binding] *)
Definition stored_binding (r : NodeRegistration.t) (io : RegIo.t) (d : Directory.t)
    : result RegistrationError.t CredentialBinding.t :=
  found ← read_registration io d;
  _ ← refuse (negb (bool_decide (found = r))) RegistrationError.Invalid;
  binding ← read_entry binding_from_slice MAX_BINDING_BYTES io (Directory.binding_entry d);
  _ ← validate_binding r binding;
  mret binding.
End Registration.

(** ** What the directory holds *)

Lemma zoom_inv {S T E F A} (view : S -> T) (set : T -> S -> S) (f : F -> E) (m : M T F A) s r s' :
  zoom view set f m s = (r, s') -> exists r0 t, m (view s) = (r0, t) /\ r = map_err f r0 /\ s' = set t s.
Proof. unfold zoom. destruct (m (view s)) as [r0 t]. intros [= <- <-]. eauto. Qed.

Lemma substring_whole n s : String.length s <= n -> String.substring 0 n s = s.
Proof.
  revert n. induction s as [|a s IH]; intros n Hn; [by destruct n|]. destruct n as [|n]; simpl in *; [lia|].
  by rewrite IH by lia.
Qed.

Section Holds.
Context `{Sha256, TlsInputs, DescriptorJson, BindingJson, RegistrationJson}.

(** The registration and the binding that can be read, if anything can *)
Definition registered (d : Directory.t) (r : NodeRegistration.t) : Prop :=
  exists io, read_registration io d = Ok r.
Definition bound (d : Directory.t) (b : CredentialBinding.t) : Prop :=
  exists r io, stored_binding r io d = Ok b.

Lemma read_entry_ok {T} (parse : string -> option T) limit io e v :
  read_entry parse limit io e = Ok v -> exists bytes, e = File bytes /\ parse bytes = Some v.
Proof.
  unfold read_entry. rewrite result_seq_ok, refuse_ok. intros [_ Hread]. destruct e as [|bytes|]; [done| |done].
  rewrite !result_seq_ok in Hread. destruct Hread as (_ & _ & Hp%ok_or_ok). by exists bytes.
Qed.

Lemma read_registration_ok io d r :
  read_registration io d = Ok r ->
  exists bytes b, d = Directory.Folder (File bytes) b /\ registration_from_slice bytes = Some r /\
    registration_validate r = Ok tt.
Proof.
  unfold read_registration. rewrite result_seq_ok, refuse_ok. intros [_ Hread]. destruct d as [| |e b]; [done..|].
  apply result_bind_ok in Hread as (r' & (bytes & -> & Hp)%read_entry_ok & Hread).
  apply result_bind_ok in Hread as ([] & Hv & [= ->]). eauto 6.
Qed.

Lemma read_entry_fine {T} (parse : string -> option T) limit io e v :
  read_entry parse limit io e = Ok v -> read_entry parse limit RegIo.fine e = Ok v.
Proof.
  unfold read_entry. rewrite !result_seq_ok, !refuse_ok. intros [_ Hread]. split; [done|].
  destruct e as [|bytes|]; [done| |done]. rewrite !result_seq_ok, !refuse_ok in *. by destruct Hread as (? & _ & ?).
Qed.

Lemma read_registration_fine io d r : read_registration io d = Ok r -> read_registration RegIo.fine d = Ok r.
Proof.
  unfold read_registration. rewrite !result_seq_ok, !refuse_ok. intros [_ Hread]. split; [done|].
  destruct d as [| |e b]; [done..|]. apply result_bind_ok in Hread as (r' & Hr & Hread).
  by rewrite (read_entry_fine _ _ _ _ _ Hr).
Qed.

Lemma registered_unique d r r' : registered d r -> registered d r' -> r = r'.
Proof.
  intros (io & (bytes & b & -> & Hp & _)%read_registration_ok) (io' & (? & ? & [= <- <-] & Hp' & _)%read_registration_ok).
  congruence.
Qed.

Lemma stored_binding_ok r io d b :
  stored_binding r io d = Ok b ->
  registered d r /\ validate_binding r b = Ok tt /\
  exists bytes, Directory.binding_entry d = File bytes /\ binding_from_slice bytes = Some b.
Proof.
  unfold stored_binding. intros (found & Hfound & Hrest)%result_bind_ok. rewrite result_seq_ok, refuse_ok in Hrest.
  destruct Hrest as [Heq%negb_false_iff%bool_decide_eq_true Hrest]. subst found.
  apply result_bind_ok in Hrest as (b' & Hread%read_entry_ok & Hrest).
  apply result_bind_ok in Hrest as ([] & Hv & [= ->]). split_and!; [by exists io|done|done].
Qed.

Lemma stored_binding_fine r io d b : stored_binding r io d = Ok b -> stored_binding r RegIo.fine d = Ok b.
Proof.
  unfold stored_binding. intros (found & Hfound%read_registration_fine & Hrest)%result_bind_ok. rewrite Hfound. simpl.
  rewrite result_seq_ok in *. destruct Hrest as [Heq Hrest]. split; [done|].
  apply result_bind_ok in Hrest as (b' & Hread%read_entry_fine & Hrest). by rewrite Hread.
Qed.

Lemma bound_unique d b b' : bound d b -> bound d b' -> b = b'.
Proof.
  intros (r & io & (_ & _ & bytes & He & Hb)%stored_binding_ok) (r' & io' & (_ & _ & bytes' & He' & Hb')%stored_binding_ok).
  congruence.
Qed.

(** ** The store only adds *)

(** Files are created where there are none and stay. *)
Definition entry_grows (e e' : Entry) : Prop := e = Absent \/ e' = e.
Inductive grows : Directory.t -> Directory.t -> Prop :=
| grows_refl d : grows d d
| grows_made r b : grows Directory.NoEntry (Directory.Folder r b)
| grows_folder r b r' b' : entry_grows r r' -> entry_grows b b' ->
    grows (Directory.Folder r b) (Directory.Folder r' b').

#[global] Instance grows_preorder : PreOrder grows.
Proof.
  split; [constructor|]. intros d1 d2 d3 [d|r b|r b r' b' Hr Hb] H23; [done|inversion H23; subst; constructor|].
  inversion H23 as [|? ?|? ? r3 b3 Hr' Hb']; subst; [by constructor|]. constructor.
  - destruct Hr as [->| ->]; [by left|done].
  - destruct Hb as [->| ->]; [by left|done].
Qed.

Lemma write_new_grows value io e r e' : write_new value io e = (r, e') -> entry_grows e e'.
Proof. unfold write_new. intros Hrun. run_cases Hrun; by (left + right). Qed.

Lemma grows_registration e d : entry_grows (Directory.registration_entry d) e -> grows d (Directory.set_registration_entry e d).
Proof. destruct d; simpl; intros; constructor; [done|by right]. Qed.
Lemma grows_binding e d : entry_grows (Directory.binding_entry d) e -> grows d (Directory.set_binding_entry e d).
Proof. destruct d; simpl; intros; constructor; [by right|done]. Qed.

Lemma write_new_ok value io e u e' :
  write_new value io e = (Ok u, e') ->
  e = Absent /\ exists bytes, value = Some bytes /\ (len bytes <= MAX_REGISTRATION_BYTES)%N /\ e' = File bytes.
Proof.
  unfold write_new. intros Hrun. run_cases Hrun; try done.
  match goal with Hl : (_ <? _)%N = false |- _ => apply N.ltb_ge in Hl end.
  match goal with Hv : ok_or value _ = Ok _ |- _ => apply ok_or_ok in Hv end. eauto.
Qed.

Lemma begin_grows reg io d r d' : begin_registration reg io d = (r, d') -> grows d d'.
Proof.
  unfold begin_registration. intros Hrun. run_cases Hrun; try done.
  apply zoom_inv in Hrun as (r0 & e & Hw & _ & ->). constructor.
Qed.

Lemma begin_ok reg io d u d' :
  begin_registration reg io d = (Ok u, d') ->
  d = Directory.NoEntry /\ registration_validate reg = Ok tt /\
  exists bytes, registration_to_vec reg = Some bytes /\ (len bytes <= MAX_REGISTRATION_BYTES)%N /\
    d' = Directory.Folder (File bytes) Absent.
Proof.
  unfold begin_registration. intros Hrun. run_cases Hrun; try done.
  apply zoom_inv in Hrun as (r0 & e & Hw & Hr & ->). destruct r0; [|done].
  apply write_new_ok in Hw as (_ & bytes & Hto & Hlen & ->).
  match goal with Hv : registration_validate reg = Ok ?u |- _ => destruct u end. eauto 6.
Qed.

Lemma complete_grows reg b io d r d' : complete_registration reg b io d = (r, d') -> grows d d'.
Proof.
  unfold complete_registration. intros Hrun. run_cases Hrun; try done.
  apply zoom_inv in Hrun as (r0 & e & Hw & _ & ->). by eapply grows_binding, write_new_grows.
Qed.

Lemma complete_ok reg b io d u d' :
  complete_registration reg b io d = (Ok u, d') ->
  registered d reg /\ validate_binding reg b = Ok tt /\
  exists rbytes bytes, d = Directory.Folder (File rbytes) Absent /\ binding_to_vec b = Some bytes /\
    d' = Directory.Folder (File rbytes) (File bytes).
Proof.
  unfold complete_registration. intros Hrun. run_cases Hrun; try done.
  apply zoom_inv in Hrun as (r0 & e & Hw & Hr & ->). destruct r0; [|done].
  apply write_new_ok in Hw as (He & bytes & Hto & _ & ->).
  match goal with Hf : negb (bool_decide _) = false |- _ => apply negb_false_iff, bool_decide_eq_true in Hf; subst end.
  match goal with Hv : validate_binding _ _ = Ok ?x |- _ => destruct x end.
  match goal with Hf : read_registration _ _ = _ |- _ => pose proof Hf as (rbytes & e & -> & _ & _)%read_registration_ok end.
  simpl in He |- *. subst e. split_and!; [by exists io|done|by exists rbytes, bytes].
Qed.

(** What can be read stays as it is. *)
Lemma registered_grows d d' r : grows d d' -> registered d r -> registered d' r.
Proof.
  intros Hg (io & Hread). pose proof Hread as (bytes & b & -> & Hp & Hv)%read_registration_ok.
  inversion Hg as [| |? ? r' b' Hr' Hb']; subst; [by exists io|]. destruct Hr' as [| ->]; [done|]. by exists io.
Qed.

Lemma bound_grows d d' b : grows d d' -> bound d b -> bound d' b.
Proof.
  intros Hg (r & io & Hread). pose proof Hread as (_ & _ & bytes & He & _)%stored_binding_ok.
  inversion Hg as [|r' e|r0 b0 r' b' Hr' Hb']; subst; [by exists r, io|done|].
  simpl in He. subst b0. destruct Hb' as [| ->]; [done|]. exists r, io. revert Hread. unfold stored_binding.
  intros (found & Hfound & Hrest)%result_bind_ok. simpl in Hrest |- *.
  assert (read_registration io (Directory.Folder r' (File bytes)) = Ok found) as ->; [|done].
  pose proof Hfound as (rbytes & ? & [= -> <-] & _)%read_registration_ok. by destruct Hr' as [| ->].
Qed.

Lemma node_new_ids b n : node_new b = Ok n -> forallb id (binding_ids b) = true.
Proof.
  unfold node_new. rewrite result_seq_ok, refuse_ok. intros [Hids _]. simpl in Hids |- *.
  repeat match goal with Ho : _ || _ = false |- _ => apply orb_false_inv in Ho as [? ?] end.
  repeat match goal with Hn : negb _ = false |- _ => apply negb_false_iff in Hn; rewrite Hn; clear Hn end. done.
Qed.

Lemma binding_ids_len b : forallb id (binding_ids b) = true -> (sum_len (fun v => v) (binding_ids b) <= 512)%N.
Proof.
  unfold id, binding_ids, sum_len. simpl. intros Hids. bool_hyps. lia.
Qed.

(** A binding that was completed is read back. *)
Lemma complete_bound (Hfile : BindingFileLaws) reg b io d u d' :
  complete_registration reg b io d = (Ok u, d') ->
  bound d' b /\ registered d' reg /\ validate_binding reg b = Ok tt.
Proof.
  intros Hrun. pose proof (complete_grows _ _ _ _ _ _ Hrun) as Hg.
  apply complete_ok in Hrun as (Hr & Hv & rbytes & bytes & -> & Hto & ->).
  pose proof (registered_grows _ _ _ Hg Hr) as Hr'. split_and!; [|done|done].
  destruct Hr' as (io' & Hread%read_registration_fine). exists reg, RegIo.fine. unfold stored_binding.
  rewrite Hread. simpl. rewrite bool_decide_true by done. simpl. unfold read_entry. simpl.
  assert (MAX_BINDING_BYTES <? len bytes = false)%N as ->;
    [|simpl; rewrite (binding_read_back _ _ Hto); simpl; by rewrite Hv].
  apply N.ltb_ge. unfold validate_binding in Hv. destruct (node_new b) eqn:Hnode; [|done].
  pose proof (node_new_ids _ _ Hnode) as Hids. pose proof (binding_size _ _ Hto Hids) as Hsize.
  pose proof (binding_ids_len b Hids). unfold MAX_BINDING_BYTES. lia.
Qed.
(** A registration that can be read after it was begun is the one that was given. *)
Lemma begin_registered (Hlaws : RegistrationJsonLaws) reg io r d' reg' :
  begin_registration reg io Directory.NoEntry = (r, d') -> registered d' reg' -> reg' = reg.
Proof.
  unfold begin_registration. intros Hrun (io' & (bytes & b & -> & Hp & _)%read_registration_ok).
  run_cases Hrun; try done. apply zoom_inv in Hrun as (r0 & e & Hw & _ & Heq). simpl in Heq. injection Heq as <- ->.
  unfold write_new in Hw. run_cases Hw; try done;
    match goal with Hv : ok_or (registration_to_vec _) _ = Ok _ |- _ => apply ok_or_ok in Hv as Hto end.
  - match type of Hp with registration_from_slice (String.substring 0 ?n ?s) = _ =>
      destruct (decide (n < String.length s)) as [Hcut|Hwhole] end.
    + by rewrite (registration_cut _ _ _ Hto Hcut) in Hp.
    + rewrite substring_whole in Hp by lia. apply registration_from_to in Hto. congruence.
  - apply registration_from_to in Hto. congruence.
Qed.
(** A directory that is there is left alone. *)
Lemma begin_kept reg io d r d' :
  d <> Directory.NoEntry -> begin_registration reg io d = (r, d') -> d' = d.
Proof. unfold begin_registration. intros Hd Hrun. by run_cases Hrun. Qed.

(** Completing does not touch the registration. *)
Lemma complete_registered reg b io d r d' reg' :
  complete_registration reg b io d = (r, d') -> registered d' reg' -> registered d reg'.
Proof.
  unfold complete_registration. intros Hrun. run_cases Hrun; try done.
  apply zoom_inv in Hrun as (r0 & e & _ & _ & ->). intros (io' & Hread). exists io'.
  by destruct (Directory.set_binding_entry e _) eqn:He, t; simplify_eq/=.
Qed.
End Holds.
