(* ===== verification/Session.v ===== *)
(** * The session of a Node (collaboration/node_session.rs, node_membership.rs, node_commands.rs)

    One mutex around at most one client, over the registration directory and the vault of the
    device: joining a Brain, connecting again, reading its members and administering it. The
    network is a parameter: dialing a peer, and one exchange with it. *)

From S2P Require Import Prelude Protocol Credential Invitation Brain Reconcile Node Wire Client Vault Trust Identity Registration.

Module SessionError.
Inductive t :=
| Invalid | NotConfigured | RecoveryRequired | Existing | Storage | Busy | Disconnected | Transport
| Credential | Rejected | Unavailable.
Definition of_registration (e : RegistrationError.t) : t :=
  match e with
  | RegistrationError.Invalid => Invalid
  | RegistrationError.NotConfigured => NotConfigured
  | RegistrationError.Incomplete => RecoveryRequired
  | RegistrationError.Existing => Existing
  | RegistrationError.Storage => Storage
  end.
Definition of_client {V} (e : ClientError.t V) : t :=
  match e with
  | ClientError.Invalid => Invalid
  | ClientError.Transport => Transport
  | ClientError.Peer _ => Rejected
  | ClientError.Node _ => Disconnected
  | ClientError.Vault _ => Credential
  end.
End SessionError.

Module ConnectionState.
Inductive t := NotConfigured | RecoveryRequired | Disconnected | Connected.
End ConnectionState.

Module NodeStatus.
Record t := mk {
  state : ConnectionState.t;
  registration : option NodeRegistration.t;
  binding : option CredentialBinding.t;
  revision : N;
}.
End NodeStatus.

Module DirectoryEntry.
Inductive t :=
| Member (member_id display_name : string) (owner revoked : bool)
| Node (node_id member_id : string) (online : bool) (last_seen_at : option Z).
End DirectoryEntry.

Module MemberDirectory.
Record t := mk { revision : N; entries : list DirectoryEntry.t }.
End MemberDirectory.
(** serde_json on a directory *)
Class DirectoryJson := directory_to_vec : MemberDirectory.t -> option string.

(** [try_lock] *)
Inductive LockState := Free | Held | Poisoned.

(** What one call meets: the mutex, the clock, and the file system during each of its three uses *)
Module SessionEnv.
Record t := mk { lock : LockState; time : result WireError.t Z; first : RegIo.t; second : RegIo.t; third : RegIo.t }.
End SessionEnv.

(** The session, and what it is connected to: its directory, the vault, and the network *)
Module NodeSession.
Record t (B P : Type) := mk {
  directory : Directory.t; vault : B; world : P; client : option Client.t; closed : bool }.
Arguments mk {B P} _ _ _ _ _.
Arguments directory {B P} _.
Arguments vault {B P} _.
Arguments world {B P} _.
Arguments client {B P} _.
Arguments closed {B P} _.
Section Setters.
Context {B P : Type}.
Definition set_directory (v : Directory.t) (s : t B P) : t B P := mk v s.(vault) s.(world) s.(client) s.(closed).
Definition set_net (v : P * B) (s : t B P) : t B P := mk s.(directory) v.2 v.1 s.(client) s.(closed).
Definition set_world (v : P) (s : t B P) : t B P := mk s.(directory) s.(vault) v s.(client) s.(closed).
Definition set_client (v : option Client.t) (s : t B P) : t B P :=
  mk s.(directory) s.(vault) s.(world) v s.(closed).
Definition shut (s : t B P) : t B P := mk s.(directory) s.(vault) s.(world) None true.
(** [NodeSession::new] *)
Definition new (d : Directory.t) (b : B) (p : P) : t B P := mk d b p None false.
End Setters.
End NodeSession.

Section Session.
Context `{Sha256, ProtocolJson, RecordsJson, TlsInputs, DescriptorJson, BindingJson, RegistrationJson, VaultJson, DirectoryJson}.
Context {B P : Type} `{SecretBackend B}.
Context (exchange : Operation.t -> M P (ClientError.t VaultError.t) Reply.t).
(** [TlsChannel::connect] *)
Context (dial : Peer.t -> M P TlsError.t unit).

#[local] Notation "'SessionM'" := (M (NodeSession.t B P) SessionError.t) (only parsing).
#[local] Notation "'ClientM'" := (M (Client.t * P) (ClientError.t VaultError.t)) (only parsing).

(** [guard] *)
Definition session_guard (env : SessionEnv.t) : SessionM unit :=
  match env.(SessionEnv.lock) with
  | Held => throw SessionError.Busy
  | Poisoned => throw SessionError.Unavailable
  | Free => s ← get; reject_if s.(NodeSession.closed) SessionError.Unavailable
  end.

Definition reading {A} (f : Directory.t -> result RegistrationError.t A) : SessionM A :=
  s ← get; lift (map_err SessionError.of_registration (f s.(NodeSession.directory))).
Definition on_store {A} (m : M Directory.t RegistrationError.t A) : SessionM A :=
  zoom NodeSession.directory NodeSession.set_directory SessionError.of_registration m.
Definition on_world {A} (m : M P (ClientError.t VaultError.t) A) : SessionM A :=
  zoom NodeSession.world NodeSession.set_world SessionError.of_client m.

(** An operation on the client of the session *)
Definition on_session_client {A} (client : Client.t) (m : ClientM A) : SessionM A :=
  fun s => let '(r, (client, p)) := m (client, s.(NodeSession.world)) in
           (map_err SessionError.of_client r, NodeSession.set_client (Some client) (NodeSession.set_world p s)).

Definition dial_peer (peer : Peer.t) : M P (ClientError.t VaultError.t) unit :=
  zoom (fun p => p) (fun p _ => p) (fun _ => ClientError.Transport) (dial peer).

(** [registration.trusted_peer()?.peer()] *)
Definition session_peer (r : NodeRegistration.t) : SessionM Peer.t :=
  trusted ← lift (map_err SessionError.of_registration (trusted_peer r));
  lift (map_err (fun _ => SessionError.Invalid) (descriptor_peer trusted)).

Definition describe (env : SessionEnv.t) (identity : RivloomIdentity.t) : SessionM NodeStatus.t :=
  s ← get;
  match load_registration identity env.(SessionEnv.third) s.(NodeSession.directory) with
  | Err RegistrationError.NotConfigured => mret (NodeStatus.mk ConnectionState.NotConfigured None None 0)
  | Err error => throw (SessionError.of_registration error)
  | Ok registration =>
    match stored_binding registration env.(SessionEnv.third) s.(NodeSession.directory) with
    | Err RegistrationError.Incomplete =>
      mret (NodeStatus.mk ConnectionState.RecoveryRequired (Some registration) None 0)
    | Err error => throw (SessionError.of_registration error)
    | Ok binding =>
      _ ← reject_if (is_some_and (fun client => negb (bool_decide (client.(Client.binding) = binding)))
                       s.(NodeSession.client)) SessionError.Invalid;
      let ready := is_some_and (fun client => client.(Client.node).(Node.ready)) s.(NodeSession.client) in
      mret (NodeStatus.mk (if ready then ConnectionState.Connected else ConnectionState.Disconnected)
              (Some registration) (Some binding)
              (default 0%N ((fun client => client.(Client.node).(Node.revision)) <$> s.(NodeSession.client))))
    end
  end.

(** [status] *)
Definition session_status (env : SessionEnv.t) (identity : RivloomIdentity.t) : SessionM NodeStatus.t :=
  _ ← session_guard env;
  describe env identity.

(** [join] *)
Definition session_join (env : SessionEnv.t) (identity : RivloomIdentity.t) (registration : NodeRegistration.t)
    (invitation_id : string) (secret : SecretToken) : SessionM NodeStatus.t :=
  _ ← session_guard env;
  _ ← lift (map_err SessionError.of_registration (check_identity registration identity));
  _ ← lift (map_err (fun _ => SessionError.Invalid) (token_parse invitation_id));
  peer ← session_peer registration;
  _ ← on_store (begin_registration registration env.(SessionEnv.first));
  client ← zoom (fun s => (s.(NodeSession.world), s.(NodeSession.vault))) NodeSession.set_net SessionError.of_client
             (client_join exchange
                (JoinRequest.mk registration.(NodeRegistration.descriptor).(TrustDescriptor.brain_id)
                   invitation_id secret identity.(RivloomIdentity.identity_id)
                   identity.(RivloomIdentity.device_id) identity.(RivloomIdentity.display_name))
                env.(SessionEnv.time) save_new (dial_peer peer));
  _ ← on_store (complete_registration registration client.(Client.binding) env.(SessionEnv.second));
  _ ← modify (NodeSession.set_client (Some client));
  describe env identity.

(** [connect] *)
Definition session_connect (env : SessionEnv.t) (identity : RivloomIdentity.t) : SessionM NodeStatus.t :=
  _ ← session_guard env;
  registration ← reading (load_registration identity env.(SessionEnv.first));
  binding ← reading (stored_binding registration env.(SessionEnv.second));
  peer ← session_peer registration;
  s ← get;
  _ ← match s.(NodeSession.client) with
      | Some client =>
        _ ← reject_if (negb (bool_decide (client.(Client.binding) = binding))) SessionError.Invalid;
        on_session_client client
          (reconnect exchange env.(SessionEnv.time)
             (fun now => vault_load client.(Client.binding) now s.(NodeSession.vault)) (dial_peer peer))
      | None =>
        client ← on_world (client_connect exchange binding env.(SessionEnv.time)
                             (fun now => vault_load binding now s.(NodeSession.vault)) (dial_peer peer));
        modify (NodeSession.set_client (Some client))
      end;
  describe env identity.

(** The view names this member as the owner, under this identity. *)
Definition owner_record (member_id identity_id : string) (record : SharedRecord.t) : bool :=
  match record.(SharedRecord.data) with
  | SharedData.Member m i _ true false => str_eqb m member_id && str_eqb i identity_id
  | _ => false
  end.

Definition connect_owner (env : SessionEnv.t) (identity : RivloomIdentity.t) (profile : HostProfile.t)
    (confirmed_fingerprint : string) : SessionM NodeStatus.t :=
  _ ← session_guard env;
  s ← get;
  _ ← match load_registration identity env.(SessionEnv.first) s.(NodeSession.directory) with
      | Err RegistrationError.NotConfigured => mret tt
      | Ok _ => throw SessionError.Existing
      | Err error => throw (SessionError.of_registration error)
      end;
  bytes ← lift (map_err (fun _ => SessionError.Invalid) (descriptor_encode profile.(HostProfile.descriptor)));
  registration ← lift (map_err SessionError.of_registration (confirmed identity bytes confirmed_fingerprint));
  _ ← reject_if (negb (str_eqb profile.(HostProfile.binding).(CredentialBinding.device_id)
                         identity.(RivloomIdentity.device_id))) SessionError.Invalid;
  peer ← session_peer registration;
  client ← on_world (client_connect exchange profile.(HostProfile.binding) env.(SessionEnv.time)
             (fun now => vault_load profile.(HostProfile.binding) now s.(NodeSession.vault)) (dial_peer peer));
  _ ← reject_if (negb (existsb (owner_record profile.(HostProfile.binding).(CredentialBinding.member_id)
                                  identity.(RivloomIdentity.identity_id))
                         (values client.(Client.node).(Node.records)))) SessionError.Invalid;
  _ ← on_store (begin_registration registration env.(SessionEnv.first));
  _ ← on_store (complete_registration registration client.(Client.binding) env.(SessionEnv.second));
  _ ← modify (NodeSession.set_client (Some client));
  describe env identity.

Definition with_client {T} (env : SessionEnv.t) (identity : RivloomIdentity.t) (operation : ClientM T) : SessionM T :=
  _ ← session_guard env;
  registration ← reading (load_registration identity env.(SessionEnv.first));
  binding ← reading (stored_binding registration env.(SessionEnv.second));
  s ← get;
  client ← lift (ok_or s.(NodeSession.client) SessionError.Disconnected);
  _ ← reject_if (negb (bool_decide (client.(Client.binding) = binding))) SessionError.Invalid;
  on_session_client client operation.

(** [refresh], which takes the lock twice *)
Definition session_refresh (env env' : SessionEnv.t) (identity : RivloomIdentity.t) : SessionM NodeStatus.t :=
  _ ← with_client env identity (pulse exchange);
  session_status env' identity.

(** [disconnect] and [shutdown] *)
Definition session_disconnect (env : SessionEnv.t) : SessionM unit :=
  _ ← session_guard env;
  modify (fun s => NodeSession.set_client (client_disconnect <$> s.(NodeSession.client)) s).
Definition session_shutdown : SessionM unit := modify NodeSession.shut.

(** ** Members *)

Definition directory_entry (record : SharedRecord.t) : option DirectoryEntry.t :=
  match record.(SharedRecord.data) with
  | SharedData.Member member_id _ display_name owner revoked =>
    Some (DirectoryEntry.Member member_id display_name owner revoked)
  | SharedData.Node node_id member_id _ online last_seen_at _ =>
    Some (DirectoryEntry.Node node_id member_id online last_seen_at)
  | SharedData.Task _ _ _ => None
  end.

Definition read_members : ClientM MemberDirectory.t :=
  s ← get;
  let node := s.1.(Client.node) in
  _ ← reject_if (negb node.(Node.ready)) (ClientError.Node NodeError.Unavailable);
  let directory := MemberDirectory.mk node.(Node.revision) (omap directory_entry (values node.(Node.records))) in
  _ ← reject_if (128 <? length directory.(MemberDirectory.entries)) ClientError.Invalid;
  bytes ← lift (ok_or (directory_to_vec directory) ClientError.Invalid);
  _ ← reject_if (64 * 1024 <? len bytes)%N ClientError.Invalid;
  mret directory.

Definition members (env : SessionEnv.t) (identity : RivloomIdentity.t) : SessionM MemberDirectory.t :=
  with_client env identity read_members.
Definition session_invite (env : SessionEnv.t) (identity : RivloomIdentity.t) : SessionM IssuedInvitation.t :=
  with_client env identity (client_invite exchange env.(SessionEnv.time)).
Definition session_cancel_invite (env : SessionEnv.t) (identity : RivloomIdentity.t) (invitation_id : string)
    : SessionM unit :=
  _ ← lift (map_err (fun _ => SessionError.Invalid) (token_parse invitation_id));
  with_client env identity (cancel_invite exchange invitation_id).
Definition session_revoke (env : SessionEnv.t) (identity : RivloomIdentity.t) (member_id : string) : SessionM unit :=
  with_client env identity (client_revoke exchange member_id).

(** ** The command that joins *)

Definition join_brain (env : SessionEnv.t) (identity : RivloomIdentity.t) (descriptor confirmed_fingerprint : string)
    (invitation : IssuedInvitation.t) : SessionM NodeStatus.t :=
  registration ← lift (map_err SessionError.of_registration (confirmed identity descriptor confirmed_fingerprint));
  now ← lift (map_err (fun _ => SessionError.Unavailable) env.(SessionEnv.time));
  _ ← reject_if (negb (str_eqb invitation.(IssuedInvitation.brain_id)
                         registration.(NodeRegistration.descriptor).(TrustDescriptor.brain_id))
                 || negb (timestamp invitation.(IssuedInvitation.expires_at))
                 || (invitation.(IssuedInvitation.expires_at) <=? now)%Z
                 || (600 <? invitation.(IssuedInvitation.expires_at) - now)%Z) SessionError.Invalid;
  session_join env identity registration invitation.(IssuedInvitation.invitation_id)
    invitation.(IssuedInvitation.secret).

(** ** Histories *)

Inductive SessionCall :=
| Status (env : SessionEnv.t) (identity : RivloomIdentity.t)
| JoinBrain (env : SessionEnv.t) (identity : RivloomIdentity.t) (descriptor confirmed_fingerprint : string)
    (invitation : IssuedInvitation.t)
| Connect (env : SessionEnv.t) (identity : RivloomIdentity.t)
| ConnectOwner (env : SessionEnv.t) (identity : RivloomIdentity.t) (profile : HostProfile.t)
    (confirmed_fingerprint : string)
| Refresh (env env' : SessionEnv.t) (identity : RivloomIdentity.t)
| Disconnect (env : SessionEnv.t)
| Members (env : SessionEnv.t) (identity : RivloomIdentity.t)
| InviteMember (env : SessionEnv.t) (identity : RivloomIdentity.t)
| CancelInvitation (env : SessionEnv.t) (identity : RivloomIdentity.t) (invitation_id : string)
| RevokeMember (env : SessionEnv.t) (identity : RivloomIdentity.t) (member_id : string)
| Shutdown
| RestartSession.

Definition session_call (c : SessionCall) (s : NodeSession.t B P) : NodeSession.t B P :=
  match c with
  | Status env identity => (session_status env identity s).2
  | JoinBrain env identity descriptor fp invitation => (join_brain env identity descriptor fp invitation s).2
  | Connect env identity => (session_connect env identity s).2
  | ConnectOwner env identity profile fp => (connect_owner env identity profile fp s).2
  | Refresh env env' identity => (session_refresh env env' identity s).2
  | Disconnect env => (session_disconnect env s).2
  | Members env identity => (members env identity s).2
  | InviteMember env identity => (session_invite env identity s).2
  | CancelInvitation env identity invitation_id => (session_cancel_invite env identity invitation_id s).2
  | RevokeMember env identity member_id => (session_revoke env identity member_id s).2
  | Shutdown => (session_shutdown s).2
  | RestartSession => NodeSession.new s.(NodeSession.directory) s.(NodeSession.vault) s.(NodeSession.world)
  end.

Definition session_history (calls : list SessionCall) (s : NodeSession.t B P) : NodeSession.t B P :=
  foldl (fun s c => session_call c s) s calls.
End Session.

(** ** What goes over the network *)

Inductive NetEvent := Dialed (peer : Peer.t) | Sent (operation : Operation.t).
Definition is_join (e : NetEvent) : bool :=
  match e with Sent (Operation.Join _ _ _ _ _ _) => true | _ => false end.

Section Logged.
Context {P V : Type} (exchange : Operation.t -> M P (ClientError.t V) Reply.t).
Context (dial : Peer.t -> M P TlsError.t unit).

(** The network with a log of what was done *)
Definition logged_exchange (operation : Operation.t) : M (list NetEvent * P) (ClientError.t V) Reply.t :=
  fun s => let (r, p) := exchange operation s.2 in (r, (s.1 ++ [Sent operation], p)).
Definition logged_dial (peer : Peer.t) : M (list NetEvent * P) TlsError.t unit :=
  fun s => let (r, p) := dial peer s.2 in (r, (s.1 ++ [Dialed peer], p)).
End Logged.
