(* ===== verification/SessionThm.v ===== *)
(** * What holds of a session

    Over every history of calls and restarts, with any failing file operation, lock, clock, vault
    and network: a device asks to join at most once, dials only endpoints whose certificate was
    confirmed, and its client has the binding that is stored. *)

From S2P Require Import Prelude Protocol Credential Invitation Brain Reconcile Node Wire Client Vault Trust Identity Registration Session.

(** ** Operations of the client *)

Section ClientEvents.
Context `{Sha256, ProtocolJson, RecordsJson} {P V : Type}.
Context (exchange : Operation.t -> M P (ClientError.t V) Reply.t).
Context (Q : NetEvent -> Prop).

#[local] Notation "'ClientM'" := (M (Client.t * (list NetEvent * P)) (ClientError.t V)) (only parsing).

(** The log grows by events with a property. *)
Definition extends (l l' : list NetEvent) : Prop := exists evs, l' = l ++ evs /\ Forall Q evs.

#[local] Instance extends_preorder : PreOrder extends.
Proof.
  split; [intros l; exists []; by rewrite app_nil_r|].
  intros l1 l2 l3 (e1 & -> & He1) (e2 & -> & He2). exists (e1 ++ e2). rewrite app_assoc. split; [done|].
  by apply Forall_app.
Qed.

(** An operation of the client keeps its binding and does such events only. *)
Definition emits {A} (m : ClientM A) : Prop :=
  forall s r s', m s = (r, s') ->
    s'.1.(Client.binding) = s.1.(Client.binding) /\ extends s.2.1 s'.2.1.

Lemma emits_bind {A C} (m : ClientM A) (k : A -> ClientM C) :
  emits m -> (forall a, emits (k a)) -> emits (m ≫= k).
Proof.
  intros Hm Hk s r s' [(e & Hrun & _)|(a & s1 & Hrun & Hrest)]%bind_cases; [by apply (Hm _ _ _ Hrun)|].
  destruct (Hm _ _ _ Hrun) as [Hb He], (Hk a _ _ _ Hrest) as [Hb' He']. split; [congruence|by etrans].
Qed.
Lemma emits_mret {A} (a : A) : emits (mret a).
Proof. by intros s r s' [= <- <-]. Qed.
Lemma emits_lift {A} (x : result (ClientError.t V) A) : emits (lift x).
Proof. by intros s r s' [= <- <-]. Qed.
Lemma emits_throw {A} (e : ClientError.t V) : emits (throw (A := A) e).
Proof. by intros s r s' [= <- <-]. Qed.
Lemma emits_get : emits get.
Proof. by intros s r s' [= <- <-]. Qed.
Lemma emits_reject c e : emits (reject_if c e).
Proof. intros s r s' [_ ->]%reject_inv. done. Qed.
Lemma emits_on_client f : (forall c, (f c).(Client.binding) = c.(Client.binding)) -> emits (on_client f).
Proof. intros Hf s r s' [= <- <-]. by split; [apply Hf|]. Qed.
Lemma emits_fail {A} e : emits (fail (A := A) e).
Proof. apply emits_bind; [by apply emits_on_client|intros; apply emits_throw]. Qed.

Lemma emits_on_node {A} (m : NodeM A) : emits (on_node m).
Proof. intros s r s' (r0 & n & _ & _ & ->)%zoom_inv. done. Qed.
Lemma emits_on_node_or_fail {A} (m : NodeM A) : emits (on_node_or_fail m).
Proof.
  apply emits_bind; [apply emits_get|]. intros s. destruct (m _) as [x n].
  apply emits_bind; [by apply emits_on_client|]. intros _. destruct x; [apply emits_mret|apply emits_fail].
Qed.

Lemma emits_request op : Q (Sent op) -> emits (request (logged_exchange exchange) op).
Proof.
  intros HQ s r s' Hrun. unfold request in Hrun. rewrite (bind_ok _ _ _ s s) in Hrun by done.
  destruct (negb _); [by apply emits_fail in Hrun|]. unfold logged_exchange in Hrun.
  destruct (exchange op s.2.2) as [x p]. rewrite (bind_ok _ _ _ tt (s.1, (s.2.1 ++ [Sent op], p))) in Hrun by done.
  assert (s'.1.(Client.binding) = s.1.(Client.binding) /\ extends (s.2.1 ++ [Sent op]) s'.2.1) as [Hb He].
  { destruct x; [by apply emits_mret in Hrun|by apply emits_fail in Hrun]. }
  split; [done|]. etrans; [|exact He]. exists [Sent op]. by repeat constructor.
Qed.

Lemma emits_on_peer {A} (m : M (list NetEvent * P) (ClientError.t V) A) :
  (forall s r s', m s = (r, s') -> extends s.1 s'.1) -> emits (on_peer m).
Proof. intros Hm s r s' (r0 & p & Hrun & _ & ->)%zoom_inv. by split; [|eapply Hm]. Qed.

(** Everything but a join may be sent. *)
Context (HQ : forall op, is_join (Sent op) = false -> Q (Sent op)).

Create HintDb emits.
Hint Resolve emits_mret emits_lift emits_throw emits_get emits_reject emits_fail emits_on_node
  emits_on_node_or_fail : emits.
Hint Extern 2 (emits (_ ≫= _)) => apply emits_bind; [|intros ?] : emits.
Hint Extern 2 (emits (request _ _)) => apply emits_request, HQ; reflexivity : emits.
Hint Extern 3 (emits (match ?x with _ => _ end)) => destruct x : emits.

Lemma emits_reconcile_loop fuel : emits (reconcile_loop (logged_exchange exchange) fuel).
Proof. induction fuel as [|fuel IH]; simpl; auto 20 with emits. Qed.
Lemma emits_reconcile : emits (client_reconcile (logged_exchange exchange)).
Proof. apply emits_reconcile_loop. Qed.
Hint Resolve emits_reconcile : emits.
Lemma emits_authenticate c : emits (authenticate (logged_exchange exchange) c).
Proof. unfold authenticate. auto 20 with emits. Qed.
Hint Resolve emits_authenticate : emits.

Lemma emits_reconnect time load (dial : M (list NetEvent * P) (ClientError.t V) unit) :
  (forall s r s', dial s = (r, s') -> extends s.1 s'.1) ->
  emits (reconnect (logged_exchange exchange) time load dial).
Proof.
  intros Hdial. unfold reconnect. pose proof (emits_on_peer dial Hdial).
  apply emits_bind; [by apply emits_on_client|intros _]. do 3 (apply emits_bind; [auto with emits|intros ?]).
  apply emits_bind; [by apply emits_on_client|auto with emits].
Qed.
Lemma emits_pulse : emits (pulse (logged_exchange exchange)).
Proof. unfold pulse. auto 20 with emits. Qed.
Lemma emits_invite time : emits (client_invite (logged_exchange exchange) time).
Proof. unfold client_invite. auto 20 with emits. Qed.
Lemma emits_administer op : is_join (Sent op) = false -> emits (administer (logged_exchange exchange) op).
Proof. intros Hop. unfold administer. apply emits_bind; [by apply emits_request, HQ|auto 20 with emits]. Qed.
Lemma emits_cancel i : emits (cancel_invite (logged_exchange exchange) i).
Proof. apply emits_bind; [auto with emits|intros _; by apply emits_administer]. Qed.
Lemma emits_revoke m : emits (client_revoke (logged_exchange exchange) m).
Proof.
  apply emits_bind; [auto with emits|intros s]. apply emits_bind; [auto with emits|intros _; by apply emits_administer].
Qed.
(** The constructors *)
Lemma emits_built c (m : ClientM unit) s r s' :
  emits m -> built c m s = (r, s') ->
  extends s.1 s'.1 /\ forall c', r = Ok c' -> c'.(Client.binding) = c.(Client.binding).
Proof.
  intros Hm. unfold built. destruct (m (c, s)) as [x [c1 p1]] eqn:Hrun. intros [= <- <-].
  destruct (Hm _ _ _ Hrun) as [Hb He]. split; [done|]. intros c'. by destruct x; [intros [= <-]|].
Qed.
End ClientEvents.

Lemma emits_members `{DirectoryJson} {P} (Q : NetEvent -> Prop) : emits (P := P) Q read_members.
Proof.
  intros s r s' Hrun. assert (s' = s) as ->; [|split; [done|exists []; by rewrite app_nil_r]].
  unfold read_members in Hrun. by run_cases Hrun.
Qed.

(** ** Steps of a session *)

Definition joins (l : list NetEvent) : nat := length (List.filter is_join l).
Definition missing (d : Directory.t) : nat := match d with Directory.NoEntry => 1 | _ => 0 end.

Lemma joins_app l l' : joins (l ++ l') = joins l + joins l'.
Proof. unfold joins. by rewrite List.filter_app, length_app. Qed.
Lemma joins_none l : Forall (fun e => is_join e = false) l -> joins l = 0.
Proof. unfold joins. induction 1 as [|e l He _ IH]; simpl; [done|]. by rewrite He. Qed.
Lemma missing_grows d d' : grows d d' -> missing d' <= missing d.
Proof. intros []; simpl; lia. Qed.

Section Steps.
Context `{Sha256, ProtocolJson, RecordsJson, TlsInputs, DescriptorJson, BindingJson, RegistrationJson, VaultJson, DirectoryJson}.
Context {B P : Type} `{SecretBackend B}.

Notation Session := (NodeSession.t B (list NetEvent * P)).
Definition log (s : Session) : list NetEvent := s.(NodeSession.world).1.

(** Whose endpoint may be dialed: a registration whose descriptor has the confirmed fingerprint *)
Definition vouched (R : NodeRegistration.t -> Prop) (e : NetEvent) : Prop :=
  match e with
  | Dialed p => exists reg, R reg /\ peer_for reg.(NodeRegistration.descriptor) p /\
      reg.(NodeRegistration.confirmed_fingerprint) = fingerprint reg.(NodeRegistration.descriptor)
  | Sent _ => True
  end.
Definition quiet (R : NodeRegistration.t -> Prop) (e : NetEvent) : Prop := vouched R e /\ is_join e = false.

Record session_ok (R : NodeRegistration.t -> Prop) (s : Session) : Prop := {
  so_registered reg : registered s.(NodeSession.directory) reg -> R reg;
  so_bound c : s.(NodeSession.client) = Some c -> bound s.(NodeSession.directory) c.(Client.binding);
}.

Definition step (R : NodeRegistration.t -> Prop) (s s' : Session) : Prop :=
  session_ok R s -> session_ok R s' /\ grows s.(NodeSession.directory) s'.(NodeSession.directory) /\
  exists evs, log s' = log s ++ evs /\ Forall (vouched R) evs /\
    joins evs + missing s'.(NodeSession.directory) <= missing s.(NodeSession.directory).

#[local] Instance step_preorder R : PreOrder (step R).
Proof.
  split.
  - intros s Hs. split_and!; [done..|]. exists []. rewrite app_nil_r. split_and!; [done|constructor|done].
  - intros s1 s2 s3 H12 H23 Hs1. destruct (H12 Hs1) as (Hs2 & Hg12 & e1 & Hl1 & Hv1 & Hj1).
    destruct (H23 Hs2) as (Hs3 & Hg23 & e2 & Hl2 & Hv2 & Hj2). split_and!; [done|by etrans|].
    exists (e1 ++ e2). rewrite joins_app, Hl2, Hl1, app_assoc. split_and!; [done|by apply Forall_app|lia].
Qed.

(** The directory stays and the log grows quietly; a client has a binding as before, or the stored
    one. *)
Lemma step_client R s s' :
  s'.(NodeSession.directory) = s.(NodeSession.directory) -> extends (quiet R) (log s) (log s') ->
  (forall c', s'.(NodeSession.client) = Some c' ->
     bound s.(NodeSession.directory) c'.(Client.binding) \/
     exists c, s.(NodeSession.client) = Some c /\ c'.(Client.binding) = c.(Client.binding)) ->
  step R s s'.
Proof.
  intros Hd (evs & Hl & Hq) Hc Hs. split_and!; [|by rewrite Hd|].
  - split; [rewrite Hd; apply Hs|]. intros c' Hc'. rewrite Hd.
    destruct (Hc c' Hc') as [|(c & Hsome & ->)]; [done|by apply Hs].
  - exists evs. rewrite Hd. split_and!; [done|eapply list.Forall_impl; [exact Hq|by intros e []]|].
    rewrite joins_none; [done|]. eapply list.Forall_impl; [exact Hq|]. by intros e [].
Qed.

(** The directory grows, by nothing that is not vouched for, and the log by at most one join if the
    directory is new. *)
Lemma step_store R s s' evs :
  grows s.(NodeSession.directory) s'.(NodeSession.directory) ->
  (forall reg, registered s'.(NodeSession.directory) reg -> registered s.(NodeSession.directory) reg \/ R reg) ->
  s'.(NodeSession.client) = s.(NodeSession.client) -> log s' = log s ++ evs -> Forall (vouched R) evs ->
  joins evs + missing s'.(NodeSession.directory) <= missing s.(NodeSession.directory) ->
  step R s s'.
Proof.
  intros Hg Hr Hc Hl Hv Hj Hs. split_and!; [|done|by exists evs]. split.
  - intros reg [Hreg|Hreg]%Hr; [by apply Hs|done].
  - rewrite Hc. intros c Hsome. eapply bound_grows; [exact Hg|]. by apply Hs.
Qed.
End Steps.

(** ** The operations *)

Section Operations.
Context `{Sha256, ProtocolJson, RecordsJson, TlsInputs, DescriptorJson, BindingJson, RegistrationJson, VaultJson, DirectoryJson}.
Context {B P : Type} `{SecretBackend B}.
Context (Hdescriptor : DescriptorJsonLaws) (Hregistration : RegistrationJsonLaws) (Hbinding : BindingFileLaws).
Context (exchange : Operation.t -> M P (ClientError.t VaultError.t) Reply.t) (dial : Peer.t -> M P TlsError.t unit).
Context (R : NodeRegistration.t -> Prop).

Notation Session := (NodeSession.t B (list NetEvent * P)).
Notation SessionM := (M Session SessionError.t).
#[local] Existing Instance step_preorder.

(** An action that looks only *)
Definition looks {A} (m : SessionM A) : Prop := forall s r s', m s = (r, s') -> s' = s.

Lemma looks_bind {A C} (m : SessionM A) (k : A -> SessionM C) s r s' :
  looks m -> (m ≫= k) s = (r, s') -> s' = s \/ exists a, m s = (Ok a, s) /\ k a s = (r, s').
Proof.
  intros Hm [(e & Hrun & _)|(a & s1 & Hrun & Hrest)]%bind_cases; [left; by eapply Hm|].
  apply Hm in Hrun as Heq. subst s1. right. eauto.
Qed.

Lemma looks_guard env : looks (session_guard env).
Proof. unfold session_guard. intros s r s' Hrun. by run_cases Hrun. Qed.
Lemma looks_reading {A} (f : Directory.t -> result RegistrationError.t A) : looks (reading f).
Proof. unfold reading. intros s r s' Hrun. by run_cases Hrun. Qed.
Lemma looks_lift {A} (x : result SessionError.t A) : looks (lift x).
Proof. by intros s r s' [= <- <-]. Qed.
Lemma looks_peer reg : looks (session_peer reg).
Proof. unfold session_peer. intros s r s' Hrun. by run_cases Hrun. Qed.
Lemma looks_reject c e : looks (reject_if c e).
Proof. by intros s r s' [_ ->]%reject_inv. Qed.
Lemma looks_get : looks get.
Proof. by intros s r s' [= <- <-]. Qed.
Lemma looks_describe env identity : looks (describe env identity).
Proof. unfold describe. intros s r s' Hrun. by run_cases Hrun. Qed.

Lemma reading_ok {A} (f : Directory.t -> result RegistrationError.t A) (s s' : Session) a :
  reading f s = (Ok a, s') -> f s.(NodeSession.directory) = Ok a.
Proof. unfold reading. rewrite (bind_ok _ _ _ s s) by done. unfold lift. by destruct (f _); intros [= -> <-]. Qed.

Lemma load_registration_ok identity io d reg : load_registration identity io d = Ok reg -> registered d reg.
Proof. unfold load_registration. intros (r & Hr & (u & _ & [= <-])%result_bind_ok)%result_bind_ok. by exists io. Qed.

Lemma session_peer_ok reg (s s' : Session) p :
  session_peer reg s = (Ok p, s') ->
  peer_for reg.(NodeRegistration.descriptor) p /\
  reg.(NodeRegistration.confirmed_fingerprint) = fingerprint reg.(NodeRegistration.descriptor).
Proof.
  unfold session_peer. intros (d & s1 & Hd & Hp)%bind_ok_iff. apply lift_inv in Hd as [Hd ->].
  apply lift_inv in Hp as [Hp ->]. destruct (trusted_peer reg) as [d'|] eqn:Ht; [|done]. injection Hd as ->.
  destruct (descriptor_peer d') eqn:Hpeer; [|done]. injection Hp as ->. apply descriptor_peer_ok in Hpeer.
  unfold trusted_peer in Ht. destruct (descriptor_encode _) as [bytes|] eqn:Henc; [|done]. simpl in Ht.
  rewrite (confirm_encoded Hdescriptor _ _ _ Henc) in Ht. destruct (str_eqb _ _) eqn:Heq; [|done].
  injection Ht as <-. by apply str_eqb_true in Heq.
Qed.

Lemma dial_extends reg p s r s' :
  R reg -> peer_for reg.(NodeRegistration.descriptor) p ->
  reg.(NodeRegistration.confirmed_fingerprint) = fingerprint reg.(NodeRegistration.descriptor) ->
  dial_peer (logged_dial dial) p s = (r, s') -> extends (quiet R) s.1 s'.1.
Proof.
  intros HR Hp Hf (r0 & s1 & Hd & _ & ->)%zoom_inv. unfold logged_dial in Hd. destruct (dial p s.2) as [x q].
  injection Hd as <- <-. exists [Dialed p]. split; [done|]. repeat constructor. by exists reg.
Qed.

Lemma quiet_sent op : is_join (Sent op) = false -> quiet R (Sent op).
Proof. done. Qed.

Lemma on_session_client_step {A} c (m : M (Client.t * (list NetEvent * P)) (ClientError.t VaultError.t) A) (s s' : Session) r :
  s.(NodeSession.client) = Some c -> emits (quiet R) m ->
  on_session_client c m s = (r, s') -> step R s s'.
Proof.
  intros Hc Hm. unfold on_session_client. destruct (m _) as [x [c' p']] eqn:Hrun. intros [= <- <-].
  destruct (Hm _ _ _ Hrun) as [Hb He]. apply step_client; [done|done|].
  intros c1 [= <-]. right. by exists c.
Qed.

Lemma with_client_step {A} env identity (m : M (Client.t * (list NetEvent * P)) (ClientError.t VaultError.t) A) (s s' : Session) r :
  emits (quiet R) m -> with_client env identity m s = (r, s') -> step R s s'.
Proof.
  intros Hm Hrun. unfold with_client in Hrun.
  apply looks_bind in Hrun as [->|(u & _ & Hrun)]; [done| |apply looks_guard].
  apply looks_bind in Hrun as [->|(reg & _ & Hrun)]; [done| |apply looks_reading].
  apply looks_bind in Hrun as [->|(b & _ & Hrun)]; [done| |apply looks_reading].
  rewrite (bind_ok _ _ _ s s) in Hrun by done.
  apply looks_bind in Hrun as [->|(c & Hc & Hrun)]; [done| |apply looks_lift].
  apply looks_bind in Hrun as [->|(u' & _ & Hrun)]; [done| |apply looks_reject].
  injection Hc as Hc. apply ok_or_ok in Hc. by eapply on_session_client_step.
Qed.
(** [dial_peer] as it is used for a registration that is vouched for *)
Definition dials_well (m : M (list NetEvent * P) (ClientError.t VaultError.t) unit) : Prop :=
  forall s r s', m s = (r, s') -> extends (quiet R) s.1 s'.1.

Lemma client_connect_events b time load m s r s' :
  dials_well m -> client_connect (logged_exchange exchange) b time load m s = (r, s') ->
  extends (quiet R) s.1 s'.1 /\ forall c, r = Ok c -> c.(Client.binding) = b.
Proof.
  intros Hm [(e & Hrun & ->)|(n & s1 & Hrun & Hrest)]%bind_cases; apply lift_inv in Hrun as [_ ->].
  { split; [exists []; by rewrite app_nil_r|done]. }
  eapply emits_built in Hrest; [exact Hrest|]. apply emits_reconnect; [apply quiet_sent|exact Hm].
Qed.

Lemma quiet_events l l' :
  extends (quiet R) l l' -> exists evs, l' = l ++ evs /\ Forall (vouched R) evs /\ joins evs = 0.
Proof.
  intros (evs & -> & Hq). exists evs. split_and!; [done|..].
  - eapply list.Forall_impl; [exact Hq|]. by intros e [].
  - apply joins_none. eapply list.Forall_impl; [exact Hq|]. by intros e [].
Qed.

(** What follows the request for a join is quiet. *)
Lemma joined_events {W} request time (save : IssuedCredential.t -> Z -> M W VaultError.t unit) reply
    (s s' : (list NetEvent * P) * W) r :
  match reply with
  | Reply.Joined binding expires_at secret =>
    _ ← reject_if (negb (str_eqb binding.(CredentialBinding.brain_id) request.(JoinRequest.brain_id))
                   || negb (str_eqb binding.(CredentialBinding.device_id) request.(JoinRequest.device_id)))
          ClientError.Invalid;
    node ← lift (map_err ClientError.Node (node_new binding));
    now ← lift (map_err ClientError.Peer time);
    let credential := IssuedCredential.mk binding expires_at secret in
    _ ← zoom snd (fun w s => (s.1, w)) ClientError.Vault (save credential now);
    zoom fst (fun p s => (p, s.2)) (fun e => e)
      (built (Client.mk binding node true) (authenticate (logged_exchange exchange) credential))
  | _ => throw ClientError.Invalid
  end s = (r, s') -> extends (quiet R) s.1.1 s'.1.1.
Proof.
  intros Hrun. assert (forall l, extends (quiet R) l l) as Hrefl by (intros l; exists []; by rewrite app_nil_r).
  destruct reply; try (apply throw_inv in Hrun as [_ ->]; apply Hrefl).
  apply bind_cases in Hrun as [(e & Hrun & _)|(u & s1 & Hrun & Hrest)]; apply reject_inv in Hrun as [_ ->]; [done|].
  apply bind_cases in Hrest as [(e & Hrun & _)|(n & s1 & Hrun & Hrest)]; apply lift_inv in Hrun as [_ ->]; [done|].
  apply bind_cases in Hrest as [(e & Hrun & _)|(now & s1 & Hrun & Hrest)]; apply lift_inv in Hrun as [_ ->]; [done|].
  cbv zeta in Hrest. apply bind_cases in Hrest as [(e & Hrun & _)|(v & s1 & Hrun & Hrest)];
    apply zoom_inv in Hrun as (r0 & w & _ & _ & ->); [done|].
  apply zoom_inv in Hrest as (r1 & p & Hb & _ & ->). simpl. eapply emits_built in Hb as [Hb _]; [exact Hb|].
  apply emits_authenticate, quiet_sent.
Qed.

Lemma client_join_events {W} request time (save : IssuedCredential.t -> Z -> M W VaultError.t unit) m s r s' :
  dials_well m -> client_join (logged_exchange exchange) request time save m s = (r, s') ->
  exists evs, s'.1.1 = s.1.1 ++ evs /\ Forall (vouched R) evs /\ joins evs <= 1.
Proof.
  intros Hm Hrun. unfold client_join in Hrun.
  apply bind_cases in Hrun as [(e & Hrun & _)|(u & s1 & Hrun & Hrest)];
    apply zoom_inv in Hrun as (r0 & w & (e1 & He1 & Hv1 & Hj1)%Hm%quiet_events & _ & ->); simpl in *.
  { exists e1. split_and!; [done..|lia]. }
  apply bind_cases in Hrest as [(e & Hrun & _)|(secret & s2 & Hrun & Hrest)]; apply lift_inv in Hrun as [_ ->].
  { exists e1. split_and!; [done..|lia]. }
  assert (forall op l', is_join (Sent op) = true -> extends (quiet R) (w.1 ++ [Sent op]) l' ->
    exists evs, l' = s.1.1 ++ evs /\ Forall (vouched R) evs /\ joins evs <= 1) as Hdone.
  { intros op l' Hop (e2 & -> & Hv2 & Hj2)%quiet_events. exists (e1 ++ [Sent op] ++ e2).
    rewrite He1, !app_assoc, !joins_app, Hj1, Hj2. split_and!; [done|by rewrite !Forall_app; repeat constructor|].
    unfold joins. simpl. destruct op; done. }
  apply bind_cases in Hrest as [(e & Hrun & _)|(reply & s3 & Hrun & Hrest)];
    apply zoom_inv in Hrun as (r1 & w1 & Hsent & _ & ->); unfold logged_exchange in Hsent; simpl in *;
    destruct (exchange _ _) as [x p1]; injection Hsent as <- <-.
  - eapply Hdone; [|exists []; by rewrite app_nil_r]. done.
  - apply joined_events in Hrest. eapply Hdone; [|exact Hrest]. done.
Qed.
Lemma peer_dials_well reg (s s' : Session) p :
  R reg -> session_peer reg s = (Ok p, s') -> dials_well (dial_peer (logged_dial dial) p).
Proof. intros HR [Hp Hf]%session_peer_ok s1 r s1' Hrun. by eapply dial_extends. Qed.

Lemma session_connect_step env identity (s s' : Session) r :
  session_ok R s -> session_connect (logged_exchange exchange) (logged_dial dial) env identity s = (r, s') -> step R s s'.
Proof.
  intros Hok Hrun. unfold session_connect in Hrun.
  apply looks_bind in Hrun as [->|(u & _ & Hrun)]; [done| |apply looks_guard].
  apply looks_bind in Hrun as [->|(reg & Hreg & Hrun)]; [done| |apply looks_reading].
  apply looks_bind in Hrun as [->|(b & Hb & Hrun)]; [done| |apply looks_reading].
  apply looks_bind in Hrun as [->|(p & Hp & Hrun)]; [done| |apply looks_peer].
  apply reading_ok, load_registration_ok in Hreg. apply reading_ok in Hb.
  pose proof (peer_dials_well reg _ _ _ (so_registered _ _ Hok _ Hreg) Hp) as Hdial.
  rewrite (bind_ok _ _ _ s s) in Hrun by done.
  assert (forall k : SessionM unit, (forall x s1, k s = (x, s1) -> step R s s1) ->
    (k ≫= (fun _ => describe env identity)) s = (r, s') -> step R s s') as Hlast.
  { intros k Hk [(e & Hrun' & _)|(v & s1 & Hrun' & ->%looks_describe)]%bind_cases; by eapply Hk. }
  revert Hrun. apply Hlast. intros x s1. destruct (NodeSession.client s) as [c|] eqn:Hc.
  - intros [->|(v & _ & Hrun)]%looks_bind; [done| |apply looks_reject].
    eapply on_session_client_step; [exact Hc| |exact Hrun]. apply emits_reconnect; [apply quiet_sent|exact Hdial].
  - intros [(e & Hrun & _)|(c & s2 & Hrun & Hset)]%bind_cases;
      apply zoom_inv in Hrun as (r0 & w & [He Hbind]%client_connect_events & Hr & ->); try done.
    + apply step_client; [done|done|]. simpl. rewrite Hc. done.
    + apply modify_inv in Hset as [_ ->]. apply step_client; [done|done|]. intros c' [= <-]. left.
      destruct r0; [|done]. injection Hr as ->. rewrite (Hbind _ eq_refl). by exists reg, (SessionEnv.second env).
Qed.

(** A registration is begun. *)
Lemma begin_step reg io (s s' : Session) r :
  R reg -> on_store (begin_registration reg io) s = (r, s') -> step R s s'.
Proof.
  intros HR (r0 & d & Hb & _ & ->)%zoom_inv. apply (step_store _ _ _ []); simpl; [by eapply begin_grows| |done|by rewrite app_nil_r|constructor|].
  - intros reg' Hreg'. destruct (NodeSession.directory s) eqn:Hd.
    { right. by rewrite (begin_registered _ _ _ _ _ _ Hb Hreg'). }
    all: apply begin_kept in Hb as ->; [by left|done].
  - by eapply missing_grows, begin_grows.
Qed.

(** The binding is stored, and its client becomes that of the session. *)
Lemma complete_step reg c io env identity (s s' : Session) r :
  (_ ← on_store (complete_registration reg c.(Client.binding) io);
   _ ← modify (NodeSession.set_client (Some c));
   describe env identity) s = (r, s') -> step R s s'.
Proof.
  intros [(e & Hrun & _)|(u & s1 & Hrun & Hrest)]%bind_cases; apply zoom_inv in Hrun as (r0 & d & Hc & Hr & ->).
  all: assert (step R s (NodeSession.set_directory d s)) as Hstep.
  1,3: apply (step_store _ _ _ []); simpl; [by eapply complete_grows| |done|by rewrite app_nil_r|constructor|
    by eapply missing_grows, complete_grows].
  1,2: intros reg' Hreg'; left; by eapply complete_registered.
  - done.
  - etrans; [exact Hstep|]. rewrite (bind_ok _ _ _ tt (NodeSession.set_client (Some c) (NodeSession.set_directory d s))) in Hrest by done.
    apply looks_describe in Hrest as ->. destruct r0; [|done]. apply complete_bound in Hc as [Hbound _]; [|done].
    apply step_client; [done|exists []; by rewrite app_nil_r|]. intros c' [= <-]. by left.
Qed.

Lemma session_join_step env identity reg invitation_id secret (s s' : Session) r :
  R reg ->
  session_join (logged_exchange exchange) (logged_dial dial) env identity reg invitation_id secret s = (r, s') ->
  step R s s'.
Proof.
  intros HR Hrun. unfold session_join in Hrun.
  apply looks_bind in Hrun as [->|(u & _ & Hrun)]; [done| |apply looks_guard].
  apply looks_bind in Hrun as [->|(v & _ & Hrun)]; [done| |apply looks_lift].
  apply looks_bind in Hrun as [->|(t & _ & Hrun)]; [done| |apply looks_lift].
  apply looks_bind in Hrun as [->|(p & Hp & Hrun)]; [done| |apply looks_peer].
  pose proof (peer_dials_well reg _ _ _ HR Hp) as Hdial.
  apply bind_cases in Hrun as [(e & Hrun & _)|(x & s1 & Hrun & Hrest)]; [by eapply begin_step|].
  apply zoom_inv in Hrun as (r0 & d & Hbegin & Hr & ->). destruct r0; [|done].
  pose proof (begin_grows _ _ _ _ _ Hbegin) as Hg.
  assert (forall reg', registered d reg' -> registered (NodeSession.directory s) reg' \/ R reg') as Hregs.
  { intros reg' Hreg'. pose proof Hbegin as (Hd & _)%begin_ok. rewrite Hd in Hbegin. right.
    by rewrite (begin_registered _ _ _ _ _ _ Hbegin Hreg'). }
  apply begin_ok in Hbegin as (Hnone & _ & bytes & _ & _ & ->).
  apply bind_cases in Hrest as [(e & Hrun & _)|(c & s1 & Hrun & Hrest)];
    apply zoom_inv in Hrun as (r1 & w & (evs & Hl & Hv & Hj)%client_join_events & _ & ->); try done.
  all: assert (step R s (NodeSession.set_net w (NodeSession.set_directory (Directory.Folder (File bytes) Absent) s))) as Hstep
    by (eapply step_store; [done|done|done|exact Hl|done|simpl; rewrite Hnone; simpl; lia]).
  - done.
  - etrans; [exact Hstep|by eapply complete_step].
Qed.

Lemma connect_owner_step env identity profile fp (s s' : Session) r :
  (forall bytes reg, descriptor_encode profile.(HostProfile.descriptor) = Ok bytes ->
     confirmed identity bytes fp = Ok reg -> R reg) ->
  connect_owner (logged_exchange exchange) (logged_dial dial) env identity profile fp s = (r, s') -> step R s s'.
Proof.
  intros HR Hrun. unfold connect_owner in Hrun.
  apply looks_bind in Hrun as [->|(u & _ & Hrun)]; [done| |apply looks_guard].
  rewrite (bind_ok _ _ _ s s) in Hrun by done.
  apply looks_bind in Hrun as [->|(v & _ & Hrun)]; [done| |].
  2: { intros s1 x s1' Hm. by run_cases Hm. }
  apply looks_bind in Hrun as [->|(bytes & Henc & Hrun)]; [done| |apply looks_lift].
  apply looks_bind in Hrun as [->|(reg & Hreg & Hrun)]; [done| |apply looks_lift].
  apply looks_bind in Hrun as [->|(w & _ & Hrun)]; [done| |apply looks_reject].
  apply looks_bind in Hrun as [->|(p & Hp & Hrun)]; [done| |apply looks_peer].
  assert (R reg) as HRreg.
  { injection Henc as Henc. injection Hreg as Hreg. destruct (descriptor_encode _) eqn:He; [|done].
    injection Henc as ->. destruct (confirmed _ _ _) eqn:Hc; [|done]. injection Hreg as ->. by eapply HR. }
  pose proof (peer_dials_well reg _ _ _ HRreg Hp) as Hdial.
  apply bind_cases in Hrun as [(e & Hrun & _)|(c & s1 & Hrun & Hrest)];
    apply zoom_inv in Hrun as (r0 & w1 & [He _]%client_connect_events & _ & ->); try done.
  all: assert (step R s (NodeSession.set_world w1 s)) as Hstep
    by (apply step_client; [done|done|]; intros c' Hc'; right; by exists c').
  - done.
  - etrans; [exact Hstep|]. clear Hstep.
    apply looks_bind in Hrest as [->|(x & _ & Hrest)]; [done| |apply looks_reject].
    apply bind_cases in Hrest as [(e & Hrun & _)|(y & s1 & Hrun & Hrest)]; [by eapply begin_step|].
    etrans; [by eapply begin_step|by eapply complete_step].
Qed.

(** ** Calls *)

(** The registrations that a call asks to trust *)
Definition given (c : SessionCall) (reg : NodeRegistration.t) : Prop :=
  match c with
  | JoinBrain _ identity descriptor fp _ => confirmed identity descriptor fp = Ok reg
  | ConnectOwner _ identity profile fp =>
    exists bytes, descriptor_encode profile.(HostProfile.descriptor) = Ok bytes /\ confirmed identity bytes fp = Ok reg
  | _ => False
  end.

Lemma session_call_step c (s : Session) :
  (forall reg, given c reg -> R reg) -> session_ok R s ->
  step R s (session_call (logged_exchange exchange) (logged_dial dial) c s).
Proof.
  intros HR Hok. destruct c; cbn [session_call];
    try match goal with |- step _ _ (?m s).2 => destruct (m s) as [r s'] eqn:Hrun; cbn [snd] end.
  - apply looks_bind in Hrun as [->|(u & _ & ->%looks_describe)]; [done|done|apply looks_guard].
  - unfold join_brain in Hrun. apply looks_bind in Hrun as [->|(reg & Hreg & Hrun)]; [done| |apply looks_lift].
    apply looks_bind in Hrun as [->|(now & _ & Hrun)]; [done| |apply looks_lift].
    apply looks_bind in Hrun as [->|(u & _ & Hrun)]; [done| |apply looks_reject].
    eapply session_join_step; [|exact Hrun]. apply HR. injection Hreg as Hreg. simpl.
    by destruct (confirmed _ _ _); [injection Hreg as ->|].
  - by eapply session_connect_step.
  - eapply connect_owner_step; [|exact Hrun]. intros bytes reg Henc Hreg. apply HR. by exists bytes.
  - apply bind_cases in Hrun as [(e & Hrun & _)|(u & s1 & Hrun & Hrest)].
    + eapply with_client_step; [|exact Hrun]. apply emits_pulse, quiet_sent.
    + assert (s' = s1) as ->.
      { apply looks_bind in Hrest as [->|(v & _ & ->%looks_describe)]; [done|done|apply looks_guard]. }
      eapply with_client_step; [|exact Hrun]. apply emits_pulse, quiet_sent.
  - apply looks_bind in Hrun as [->|(u & _ & Hm)]; [done| |apply looks_guard].
    apply modify_inv in Hm as [_ ->]. apply step_client; [done|exists []; by rewrite app_nil_r|].
    simpl. intros c' Hc'. right. destruct (NodeSession.client s) as [c|]; [|done]. injection Hc' as <-. by exists c.
  - eapply with_client_step; [|exact Hrun]. apply emits_members.
  - eapply with_client_step; [|exact Hrun]. apply emits_invite, quiet_sent.
  - apply looks_bind in Hrun as [->|(u & _ & Hrun)]; [done| |apply looks_lift].
    eapply with_client_step; [|exact Hrun]. apply emits_cancel, quiet_sent.
  - eapply with_client_step; [|exact Hrun]. apply emits_revoke, quiet_sent.
  - apply modify_inv in Hrun as [_ ->]. apply step_client; [done|exists []; by rewrite app_nil_r|done].
  - apply step_client; [done|exists []; by rewrite app_nil_r|done].
Qed.

Lemma session_history_step calls (s : Session) :
  (forall c reg, c ∈ calls -> given c reg -> R reg) -> session_ok R s ->
  step R s (session_history (logged_exchange exchange) (logged_dial dial) calls s).
Proof.
  revert s. induction calls as [|c calls IH]; intros s HR Hok; [done|]. simpl.
  pose proof (session_call_step c s (fun reg => HR c reg ltac:(left)) Hok) as Hstep.
  etrans; [exact Hstep|]. apply IH; [|by apply Hstep]. intros c' reg Hc'. apply (HR c'). by right.
Qed.
End Operations.

Section Theorems.
Context `{Sha256, ProtocolJson, RecordsJson, TlsInputs, DescriptorJson, BindingJson, RegistrationJson, VaultJson, DirectoryJson}.
Context {B P : Type} `{SecretBackend B}.
Context (Hdescriptor : DescriptorJsonLaws) (Hregistration : RegistrationJsonLaws) (Hbinding : BindingFileLaws).
Context (exchange : Operation.t -> M P (ClientError.t VaultError.t) Reply.t) (dial : Peer.t -> M P TlsError.t unit).

(** Whom a device may trust: the registration it started with, and those it was asked to *)
Definition trusted_by (d : Directory.t) (calls : list SessionCall) (reg : NodeRegistration.t) : Prop :=
  registered d reg \/ exists c, c ∈ calls /\ given c reg.

Lemma history_step calls d b p :
  let s := NodeSession.new d b ([], p) in
  let s' := session_history (logged_exchange exchange) (logged_dial dial) calls s in
  session_ok (trusted_by d calls) s' /\ grows d s'.(NodeSession.directory) /\
  Forall (vouched (trusted_by d calls)) (log s') /\
  joins (log s') + missing s'.(NodeSession.directory) <= missing d.
Proof.
  intros s s'.
  assert (session_ok (trusted_by d calls) s) as Hok by (split; [by left|done]).
  destruct (session_history_step Hdescriptor Hregistration Hbinding exchange dial (trusted_by d calls) calls s)
    as (Hok' & Hg & evs & Hl & Hv & Hj); [|done|done|].
  { intros c reg Hc Hreg. right. by exists c. }
  fold s' in Hok', Hg, Hl, Hj. simpl in Hl. rewrite Hl. split_and!; done.
Qed.

(** C12: a device asks to join at most once. Over every history of calls and restarts, with any
    failing lock, clock, file operation, vault or network, at most one request to join is sent,
    and none once there is a registration directory, complete or not: an attempt whose outcome
    is not known is never repeated. *)
Theorem node_enrolls_once calls d b p :
  joins (log (session_history (logged_exchange exchange) (logged_dial dial) calls (NodeSession.new d b ([], p))))
    <= missing d.
Proof. destruct (history_step calls d b p) as (_ & _ & _ & Hj). lia. Qed.

(** C13: a device dials confirmed endpoints only. Every peer that is dialed over such a history is on a
    private network, and its pinned certificate is the one whose fingerprint was confirmed, in a
    call of the history or in the registration that was there at first. *)
Theorem dials_only_confirmed calls d b p peer :
  Dialed peer ∈ log (session_history (logged_exchange exchange) (logged_dial dial) calls (NodeSession.new d b ([], p))) ->
  private_address peer.(Peer.address).(SocketAddr.ip) = true /\
  exists reg, trusted_by d calls reg /\
    peer.(Peer.address) = reg.(NodeRegistration.descriptor).(TrustDescriptor.address) /\
    hex_of_bytes peer.(Peer.pin) = reg.(NodeRegistration.confirmed_fingerprint).
Proof.
  intros Hin. destruct (history_step calls d b p) as (_ & _ & Hv & _). rewrite list.Forall_forall in Hv.
  destruct (Hv _ Hin) as (reg & Hreg & [Ha Hp _ Hpin] & Hf). split; [done|]. exists reg.
  split_and!; [done|done|congruence].
Qed.

(** C22: the client is the one that was registered. After such a history a client has the binding that
    is stored in the directory, under a registration for its Brain and this device; and a
    binding that was stored at first is still there. *)
Theorem client_is_registered calls d b p :
  let s := session_history (logged_exchange exchange) (logged_dial dial) calls (NodeSession.new d b ([], p)) in
  (forall c, s.(NodeSession.client) = Some c ->
     exists reg, stored_binding reg RegIo.fine s.(NodeSession.directory) = Ok c.(Client.binding) /\
       trusted_by d calls reg /\
       c.(Client.binding).(CredentialBinding.brain_id) = reg.(NodeRegistration.descriptor).(TrustDescriptor.brain_id) /\
       c.(Client.binding).(CredentialBinding.device_id) = reg.(NodeRegistration.device_id)) /\
  (forall binding, bound d binding -> bound s.(NodeSession.directory) binding).
Proof.
  intros s. destruct (history_step calls d b p) as (Hok & Hg & _ & _). split; [|intros binding; by apply bound_grows].
  intros c (reg & io & Hread)%(so_bound _ _ Hok). exists reg. pose proof Hread as (Hreg & Hv & _)%stored_binding_ok.
  unfold validate_binding in Hv. destruct (node_new _) as [n|]; [|done]. simpl in Hv.
  apply refuse_ok, orb_false_inv in Hv as [Hb%negb_false_iff%str_eqb_true Hd%negb_false_iff%str_eqb_true].
  split_and!; [by eapply stored_binding_fine|by apply Hok|done|done].
Qed.
End Theorems.
