(* ===== verification/Hosting.v ===== *)
(** * Hosting a Brain (collaboration/hosting.rs, host_profile.rs, server_identity.rs)

    The service that sets up a Brain on this device and serves it: a directory with the Brain's
    file and a profile that is written last, the TLS identity and the owner's credential in
    the vault, and at most one server. What rustls and rcgen make of keys and certificates, and
    whether a listener starts, is given. *)

From S2P Require Import Prelude Protocol Credential Invitation Brain BrainValid BrainInv BrainOps BrainThm Snapshot Storage Reconcile Node Wire Vault Trust Identity Registration.

Definition LIFETIME : Z := 30 * 86400.

Module HostingError.
Inductive t := Invalid | NotConfigured | Incomplete | Existing | Busy | Storage | Credential | Unavailable.
End HostingError.

(** ** The TLS identity *)

Module ServerDocument.
Record t := mk {
  version : N;
  brain_id : string;
  server_name : string;
  issued_at : Z;
  expires_at : Z;
  certificate : string;
  key : string;
}.
End ServerDocument.

Module ServerIdentity.
Record t := mk { descriptor : TrustDescriptor.t; expires_at : Z }.
End ServerIdentity.

(** base64, serde_json on the document, whether a certificate is valid for a name at a time, and
    whether a server can be configured with a certificate and a key *)
Class ServerCrypto := {
  base64_encode : string -> string;
  base64_decode : string -> option string;
  server_document_to_vec : ServerDocument.t -> option string;
  server_document_from_slice : string -> option ServerDocument.t;
  certificate_valid : string -> string -> Z -> bool;
  server_config_ok : string -> string -> bool;
}.

Section ServerIdentity.
Context `{Sha256, TlsInputs, ServerCrypto} {B : Type} `{SecretBackend B}.

Definition server_target (brain_id : string) : result VaultError.t string :=
  _ ← refuse (negb (id brain_id)) VaultError.Invalid;
  mret (SERVER_KEY_PREFIX +:+ hex_of_bytes (sha256_digest brain_id)).

(** [ServerTls::new] on one certificate *)
Definition server_tls (certificate key : string) : bool :=
  negb ((16384 <? len certificate)%N || (16384 <? len key)%N) && server_config_ok certificate key.

Definition restore (document : ServerDocument.t) (brain_id : string) (address : SocketAddr.t) (now : Z)
    : result VaultError.t ServerIdentity.t :=
  let key := document.(ServerDocument.key) in
  _ ← refuse (negb (document.(ServerDocument.version) =? 1)%N
              || negb (str_eqb document.(ServerDocument.brain_id) brain_id)
              || negb (timestamp now) || negb (timestamp document.(ServerDocument.issued_at))
              || negb (timestamp document.(ServerDocument.expires_at))
              || negb (bool_decide (i64_checked_add document.(ServerDocument.issued_at) LIFETIME
                                    = Some document.(ServerDocument.expires_at)))
              || (now <? document.(ServerDocument.issued_at))%Z
              || (document.(ServerDocument.expires_at) <=? now)%Z
              || is_empty key || (256 <? len key)%N) VaultError.Invalid;
  certificate ← ok_or (base64_decode document.(ServerDocument.certificate)) VaultError.Invalid;
  descriptor ← map_err (fun _ => VaultError.Invalid)
                 (descriptor_new brain_id address document.(ServerDocument.server_name) certificate);
  _ ← refuse (negb (root_certificate_ok certificate)) VaultError.Invalid;
  _ ← refuse (negb (server_name_ok document.(ServerDocument.server_name))) VaultError.Invalid;
  _ ← refuse (negb (certificate_valid certificate document.(ServerDocument.server_name) now)) VaultError.Invalid;
  _ ← refuse (negb (server_tls certificate key)) VaultError.Invalid;
  mret (ServerIdentity.mk descriptor document.(ServerDocument.expires_at)).

(** [ServerIdentityStore::create]; the key and its certificate are what rcgen has made. *)
Definition create_server_identity (brain_id : string) (address : SocketAddr.t) (server_name : string) (now : Z)
    (key certificate : option string) : M B VaultError.t ServerIdentity.t :=
  slot ← lift (server_target brain_id);
  _ ← reject_if (negb (timestamp now) || (253 <? len server_name)%N) VaultError.Invalid;
  b ← get;
  present ← lift (backend_read slot b);
  _ ← reject_if (is_some present) VaultError.Existing;
  expires_at ← lift (ok_or (opt_filter timestamp (i64_checked_add now LIFETIME)) VaultError.Invalid);
  key ← lift (ok_or key VaultError.Unavailable);
  certificate ← lift (ok_or certificate VaultError.Invalid);
  let document := ServerDocument.mk 1 brain_id server_name now expires_at (base64_encode certificate) key in
  identity ← lift (restore document brain_id address now);
  bytes ← lift (ok_or (server_document_to_vec document) VaultError.Invalid);
  _ ← reject_if (MAX_VAULT_BYTES <? len bytes)%N VaultError.Invalid;
  _ ← backend_write_new slot bytes;
  mret identity.

(** [ServerIdentityStore::load] *)
Definition load_server_identity (brain_id : string) (address : SocketAddr.t) (now : Z) (b : B)
    : result VaultError.t ServerIdentity.t :=
  slot ← server_target brain_id;
  found ← backend_read slot b;
  bytes ← ok_or found VaultError.Missing;
  _ ← refuse (MAX_VAULT_BYTES <? len bytes)%N VaultError.Invalid;
  document ← ok_or (server_document_from_slice bytes) VaultError.Invalid;
  restore document brain_id address now.
End ServerIdentity.

(** ** The profile *)

(** serde_json on a profile *)
Class ProfileJson := {
  profile_to_vec : HostProfile.t -> option string;
  profile_from_slice : string -> option HostProfile.t;
}.
Class ProfileJsonLaws `{ProfileJson} : Prop := profile_from_to p bytes :
  profile_to_vec p = Some bytes -> profile_from_slice bytes = Some p.

(** The directory of a host: the file of the Brain, and the profile *)
Module HostDirectory.
Inductive t := NoEntry | NotDirectory | Folder (brain : FileState) (profile : Entry).
Definition brain_file (d : t) : FileState := match d with Folder f _ => f | _ => Missing end.
Definition set_brain_file (f : FileState) (d : t) : t := match d with Folder _ e => Folder f e | d => d end.
Definition set_profile (e : Entry) (d : t) : t := match d with Folder f _ => Folder f e | d => d end.
End HostDirectory.

Section Profile.
Context `{Sha256, TlsInputs, DescriptorJson, ProfileJson}.

Definition profile_validate (p : HostProfile.t) : result HostingError.t unit :=
  _ ← refuse (negb (p.(HostProfile.version) =? 1)%N
              || negb (str_eqb p.(HostProfile.binding).(CredentialBinding.brain_id)
                         p.(HostProfile.descriptor).(TrustDescriptor.brain_id))
              || negb (timestamp p.(HostProfile.credential_expires_at))) HostingError.Invalid;
  _ ← map_err (fun _ => HostingError.Invalid) (node_new p.(HostProfile.binding));
  _ ← map_err (fun _ => HostingError.Invalid) (descriptor_encode p.(HostProfile.descriptor));
  mret tt.

(** [HostProfile::load] *)
Definition load_profile (io : RegIo.t) (d : HostDirectory.t) : result HostingError.t HostProfile.t :=
  _ ← refuse (negb io.(RegIo.stat)) HostingError.Storage;
  match d with
  | HostDirectory.NoEntry => Err HostingError.NotConfigured
  | HostDirectory.NotDirectory => Err HostingError.Invalid
  | HostDirectory.Folder _ e =>
    _ ← refuse (negb io.(RegIo.entry)) HostingError.Incomplete;
    match e with
    | Absent => Err HostingError.Incomplete
    | Special => Err HostingError.Invalid
    | File bytes =>
      _ ← refuse (MAX_PROFILE_BYTES <? len bytes)%N HostingError.Invalid;
      _ ← refuse (negb io.(RegIo.read)) HostingError.Storage;
      profile ← ok_or (profile_from_slice bytes) HostingError.Invalid;
      _ ← profile_validate profile;
      mret profile
    end
  end.

(** [HostProfile::write_new] *)
Definition write_profile (p : HostProfile.t) (io : RegIo.t) : M HostDirectory.t HostingError.t unit :=
  _ ← lift (profile_validate p);
  bytes ← lift (ok_or (profile_to_vec p) HostingError.Invalid);
  _ ← reject_if (MAX_PROFILE_BYTES <? len bytes)%N HostingError.Invalid;
  _ ← reject_if (negb io.(RegIo.create)) HostingError.Storage;
  d ← get;
  match d with
  | HostDirectory.Folder f Absent =>
    match io.(RegIo.left_behind) with
    | None => modify (HostDirectory.set_profile (File bytes))
    | Some n => _ ← modify (HostDirectory.set_profile (File (String.substring 0 n bytes))); throw HostingError.Storage
    end
  | _ => throw HostingError.Storage
  end.
End Profile.

(** ** The service *)

Module HostingStatus.
Inductive t := NotConfigured | Stopped (profile : HostProfile.t) | Running (profile : HostProfile.t) | Faulted.
End HostingStatus.

(** A server: the store its host owns, and whether its listener is alive *)
Module Running.
Record t := mk { store : BrainStore.t; profile : HostProfile.t; alive : bool }.
End Running.

Module BrainService.
Record t (B : Type) := mk {
  directory : HostDirectory.t; vault : B; running : option Running.t; closed : bool }.
Arguments mk {B} _ _ _ _.
Arguments directory {B} _.
Arguments vault {B} _.
Arguments running {B} _.
Arguments closed {B} _.
Section Setters.
Context {B : Type}.
Definition set_directory (v : HostDirectory.t) (s : t B) : t B := mk v s.(vault) s.(running) s.(closed).
Definition set_vault (v : B) (s : t B) : t B := mk s.(directory) v s.(running) s.(closed).
Definition set_running (v : option Running.t) (s : t B) : t B := mk s.(directory) s.(vault) v s.(closed).
Definition shut (s : t B) : t B := mk s.(directory) s.(vault) None true.
(** [BrainService::new] *)
Definition new (d : HostDirectory.t) (b : B) : t B := mk d b None false.
End Setters.
End BrainService.

(** [try_lock] on the state *)
Inductive HostLock := HostFree | HostHeld | HostPoisoned.

(** What a call meets: the mutex, the clock, the metadata of the directory, the draws, the lock file, each
    write of the Brain's file, the profile, what rcgen made, and whether the listener starts *)
Module HostEnv.
Record t := mk {
  lock : HostLock;
  time : result WireError.t Z;
  stat : bool;
  brain_draw : draw;
  owner_draws : draw * draw * draw;
  lock_file : result StorageError.t unit;
  made : bool;
  nonce : draw;
  outcome : WriteOutcome;
  nonce' : draw;
  outcome' : WriteOutcome;
  profile_io : RegIo.t;
  key : option string;
  certificate : option string;
  listens : bool;
}.
End HostEnv.

Section Service.
Context `{Sha256, ProtocolJson, SnapshotJson, DocumentJson, TlsInputs, DescriptorJson, BindingJson, VaultJson, ServerCrypto, ProfileJson}.
Context {B : Type} `{SecretBackend B}.

#[local] Notation "'HostM'" := (M (BrainService.t B) HostingError.t) (only parsing).

(** [guard] *)
Definition host_guard (env : HostEnv.t) : HostM unit :=
  match env.(HostEnv.lock) with
  | HostHeld => throw HostingError.Busy
  | HostPoisoned => throw HostingError.Unavailable
  | HostFree => s ← get; reject_if s.(BrainService.closed) HostingError.Unavailable
  end.

(** [status] *)
Definition host_status (env : HostEnv.t) : HostM HostingStatus.t :=
  _ ← host_guard env;
  s ← get;
  match s.(BrainService.running) with
  | Some running => mret (if running.(Running.alive) then HostingStatus.Running running.(Running.profile)
                          else HostingStatus.Faulted)
  | None =>
    match load_profile env.(HostEnv.profile_io) s.(BrainService.directory) with
    | Ok profile => mret (HostingStatus.Stopped profile)
    | Err HostingError.NotConfigured => mret HostingStatus.NotConfigured
    | Err error => throw error
    end
  end.

(** [BrainStore::create]: the directory is made before its lock file is taken. *)
Definition create_store (env : HostEnv.t) (brain_id : string) (owner : OwnerProfile.t) (now : Z)
    : M HostDirectory.t HostingError.t IssuedCredential.t :=
  fun d =>
    let '(dm, dn, ds) := env.(HostEnv.owner_draws) in
    let (r, f) := store_create brain_id owner now dm dn ds env.(HostEnv.lock_file) env.(HostEnv.nonce)
                    env.(HostEnv.outcome) Missing in
    (map_err (fun _ => HostingError.Storage) (snd <$> r),
     if is_ok (bootstrap brain_id owner now dm dn ds) && (env.(HostEnv.made) || is_ok env.(HostEnv.lock_file))
     then HostDirectory.Folder f Absent else d).

Definition initialize (env : HostEnv.t) (identity : RivloomIdentity.t) (address : SocketAddr.t)
    (server_name : string) : HostM HostProfile.t :=
  _ ← host_guard env;
  _ ← reject_if (negb (private_address address.(SocketAddr.ip)) || (address.(SocketAddr.port) =? 0)%N
                 || (253 <? len server_name)%N || negb (server_name_ok server_name)) HostingError.Invalid;
  s ← get;
  _ ← reject_if (negb env.(HostEnv.stat)) HostingError.Storage;
  _ ← reject_if (match s.(BrainService.directory) with HostDirectory.NoEntry => false | _ => true end)
        HostingError.Existing;
  time ← lift (map_err (fun _ => HostingError.Unavailable) env.(HostEnv.time));
  token ← lift (map_err (fun _ => HostingError.Unavailable) (token_generate env.(HostEnv.brain_draw)));
  let brain_id := "brain-" +:+ token.(expose_secret) in
  credential ← zoom BrainService.directory BrainService.set_directory (fun e => e)
    (create_store env brain_id
       (OwnerProfile.mk identity.(RivloomIdentity.identity_id) identity.(RivloomIdentity.device_id)
          identity.(RivloomIdentity.display_name)) time);
  tls ← zoom BrainService.vault BrainService.set_vault (fun _ => HostingError.Credential)
    (create_server_identity brain_id address server_name time env.(HostEnv.key) env.(HostEnv.certificate));
  _ ← zoom BrainService.vault BrainService.set_vault (fun _ => HostingError.Credential)
        (save_new credential time);
  let profile := HostProfile.mk 1 credential.(IssuedCredential.binding) tls.(ServerIdentity.descriptor)
                   credential.(IssuedCredential.expires_at) in
  _ ← zoom BrainService.directory BrainService.set_directory (fun e => e)
        (write_profile profile env.(HostEnv.profile_io));
  mret profile.

(** [BrainStore::open] and the transaction with the store, on the file of the directory *)
Definition open_store (env : HostEnv.t) (brain_id : string) (now : Z) : HostM BrainStore.t :=
  fun s =>
    let (r, f) := store_open brain_id now env.(HostEnv.lock_file) env.(HostEnv.nonce) env.(HostEnv.outcome)
                    (HostDirectory.brain_file s.(BrainService.directory)) in
    (map_err (fun _ => HostingError.Storage) r,
     BrainService.set_directory (HostDirectory.set_brain_file f s.(BrainService.directory)) s).
Definition with_store {A} (env : HostEnv.t) (store0 : BrainStore.t) (now : Z) (operation : BrainM A)
    : HostM (A * BrainStore.t) :=
  fun s =>
    let (r, d) := transact now operation env.(HostEnv.nonce') env.(HostEnv.outcome')
                    (mkDisk store0 (HostDirectory.brain_file s.(BrainService.directory))) in
    (map_err (fun _ => HostingError.Credential) ((fun a => (a, d.(store))) <$> r),
     BrainService.set_directory (HostDirectory.set_brain_file d.(file) s.(BrainService.directory)) s).

Definition start_host (env : HostEnv.t) (identity : RivloomIdentity.t) : HostM HostingStatus.t :=
  _ ← host_guard env;
  s ← get;
  _ ← reject_if (is_some s.(BrainService.running)) HostingError.Busy;
  profile ← lift (load_profile env.(HostEnv.profile_io) s.(BrainService.directory));
  let binding := profile.(HostProfile.binding) in
  _ ← reject_if (negb (str_eqb binding.(CredentialBinding.device_id) identity.(RivloomIdentity.device_id)))
        HostingError.Invalid;
  time ← lift (map_err (fun _ => HostingError.Unavailable) env.(HostEnv.time));
  opened ← open_store env binding.(CredentialBinding.brain_id) time;
  _ ← reject_if opened.(BrainStore.poisoned) HostingError.Storage;
  let brain := opened.(BrainStore.brain) in
  _ ← reject_if (negb (str_eqb binding.(CredentialBinding.member_id) brain.(Brain.owner_member_id))
                 || negb (is_some_and (fun member => str_eqb member.(MemberRecord.identity_id)
                                                       identity.(RivloomIdentity.identity_id))
                            (brain.(Brain.members) !! binding.(CredentialBinding.member_id))))
        HostingError.Invalid;
  credential ← lift (map_err (fun _ => HostingError.Credential)
                       (vault_load binding time s.(BrainService.vault)));
  _ ← reject_if (negb (credential.(IssuedCredential.expires_at) =? profile.(HostProfile.credential_expires_at))%Z)
        HostingError.Invalid;
  connected ← with_store env opened time
                (brain_connect credential.(IssuedCredential.binding) credential.(IssuedCredential.secret) time);
  tls ← lift (map_err (fun _ => HostingError.Credential)
                (load_server_identity binding.(CredentialBinding.brain_id)
                   profile.(HostProfile.descriptor).(TrustDescriptor.address) time s.(BrainService.vault)));
  _ ← reject_if (negb (bool_decide (tls.(ServerIdentity.descriptor) = profile.(HostProfile.descriptor))))
        HostingError.Invalid;
  _ ← reject_if (negb (private_address profile.(HostProfile.descriptor).(TrustDescriptor.address).(SocketAddr.ip)
                       && env.(HostEnv.listens))) HostingError.Unavailable;
  _ ← modify (BrainService.set_running (Some (Running.mk (connected : ConnectionIdentity.t * BrainStore.t).2 profile true)));
  mret (HostingStatus.Running profile).

Definition stop_host (env : HostEnv.t) : HostM unit :=
  _ ← host_guard env;
  modify (BrainService.set_running None).
Definition shutdown_host : HostM unit := modify BrainService.shut.
End Service.

(** ** A hosted Brain can be started for a day *)

Section Lifetime.
Context `{Sha256, ProtocolJson, SnapshotJson, DocumentJson, TlsInputs, DescriptorJson, BindingJson, VaultJson, ServerCrypto, ProfileJson}.
Context {B : Type} `{SecretBackend B}.

(** What becomes of a service: its operations, restarts of the program, what its server does to the
    Brain and its file, the end of the listener, and what other parts do to the vault *)
Inductive host_step : BrainService.t B -> BrainService.t B -> Prop :=
| hs_status env s r s' : host_status env s = (r, s') -> host_step s s'
| hs_initialize env identity address name s r s' :
    initialize env identity address name s = (r, s') -> host_step s s'
| hs_start env identity s r s' : start_host env identity s = (r, s') -> host_step s s'
| hs_stop env s r s' : stop_host env s = (r, s') -> host_step s s'
| hs_shutdown s r s' : shutdown_host s = (r, s') -> host_step s s'
| hs_restart s : host_step s (BrainService.new s.(BrainService.directory) s.(BrainService.vault))
| hs_served s running f st : s.(BrainService.running) = Some running ->
    host_step s (BrainService.set_directory (HostDirectory.set_brain_file f s.(BrainService.directory))
                   (BrainService.set_running
                      (Some (Running.mk st running.(Running.profile) running.(Running.alive))) s))
| hs_fault s running : s.(BrainService.running) = Some running ->
    host_step s (BrainService.set_running
                   (Some (Running.mk running.(Running.store) running.(Running.profile) false)) s)
| hs_vault s b : host_step s (BrainService.set_vault b s).

(** The profile is on disk. *)
Definition profile_written (bytes : string) (d : HostDirectory.t) : Prop :=
  exists f, d = HostDirectory.Folder f (File bytes).

Lemma set_brain_file_written bytes f d :
  profile_written bytes d -> profile_written bytes (HostDirectory.set_brain_file f d).
Proof. intros (f0 & ->). by exists f. Qed.

Lemma write_profile_ok p io d u d' :
  write_profile p io d = (Ok u, d') -> exists bytes, profile_to_vec p = Some bytes /\ profile_written bytes d'.
Proof.
  unfold write_profile. intros Hrun. run_cases Hrun; try done.
  match goal with Hp : ok_or _ _ = Ok _ |- _ => apply ok_or_ok in Hp end. eexists. split; [done|by eexists].
Qed.

Lemma load_profile_written io bytes d p :
  profile_written bytes d -> load_profile io d = Ok p -> profile_from_slice bytes = Some p.
Proof.
  intros (f & ->). unfold load_profile. rewrite !result_seq_ok. intros (_ & _ & _ & _ & Hread).
  apply result_bind_ok in Hread as (p' & Hp%ok_or_ok & Hread). by apply result_bind_ok in Hread as (u & _ & [= ->]).
Qed.

Lemma host_guard_state env (s s' : BrainService.t B) r : host_guard env s = (r, s') -> s' = s.
Proof. unfold host_guard. intros Hrun. by run_cases Hrun. Qed.

(** A directory that is there is not set up again. *)
Lemma initialize_refused env identity address name (s s' : BrainService.t B) r bytes :
  profile_written bytes s.(BrainService.directory) ->
  initialize env identity address name s = (r, s') -> s' = s /\ is_ok r = false.
Proof.
  intros (f & Hd) Hrun. unfold initialize in Hrun.
  apply bind_cases in Hrun as [(e & ->%host_guard_state & ->)|(u & s1 & ->%host_guard_state & Hrun)]; [done|].
  unfold reject_if, get, throw, mbind, M_bind, mret, M_ret in Hrun.
  destruct (_ || _); [by injection Hrun as <- <-|]. rewrite Hd in Hrun.
  destruct (negb _); by injection Hrun as <- <-.
Qed.

(** Actions that change the directory in the file of the Brain only *)
Definition touches (d d' : HostDirectory.t) : Prop := exists f, d' = HostDirectory.set_brain_file f d.
Definition keeps_profile {A} (m : M (BrainService.t B) HostingError.t A) : Prop :=
  forall s r s', m s = (r, s') -> touches s.(BrainService.directory) s'.(BrainService.directory).

Lemma touches_refl d : touches d d.
Proof. exists (HostDirectory.brain_file d). by destruct d. Qed.
Lemma hosting_bind {A C} (m : M (BrainService.t B) HostingError.t A) (k : A -> M (BrainService.t B) HostingError.t C) :
  keeps_profile m -> (forall a, keeps_profile (k a)) -> keeps_profile (m ≫= k).
Proof.
  intros Hm Hk s r s' [(e & Hrun & _)|(a & s1 & Hrun & Hrest)]%bind_cases; [by eapply Hm|].
  apply Hm in Hrun as (f & Hf). apply Hk in Hrest as (g & Hg). exists g. rewrite Hg, Hf. by destruct (BrainService.directory s).
Qed.
Lemma hosting_same {A} (m : M (BrainService.t B) HostingError.t A) :
  (forall s r s', m s = (r, s') -> s'.(BrainService.directory) = s.(BrainService.directory)) -> keeps_profile m.
Proof. intros Hm s r s' Hrun. rewrite (Hm _ _ _ Hrun). apply touches_refl. Qed.
Lemma hosting_reject c e : keeps_profile (reject_if c e).
Proof. apply hosting_same. by intros s r s' [_ ->]%reject_inv. Qed.
Lemma hosting_lift {A} (x : result HostingError.t A) : keeps_profile (lift x).
Proof. apply hosting_same. by intros s r s' [= <- <-]. Qed.
Lemma hosting_get : keeps_profile get.
Proof. apply hosting_same. by intros s r s' [= <- <-]. Qed.
Lemma hosting_mret {A} (a : A) : keeps_profile (mret a).
Proof. apply hosting_same. by intros s r s' [= <- <-]. Qed.
Lemma hosting_guard env : keeps_profile (host_guard env).
Proof. apply hosting_same. by intros s r s' ->%host_guard_state. Qed.
Lemma hosting_running v : keeps_profile (modify (BrainService.set_running v)).
Proof. apply hosting_same. by intros s r s' [= <- <-]. Qed.
Lemma hosting_open env brain_id now : keeps_profile (open_store env brain_id now).
Proof. intros s r s'. unfold open_store. destruct (store_open _ _ _ _ _ _) as [x f]. intros [= <- <-]. by exists f. Qed.
Lemma hosting_with_store {A} env st now (op : BrainM A) : keeps_profile (with_store env st now op).
Proof. intros s r s'. unfold with_store. destruct (transact _ _ _ _ _) as [x d]. intros [= <- <-]. by exists d.(file). Qed.

Create HintDb hosting.
Hint Resolve hosting_reject hosting_lift hosting_get hosting_mret hosting_guard hosting_running hosting_open hosting_with_store : hosting.
Hint Extern 2 (keeps_profile (_ ≫= _)) => apply hosting_bind; [|intros ?] : hosting.

Lemma start_keeps env identity : keeps_profile (start_host env identity).
Proof. unfold start_host. auto 40 with hosting. Qed.

Lemma vault_load_live binding now (b : B) c :
  vault_load binding now b = Ok c -> (now < c.(IssuedCredential.expires_at))%Z.
Proof.
  unfold vault_load. intros (slot & _ & Hrest)%result_bind_ok.
  apply result_bind_ok in Hrest as (found & _ & Hrest). apply result_bind_ok in Hrest as (bytes & _ & Hrest).
  rewrite result_seq_ok in Hrest. destruct Hrest as [_ Hrest].
  apply result_bind_ok in Hrest as (document & _ & Hrest). rewrite result_seq_ok, refuse_ok in Hrest.
  destruct Hrest as [Hc [= <-]]. bool_hyps. simpl. lia.
Qed.

(** What a start has checked *)
Lemma start_host_ok env identity (s s' : BrainService.t B) st :
  start_host env identity s = (Ok st, s') ->
  exists profile t, load_profile env.(HostEnv.profile_io) s.(BrainService.directory) = Ok profile /\
    env.(HostEnv.time) = Ok t /\ (t < profile.(HostProfile.credential_expires_at))%Z.
Proof.
  unfold start_host. intros (u & s1 & ->%host_guard_state & Hrun)%bind_ok_iff.
  rewrite (bind_ok _ _ _ s s) in Hrun by done. run_inv Hrun.
  match goal with Hp : load_profile _ _ = Ok ?p |- _ => exists p end.
  match goal with Ht : map_err _ (HostEnv.time env) = Ok ?t, Hv : map_err _ (vault_load _ ?t _) = Ok ?c |- _ =>
    exists t; destruct (HostEnv.time env); [|done]; injection Ht as ->;
    destruct (vault_load _ t _) eqn:Hlive; [|done]; injection Hv as ->; apply vault_load_live in Hlive end.
  split_and!; [done..|].
  match goal with He : negb (_ =? _)%Z = false |- _ => apply negb_false_iff, Z.eqb_eq in He; by rewrite <- He end.
Qed.

Lemma host_step_written bytes s s' :
  profile_written bytes s.(BrainService.directory) -> host_step s s' ->
  profile_written bytes s'.(BrainService.directory).
Proof.
  intros Hw Hstep. destruct Hstep as [env s r s' Hrun|env identity address name s r s' Hrun|env identity s r s' Hrun|
    env s r s' Hrun|s r s' Hrun|s|s running f st Hr|s running Hr|s b]; simpl; try done.
  - assert (s' = s) as ->; [|done]. unfold host_status in Hrun.
    apply bind_cases in Hrun as [(e & ->%host_guard_state & _)|(u & s1 & ->%host_guard_state & Hrun)]; [done|].
    by run_cases Hrun.
  - by apply (initialize_refused _ _ _ _ _ _ _ bytes) in Hrun as [-> _].
  - apply start_keeps in Hrun as (f & ->). by apply set_brain_file_written.
  - apply bind_cases in Hrun as [(e & ->%host_guard_state & _)|(u & s1 & ->%host_guard_state & Hrun)]; [done|].
    by apply modify_inv in Hrun as [_ ->].
  - by apply modify_inv in Hrun as [_ ->].
  - by apply set_brain_file_written.
Qed.

Lemma create_store_ok env brain_id owner now d c d' :
  create_store env brain_id owner now d = (Ok c, d') -> c.(IssuedCredential.expires_at) = (now + 86400)%Z.
Proof.
  unfold create_store. destruct (HostEnv.owner_draws env) as [[dm dn] ds].
  destruct (store_create _ _ _ _ _ _ _ _ _ _) as [[[st c']|e] f] eqn:Hcreate; simpl; [|done]. intros [= <- _].
  unfold store_create in Hcreate. apply bind_ok_iff in Hcreate as ([brain credential] & s1 & Hb & Hcreate).
  apply lift_inv in Hb as [Hb ->]. run_inv Hcreate. destruct (bootstrap _ _ _ _ _ _) as [bc|] eqn:Hboot; [|done].
  simpl in Hb. injection Hb as <-. apply bootstrap_ok in Hboot as (? & ? & ? & _ & _ & _ & _ & _ & Hissue & _).
  by apply issue_ok in Hissue as (? & _ & _ & _ & _ & _ & _ & _ & _ & _ & -> & _).
Qed.

(** What setting a Brain up leaves: the profile, with the expiry of the owner's credential *)
Lemma initialize_ok env identity address name (s s' : BrainService.t B) profile :
  initialize env identity address name s = (Ok profile, s') ->
  exists t bytes, env.(HostEnv.time) = Ok t /\ profile.(HostProfile.credential_expires_at) = (t + 86400)%Z /\
    profile_to_vec profile = Some bytes /\ profile_written bytes s'.(BrainService.directory).
Proof.
  unfold initialize. intros (u & s1 & ->%host_guard_state & Hrun)%bind_ok_iff. run_inv Hrun.
  match goal with Ht : map_err _ (HostEnv.time env) = Ok ?t |- _ =>
    exists t; destruct (HostEnv.time env); [|done]; injection Ht as -> end.
  match goal with Hw : write_profile _ _ _ = _ |- _ => apply write_profile_ok in Hw as (bytes & Hto & Hw) end.
  match goal with Hc : create_store _ _ _ _ _ = _ |- _ => apply create_store_ok in Hc end.
  exists bytes. by split_and!.
Qed.

(** C40: a hosted Brain can be started for a day after it was set up, and never again. Its
    profile is not replaced and records when the owner's credential ends, which nothing
    renews: whatever happens to the service, its server, the vault and the clock in between, a
    start from that moment on fails, and so does setting the Brain up anew. *)
Theorem hosting_ends_after_a_day (Hprofile : ProfileJsonLaws) env identity address name s profile s1 t s2 env' identity' t' :
  initialize env identity address name s = (Ok profile, s1) -> env.(HostEnv.time) = Ok t ->
  rtc host_step s1 s2 -> env'.(HostEnv.time) = Ok t' -> (t + 86400 <= t')%Z ->
  is_ok (start_host env' identity' s2).1 = false /\
  forall address' name', is_ok (initialize env' identity' address' name' s2).1 = false.
Proof.
  intros Hinit Htime Hsteps Htime' Hlate.
  apply initialize_ok in Hinit as (t0 & bytes & Ht0 & Hexp & Hto & Hw). assert (t0 = t) as -> by congruence.
  assert (profile_written bytes s2.(BrainService.directory)) as Hw2.
  { clear -Hw Hsteps. induction Hsteps as [|x y z Hxy _ IH]; [done|]. apply IH. by eapply host_step_written. }
  apply profile_from_to in Hto. split.
  - destruct (start_host env' identity' s2) as [[st|e] s3] eqn:Hrun; [|done].
    apply start_host_ok in Hrun as (p & t1 & Hload & Ht1 & Hlive).
    apply (load_profile_written _ bytes) in Hload; [|done]. assert (p = profile) as -> by congruence.
    assert (t1 = t') as -> by congruence. lia.
  - intros address' name'. destruct (initialize env' identity' address' name' s2) as [r s3] eqn:Hrun.
    by apply (initialize_refused _ _ _ _ _ _ _ bytes) in Hrun as [_ ?].
Qed.
End Lifetime.
