(* ===== verification/Transport.v ===== *)
(** * The stream of the Codex process (app_server/transport.rs)

    The events of the process go through a channel; [receive_line] decodes its output into
    lines and keeps the ones that are not asked for yet. How many events arrive before its
    deadline is an argument. *)

From S2P Require Import Prelude AppJson AppWire.

Module TransportEvent.
Inductive t := Stdout (bytes : string) | Error (message : string) | Terminated (code : option Z).
End TransportEvent.

Module TransportReadError.
Inductive t :=
| Timeout | InvalidMessage (e : AppWireError.t) | Transport (message : string) | Terminated (code : option Z) | Closed.
#[global] Instance eq_dec : EqDecision t.
Proof. solve_decision. Defined.
Definition is_timeout (e : t) : bool := match e with Timeout => true | _ => false end.
End TransportReadError.

(** [events] is what the sender has put and will put in the channel before it is dropped. *)
Module ProcessTransport.
Record t := mk { events : list TransportEvent.t; decoder : JsonLineDecoder.t; ready_lines : list string }.
Definition new (events : list TransportEvent.t) : t := mk events (JsonLineDecoder.new MAX_JSON_LINE_BYTES) [].
Definition set_events (v : list TransportEvent.t) (s : t) : t := mk v s.(decoder) s.(ready_lines).
Definition set_decoder (v : JsonLineDecoder.t) (s : t) : t := mk s.(events) v s.(ready_lines).
Definition set_ready_lines (v : list string) (s : t) : t := mk s.(events) s.(decoder) v.
End ProcessTransport.

Definition TransportM := M ProcessTransport.t TransportReadError.t.

(** [self.ready_lines.pop_front()] *)
Definition pop_line : TransportM (option string) :=
  s ← get;
  match s.(ProcessTransport.ready_lines) with
  | [] => mret None
  | line :: lines => _ ← modify (ProcessTransport.set_ready_lines lines); mret (Some line)
  end.

(** The loop; [arrived] more rounds go by before the deadline, in each of which the channel has an event or is
    disconnected. *)
Fixpoint receive_events (arrived : nat) : TransportM string :=
  match arrived with
  | O => throw TransportReadError.Timeout
  | S arrived =>
    s ← get;
    match s.(ProcessTransport.events) with
    | [] => throw TransportReadError.Closed
    | event :: events =>
      _ ← modify (ProcessTransport.set_events events);
      match event with
      | TransportEvent.Stdout bytes =>
        lines ← zoom ProcessTransport.decoder ProcessTransport.set_decoder TransportReadError.InvalidMessage (push bytes);
        _ ← modify (fun s => ProcessTransport.set_ready_lines (s.(ProcessTransport.ready_lines) ++ lines) s);
        line ← pop_line;
        match line with
        | Some line => mret line
        | None => receive_events arrived
        end
      | TransportEvent.Error message => throw (TransportReadError.Transport message)
      | TransportEvent.Terminated code => throw (TransportReadError.Terminated code)
      end
    end
  end.

Definition receive_line (arrived : nat) : TransportM string :=
  line ← pop_line;
  match line with
  | Some line => mret line
  | None => receive_events arrived
  end.

(** A reader's calls, one for each deadline, up to an error other than a timeout *)
Fixpoint receive_all (deadlines : list nat) (s : ProcessTransport.t) : list (result TransportReadError.t string) :=
  match deadlines with
  | [] => []
  | arrived :: deadlines =>
    match receive_line arrived s with
    | (Ok line, s) => Ok line :: receive_all deadlines s
    | (Err e, s) => if TransportReadError.is_timeout e then receive_all deadlines s else [Err e]
    end
  end.

(** ** No line is lost *)

(** How a stream ends: with an error, with the process, or with the channel *)
Definition ending (rest : list TransportEvent.t) : option TransportReadError.t :=
  match rest with
  | [] => Some TransportReadError.Closed
  | TransportEvent.Error message :: _ => Some (TransportReadError.Transport message)
  | TransportEvent.Terminated code :: _ => Some (TransportReadError.Terminated code)
  | TransportEvent.Stdout _ :: _ => None
  end.

(** What is still to come: the lines that are ready, and those of the chunks in the channel *)
Definition to_come (s : ProcessTransport.t) (chunks : list string) (rest : list TransportEvent.t) (lines : list string)
    : Prop :=
  s.(ProcessTransport.events) = (TransportEvent.Stdout <$> chunks) ++ rest /\
  exists decoded, (push_all chunks s.(ProcessTransport.decoder)).1 = Ok decoded /\
    lines = s.(ProcessTransport.ready_lines) ++ decoded.

Lemma push_all_cons chunk chunks d decoded :
  (push_all (chunk :: chunks) d).1 = Ok decoded ->
  exists l d' l', push chunk d = (Ok l, d') /\ (push_all chunks d').1 = Ok l' /\ decoded = l ++ l'.
Proof.
  simpl. unfold mbind, M_bind. destruct (push chunk d) as [[l|] d']; [|done].
  destruct (push_all chunks d') as [[l'|] d''] eqn:Hrest; [|done]. intros [= <-]. exists l, d', l'. by rewrite Hrest.
Qed.

(** One round of the loop on a chunk *)
Lemma receive_events_chunk arrived s chunk events l d :
  s.(ProcessTransport.events) = TransportEvent.Stdout chunk :: events ->
  s.(ProcessTransport.ready_lines) = [] -> push chunk s.(ProcessTransport.decoder) = (Ok l, d) ->
  receive_events (S arrived) s =
    match l with
    | [] => receive_events arrived (ProcessTransport.mk events d [])
    | line :: l => (Ok line, ProcessTransport.mk events d l)
    end.
Proof.
  destruct s as [evs dec ready]. simpl. intros -> -> Hpush.
  unfold mbind, M_bind, get, modify, zoom, pop_line. simpl. rewrite Hpush. by destruct l.
Qed.

Lemma receive_events_to_come arrived rest e s chunks lines :
  ending rest = Some e -> s.(ProcessTransport.ready_lines) = [] -> to_come s chunks rest lines ->
  match receive_events arrived s with
  | (Ok line, s') => exists chunks' lines', lines = line :: lines' /\ to_come s' chunks' rest lines' /\
                       length chunks' <= length chunks
  | (Err x, s') =>
    x = TransportReadError.Timeout /\ arrived <= length chunks /\
      (exists chunks', to_come s' chunks' rest lines /\ length chunks' <= length chunks) \/
    x = e /\ lines = []
  end.
Proof.
  intros He. revert s chunks lines. induction arrived as [|arrived IH]; intros s chunks lines Hr Hcome.
  { left. split_and!; [done|lia|by exists chunks]. }
  destruct Hcome as (Hev & decoded & Hpush & ->). rewrite Hr. destruct chunks as [|chunk chunks].
  - simpl in *. unfold mbind at 1, M_bind at 1, get at 1. rewrite Hev. injection Hpush as <-.
    destruct rest as [|[]]; simpl in *; simplify_eq/=; by right.
  - apply push_all_cons in Hpush as (l & d & l' & Hl & Hl' & ->).
    rewrite (receive_events_chunk _ _ _ _ _ _ Hev Hr Hl). destruct l as [|line l].
    + specialize (IH (ProcessTransport.mk ((TransportEvent.Stdout <$> chunks) ++ rest) d []) chunks l' eq_refl).
      destruct (receive_events arrived _) as [[line|x] s'].
      * destruct IH as (chunks' & lines' & -> & Hcome & Hlen); [by split; [|exists l']|]. simpl. eauto 8 with lia.
      * destruct IH as [(-> & Hle & chunks' & Hcome & Hlen)|[-> ->]]; [by split; [|exists l']| |by right].
        left. simpl. split_and!; [done|lia|]. exists chunks'. split; [done|lia].
    + exists chunks, (l ++ l'). split_and!; [done| |simpl; lia]. split; [done|]. by exists l'.
Qed.

Lemma receive_line_to_come arrived rest e s chunks lines :
  ending rest = Some e -> to_come s chunks rest lines ->
  match receive_line arrived s with
  | (Ok line, s') => exists chunks' lines', lines = line :: lines' /\ to_come s' chunks' rest lines' /\
                       length chunks' <= length chunks
  | (Err x, s') =>
    x = TransportReadError.Timeout /\ arrived <= length chunks /\
      (exists chunks', to_come s' chunks' rest lines /\ length chunks' <= length chunks) \/
    x = e /\ lines = []
  end.
Proof.
  intros He Hcome. unfold receive_line, pop_line, mbind, M_bind, get, modify, mret, M_ret.
  destruct (ProcessTransport.ready_lines s) as [|line ready] eqn:Hr; [by apply receive_events_to_come|].
  destruct Hcome as (Hev & decoded & Hpush & ->). rewrite Hr. exists chunks, (ready ++ decoded).
  split_and!; [done| |done]. split; [done|]. by exists decoded.
Qed.

Lemma ending_no_timeout rest e : ending rest = Some e -> TransportReadError.is_timeout e = false.
Proof. destruct rest as [|[]]; intros [= <-]; done. Qed.

Lemma receive_all_prefix rest e deadlines s chunks lines :
  ending rest = Some e -> to_come s chunks rest lines ->
  receive_all deadlines s `prefix_of` (Ok <$> lines) ++ [Err e].
Proof.
  intros He. revert s chunks lines. induction deadlines as [|arrived deadlines IH]; intros s chunks lines Hcome; simpl;
    [apply prefix_nil|].
  pose proof (receive_line_to_come arrived rest e s chunks lines He Hcome) as Hline.
  destruct (receive_line arrived s) as [[line|x] s'].
  - destruct Hline as (chunks' & lines' & -> & Hcome' & _). simpl. by eapply prefix_cons, IH.
  - destruct Hline as [(-> & _ & chunks' & Hcome' & _)|[-> ->]]; [by eapply IH|]. by rewrite (ending_no_timeout _ _ He).
Qed.

Lemma receive_all_patient rest e deadlines s chunks lines :
  ending rest = Some e -> to_come s chunks rest lines ->
  Forall (fun arrived => length chunks < arrived) deadlines -> length lines < length deadlines ->
  receive_all deadlines s = (Ok <$> lines) ++ [Err e].
Proof.
  intros He. revert s chunks lines.
  induction deadlines as [|arrived deadlines IH]; intros s chunks lines Hcome Hpatient Hlen; simpl in *; [lia|].
  inversion_clear Hpatient as [|? ? Hlong Hlater].
  pose proof (receive_line_to_come arrived rest e s chunks lines He Hcome) as Hline.
  destruct (receive_line arrived s) as [[line|x] s'].
  - destruct Hline as (chunks' & lines' & -> & Hcome' & Hle). simpl in *. f_equal. eapply IH; [done| |lia].
    eapply list.Forall_impl; [exact Hlater|]. simpl. lia.
  - destruct Hline as [(-> & Hle & _)|[-> ->]]; [lia|]. by rewrite (ending_no_timeout _ _ He).
Qed.

(** C34: No line of the process is lost, repeated or reordered, and its end is seen after its last line. Whatever
    the deadlines of the calls, what the calls that do not time out return is the beginning of what the output
    decodes to, followed by the end of the stream; and calls that wait long enough, one more than there are lines,
    return all of it. *)
Theorem transport_delivers_lines chunks rest e lines deadlines :
  let s := ProcessTransport.new ((TransportEvent.Stdout <$> chunks) ++ rest) in
  (push_all chunks (JsonLineDecoder.new MAX_JSON_LINE_BYTES)).1 = Ok lines -> ending rest = Some e ->
  receive_all deadlines s `prefix_of` (Ok <$> lines) ++ [Err e] /\
  (Forall (fun arrived => length chunks < arrived) deadlines -> length lines < length deadlines ->
   receive_all deadlines s = (Ok <$> lines) ++ [Err e]).
Proof.
  intros s Hdecode He. assert (to_come s chunks rest lines) as Hcome by (split; [done|by exists lines]).
  split; [by eapply receive_all_prefix|by eapply receive_all_patient].
Qed.
