(* ===== verification/Supervisor.v ===== *)
(** * The supervisor of the Codex process (app_server/process.rs, app_server/protocol.rs)

    One command at a time starts, retries and stops the process; for each connection one reader
    thread waits for its lines and reports its loss. They meet in the lifecycle mutex, and tell
    the observers outside of it. A step below is one critical section or one call of an
    observer. *)

From S2P Require Import Prelude AppJson AppWire Transport.

(** ** Data *)

Module RuntimeStatus.
Inductive t :=
| Starting
| Connected (app_version app_server_user_agent platform codex_home : string)
| Error (message : string) (retryable : bool)
| Stopped.
#[global] Instance eq_dec : EqDecision t.
Proof. solve_decision. Defined.
Definition is_connected (s : t) : bool := match s with Connected _ _ _ _ => true | _ => false end.
End RuntimeStatus.

Definition STARTUP_ERROR_MESSAGE : string := "核心服务暂时无法启动。".
Definition startup_error_status : RuntimeStatus.t := RuntimeStatus.Error STARTUP_ERROR_MESSAGE true.

(** ** The handshake *)

Definition INITIALIZE_REQUEST_ID : N := 0.

Module InitializeResult.
Record t := mk { user_agent : string; codex_home : string; platform_family : string; platform_os : string }.
End InitializeResult.

Module ProtocolError.
Inductive t := InvalidJson | UnexpectedResponseId (actual : N) | Remote (code : Z) (message : string) | InvalidResponse.
End ProtocolError.

(** [serde_json::from_str] on the envelope of the response, and the version of this program *)
Class InitializeJson := {
  initialize_from_str : string -> option (N * option InitializeResult.t * option (Z * string));
  app_version : string;
}.

(** How a launch goes: the process, the two writes of the handshake and the line between them *)
Inductive LaunchOutcome :=
| LaunchFailed
| Launched (request_written : bool) (response : result TransportReadError.t string) (notified : bool).

Section Handshake.
Context `{InitializeJson}.

Definition parse_initialize_response (line : string) : result ProtocolError.t RuntimeStatus.t :=
  response ← ok_or (initialize_from_str line) ProtocolError.InvalidJson;
  let '(id, result, error) := (response : N * option InitializeResult.t * option (Z * string)) in
  _ ← refuse (negb (id =? INITIALIZE_REQUEST_ID)%N) (ProtocolError.UnexpectedResponseId id);
  match result, error with
  | Some result, None =>
    Ok (RuntimeStatus.Connected app_version result.(InitializeResult.user_agent)
          (result.(InitializeResult.platform_family) +:+ "/" +:+ result.(InitializeResult.platform_os))
          result.(InitializeResult.codex_home))
  | None, Some (code, message) => Err (ProtocolError.Remote code message)
  | _, _ => Err ProtocolError.InvalidResponse
  end.

(** [launch] and [initialize]: the connected status, unless something failed *)
Definition initialized (outcome : LaunchOutcome) : option RuntimeStatus.t :=
  match outcome with
  | LaunchFailed => None
  | Launched request_written response notified =>
    if negb request_written then None else
    match response with
    | Err _ => None
    | Ok line =>
      match parse_initialize_response line with
      | Err _ => None
      | Ok status => if notified then Some status else None
      end
    end
  end.
End Handshake.

(** ** The supervisor and its threads *)

(** What the observers are told *)
Inductive Observed := OnConnected (generation : N) | OnDisconnected | OnStatus (status : RuntimeStatus.t).

(** The reader of a connection: about to look at its flag, waiting for a line, having taken the
    connection down, having told the connection's observer, and done *)
Module Reader.
Inductive t := Looping (generation : N) | Waiting (generation : N) | Took | Told | Finished.
End Reader.

(** What follows when the reader was joined *)
Inductive AfterJoin := ToStart | ToStopped | ToDropped.

(** Where the command is that holds the supervisor *)
Module Command.
Inductive t :=
| Idle
| StopReader (next : AfterJoin) | JoinReader (next : AfterJoin)
| SetStarting | TellStarting | Launch
| SetFailed | TellFailed
| Activate (status : RuntimeStatus.t)
| TellConnected (status : RuntimeStatus.t) (generation : N)
| TellStatus (status : RuntimeStatus.t) (generation : N)
| SpawnReader (generation : N)
| SpawnFailed (generation : N) | SpawnFailedTell | SpawnFailedStatus
| Cleanup (next : AfterJoin) | CleanupTell (next : AfterJoin)
| SetStopped | TellStopped
| Dropped.
End Command.

Module Supervisor.
Record t := mk {
  status : RuntimeStatus.t;
  next_generation : N;
  active : option N;
  stop : bool;
  reader : option Reader.t;
  command : Command.t;
  observed : list Observed;
}.
Definition set_status (v : RuntimeStatus.t) (s : t) : t :=
  mk v s.(next_generation) s.(active) s.(stop) s.(reader) s.(command) s.(observed).
Definition set_active (v : option N) (s : t) : t :=
  mk s.(status) s.(next_generation) v s.(stop) s.(reader) s.(command) s.(observed).
Definition set_stop (v : bool) (s : t) : t :=
  mk s.(status) s.(next_generation) s.(active) v s.(reader) s.(command) s.(observed).
Definition set_reader (v : option Reader.t) (s : t) : t :=
  mk s.(status) s.(next_generation) s.(active) s.(stop) v s.(command) s.(observed).
Definition go (v : Command.t) (s : t) : t :=
  mk s.(status) s.(next_generation) s.(active) s.(stop) s.(reader) v s.(observed).
Definition tell (e : Observed) (s : t) : t :=
  mk s.(status) s.(next_generation) s.(active) s.(stop) s.(reader) s.(command) (s.(observed) ++ [e]).
(** [AppServerSupervisor::new], which publishes that nothing runs *)
Definition new : t :=
  mk RuntimeStatus.Stopped 1 None false None Command.Idle [OnStatus RuntimeStatus.Stopped].
End Supervisor.

(** A connection that takes the place of none: the section under the lock in [activate_connection] *)
Definition install (status : RuntimeStatus.t) (s : Supervisor.t) : Supervisor.t :=
  Supervisor.mk status ((s.(Supervisor.next_generation) + 1) mod 2 ^ 64) (Some s.(Supervisor.next_generation))
    false s.(Supervisor.reader) (Command.TellConnected status s.(Supervisor.next_generation)) s.(Supervisor.observed).

(** The section under the lock in [fail_active_connection]: the connection of this generation is taken
    down, if it is still there *)
Definition take_failed (generation : N) (s : Supervisor.t) : option Supervisor.t :=
  if bool_decide (s.(Supervisor.active) = Some generation)
  then Some (Supervisor.set_stop true (Supervisor.set_active None (Supervisor.set_status startup_error_status s)))
  else None.

(** Calls of the supervisor *)
Inductive Call := Start | Retry | ShutDown | Drop.

(** [matches!(status, Starting | Connected { .. })] *)
Definition is_running (s : RuntimeStatus.t) : bool :=
  match s with RuntimeStatus.Starting | RuntimeStatus.Connected _ _ _ _ => true | _ => false end.
Definition is_error (s : RuntimeStatus.t) : bool := match s with RuntimeStatus.Error _ _ => true | _ => false end.

(** The first look of a call at the status *)
Definition enter (c : Call) (s : Supervisor.t) : Supervisor.t :=
  let start s := if is_running s.(Supervisor.status) then s else Supervisor.go (Command.StopReader ToStart) s in
  match c with
  | Start => start s
  | Retry => if is_error s.(Supervisor.status) then start s else s
  | ShutDown => if bool_decide (s.(Supervisor.status) = RuntimeStatus.Stopped) then s
                else Supervisor.go (Command.Cleanup ToStopped) s
  | Drop => Supervisor.go (Command.Cleanup ToDropped) s
  end.

(** [join_reader] returns: there is no reader, or it is done. *)
Definition joined (s : Supervisor.t) : option Supervisor.t :=
  match s.(Supervisor.reader) with
  | None | Some Reader.Finished => Some (Supervisor.set_reader None s)
  | Some _ => None
  end.

(** The next step of the command; what launching gives and whether a thread can be spawned is given. *)
Definition command_step `{InitializeJson} (outcome : LaunchOutcome) (spawned : bool) (s : Supervisor.t)
    : option Supervisor.t :=
  match s.(Supervisor.command) with
  | Command.Idle | Command.Dropped => None
  | Command.StopReader next => Some (Supervisor.go (Command.JoinReader next) (Supervisor.set_stop true s))
  | Command.JoinReader next =>
    s ← joined s;
    Some (Supervisor.go match next with
                        | ToStart => Command.SetStarting
                        | ToStopped => Command.SetStopped
                        | ToDropped => Command.Dropped
                        end s)
  | Command.SetStarting => Some (Supervisor.go Command.TellStarting (Supervisor.set_status RuntimeStatus.Starting s))
  | Command.TellStarting => Some (Supervisor.go Command.Launch (Supervisor.tell (OnStatus RuntimeStatus.Starting) s))
  | Command.Launch =>
    Some match initialized outcome with
         | Some status => Supervisor.go (Command.Activate status) s
         | None => Supervisor.go Command.SetFailed s
         end
  | Command.SetFailed => Some (Supervisor.go Command.TellFailed (Supervisor.set_status startup_error_status s))
  | Command.TellFailed => Some (Supervisor.go Command.Idle (Supervisor.tell (OnStatus startup_error_status) s))
  | Command.Activate status => Some (install status s)
  | Command.TellConnected status generation =>
    Some (Supervisor.go (Command.TellStatus status generation) (Supervisor.tell (OnConnected generation) s))
  | Command.TellStatus status generation =>
    Some (Supervisor.go (Command.SpawnReader generation) (Supervisor.tell (OnStatus status) s))
  | Command.SpawnReader generation =>
    Some (if spawned
          then Supervisor.go Command.Idle (Supervisor.set_reader (Some (Reader.Looping generation)) s)
          else Supervisor.go (Command.SpawnFailed generation) s)
  | Command.SpawnFailed generation =>
    Some match take_failed generation s with
         | Some s => Supervisor.go Command.SpawnFailedTell s
         | None => Supervisor.go Command.Idle s
         end
  | Command.SpawnFailedTell => Some (Supervisor.go Command.SpawnFailedStatus (Supervisor.tell OnDisconnected s))
  | Command.SpawnFailedStatus => Some (Supervisor.go Command.Idle (Supervisor.tell (OnStatus startup_error_status) s))
  | Command.Cleanup next =>
    Some match s.(Supervisor.active) with
         | Some _ => Supervisor.go (Command.CleanupTell next) (Supervisor.set_stop true (Supervisor.set_active None s))
         | None => Supervisor.go (Command.StopReader next) s
         end
  | Command.CleanupTell next => Some (Supervisor.go (Command.StopReader next) (Supervisor.tell OnDisconnected s))
  | Command.SetStopped => Some (Supervisor.go Command.TellStopped (Supervisor.set_status RuntimeStatus.Stopped s))
  | Command.TellStopped => Some (Supervisor.go Command.Idle (Supervisor.tell (OnStatus RuntimeStatus.Stopped) s))
  end.

(** What a round of [read_messages] comes to: whether the connection is to be taken down. [routed] is whether
    [handle_inbound] of the connection accepts the message. *)
Definition round_failed `{ValueJson} (line : result TransportReadError.t string) (routed : InboundMessage.t -> bool)
    : bool :=
  match line with
  | Err TransportReadError.Timeout => false
  | Err _ => true
  | Ok line => match parse_inbound_message line with Err _ => true | Ok message => negb (routed message) end
  end.

(** The next step of the reader, with the line that it waits for *)
Definition reader_step `{ValueJson} (line : result TransportReadError.t string) (routed : InboundMessage.t -> bool)
    (s : Supervisor.t) : option Supervisor.t :=
  match s.(Supervisor.reader) with
  | Some (Reader.Looping generation) =>
    Some (Supervisor.set_reader (Some (if s.(Supervisor.stop) then Reader.Finished else Reader.Waiting generation)) s)
  | Some (Reader.Waiting generation) =>
    Some (if negb (round_failed line routed) then Supervisor.set_reader (Some (Reader.Looping generation)) s
          else match take_failed generation s with
               | Some s => Supervisor.set_reader (Some Reader.Took) s
               | None => Supervisor.set_reader (Some Reader.Finished) s
               end)
  | Some Reader.Took => Some (Supervisor.set_reader (Some Reader.Told) (Supervisor.tell OnDisconnected s))
  | Some Reader.Told =>
    Some (Supervisor.set_reader (Some Reader.Finished) (Supervisor.tell (OnStatus startup_error_status) s))
  | Some Reader.Finished | None => None
  end.

Inductive supervisor_step `{InitializeJson, ValueJson} : Supervisor.t -> Supervisor.t -> Prop :=
| ss_enter c s : s.(Supervisor.command) = Command.Idle -> supervisor_step s (enter c s)
| ss_command outcome spawned s s' : command_step outcome spawned s = Some s' -> supervisor_step s s'
| ss_reader line routed s s' : reader_step line routed s = Some s' -> supervisor_step s s'.

(** ** What the observers see *)

(** The contract of a connection's observer against what is published: whether the connection is up,
    unless an event is out of order *)
Definition observe_one (up : bool) (e : Observed) : option bool :=
  match e with
  | OnConnected _ => if up then None else Some true
  | OnDisconnected => if up then Some false else None
  | OnStatus status => if Bool.eqb (RuntimeStatus.is_connected status) up then Some up else None
  end.
Fixpoint observe_all (up : bool) (l : list Observed) : option bool :=
  match l with
  | [] => Some up
  | e :: l => up ← observe_one up e; observe_all up l
  end.

Lemma observe_all_snoc up l e : observe_all up (l ++ [e]) = observe_all up l ≫= (fun up => observe_one up e).
Proof.
  revert up. induction l as [|x l IH]; intros up; simpl; [by destruct (observe_one up e)|].
  destruct (observe_one up x); [apply IH|done].
Qed.

(** The status that was published last *)
Fixpoint last_status (l : list Observed) : option RuntimeStatus.t :=
  match l with
  | [] => None
  | OnStatus status :: l => Some (default status (last_status l))
  | _ :: l => last_status l
  end.

Lemma last_status_snoc l e :
  last_status (l ++ [e]) = match e with OnStatus status => Some status | _ => last_status l end.
Proof. induction l as [|x l IH]; simpl; [by destruct e|]. destruct x; rewrite IH; by destruct e. Qed.

(** ** The invariant *)

Section Invariant.
Context `{InitializeJson, ValueJson}.

(** A connection was taken down, and its observer is still to be told. *)
Definition command_owes (c : Command.t) : bool :=
  match c with Command.SpawnFailedTell | Command.CleanupTell _ => true | _ => false end.
Definition reader_owes (r : option Reader.t) : bool := match r with Some Reader.Took => true | _ => false end.
(** A connection is there, and its observer is still to be told. *)
Definition announcing (c : Command.t) : bool := match c with Command.TellConnected _ _ => true | _ => false end.

(** Where no reader is left *)
Definition alone (c : Command.t) : bool :=
  match c with
  | Command.Idle | Command.StopReader _ | Command.JoinReader _ | Command.Cleanup _ | Command.CleanupTell _ => false
  | _ => true
  end.
(** Where a connection is there *)
Definition connecting (c : Command.t) : option N :=
  match c with
  | Command.TellConnected _ g | Command.TellStatus _ g | Command.SpawnReader g | Command.SpawnFailed g => Some g
  | _ => None
  end.
Definition down (c : Command.t) : bool :=
  match c with
  | Command.StopReader _ | Command.JoinReader _ | Command.SetStarting | Command.TellStarting | Command.Launch
  | Command.SetFailed | Command.TellFailed | Command.Activate _ | Command.SpawnFailedTell | Command.SpawnFailedStatus
  | Command.CleanupTell _ | Command.SetStopped | Command.TellStopped | Command.Dropped => true
  | _ => false
  end.

(** The status that a command carries is a connected one. *)
Definition carried (c : Command.t) : option RuntimeStatus.t :=
  match c with Command.Activate st | Command.TellConnected st _ | Command.TellStatus st _ => Some st | _ => None end.

(** The status that is set and still to be published *)
Definition unpublished (c : Command.t) : option RuntimeStatus.t :=
  match c with
  | Command.TellStarting => Some RuntimeStatus.Starting
  | Command.TellFailed | Command.SpawnFailedTell | Command.SpawnFailedStatus => Some startup_error_status
  | Command.TellConnected st _ | Command.TellStatus st _ => Some st
  | Command.TellStopped => Some RuntimeStatus.Stopped
  | _ => None
  end.
Definition reader_failing (r : option Reader.t) : bool :=
  match r with Some Reader.Took | Some Reader.Told => true | _ => false end.
(** Where the connected status outlives the connection *)
Definition stopping (c : Command.t) : bool :=
  match c with
  | Command.CleanupTell _ | Command.StopReader (ToStopped | ToDropped) | Command.JoinReader (ToStopped | ToDropped)
  | Command.SetStopped | Command.Dropped => true
  | _ => false
  end.

(** Nothing is cleaned up before a start. *)
Definition misled (c : Command.t) : bool :=
  match c with Command.Cleanup ToStart | Command.CleanupTell ToStart => true | _ => false end.

Record supervised (s : Supervisor.t) : Prop := {
  sv_alone : alone s.(Supervisor.command) = true -> s.(Supervisor.reader) = None;
  sv_connecting g : connecting s.(Supervisor.command) = Some g -> s.(Supervisor.active) = Some g;
  sv_down : down s.(Supervisor.command) = true -> s.(Supervisor.active) = None;
  sv_active : is_Some s.(Supervisor.active) -> RuntimeStatus.is_connected s.(Supervisor.status) = true;
  sv_reader : reader_failing s.(Supervisor.reader) = true -> s.(Supervisor.active) = None;
  sv_owes : command_owes s.(Supervisor.command) = true -> reader_failing s.(Supervisor.reader) = false;
  sv_carried st : carried s.(Supervisor.command) = Some st -> RuntimeStatus.is_connected st = true;
  sv_observed : observe_all false s.(Supervisor.observed) =
    Some ((is_some s.(Supervisor.active) && negb (announcing s.(Supervisor.command)))
          || command_owes s.(Supervisor.command) || reader_owes s.(Supervisor.reader));
  sv_status : RuntimeStatus.is_connected s.(Supervisor.status) = true ->
    is_some s.(Supervisor.active) || stopping s.(Supervisor.command) = true;
  sv_published : match unpublished s.(Supervisor.command) with
                 | Some st => s.(Supervisor.status) = st
                 | None => if reader_failing s.(Supervisor.reader) then s.(Supervisor.status) = startup_error_status
                           else last_status s.(Supervisor.observed) = Some s.(Supervisor.status)
                 end;
  sv_misled : misled s.(Supervisor.command) = false;
}.

Lemma new_supervised : supervised Supervisor.new.
Proof. split; simpl; try done; by intros []. Qed.

Lemma initialized_connected outcome st : initialized outcome = Some st -> RuntimeStatus.is_connected st = true.
Proof.
  unfold initialized. destruct outcome as [|w x n]; [done|]. destruct w; [|done]. simpl. destruct x as [line|]; [|done].
  unfold parse_initialize_response. destruct (initialize_from_str line) as [[[i res] err]|]; [|done]. simpl.
  destruct (refuse _ _); [|done]. simpl. destruct res, err as [[]|], n; simpl; intros Hst; by simplify_eq/=.
Qed.

Lemma enter_supervised c s : s.(Supervisor.command) = Command.Idle -> supervised s -> supervised (enter c s).
Proof.
  intros Hidle [Ha Hc Hd Hs Hr Ho Hca Hob Hst Hpu Hm]. rewrite Hidle in *. simpl in Hpu, Hst.
  assert (is_running s.(Supervisor.status) = false -> s.(Supervisor.active) = None) as Hnone.
  { intros Hrunning. destruct (Supervisor.active s); [|done]. specialize (Hs ltac:(by eexists)).
    by destruct (Supervisor.status s). }
  destruct c; simpl; repeat match goal with |- context [if ?b then _ else _] => destruct b eqn:? end;
    split; rewrite ?Hidle; simpl in *; auto.
  all: intros Hconnected; by destruct (Supervisor.status s).
Qed.

Ltac settle :=
  repeat match goal with
  | Hx : true = true -> _ |- _ => specialize (Hx eq_refl)
  | Hx : false = true -> _ |- _ => clear Hx
  | Hx : forall g, None = Some g -> _ |- _ => clear Hx
  | Hx : forall g, Some ?x = Some g -> _ |- _ => specialize (Hx x eq_refl)
  end; simplify_eq/=.

Lemma joined_none s s' : joined s = Some s' ->
  s' = Supervisor.set_reader None s /\ reader_owes s.(Supervisor.reader) = false /\
  reader_failing s.(Supervisor.reader) = false.
Proof. unfold joined. by destruct (Supervisor.reader s) as [[]|]; intros [= <-]. Qed.

Ltac shut := split; simpl; rewrite ?observe_all_snoc, ?last_status_snoc;
  repeat match goal with Hx : observe_all _ _ = _ |- _ => rewrite Hx; clear Hx end; simpl; try done;
  try (intros; simplify_eq/=; auto; done).

Lemma command_step_supervised outcome spawned s s' :
  command_step outcome spawned s = Some s' -> supervised s -> supervised s'.
Proof.
  intros Hstep [Ha Hc Hd Hs Hr Ho Hca Hob Hst Hpu Hm]. destruct s as [st ng act stop rd cmd obs].
  destruct cmd; simpl in *; settle.
  all: try (apply bind_Some in Hstep as (s1 & (-> & Howes & Hfail)%joined_none & Hstep); simpl in *;
            rewrite Howes, ?Hfail in * ).
  all: try (injection Hstep as <-).
  all: repeat match goal with |- context [match ?x with _ => _ end] => destruct x eqn:? end; settle.
  all: try (shut; fail).
  - apply initialized_connected in Heqo. shut.
  - shut. by rewrite Hca.
  - unfold take_failed in *. case_bool_decide; simplify_eq/=. shut.
  - destruct next, (reader_failing rd) eqn:Hrf; try done; try (by specialize (Hr eq_refl)).
    all: assert (reader_owes rd = false) as Howes by (by destruct rd as [[]|]); simpl in *.
    all: shut; by rewrite Hrf.
  - destruct next; [done| |]; shut.
  - destruct next; [done| |]; shut. all: by destruct rd as [[]|].
Qed.

Lemma reader_step_supervised line routed s s' :
  reader_step line routed s = Some s' -> supervised s -> supervised s'.
Proof.
  intros Hstep [Ha Hc Hd Hs Hr Ho Hca Hob Hst Hpu Hm]. destruct s as [st ng act stop rd cmd obs].
  destruct rd as [[]|]; simpl in *; try done; injection Hstep as <-.
  all: destruct cmd; try (by specialize (Ha eq_refl)); settle.
  all: repeat match goal with |- context [match ?x with _ => _ end] => destruct x eqn:? end; settle.
  all: try (shut; fail).
  all: unfold take_failed in *; case_bool_decide; simplify_eq/=; shut.
Qed.

Lemma reachable_supervised s : rtc supervisor_step Supervisor.new s -> supervised s.
Proof.
  intros Hsteps. assert (supervised Supervisor.new) as Hnew by apply new_supervised. revert Hnew.
  induction Hsteps as [|s1 s2 s3 Hstep _ IH]; [done|]. intros Hs. apply IH.
  destruct Hstep; eauto using enter_supervised, command_step_supervised, reader_step_supervised.
Qed.
End Invariant.

(** ** What the observers may rely on *)

(** Nothing runs that is still to tell an observer. *)
Definition at_rest (s : Supervisor.t) : bool :=
  match s.(Supervisor.command) with Command.Idle => negb (reader_failing s.(Supervisor.reader)) | _ => false end.

(** C23: However the commands and the readers of the connections interleave, connections come up and go down one
    at a time for their observer, the connected status is published only while the observer holds the connection,
    and every other status only while it holds none; and whenever nothing is being told, the observer holds a
    connection exactly when there is one, exactly when the status is the connected one, and the status published
    last is the status. *)
Theorem observers_in_step `{InitializeJson, ValueJson} s :
  rtc supervisor_step Supervisor.new s ->
  exists up, observe_all false s.(Supervisor.observed) = Some up /\
    (at_rest s = true ->
     up = is_some s.(Supervisor.active) /\
     up = RuntimeStatus.is_connected s.(Supervisor.status) /\
     last_status s.(Supervisor.observed) = Some s.(Supervisor.status)).
Proof.
  intros [_ _ _ Hs Hr _ _ Hob Hst Hpu _]%reachable_supervised. eexists. split; [apply Hob|].
  unfold at_rest. destruct (Supervisor.command s); try done. intros Hrest%negb_true_iff.
  rewrite Hrest in *. simpl in *. assert (reader_owes (Supervisor.reader s) = false) as ->
    by (by destruct (Supervisor.reader s) as [[]|]).
  destruct (Supervisor.active s) as [g|]; simpl in *; split_and!; try done.
  - by rewrite Hs.
  - by destruct (RuntimeStatus.is_connected _); [specialize (Hst eq_refl)|].
Qed.
