(* ===== verification/TaskCommand.v ===== *)
(** * The commands on local tasks (task/commands.rs)

    What the desktop does to start, stop and list local tasks: it asks the projects for the
    directory, the supervisor for the process and the identity for the device, and then the
    local task state. *)

From S2P Require Import Prelude AppJson AppWire AppConnection EventRouter EventThm TaskArtifact TaskReceipt TaskMachine TaskStore TaskService TaskPlan TaskThm StoredFile Identity Worktree Runtime Orchestrator LocalState Project ProjectThread Transport Supervisor.

Module TaskCommandError.
Inductive t :=
| InvalidTask | TaskUnavailable | ProjectUnavailable | IdentityUnavailable | RuntimeUnavailable | RunUnavailable
| CapacityReached.
End TaskCommandError.

Definition map_local_error (error : LocalTaskError.t) : TaskCommandError.t :=
  match error with
  | LocalTaskError.InvalidRequest => TaskCommandError.InvalidTask
  | LocalTaskError.State => TaskCommandError.TaskUnavailable
  | LocalTaskError.Runtime => TaskCommandError.RuntimeUnavailable
  | LocalTaskError.RunNotActive => TaskCommandError.RunUnavailable
  | LocalTaskError.Busy => TaskCommandError.CapacityReached
  end.

(** Of the process, the status that was published last and the connection of its supervisor *)
Module AppProcess.
Record t := mk { current_status : RuntimeStatus.t; active_connection : option ConnectionControl.t }.
End AppProcess.

(** What the application manages, each part once it was set up *)
Module Desktop.
Record t := mk {
  projects : option ProjectService.t;
  identity : option IdentityService.t;
  process : option AppProcess.t;
  tasks : option TaskRunState.t;
}.
Definition set_projects (v : ProjectService.t) (s : t) : t := mk (Some v) s.(identity) s.(process) s.(tasks).
Definition set_identity (v : IdentityService.t) (s : t) : t := mk s.(projects) (Some v) s.(process) s.(tasks).
Definition set_process (v : AppProcess.t) (s : t) : t := mk s.(projects) s.(identity) (Some v) s.(tasks).
Definition set_tasks (v : TaskRunState.t) (s : t) : t := mk s.(projects) s.(identity) s.(process) (Some v).
End Desktop.

(** What a command meets in each part, and what the supervisor makes of the process between the two reads of it *)
Module CommandEnv.
Record t := mk {
  project : ProjectEnv.t; meanwhile : AppProcess.t -> AppProcess.t; identity : IdentityEnv.t; start : LocalStartEnv.t }.
End CommandEnv.

Definition DesktopM := M Desktop.t TaskCommandError.t.

(** [try_state().ok_or(missing)] and a call of the part *)
Definition on_part {T E A} (part : Desktop.t -> option T) (set : T -> Desktop.t -> Desktop.t)
    (missing : TaskCommandError.t) (f : E -> TaskCommandError.t) (m : M T E A) : DesktopM A :=
  s ← get;
  t ← lift (ok_or (part s) missing);
  fun s => let (r, t) := m t in (map_err f r, set t s).

Section Commands.
Context `{Sha256, ReceiptJson, TasksJson, RunEventJson, DocumentFormat RivloomIdentity.t, DocumentFormat (list StoredProject.t)}.

(** The status and the connection are read one after the other, each under its own lock: the process may have
    changed in between. *)
Definition runtime_details (meanwhile : AppProcess.t -> AppProcess.t) : DesktopM (ConnectionControl.t * string) :=
  s ← get;
  process ← lift (ok_or s.(Desktop.process) TaskCommandError.RuntimeUnavailable);
  runtime_version ← match process.(AppProcess.current_status) with
                    | RuntimeStatus.Connected app_version _ _ _ => mret app_version
                    | _ => throw TaskCommandError.RuntimeUnavailable
                    end;
  let process := meanwhile process in
  _ ← modify (Desktop.set_process process);
  connection ← lift (ok_or process.(AppProcess.active_connection) TaskCommandError.RuntimeUnavailable);
  mret (connection, runtime_version).

Definition on_tasks {A} (m : M TaskRunState.t LocalTaskError.t A) : DesktopM A :=
  on_part Desktop.tasks Desktop.set_tasks TaskCommandError.TaskUnavailable map_local_error m.

Definition start_local_task (env : CommandEnv.t) (project_id idempotency_key goal : string) (constraints : list string)
    : DesktopM LocalTaskRun.t :=
  project ← on_part Desktop.projects Desktop.set_projects TaskCommandError.ProjectUnavailable
              (fun _ => TaskCommandError.ProjectUnavailable) (lookup_project env.(CommandEnv.project) project_id);
  details ← runtime_details env.(CommandEnv.meanwhile);
  identity ← on_part Desktop.identity Desktop.set_identity TaskCommandError.IdentityUnavailable
               (fun _ => TaskCommandError.IdentityUnavailable) (get_identity env.(CommandEnv.identity));
  on_tasks (start_local env.(CommandEnv.start)
    (StartLocalTaskRequest.mk project_id idempotency_key goal constraints identity.(RivloomIdentity.device_id)
       (details : ConnectionControl.t * string).2 project details.1)).

Definition list_local_tasks (env : TaskEnv.t) (project_id : string) : DesktopM (list TaskRecord.t) :=
  on_tasks (list_local env project_id).
Definition stop_local_task (env : TaskEnv.t) (lock : bool) (project_id task_id run_id : string) : DesktopM TaskRecord.t :=
  on_tasks (stop_local env lock project_id task_id run_id).

(** ** What a start rests on *)

Lemma on_part_cases {T E A} (part : Desktop.t -> option T) set missing (f : E -> TaskCommandError.t) (m : M T E A) s r s' :
  on_part part set missing f m s = (r, s') ->
  s' = s /\ is_ok r = false \/
  exists t r0 t', part s = Some t /\ m t = (r0, t') /\ r = map_err f r0 /\ s' = set t' s.
Proof.
  unfold on_part, mbind, M_bind, get, lift. destruct (part s) as [t|]; simpl; [|intros [= <- <-]; by left].
  destruct (m t) as [r0 t'] eqn:Hm. intros [= <- <-]. right. by exists t, r0, t'.
Qed.

Lemma get_identity_cached env s identity s' :
  get_identity env s = (Ok identity, s') -> s'.(IdentityService.identity) = Some identity.
Proof.
  unfold get_identity. intros (u & s1 & [_ ->]%reject_if_ok & Hrun)%bind_ok_iff. unfold load_or_create in Hrun.
  rewrite (bind_ok _ _ _ s s) in Hrun by done. destruct (IdentityService.identity s) eqn:Hcache.
  { by apply ret_inv in Hrun as [[= ->] ->]. }
  apply bind_ok_iff in Hrun as (stored & s1 & _ & Hrun). apply bind_ok_iff in Hrun as (found & s2 & _ & Hrun).
  apply bind_ok_iff in Hrun as (v & s3 & [_ ->]%modify_inv & Hrun). by apply ret_inv in Hrun as [[= ->] ->].
Qed.

Lemma runtime_details_cases meanwhile s r s' :
  runtime_details meanwhile s = (r, s') ->
  s'.(Desktop.tasks) = s.(Desktop.tasks) /\ s'.(Desktop.identity) = s.(Desktop.identity) /\
  match r with
  | Ok (connection, version) => exists process agent platform home,
      s.(Desktop.process) = Some process /\
      process.(AppProcess.current_status) = RuntimeStatus.Connected version agent platform home /\
      (meanwhile process).(AppProcess.active_connection) = Some connection /\
      s' = Desktop.set_process (meanwhile process) s
  | Err _ => True
  end.
Proof.
  unfold runtime_details, mbind, M_bind, get, lift, modify. destruct (Desktop.process s) as [process|]; simpl;
    [|by intros [= <- <-]]. destruct (AppProcess.current_status process) eqn:Hstatus; simpl; [by intros [= <- <-]| |by intros [= <- <-]..].
  destruct (AppProcess.active_connection (meanwhile process)) eqn:Hc; simpl; intros [= <- <-]; split_and!; eauto 8.
Qed.

Context (Hlaws : DocumentFormatLaws RivloomIdentity.t) (Hsize : IdentitySize).

(** C19: The command that starts a local task touches the tasks only to start a run in a directory the user has
    opened, on a process that was connected, in the name of this device: the project is registered, its directory is
    there and readable and the one its id stands for; the status that was read is a connected one, whose version the
    run is given, and the connection is the one the process has at the second read; and the run is given the device id
    of the identity that the identity's file holds, which the command has written first if there was none. Otherwise
    the command fails and the tasks are as they were. *)
Theorem task_start_grounded env project_id key goal constraints s r s' :
  (forall ids, s.(Desktop.identity) = Some ids -> identity_inv ids) ->
  start_local_task env project_id key goal constraints s = (r, s') ->
  s'.(Desktop.tasks) = s.(Desktop.tasks) /\ is_ok r = false \/
  exists services project path process version agent platform home connection ids identity tasks r0 tasks',
    s'.(Desktop.projects) = Some services /\
    (exists p, p ∈ default [] services.(ProjectService.projects) /\
       p.(StoredProject.id) = project_id /\ p.(StoredProject.path) = project.(ResolvedProject.cwd)) /\
    env.(CommandEnv.project).(ProjectEnv.fs).(ProjectFs.canonicalize) project.(ResolvedProject.cwd) = Some path /\
    env.(CommandEnv.project).(ProjectEnv.fs).(ProjectFs.metadata) path = IsDirectory /\
    env.(CommandEnv.project).(ProjectEnv.fs).(ProjectFs.readable) path = true /\
    project_id_for_path path = Ok project_id /\
    s.(Desktop.process) = Some process /\
    process.(AppProcess.current_status) = RuntimeStatus.Connected version agent platform home /\
    (env.(CommandEnv.meanwhile) process).(AppProcess.active_connection) = Some connection /\
    s'.(Desktop.process) = Some (env.(CommandEnv.meanwhile) process) /\
    s'.(Desktop.identity) = Some ids /\ ids.(IdentityService.identity) = Some identity /\ durable ids identity /\
    s.(Desktop.tasks) = Some tasks /\ s'.(Desktop.tasks) = Some tasks' /\
    start_local env.(CommandEnv.start)
      (StartLocalTaskRequest.mk project_id key goal constraints identity.(RivloomIdentity.device_id) version project
         connection) tasks = (r0, tasks') /\
    r = map_err map_local_error r0.
Proof.
  intros Hinv. unfold start_local_task. intros [(e & Hlook & ->)|(project & s1 & Hlook & Hrun)]%bind_cases.
  { apply on_part_cases in Hlook as [[-> _]|(t & r0 & t' & _ & _ & _ & ->)]; by left. }
  apply on_part_cases in Hlook as [[_ ?]|(services & r1 & services' & _ & Hlook & Hr1 & ->)]; [done|].
  destruct r1 as [project'|]; [|done]. injection Hr1 as <-.
  apply lookup_project_ok in Hlook as (_ & Hreg & path & Hc & Hdir & Hread & Hid).
  apply bind_cases in Hrun as [(e & [Hsame _]%runtime_details_cases & ->)|([connection version] & s2 & Hdetails & Hrun)];
    [by left|].
  apply runtime_details_cases in Hdetails as (_ & _ & process & agent & platform & home & Hprocess & Hstatus & Hconn & ->).
  apply bind_cases in Hrun as [(e & Hget & ->)|(identity & s3 & Hget & Hrun)].
  { apply on_part_cases in Hget as [[-> _]|(t & r0 & t' & _ & _ & _ & ->)]; by left. }
  apply on_part_cases in Hget as [[_ ?]|(ids & r2 & ids' & Hids & Hget & Hr2 & ->)]; [done|].
  destruct r2 as [identity'|]; [|done]. injection Hr2 as <-.
  pose proof (get_identity_ok Hlaws Hsize env.(CommandEnv.identity) ids (Hinv _ Hids)) as Hdurable. rewrite Hget in Hdurable.
  destruct Hdurable as (_ & Hdurable & _). apply get_identity_cached in Hget.
  apply on_part_cases in Hrun as [[-> ?]|(tasks & r0 & tasks' & Htasks & Hstart & -> & ->)]; [by left|]. right.
  exists services', project, path, process, version, agent, platform, home, connection, ids', identity, tasks, r0, tasks'.
  by split_and!.
Qed.
End Commands.
