(* ===== verification/Toy.v ===== *)
(** * A concrete Brain

    The parameters of the collaboration model instantiated by small functions, and a short
    history of one Brain under them: an owner creates it, invites a second member, submits
    a task, and revokes the member. The witnesses evaluate the properties on it. *)

From S2P Require Import Prelude Protocol Credential Invitation Brain BrainValid BrainInv BrainOps BrainThm Snapshot Storage Reconcile Node.

Module Toy.

(** A 32-byte digest: the last 32 bytes of the input, padded in front. *)
Fixpoint reverse_onto (acc s : string) : string :=
  match s with EmptyString => acc | String a s => reverse_onto (String a acc) s end.
Fixpoint first_bytes (n : nat) (s : string) : string :=
  match n with
  | O => EmptyString
  | S n => match s with
           | EmptyString => String "0" (first_bytes n EmptyString)
           | String a s => String a (first_bytes n s)
           end
  end.
Definition digest (s : string) : string := first_bytes 32 (reverse_onto EmptyString s).
#[export] Instance sha256 : Sha256 := digest.

Lemma length_first_bytes n s : String.length (first_bytes n s) = n.
Proof. revert s. induction n as [|n IH]; intros [|a s]; simpl; by rewrite ?IH. Qed.
#[export] Instance sha256_laws : Sha256Laws.
Proof. intros s. unfold sha256_digest, sha256, digest, len. by rewrite length_first_bytes. Qed.

(** A codec that knows a list of values: the value at position [i] is written as the
    [i]-th lower-case letter. *)
Section Codec.
Context {A} `{EqDecision A} (known : list A).
Definition code (i : nat) : string := String (ascii_of_nat (97 + i)) EmptyString.
Definition write_known (a : A) : option string :=
  p ← list_find (fun b => b = a) known;
  if (p.1 <? 26)%nat then Some (code p.1) else None.
Definition read_known (s : string) : option A :=
  match s with
  | String c EmptyString => known !! (nat_of_ascii c - 97)
  | _ => None
  end.
Lemma read_write_known a s : write_known a = Some s -> read_known s = Some a.
Proof.
  unfold write_known. intros ([i b] & Hf & Hs)%bind_Some.
  destruct (i <? 26) eqn:Hi; simpl in Hs; rewrite Hi in Hs; [|done]. injection Hs as <-.
  apply Nat.ltb_lt in Hi. apply list_find_Some in Hf as (Hl & -> & _). unfold read_known, code.
  rewrite nat_ascii_embedding by lia. by replace (97 + i - 97) with i by lia.
Qed.
End Codec.

(** A text whose length stands for a size. *)
Fixpoint code_of_size (n : nat) : string :=
  match n with O => EmptyString | S n => String "." (code_of_size n) end.
Lemma len_code_of_size n : len (code_of_size n) = N.of_nat n.
Proof. unfold len. f_equal. induction n as [|n IH]; simpl; by rewrite ?IH. Qed.

(** ** The people and what was drawn for them *)

Definition draw_of (c : ascii) : draw := Some (vreplicate 32 c).
Definition hex_of (c : ascii) : string :=
  hex_of_bytes (String.string_of_list_ascii (replicate 32 c)).

Definition owner : OwnerProfile.t := OwnerProfile.mk "identity-1" "device-1" "Ada".
Definition owner_member : string := "member-" +:+ hex_of "A".
Definition owner_node : string := "node-" +:+ hex_of "B".
Definition owner_secret : SecretToken := mkToken (hex_of "C").
Definition owner_binding : CredentialBinding.t :=
  CredentialBinding.mk "brain-1" owner_member owner_node "device-1".
Definition owner_credential : IssuedCredential.t :=
  IssuedCredential.mk owner_binding 87400 owner_secret.
Definition owner_session : ConnectionIdentity.t :=
  ConnectionIdentity.mk owner_binding (token_digest owner_secret NodeCredential).

Definition guest_member : string := "member-" +:+ hex_of "F".
Definition guest_node : string := "node-" +:+ hex_of "G".
Definition guest_secret : SecretToken := mkToken (hex_of "H").
Definition guest_binding : CredentialBinding.t :=
  CredentialBinding.mk "brain-1" guest_member guest_node "device-2".
Definition guest_session : ConnectionIdentity.t :=
  ConnectionIdentity.mk guest_binding (token_digest guest_secret NodeCredential).

Definition join_request : JoinRequest.t :=
  JoinRequest.mk "brain-1" (hex_of "D") (mkToken (hex_of "E")) "identity-2" "device-2" "Bob".

(** ** Messages *)

Definition task_envelope (revision : N) (goal : string) : Envelope.t :=
  Envelope.mk 1 "message-1" "key-1" "brain-1" owner_node 1030 revision
    (Payload.Task (Task.mk "task-1" owner_member goal [] ArtifactKind.Patch TaskStatus.Draft)).
Definition task_message : Message := mkMessage (task_envelope 3 "Ship it").
Definition other_message : Message := mkMessage (task_envelope 3 "Ship more").

Definition known_envelopes : list Envelope.t :=
  [task_envelope 3 "Ship it"; task_envelope 4 "Ship it"; task_envelope 3 "Ship more"].

#[export] Instance protocol_json : ProtocolJson := {|
  payload_to_vec := write_known (Envelope.payload <$> known_envelopes);
  content_to_vec := fun _ => None;
  envelope_to_vec := write_known known_envelopes;
  envelope_from_slice := read_known known_envelopes;
|}.
#[export] Instance protocol_json_laws : ProtocolJsonLaws.
Proof. intros e bytes. apply read_write_known. Qed.

(** ** The history *)

Definition run {E A} (m : M Brain.t E A) (s : Brain.t) : Brain.t := (m s).2.

Definition s0 : Brain.t :=
  match bootstrap "brain-1" owner 1000 (draw_of "A") (draw_of "B") (draw_of "C") with
  | Ok (b, _) => b
  | Err _ => Brain.mk 0 "" "" 0 Clock_default (CredentialRegistry.mk "" Clock_default ∅)
               (InvitationRegistry.mk "" Clock_default ∅) ∅ ∅ ∅ []
  end.
Definition s1 : Brain.t := run (create_invitation 1010 (draw_of "D") (draw_of "E")) s0.
Definition s2 : Brain.t :=
  run (join join_request 1020 (draw_of "F") (draw_of "G") (draw_of "H")) s1.
Definition s3 : Brain.t := run (apply owner_session task_message 1030) s2.
Definition s4 : Brain.t := run (heartbeat guest_session 4 1040) s3.
Definition s5 : Brain.t := run (set_task_status "task-1" 5 TaskStatus.Offered 1050) s4.
Definition s6 : Brain.t := run (revoke_member guest_member 6 1060) s5.

(** A run that succeeds ends in [run]. *)
Lemma ran {E A} (m : M Brain.t E A) s :
  is_ok (m s).1 = true -> exists v, m s = (Ok v, run m s).
Proof. unfold run. destruct (m s) as [[v|e] s']; simpl; [by eauto|done]. Qed.

Lemma ok_inj {E A} (a b : A) : @Ok E A a = Ok b -> a = b.
Proof. by intros [= ->]. Qed.
Lemma ran_inj {S E A} (a b : A) (s s' : S) : (@Ok E A a, s) = (Ok b, s') -> s = s'.
Proof. by intros [= _ ->]. Qed.

Lemma bootstrapped :
  bootstrap "brain-1" owner 1000 (draw_of "A") (draw_of "B") (draw_of "C")
    = Ok (s0, owner_credential).
Proof. by vm_compute. Qed.

Lemma step01 : brain_step s0 s1.
Proof.
  destruct (ran (create_invitation 1010 (draw_of "D") (draw_of "E")) s0) as [v Hv]; [by vm_compute|].
  by eapply bs_create_invitation.
Qed.
Lemma step12 : brain_step s1 s2.
Proof.
  destruct (ran (join join_request 1020 (draw_of "F") (draw_of "G") (draw_of "H")) s1) as [v Hv];
    [by vm_compute|]. by eapply bs_join.
Qed.
Lemma task_message_ok : message_ok task_message = true.
Proof. by vm_compute. Qed.
Lemma step23 : brain_step s2 s3.
Proof.
  destruct (ran (apply owner_session task_message 1030) s2) as [v Hv]; [by vm_compute|].
  eapply bs_apply; [apply task_message_ok|done].
Qed.
Lemma step34 : brain_step s3 s4.
Proof.
  destruct (ran (heartbeat guest_session 4 1040) s3) as [v Hv]; [by vm_compute|].
  by eapply bs_heartbeat.
Qed.
Lemma step45 : brain_step s4 s5.
Proof.
  destruct (ran (set_task_status "task-1" 5 TaskStatus.Offered 1050) s4) as [v Hv]; [by vm_compute|].
  by eapply bs_set_task_status.
Qed.
Lemma step56 : brain_step s5 s6.
Proof.
  destruct (ran (revoke_member guest_member 6 1060) s5) as [v Hv]; [by vm_compute|].
  by eapply bs_revoke_member.
Qed.

Lemma reachable_steps s : rtc brain_step s0 s -> reachable s.
Proof. intros Hs. repeat eexists; [apply bootstrapped|done]. Qed.

Lemma steps24 : rtc brain_step s2 s4.
Proof. eapply rtc_l; [apply step23|]. apply rtc_once, step34. Qed.
Lemma steps02 : rtc brain_step s0 s2.
Proof. eapply rtc_l; [apply step01|]. apply rtc_once, step12. Qed.
Lemma steps45 : rtc brain_step s4 s5.
Proof. apply rtc_once, step45. Qed.
Lemma steps05 : rtc brain_step s0 s5.
Proof. etrans; [apply steps02|]. etrans; [apply steps24|apply steps45]. Qed.

(** ** Snapshots and documents *)

#[export] Instance RawCredentials_eq_dec : EqDecision RawCredentials.
Proof. solve_decision. Defined.
#[export] Instance RawInvitations_eq_dec : EqDecision RawInvitations.
Proof. solve_decision. Defined.
#[export] Instance RawNode_eq_dec : EqDecision RawNode.
Proof. solve_decision. Defined.
#[export] Instance RawTask_eq_dec : EqDecision RawTask.
Proof. solve_decision. Defined.
#[export] Instance RawBrain_eq_dec : EqDecision RawBrain.
Proof. solve_decision. Defined.
#[export] Instance Document_eq_dec : EqDecision Document.t.
Proof. solve_decision. Defined.

(** The history, and the states that a transaction or a restart writes between. *)
Definition known_brains : list Brain.t :=
  [s0; s1; s2; s3; s4; s5; s6; run (observe 1030) s2; run (observe 1050) s4;
   run (reset_presence 1100 Restart) s4].

#[export] Instance snapshot_json : SnapshotJson := {|
  snapshot_to_vec := write_known (to_raw <$> known_brains);
  snapshot_from_slice := read_known (to_raw <$> known_brains);
|}.
#[export] Instance snapshot_json_laws : SnapshotJsonLaws.
Proof. intros raw bytes. apply read_write_known. Qed.

Definition known_documents : list Document.t :=
  (fun i => Document.mk 1 (code i) (digest (code i))) <$> seq 0 (length known_brains).

#[export] Instance document_json : DocumentJson := {|
  document_to_vec := write_known known_documents;
  document_from_slice := read_known known_documents;
|}.
#[export] Instance document_json_laws : DocumentJsonLaws.
Proof. intros d bytes. apply read_write_known. Qed.

(** A serving store and its file, with the Brain number [i] of the list. *)
Definition disk_of (s : Brain.t) (i : nat) : Disk :=
  mkDisk (BrainStore.mk s (digest (code i)) false) (Regular (code i)).
End Toy.

(** Evaluates both sides of an equation. *)
Ltac evaluate := vm_compute; reflexivity.
