(* ===== verification/Witness.v ===== *)
(** * Witnesses for the Brain and the parts below it

    Each property of Protocol, Credential, Invitation, BrainThm and Snapshot applied to the
    concrete Brain of [Toy], where its hypotheses are evaluated. *)

From S2P Require Import Prelude Protocol Credential Invitation Brain BrainValid BrainInv BrainOps BrainThm Snapshot Toy.
Import Toy.

(** ** Protocol *)

Lemma message_roundtrip_witness :
  message_ok task_message = true /\
  exists bytes, message_encode task_message = Ok bytes /\ message_decode bytes = Ok task_message.
Proof.
  split; [by vm_compute|].
  destruct (message_roundtrip protocol_json_laws task_message) as (bytes & ? & ? & _);
    [by vm_compute|]. by exists bytes.
Defined.

(** ** Credentials *)

Definition empty_registry : CredentialRegistry.t :=
  CredentialRegistry.mk "brain-1" Clock_default ∅.
Definition owner_registry : CredentialRegistry.t :=
  (issue owner_binding 1000 (draw_of "C") empty_registry).2.
Definition revoked_registry : CredentialRegistry.t :=
  (revoke_credentials owner_member owner_registry).2.

Lemma empty_registry_wf : registry_wf empty_registry.
Proof. apply registry_try_from_wf; [apply Nat.leb_le|]; vm_compute; reflexivity. Qed.

Lemma owner_registry_wf : registry_wf owner_registry.
Proof. apply registry_try_from_wf; [apply Nat.leb_le|]; vm_compute; reflexivity. Qed.

Lemma revoke_owner_step : registry_step owner_registry revoked_registry.
Proof. eapply step_revoke. unfold revoked_registry. apply surjective_pairing. Qed.

Lemma issued_credential_lifetime_witness :
  issue owner_binding 1000 (draw_of "C") empty_registry = (Ok owner_credential, owner_registry) /\
  connect owner_binding owner_secret 2000 owner_registry =
    (Ok owner_session, at_time 2000 owner_registry).
Proof.
  assert (issue owner_binding 1000 (draw_of "C") empty_registry
          = (Ok owner_credential, owner_registry)) as Hissue by (vm_compute; reflexivity).
  split; [done|].
  pose proof (issued_credential_lifetime owner_binding 1000 (draw_of "C") empty_registry
    owner_credential owner_registry owner_registry 2000 empty_registry_wf Hissue (rtc_refl _ _)
    ltac:(split; by vm_compute) ltac:(by vm_compute)) as Hlife.
  cbv zeta in Hlife. rewrite bool_decide_eq_true_2 in Hlife; [exact (proj1 Hlife)|split; by vm_compute].
Defined.

Lemma revoked_forever_witness :
  is_revoked revoked_registry owner_member = true /\
  (connect owner_binding owner_secret 2000 revoked_registry).1 = Err Rejected.
Proof.
  split; [by vm_compute|].
  destruct (revoked_forever owner_member revoked_registry revoked_registry) as (_ & Hconnect & _).
  - eapply registry_step_wf; [apply owner_registry_wf|apply revoke_owner_step].
  - by vm_compute.
  - apply rtc_refl.
  - by apply Hconnect.
Defined.

(** ** Invitations *)

Definition invited : InvitationRegistry.t * CredentialRegistry.t :=
  (s1.(Brain.invitations), s1.(Brain.credentials)).
Definition redeemed : InvitationRegistry.t * CredentialRegistry.t :=
  (redeem join_request 1020 (draw_of "F") (draw_of "G") (draw_of "H") invited).2.

Lemma invitation_redeemed_once_witness :
  is_ok (redeem join_request 1020 (draw_of "F") (draw_of "G") (draw_of "H") invited).1 = true /\
  (redeem join_request 1021 (draw_of "I") (draw_of "J") (draw_of "K") redeemed).1 = Err Rejected.
Proof.
  split; [by vm_compute|].
  destruct (redeem join_request 1020 (draw_of "F") (draw_of "G") (draw_of "H") invited)
    as [[e|] s] eqn:Hrun; [|by vm_compute in Hrun].
  assert (s = redeemed) as -> by (unfold redeemed; by rewrite Hrun).
  exact (invitation_redeemed_once _ _ _ _ _ _ _ _ redeemed join_request 1021 _ _ _ Hrun
    (rtc_refl _ _) eq_refl).
Defined.

Definition late : InvitationRegistry.t * CredentialRegistry.t :=
  (redeem join_request 1700 (draw_of "F") (draw_of "G") (draw_of "H") invited).2.

Lemma failed_redeem_keeps_witness :
  (redeem join_request 1700 (draw_of "F") (draw_of "G") (draw_of "H") invited).1 = Err Rejected /\
  late.1.(InvitationRegistry.pending) = invited.1.(InvitationRegistry.pending).
Proof.
  split; [by vm_compute|].
  apply (failed_redeem_keeps join_request 1700 (draw_of "F") (draw_of "G") (draw_of "H")
    invited.1 invited.2 Rejected late.1 late.2). vm_compute. reflexivity.
Defined.

Definition issued_invitation : IssuedInvitation.t :=
  IssuedInvitation.mk "brain-1" (hex_of "D") 1610 (mkToken (hex_of "E")).
Definition issued_request : JoinRequest.t :=
  JoinRequest.mk issued_invitation.(IssuedInvitation.brain_id)
    issued_invitation.(IssuedInvitation.invitation_id)
    issued_invitation.(IssuedInvitation.secret) "identity-2" "device-2" "Bob".

Lemma guest_enrollable :
  enrollable invited.2 (joined_binding s0.(Brain.invitations).(InvitationRegistry.brain_id)
    issued_request (mkToken (hex_of "F")) (mkToken (hex_of "G"))) 1609.
Proof.
  split; [split|..|apply Nat.ltb_lt|]; by vm_compute.
Qed.

Lemma invitation_lifetime_witness :
  is_ok (redeem issued_request 1609 (draw_of "F") (draw_of "G") (draw_of "H")
           (invited.1, invited.2)).1 = (1609 <? 1010 + 600)%Z.
Proof.
  assert (create 1010 (draw_of "D") (draw_of "E") s0.(Brain.invitations) =
    (Ok issued_invitation, invited.1)) as Hcreate by (vm_compute; reflexivity).
  exact (invitation_lifetime 1010 (draw_of "D") (draw_of "E") s0.(Brain.invitations)
    issued_invitation invited.1 invited.2 1609 (draw_of "F") (draw_of "G") (draw_of "H")
    (mkToken (hex_of "F")) (mkToken (hex_of "G")) (mkToken (hex_of "H")) "device-2" "identity-2"
    "Bob" Hcreate ltac:(by vm_compute) ltac:(by vm_compute) ltac:(by vm_compute)
    ltac:(by vm_compute) ltac:(by vm_compute) ltac:(by vm_compute) ltac:(by vm_compute)
    ltac:(by vm_compute) ltac:(by vm_compute) ltac:(by vm_compute) guest_enrollable).
Defined.

(** ** The Brain *)

Lemma reachable_validates_witness : reachable s5 /\ validate s5 = Ok tt.
Proof.
  split; [apply reachable_steps, steps05|].
  apply (reachable_validates s5), reachable_steps, steps05.
Defined.

Lemma revision_identifies_content_witness :
  reachable s0 /\ (s2.(Brain.revision) <= s4.(Brain.revision) <= 9007199254740991)%N.
Proof.
  split; [apply reachable_steps, rtc_refl|].
  exact (proj1 (revision_identifies_content s0 s2 s4 (reachable_steps _ (rtc_refl _ _))
    steps02 steps24)).
Defined.

Lemma apply_exactly_once_witness :
  apply owner_session task_message 1030 s2 = (Ok 4%N, s3) /\
  (apply owner_session task_message 1045 s4).1 = Ok 4%N /\
  (apply owner_session other_message 1045 s4).1 = Err Conflict.
Proof.
  assert (apply owner_session task_message 1030 s2 = (Ok 4%N, s3)) as Hrun by evaluate.
  split; [done|]. split.
  - destruct (apply_exactly_once owner_session task_message 1030 s2 4 s3 s4 owner_session
      task_message 1045 (digest (code 0)) Hrun (rtc_once _ _ step34) eq_refl eq_refl
      ltac:(evaluate) ltac:(evaluate) ltac:(evaluate) ltac:(by eexists; split_and!; vm_compute)
      ltac:(evaluate) ltac:(by vm_compute) ltac:(by vm_compute)) as (x & _ & _ & ->).
    by rewrite bool_decide_eq_true_2.
  - destruct (apply_exactly_once owner_session task_message 1030 s2 4 s3 s4 owner_session
      other_message 1045 (digest (code 2)) Hrun (rtc_once _ _ step34) eq_refl eq_refl
      ltac:(evaluate) ltac:(evaluate) ltac:(evaluate) ltac:(by eexists; split_and!; vm_compute)
      ltac:(evaluate) ltac:(by vm_compute) ltac:(by vm_compute)) as (x & _ & _ & ->).
    by rewrite bool_decide_eq_false_2.
Defined.

Lemma task_history_witness :
  exists t t', s3.(Brain.tasks) !! "task-1" = Some t /\ s5.(Brain.tasks) !! "task-1" = Some t' /\
    t'.(TaskRecord.source) = t.(TaskRecord.source).
Proof.
  set (t := TaskRecord.mk task_message TaskStatus.Draft 4).
  destruct (task_history s3 s5 "task-1" t) as (t' & Ht' & Hsource & _).
  - eapply rtc_l; [apply step34|apply steps45].
  - evaluate.
  - exists t, t'. split_and!; [evaluate|done|done].
Defined.

Lemma revoked_member_locked_out_witness :
  revoke_member guest_member 6 1060 s5 = (Ok 7%N, s6) /\
  (brain_connect guest_binding guest_secret 1070 s6).1 = Err (Access Rejected).
Proof.
  assert (revoke_member guest_member 6 1060 s5 = (Ok 7%N, s6)) as Hrun by evaluate.
  split; [done|].
  destruct (revoked_member_locked_out guest_member 6 1060 s5 7 s6 s6
    (reachable_steps _ steps05) Hrun (rtc_refl _ _)) as (_ & Hconnect & _).
  by apply Hconnect.
Defined.

Definition restarted : Brain.t := run (reset_presence 1100 Restart) s4.

Lemma reset_presence_spec_witness :
  reset_presence 1100 Restart s4 = (Ok 6%N, restarted) /\
  restarted.(Brain.tasks) = s4.(Brain.tasks).
Proof.
  assert (reset_presence 1100 Restart s4 = (Ok 6%N, restarted)) as Hrun by evaluate.
  split; [done|].
  refine (proj1 (reset_presence_spec 1100 Restart s4 6 restarted _ Hrun)).
  apply reachable_wf, reachable_steps. etrans; [apply steps02|apply steps24].
Defined.

(** ** Snapshots *)

Lemma snapshot_roundtrip_witness :
  brain_encode s3 = Ok (code 3) /\ brain_decode (code 3) "brain-1" = Ok s3.
Proof.
  assert (brain_encode s3 = Ok (code 3)) as Henc by evaluate. split; [done|].
  refine (proj1 (snapshot_roundtrip snapshot_json_laws s3 (code 3) _ Henc)).
  apply reachable_steps. etrans; [apply steps02|apply rtc_once, step23].
Defined.
