(* ===== verification/WitnessSync.v ===== *)
(** * Witnesses for the store, the Node, the synchronisation and the host

    Each property of Storage, Node, Sync, Host and HostSync applied to the concrete Brain of [Toy]. *)

From S2P Require Import Prelude Protocol Credential Invitation Brain BrainValid BrainInv BrainOps BrainThm Snapshot Storage Reconcile Node Delta Wire Client Sync Host HostSync Toy.
Import Toy.

(** The size of a projection, one byte per record, up to the number a view can have. *)
#[local] Instance records_json : RecordsJson := fun m => Some (code_of_size (Nat.min 192 (size m))).
(** Pages are written as their revision and not read back here. *)
#[local] Instance page_json : PageJson := {|
  page_to_vec := fun p => Some (code_of_size (N.to_nat p.(Page.at_)));
  page_from_slice := fun _ => None;
|}.

(** ** The store *)

Lemma in_sync_of s i :
  brain_wf s -> len (code i) = 1%N -> load (code i) s.(Brain.brain_id) = Ok s ->
  in_sync (disk_of s i).
Proof. intros Hwf Hl Hload. split; [done..|]. exists (code i). rewrite Hl. by split_and!. Qed.

(** Two documents of the list collide only if they are the same. *)
Lemma separate s i s' b' :
  document s' = Ok b' -> digest b' <> digest (code i) -> ~ collides (disk_of s i) s'.
Proof.
  intros Hd Hne (b & b'' & [= <-] & Hd' & _ & Hsha). rewrite Hd in Hd'. injection Hd' as <-.
  by apply Hne.
Qed.

Lemma s2_wf : brain_wf s2.
Proof. apply reachable_wf, reachable_steps, steps02. Qed.
Lemma s4_wf : brain_wf s4.
Proof. apply reachable_wf, reachable_steps. etrans; [apply steps02|apply steps24]. Qed.

Lemma s2_in_sync : in_sync (disk_of s2 2).
Proof. apply in_sync_of; [apply s2_wf|done|evaluate]. Qed.
Lemma s4_in_sync : in_sync (disk_of s4 4).
Proof. apply in_sync_of; [apply s4_wf|done|evaluate]. Qed.

Lemma transact_atomic_witness :
  transact 1030 (apply owner_session task_message 1030) (draw_of "N") Committed (disk_of s2 2)
    = (Ok 4%N, disk_of s3 3) /\
  in_sync (disk_of s3 3).
Proof.
  assert (transact 1030 (apply owner_session task_message 1030) (draw_of "N") Committed
    (disk_of s2 2) = (Ok 4%N, disk_of s3 3)) as Hrun by evaluate.
  split; [done|].
  refine (proj1 (proj1 (transact_atomic snapshot_json_laws document_json_laws 1030
    (apply owner_session task_message 1030) (draw_of "N") Committed (disk_of s2 2) (Ok 4%N)
    (disk_of s3 3) s2_in_sync _ Hrun _) 4%N eq_refl)).
  - apply step_sound. intros s v s' Hs. eapply bs_apply; [apply task_message_ok|done].
  - eapply separate; [evaluate|by vm_compute].
Defined.

Definition fenced : Disk :=
  mkDisk (BrainStore.mk s2 (digest (code 2)) false) (Regular (code 3)).

Lemma transact_fenced_witness :
  exists e d', transact 1030 (observe 1030) (draw_of "N") Committed fenced = (Err e, d') /\
    d'.(file) = fenced.(file).
Proof.
  destruct (transact_fenced 1030 (observe 1030) (draw_of "N") Committed fenced)
    as (e & d' & Hrun & _ & Hfile & _).
  - right. intros (bytes & [= <-] & Hsha). by vm_compute in Hsha.
  - by exists e, d'.
Defined.

Definition restarted_store : BrainStore.t :=
  BrainStore.mk (run (reset_presence 1100 Restart) s4) (digest (code 9)) false.

Lemma open_restores_witness :
  store_open "brain-1" 1100 (Ok tt) (draw_of "N") Committed (Regular (code 4))
    = (Ok restarted_store, Regular (code 9)) /\
  in_sync (mkDisk restarted_store (Regular (code 9))).
Proof.
  assert (store_open "brain-1" 1100 (Ok tt) (draw_of "N") Committed (Regular (code 4))
    = (Ok restarted_store, Regular (code 9))) as Hrun by evaluate.
  split; [done|].
  refine (proj1 (open_restores snapshot_json_laws document_json_laws "brain-1" 1100 (draw_of "N")
    Committed (Regular (code 4)) (Ok restarted_store) (Regular (code 9)) (code 4) eq_refl _ Hrun)).
  assert (load (code 4) "brain-1" = Ok s4) as Hload by evaluate.
  intros old brain Hold Hst (b & b' & [= <-] & Hd & _ & Hsha).
  rewrite Hload in Hold. apply ok_inj in Hold. subst old.
  assert (observe 1100 s4 = (Ok tt, run (observe 1100) s4)) as Hobs by evaluate.
  destruct Hst as [Ho|(brain1 & v & Ho & Hreset)]; rewrite Hobs in Ho; apply ran_inj in Ho.
  - assert (is_ok (document (run (observe 1100) s4)) = false) as Hno by evaluate.
    rewrite Ho, Hd in Hno. discriminate Hno.
  - assert (reset_presence 1100 Restart (run (observe 1100) s4) =
      (Ok 6%N, run (reset_presence 1100 Restart) s4)) as Hr by evaluate.
    rewrite <- Ho, Hr in Hreset. apply ran_inj in Hreset.
    assert (document (run (reset_presence 1100 Restart) s4) = Ok (code 9)) as Hd' by evaluate.
    rewrite <- Hreset, Hd' in Hd. apply ok_inj in Hd. subst b'. vm_compute in Hsha. discriminate Hsha.
Defined.

Definition created_store : BrainStore.t := BrainStore.mk s0 (digest (code 0)) false.

Lemma create_is_durable_witness :
  store_create "brain-1" owner 1000 (draw_of "A") (draw_of "B") (draw_of "C") (Ok tt) (draw_of "N")
    Committed Missing = (Ok (created_store, owner_credential), Regular (code 0)) /\
  in_sync (mkDisk created_store (Regular (code 0))).
Proof.
  assert (store_create "brain-1" owner 1000 (draw_of "A") (draw_of "B") (draw_of "C") (Ok tt)
    (draw_of "N") Committed Missing
    = (Ok (created_store, owner_credential), Regular (code 0))) as Hrun by evaluate.
  split; [done|].
  exact (proj1 (proj2 (create_is_durable snapshot_json_laws document_json_laws _ _ _ _ _ _ _ _ _ _
    _ _ Hrun) created_store owner_credential eq_refl)).
Defined.

(** ** The Node *)

Definition empty_node : Node.t := Node.mk owner_binding 0 ∅ None false ∅ None.

(** The pages of [s3] for the owner, one record each. *)
Definition page_of (offset : N) : Page.t :=
  make_page s3 owner_member (ReconcileRequest.mk 0 (if (offset =? 0)%N then None else Some 4%N) offset).
Definition received (k : nat) : Node.t :=
  foldl (fun n i => (accept_page (page_of (N.of_nat i)) n).2) empty_node (seq 0 k).

Lemma accept_page_atomic_witness :
  accept_page (page_of 4) (received 4) = (Ok None, received 5) /\
  (received 5).(Node.ready) = true.
Proof.
  assert (accept_page (page_of 4) (received 4) = (Ok None, received 5)) as Hrun by evaluate.
  split; [done|].
  exact (proj2 (proj2 (accept_page_atomic (page_of 4) (received 4) (Ok None) (received 5) Hrun))).
Defined.

Definition running_record : SharedRecord.t :=
  SharedRecord.mk 4 (SharedData.Task "task-1" TaskStatus.Running task_message).
Definition running_node : Node.t :=
  Node.mk owner_binding 4 {[ task_key "task-1" := running_record ]} None true ∅ None.

Lemma lost_task_never_running_witness :
  task_status running_node "task-1" = Some TaskStatus.Running /\
  task_status (disconnect running_node) "task-1" <> Some TaskStatus.Running.
Proof.
  split; [evaluate|].
  apply (lost_task_never_running running_node (disconnect running_node) (task_key "task-1")
    running_record "task-1" task_message); [evaluate|done|apply rtc_refl].
Defined.

Definition queued_node : Node.t := (queue_confirmed task_message (received 5)).2.

Lemma confirmed_message_retried_witness :
  outgoing queued_node = Ok (mkMessage (task_envelope 4 "Ship it")) /\
  payload_hash (mkMessage (task_envelope 4 "Ship it")) = payload_hash task_message.
Proof.
  assert (outgoing queued_node = Ok (mkMessage (task_envelope 4 "Ship it"))) as Hout by evaluate.
  split; [done|].
  refine (proj1 (proj2 (confirmed_message_retried task_message (received 5) queued_node queued_node
    (mkMessage (task_envelope 4 "Ship it")) _ _ (rtc_refl _ _) Hout))); evaluate.
Defined.

(** ** Synchronisation *)

Definition toy_client : Client.t := Client.mk owner_binding empty_node true.

Lemma s3_reachable : reachable s3.
Proof. apply reachable_steps. etrans; [apply steps02|apply rtc_once, step23]. Qed.

Lemma delta_sync_exact_witness :
  rtc brain_step s2 s4 /\
  list_to_map (keyed <$> changes s4 owner_member s2.(Brain.revision)) ∪ view s2 owner_member
    = view s4 owner_member.
Proof. split; [apply steps24|]. apply (delta_sync_exact s2 s4 owner_member), steps24. Defined.

Definition first_page : Page.t := make_page s3 owner_member (ReconcileRequest.mk 0 None 0).

Lemma reconcile_discloses_witness :
  exists s', reconcile owner_session (ReconcileRequest.mk 0 None 0) 1035 s3 = (Ok first_page, s') /\
    page_validate first_page = Ok tt.
Proof.
  exists (run (reconcile owner_session (ReconcileRequest.mk 0 None 0) 1035) s3).
  assert (reconcile owner_session (ReconcileRequest.mk 0 None 0) 1035 s3 =
    (Ok first_page, run (reconcile owner_session (ReconcileRequest.mk 0 None 0) 1035) s3))
    as Hrun by evaluate.
  split; [exact Hrun|].
  exact (proj1 (reconcile_discloses owner_session _ 1035 s3 first_page _ s3_reachable Hrun)).
Defined.

(** ** The host *)

Definition toy_env : Env :=
  mkEnv 5 true true (draw_of "P") (draw_of "Q") (draw_of "R") (draw_of "N") Committed.
Definition session_of (d : Disk) (p : Phase.t) : HostSession.t :=
  HostSession.mk d (limiter_new 100 0) p ∅.

(** The owner's session on [s3], and five calls to it. *)
Definition toy_call (i : nat) : Call.t := Call.mk [] Delivered ("call-" +:+ code i) toy_env 1030.
Definition toy_peer : HostPeer.t :=
  HostPeer.mk (session_of (disk_of s3 3) (Phase.Active owner_session)) (toy_call <$> seq 0 5).

Lemma s3_in_sync : in_sync (disk_of s3 3).
Proof. apply in_sync_of; [apply reachable_wf, s3_reachable|done|evaluate]. Qed.

Lemma toy_owner_live : session_live s3.(Brain.credentials) owner_session 1030.
Proof.
  destruct (authorize owner_session 1030 s3) as [[u|e] s'] eqn:Ha; [by apply authorize_ok in Ha as (_ & ? & _)|].
  exfalso. apply (f_equal (fun r => is_ok r.1)) in Ha. by vm_compute in Ha.
Qed.

Lemma toy_undisturbed i : i < 5 -> undisturbed s3 owner_session (toy_call i).
Proof.
  intros Hi. split; try (vm_compute; reflexivity).
  - do 5 (destruct i as [|i]; [evaluate|]). lia.
  - by vm_compute.
  - apply toy_owner_live.
  - intros q. eexists. split; [reflexivity|]. rewrite len_code_of_size. by vm_compute.
Qed.

Lemma toy_quiet : quiet s3 owner_session toy_peer.(HostPeer.session) toy_peer.(HostPeer.calls).
Proof.
  assert (forall call, call ∈ toy_peer.(HostPeer.calls) -> exists i, i < 5 /\ call = toy_call i) as Hcall.
  { intros call (i & -> & Hi%elem_of_seq)%list_elem_of_fmap. exists i. split; [lia|done]. }
  split.
  - intros call (i & Hi & ->)%Hcall. by apply toy_undisturbed.
  - apply (bool_decide_unpack _). evaluate.
  - intros call _. apply not_elem_of_empty.
  - apply (bool_decide_unpack _). evaluate.
  - by vm_compute.
  - by vm_compute.
  - unfold toy_peer. simpl. repeat (constructor; [|repeat constructor; reflexivity]). constructor.
  - intros c c' (i & _ & ->)%Hcall (i' & _ & ->)%Hcall k n _. reflexivity.
Qed.

Lemma client_converges_witness :
  exists c' p', client_reconcile (host_exchange (V := unit)) (toy_client, toy_peer) = (Ok tt, (c', p')) /\
    synchronised (HostPeer.brain p') toy_client c'.
Proof.
  destruct (client_converges (V := unit) snapshot_json_laws toy_client toy_peer owner_session eq_refl s3_in_sync)
    as (Hexact & _ & Hreturns).
  - split; [done|]. by left.
  - reflexivity.
  - reflexivity.
  - unfold calls_ok, toy_peer. simpl. repeat constructor.
  - destruct Hreturns as (c' & p' & Hrun); [exact toy_quiet|done|by vm_compute|evaluate| |by eauto].
    intros call (i & -> & Hi)%list_elem_of_fmap s. split; [by vm_compute|].
    intros j. eexists. split; [reflexivity|]. rewrite len_code_of_size. lia.
Defined.

Lemma unauthenticated_refused_witness :
  exists e, (handle toy_env (Request.mk 1 "request-1" Operation.Pulse) 1030
               (session_of (disk_of s2 2) Phase.Fresh)).1.(Response.result) = Reply.Error e.
Proof.
  destruct (unauthenticated_refused toy_env (Request.mk 1 "request-1" Operation.Pulse) 1030
    (session_of (disk_of s2 2) Phase.Fresh)) as (e & He & _); [done|done|]. by exists e.
Defined.

Definition submit : Request.t := Request.mk 1 "request-1" (Operation.Submit task_message).
Definition submitting : HostSession.t := session_of (disk_of s2 2) (Phase.Active owner_session).

Lemma submit_answered :
  (handle toy_env submit 1030 submitting).1.(Response.result) = Reply.Applied "key-1" 4 /\
  (handle toy_env submit 1030 submitting).2.(HostSession.disk) = disk_of s3 3.
Proof. split; evaluate. Qed.

Lemma handle_durable_witness :
  (handle toy_env submit 1030 submitting).1.(Response.result) = Reply.Applied "key-1" 4 /\
  in_sync (handle toy_env submit 1030 submitting).2.(HostSession.disk).
Proof.
  destruct submit_answered as [Hreply Hdisk]. split; [exact Hreply|].
  pose proof (handle_durable snapshot_json_laws document_json_laws toy_env submit 1030 submitting
    s2_in_sync) as Hdur.
  rewrite Hreply in Hdur. refine (proj1 (Hdur _ _)).
  - unfold separated. rewrite Hdisk. eapply separate; [evaluate|by vm_compute].
  - intros m [= <-]. apply task_message_ok.
Defined.

Definition guest_invite : Request.t := Request.mk 1 "request-2" Operation.Invite.
Definition guest_host : HostSession.t := session_of (disk_of s4 4) (Phase.Active guest_session).

Lemma guest_invite_disk :
  (handle toy_env guest_invite 1050 guest_host).2.(HostSession.disk) =
    disk_of (run (observe 1050) s4) 8.
Proof. evaluate. Qed.

Lemma admin_needs_owner_witness :
  exists e, (handle toy_env guest_invite 1050 guest_host).1.(Response.result) = Reply.Error e /\
    only_time_passed 1050 (disk_of s4 4) (handle toy_env guest_invite 1050 guest_host).2.(HostSession.disk).
Proof.
  destruct (admin_needs_owner snapshot_json_laws document_json_laws toy_env guest_invite 1050
    guest_host guest_session s4_in_sync) as (e & He & Htime).
  - unfold separated. rewrite guest_invite_disk. eapply separate; [evaluate|by vm_compute].
  - reflexivity.
  - by vm_compute.
  - reflexivity.
  - exists e. split; [exact He|exact Htime].
Defined.

Lemma limiter_bounds_rate_witness :
  ((grants [1; 2; 3]%N (limiter_new 2 0)).1 <= 4)%N.
Proof.
  refine (proj1 (limiter_bounds_rate [1; 2; 3]%N (limiter_new 2 0) 0 _ _)); [done|].
  repeat constructor; by vm_compute.
Defined.
