(* ===== verification/TaskWitness.v ===== *)
(** * Witnesses for the local task model

    The properties of TaskArtifact, TaskReceipt and TaskMachine on a task that is accepted,
    run once and closed by a receipt. *)

From S2P Require Import Prelude TaskArtifact TaskReceipt TaskMachine Toy.

#[local] Existing Instances Toy.sha256 Toy.sha256_laws.

(** ** The patch *)

Definition toy_commit : string := "0123456789abcdef0123456789abcdef01234567".
Definition toy_diff : GitRun := Read "diff --git a/f b/f" (Exited true).
Definition toy_patch : PatchArtifact.t :=
  PatchArtifact.mk toy_commit PatchArtifactState.Complete MAX_PATCH_BYTES
    (Some 18%N) (Some (sha256_hex "diff --git a/f b/f")) (Some "diff --git a/f b/f").

(** The reader's buffer, 512 KiB, is larger than what is evaluated here. *)
Lemma toy_collected :
  collect toy_commit true (Read "" (Exited true)) true toy_diff = Ok toy_patch.
Proof.
  unfold collect, git_output. cbn [negb]. unfold toy_diff. rewrite !run_git_read. evaluate.
Qed.

Lemma collected_patch_valid_witness :
  collect toy_commit true (Read "" (Exited true)) true toy_diff = Ok toy_patch /\
  artifact_is_valid toy_patch = true.
Proof.
  split; [apply toy_collected|].
  refine (proj1 (collected_patch_valid toy_commit true (Read "" (Exited true)) true toy_diff
    toy_patch _ toy_collected)). evaluate.
Defined.

(** ** The receipt *)

Definition toy_input : RunReceiptInput.t :=
  RunReceiptInput.mk "task-1" "run-1" "node-1" "codex" "1.0" 10 20 RunReceiptOutcome.Success
    (Some "done") None (TestReport.Reported [TestExecution.mk "unit" 0]) toy_patch.

Definition toy_payload : ReceiptPayload.t :=
  ReceiptPayload.mk 1 "task-1" "run-1" "node-1" "codex" "1.0" 10 20 RunReceiptOutcome.Success
    (Some "done") None (TestReport.Reported [TestExecution.mk "unit" 0]) (metadata_of toy_patch).

#[local] Instance receipt_json : ReceiptJson := Toy.write_known [toy_payload].
#[local] Instance receipt_json_laws : ReceiptJsonLaws.
Proof.
  intros p p' bytes Hp Hp'. apply Toy.read_write_known in Hp, Hp'. congruence.
Qed.

Definition toy_receipt : RunReceipt.t :=
  RunReceipt.mk 1 "task-1" "run-1" "node-1" "codex" "1.0" 10 20 RunReceiptOutcome.Success
    (Some "done") None (TestReport.Reported [TestExecution.mk "unit" 0]) (metadata_of toy_patch)
    (sha256_hex (Toy.code 0)).

Lemma receipt_new_verifies_witness :
  receipt_new toy_input = Ok toy_receipt /\ verify toy_receipt = Ok tt.
Proof.
  assert (receipt_new toy_input = Ok toy_receipt) as Hnew by evaluate. split; [done|].
  exact (proj1 (receipt_new_verifies toy_input toy_receipt Hnew)).
Defined.

Lemma receipt_hash_binds_witness :
  verify toy_receipt = Ok tt /\
  (toy_receipt = toy_receipt \/ exists bytes bytes',
     receipt_payload_to_vec (receipt_payload toy_receipt) = Some bytes /\
     receipt_payload_to_vec (receipt_payload toy_receipt) = Some bytes' /\
     bytes <> bytes' /\ sha256_digest bytes = sha256_digest bytes').
Proof.
  assert (verify toy_receipt = Ok tt) as Hv by evaluate. split; [done|].
  exact (receipt_hash_binds toy_receipt toy_receipt receipt_json_laws Hv Hv eq_refl).
Defined.

(** ** The task *)

Definition after {A} (m : TaskM A) (r : TaskRecord.t) : TaskRecord.t := (m r).2.

Definition t0 : TaskRecord.t :=
  TaskRecord.mk "task-1" (TaskSpec.mk "Ship it" ["No new dependencies"]) TaskStatus.Draft None None [] [].
Definition t1 := after (transition TaskStatus.Offered TransitionDetails.default) t0.
Definition t2 := after (transition TaskStatus.Accepted TransitionDetails.default) t1.
Definition t3 := after (register_run "run-1") t2.
Definition t4 := after (transition TaskStatus.Running TransitionDetails.default) t3.
Definition t5 := after (transition_run "run-1" RunStatus.Running TransitionDetails.default) t4.
Definition t6 :=
  after (transition_run "run-1" RunStatus.Completed (TransitionDetails.mk (Some "done") None)) t5.
Definition t7 := after (attach_receipt "run-1" toy_receipt) t6.
Definition t8 := after (transition TaskStatus.AwaitingReview TransitionDetails.default) t7.

Lemma t7_reachable : task_reachable t7.
Proof.
  exists "task-1", (TaskSpec.mk "Ship it" ["No new dependencies"]), t0. split; [evaluate|].
  eapply rtc_l; [apply (ts_transition t0 t1 TaskStatus.Offered TransitionDetails.default); evaluate|].
  eapply rtc_l; [apply (ts_transition t1 t2 TaskStatus.Accepted TransitionDetails.default); evaluate|].
  eapply rtc_l; [apply (ts_register_run t2 t3 "run-1"); evaluate|].
  eapply rtc_l; [apply (ts_transition t3 t4 TaskStatus.Running TransitionDetails.default); evaluate|].
  eapply rtc_l; [apply (ts_transition_run t4 t5 "run-1" RunStatus.Running TransitionDetails.default); evaluate|].
  eapply rtc_l; [apply (ts_transition_run t5 t6 "run-1" RunStatus.Completed
    (TransitionDetails.mk (Some "done") None)); evaluate|].
  apply rtc_once. apply (ts_attach_receipt t6 t7 "run-1" toy_receipt). evaluate.
Qed.

Lemma reachable_task_validates_witness : task_validate t7 = Ok tt.
Proof. apply (reachable_task_validates t7), t7_reachable. Defined.

Lemma task_log_replays_witness :
  replay t7.(TaskRecord.events) =
    Some (TaskStatus.Running, {[ "run-1" := RunStatus.Completed ]}).
Proof. exact (task_log_replays t7 t7_reachable). Defined.

Definition closed_run : RunRecord.t :=
  RunRecord.mk "run-1" RunStatus.Completed (Some "done") None (Some toy_receipt).

Lemma receipt_is_final_witness :
  closed_run ∈ t7.(TaskRecord.runs) /\ closed_run ∈ t8.(TaskRecord.runs).
Proof.
  assert (t7.(TaskRecord.runs) = [closed_run]) as Hruns by evaluate.
  assert (closed_run ∈ t7.(TaskRecord.runs)) as Hin by (rewrite Hruns; by apply list_elem_of_singleton).
  split; [done|]. refine (receipt_is_final t7 t8 closed_run toy_receipt t7_reachable _ Hin eq_refl).
  apply (ts_transition t7 t8 TaskStatus.AwaitingReview TransitionDetails.default). evaluate.
Defined.
