(* ===== verification/ServiceWitness.v ===== *)
(** * Witnesses for the task service

    One task on one device: created, accepted, registered, begun and closed by a receipt, or
    found running by a restart. *)

From S2P Require Import Prelude TaskArtifact TaskReceipt TaskMachine TaskStore TaskService TaskPlan TaskThm TaskRuns Toy TaskWitness.

#[local] Existing Instances Toy.sha256 TaskWitness.receipt_json.

Definition toy_project : string :=
  "project-v1-0123456789abcdef0123456789abcdef0123456789abcdef0123456789abcdef".
Definition toy_create : CreateTaskRequest.t :=
  CreateTaskRequest.mk "task-1" "key-1" toy_project (TaskSpec.mk "Ship it" []).
Definition toy_register : RegisterRunRequest.t :=
  RegisterRunRequest.mk "task-1" "run-1" "run-key-1" toy_project.

(** The stored lists along the history *)
Definition stored_after (call : Call.t) (tasks : list StoredTask.t) : list StoredTask.t :=
  match plan call tasks with Ok (Some next, _) => next | _ => tasks end.

Definition l1 := stored_after (Call.CreateTask toy_create) [].
Definition l2 := stored_after (Call.AcceptTask toy_project "task-1") l1.
Definition l3 := stored_after (Call.RegisterRun toy_register) l2.
Definition l4 := stored_after (Call.BeginRun "task-1" "run-1") l3.
Definition l5 := stored_after (Call.FinalizeRun toy_receipt) l4.
Definition l6 := stored_after Call.ReconcileIncompleteRuns l4.

(** A run that goes back and forth until its task's log is full *)
Fixpoint toggled (n : nat) (tasks : list StoredTask.t) : list StoredTask.t :=
  match n with
  | O => tasks
  | S n => toggled n (stored_after (Call.TransitionRun "task-1" "run-1"
             (if Nat.even n then RunStatus.WaitingApproval else RunStatus.Running)) tasks)
  end.
Definition l7 := toggled 123 l4.

Definition known_lists : list (list StoredTask.t) :=
  Eval vm_compute in [[]; l1; l2; l3; l4; l5; l6; l7].
Definition known_tasks : list StorageDocument.t := StorageDocument.mk 1 <$> known_lists.

(** The file is one letter and a newline. *)
Definition chop (s : string) : string :=
  match s with String c (String _ EmptyString) => String c EmptyString | _ => EmptyString end.
#[local] Instance tasks_json : TasksJson := {|
  tasks_to_vec_pretty := Toy.write_known known_tasks;
  tasks_envelope_from_slice s := StorageDocument.version <$> Toy.read_known known_tasks (chop s);
  tasks_from_slice s := Toy.read_known known_tasks (chop s);
|}.
#[local] Instance tasks_json_laws : TasksJsonLaws.
Proof.
  intros d bytes Hw. apply Toy.read_write_known in Hw as Hr.
  assert (chop (bytes +:+ newline) = bytes) as Hchop.
  { unfold tasks_to_vec_pretty, tasks_json, Toy.write_known in Hw.
    apply bind_Some in Hw as ([i e] & _ & Hw). simpl in Hw. case_match; simplify_eq. done. }
  unfold tasks_envelope_from_slice, tasks_from_slice, tasks_json. by rewrite Hchop, Hr.
Qed.

(** The service over the list of a number, before and after it has loaded it *)
Definition file_of (i : nat) : TaskFile := Some (Toy.code i +:+ newline).
Definition fresh (i : nat) : Service.t := Service.new (file_of i).
Definition loaded (i : nat) (tasks : list StoredTask.t) : Service.t := Service.mk (file_of i) (Some tasks).

Lemma fresh_coherent i tasks :
  load Io.fine (file_of i) = (Ok tasks, file_of i) -> coherent (fresh i) tasks.
Proof. intros Hload. split; [by exists (file_of i)|by left]. Qed.

Lemma fresh_l0 : coherent (fresh 0) [].
Proof. apply fresh_coherent. evaluate. Qed.
Lemma fresh_l2 : coherent (fresh 2) l2.
Proof. apply fresh_coherent. evaluate. Qed.
Lemma fresh_l3 : coherent (fresh 3) l3.
Proof. apply fresh_coherent. evaluate. Qed.
Lemma fresh_l4 : coherent (fresh 4) l4.
Proof. apply fresh_coherent. evaluate. Qed.
Lemma fresh_l7 : coherent (fresh 7) l7.
Proof. apply fresh_coherent. evaluate. Qed.

(** The task of the list with one task *)
Definition only (tasks : list StoredTask.t) : TaskRecord.t :=
  match tasks with task :: _ => task.(StoredTask.record) | [] => t0 end.
Definition its_run (tasks : list StoredTask.t) : RunRecord.t :=
  match (only tasks).(TaskRecord.runs) with run :: _ => run | [] => closed_run end.

(** A failed write: the machine's list is not stored. *)
Definition full_disk : TaskEnv.t := TaskEnv.mk true Io.fine (Io.mk true true false).

Lemma service_refines_witness :
  serve full_disk (Call.BeginRun "task-1" "run-1") (fresh 3)
    = (Err TaskServiceError.Storage, loaded 3 l3) /\
  exists tasks', coherent (loaded 3 l3) tasks' /\
    permitted full_disk (Call.BeginRun "task-1" "run-1") l3 (Err TaskServiceError.Storage) tasks'.
Proof.
  assert (serve full_disk (Call.BeginRun "task-1" "run-1") (fresh 3)
    = (Err TaskServiceError.Storage, loaded 3 l3)) as Hserve by evaluate. split; [done|].
  exact (service_refines tasks_json_laws full_disk (Call.BeginRun "task-1" "run-1") (fresh 3) l3
    (Err TaskServiceError.Storage) (loaded 3 l3) fresh_l3 Hserve).
Defined.

Definition toy_actions : list Action :=
  [Do TaskEnv.fine (Call.CreateTask toy_create); Do full_disk (Call.AcceptTask toy_project "task-1");
   Do TaskEnv.fine (Call.AcceptTask toy_project "task-1"); Restart;
   Do TaskEnv.fine (Call.RegisterRun toy_register); Do TaskEnv.fine (Call.BeginRun "task-1" "run-1");
   Restart; Do TaskEnv.fine Call.ReconcileIncompleteRuns].

Lemma stored_tasks_reachable_witness :
  TaskThm.after toy_actions (Service.new None) = loaded 6 l6 /\
  exists tasks, loads (TaskThm.after toy_actions (Service.new None)).(Service.file) tasks /\
    tasks_ok tasks /\
    Forall (fun task => task_reachable task.(StoredTask.record)) tasks /\
    Forall (fun task => replay task.(StoredTask.record).(TaskRecord.events)
                        = Some (view_of task.(StoredTask.record))) tasks.
Proof. split; [evaluate|]. exact (stored_tasks_reachable tasks_json_laws toy_actions). Defined.

(** Begun, lost to a restart, and asked for again twice *)
Definition begin_again : list Action :=
  [Do full_disk (Call.BeginRun "task-1" "run-1"); Do TaskEnv.fine (Call.BeginRun "task-1" "run-1");
   Restart; Do TaskEnv.fine (Call.BeginRun "task-1" "run-1");
   Do TaskEnv.fine (Call.BeginRun "task-1" "run-1")].

Lemma run_started_once_witness :
  starts "task-1" "run-1" begin_again (fresh 3) = 1 /\
  starts "task-1" "run-1" begin_again (fresh 3) <= 1.
Proof.
  split; [evaluate|].
  refine (run_started_once tasks_json_laws "task-1" "run-1" begin_again (fresh 3) l3 fresh_l3 _).
  repeat constructor; by intros (request & Hcall & _).
Defined.

Lemma restart_closes_runs_witness :
  reconcile_incomplete_runs TaskEnv.fine (fresh 4) = (Ok [only l6], loaded 6 l6) /\
  exists tasks', coherent (loaded 6 l6) tasks' /\ Forall2 closed_by_restart l4 tasks' /\
    [only l6] = StoredTask.record <$>
      (snd <$> List.filter (fun p => was_running p.1) (zip l4 tasks')) /\
    Forall (fun task => task.(StoredTask.record).(TaskRecord.status) <> TaskStatus.Running) tasks'.
Proof.
  assert (reconcile_incomplete_runs TaskEnv.fine (fresh 4) = (Ok [only l6], loaded 6 l6)) as Hrun
    by evaluate. split; [done|].
  exact (restart_closes_runs tasks_json_laws TaskEnv.fine (fresh 4) l4 [only l6] (loaded 6 l6)
    fresh_l4 Hrun).
Defined.

Lemma receipt_closes_run_witness :
  finalize_run TaskEnv.fine toy_receipt (fresh 4) = (Ok (its_run l5), loaded 5 l5) /\
  (its_run l5).(RunRecord.receipt) = Some toy_receipt.
Proof.
  assert (finalize_run TaskEnv.fine toy_receipt (fresh 4) = (Ok (its_run l5), loaded 5 l5)) as Hrun
    by evaluate. split; [done|].
  exact (proj1 (proj2 (receipt_closes_run tasks_json_laws TaskEnv.fine toy_receipt (fresh 4) l4
    (its_run l5) (loaded 5 l5) fresh_l4 Hrun))).
Defined.

Lemma task_created_once_witness :
  create_task TaskEnv.fine toy_create (fresh 0) = (Ok (only l1), loaded 1 l1) /\
  exists tasks', coherent (loaded 1 l1) tasks' /\
    exists task, task ∈ tasks' /\ task.(StoredTask.record) = only l1.
Proof.
  assert (create_task TaskEnv.fine toy_create (fresh 0) = (Ok (only l1), loaded 1 l1)) as Hrun
    by evaluate. split; [done|].
  destruct (task_created_once tasks_json_laws TaskEnv.fine toy_create (fresh 0) [] (only l1)
    (loaded 1 l1) fresh_l0 Hrun) as (tasks' & Hco & (task & Hin & Heq & _) & _).
  exists tasks'. split; [exact Hco|]. exists task. split; [exact Hin|exact Heq].
Defined.

Lemma run_registered_once_witness :
  register_run TaskEnv.fine toy_register (fresh 2) = (Ok (its_run l3), loaded 3 l3) /\
  exists tasks', coherent (loaded 3 l3) tasks'.
Proof.
  assert (register_run TaskEnv.fine toy_register (fresh 2) = (Ok (its_run l3), loaded 3 l3)) as Hrun
    by evaluate. split; [done|].
  destruct (run_registered_once tasks_json_laws TaskEnv.fine toy_register (fresh 2) l2 (its_run l3)
    (loaded 3 l3) fresh_l2 Hrun) as (tasks' & Hco & _). by exists tasks'.
Defined.

(** Two documents of another version and with a duplicated task *)
Definition odd_json : TasksJson := {|
  tasks_to_vec_pretty _ := None;
  tasks_envelope_from_slice _ := Some 2%N;
  tasks_from_slice _ := None;
|}.

Lemma refused_file_kept_witness :
  exists e, @serve _ _ odd_json TaskEnv.fine (Call.CreateTask toy_create) (Service.new (Some "x"))
    = (Err e, Service.new (Some "x")).
Proof.
  apply (@refused_file_kept _ _ odd_json TaskEnv.fine (Call.CreateTask toy_create) (Some "x")
    TaskStorageError.UnsupportedVersion (Some "x")). reflexivity.
Defined.

(** The full log: 128 events, the task still running. *)
Lemma full_log_blocks_restart_witness :
  length (only l7).(TaskRecord.events) = MAX_EVENTS /\
  reconcile_incomplete_runs TaskEnv.fine (fresh 7)
    = (Err TaskServiceError.StateMachine, loaded 7 l7) /\
  is_ok (Err TaskServiceError.StateMachine : result TaskServiceError.t (list TaskRecord.t)) = false /\
  coherent (loaded 7 l7) l7.
Proof.
  assert (reconcile_incomplete_runs TaskEnv.fine (fresh 7)
    = (Err TaskServiceError.StateMachine, loaded 7 l7)) as Hrun by evaluate.
  assert (exists task, l7 = [task] /\ task.(StoredTask.record).(TaskRecord.status) = TaskStatus.Running
    /\ length task.(StoredTask.record).(TaskRecord.events) = MAX_EVENTS) as (task & Hl & Hst & Hlen).
  { eexists. split_and!; vm_compute; reflexivity. }
  split; [evaluate|]. split; [done|].
  refine (full_log_blocks_restart tasks_json_laws TaskEnv.fine (fresh 7) l7 task
    (Err TaskServiceError.StateMachine) (loaded 7 l7) fresh_l7 _ Hst _ Hrun).
  - rewrite Hl. by apply list_elem_of_singleton.
  - by rewrite Hlen.
Defined.
