(* ===== verification/EventWitness.v ===== *)
(** * Witnesses for the event router

    Two runs on one connection, one observer that keeps up and one that lags. *)

From S2P Require Import Prelude AppJson EventRouter EventThm Toy.

#[local] Instance run_event_json : RunEventJson := fun _ => Some "{}".
#[local] Instance run_event_json_laws : RunEventJsonLaws.
Proof. intros event. exists "{}". split; [done|]. vm_compute. discriminate. Qed.

(** Notifications of a turn *)
Definition turn_params (thread turn status : string) : Value.t :=
  Value.Object [("threadId", Value.Str thread);
                ("turn", Value.Object [("id", Value.Str turn); ("status", Value.Str status)])].
Definition started (thread turn : string) : RouterOp :=
  Notify 7 "turn/started" (turn_params thread turn "inProgress").
Definition completed_params : Value.t := turn_params "thread-1" "turn-1" "completed".

Definition empty_router : EventRouter.t := EventRouter.new 1.
Definition stream_1 : RunEventStream.t := RunEventStream.mk 1 0 0.
Definition router_1 : EventRouter.t := (prepare_run 7 "run-1" "thread-1" empty_router).2.

(** Ten events for the first run, nobody reading, with a second run prepared in between *)
Definition busy : list RouterOp :=
  Prepare 7 "run-2" "thread-2" :: Bind stream_1 "turn-1" :: Receive stream_1
  :: replicate 10 (started "thread-1" "turn-1") ++ [Receive stream_1].

Definition router_2 : EventRouter.t := run_ops busy router_1.
Definition waiting : EventQueue.t := default EventQueue.default (router_2.(EventRouter.heap) !! 0%N).

Lemma stream_tells_gaps_witness :
  length (all_handed 0 busy router_1) = 10 /\ length waiting.(EventQueue.events) = 7 /\
  (all_taken 0 busy router_1 ++ waiting.(EventQueue.events)
     = numbered "run-1" (all_handed 0 busy router_1) \/
   gapped "run-1" (all_handed 0 busy router_1) (all_taken 0 busy router_1 ++ waiting.(EventQueue.events))).
Proof.
  split; [evaluate|]. split; [evaluate|].
  refine (stream_tells_gaps 7 "run-1" "thread-1" empty_router stream_1 router_1 busy waiting _ _ _).
  - by exists 1%N, [].
  - evaluate.
  - evaluate.
Defined.

Definition route_1 : Route.t :=
  Route.mk 0 7 "run-1" "thread-1" (Some "turn-1") 11 20 false 0.
Definition turn_over : NormalizedEvent.t :=
  NormalizedEvent.mk "thread-1" "turn-1" RunEventKind.Completed true.

Lemma reachable_2 : router_reachable router_2.
Proof. exists 1%N, (Prepare 7 "run-1" "thread-1" :: busy). evaluate. Qed.

Lemma routes_2 :
  router_2.(EventRouter.routes) = [route_1; Route.mk 1 7 "run-2" "thread-2" None 1 0 false 1].
Proof. evaluate. Qed.

Lemma events_reach_their_run_witness :
  exists Q', (route 7 "turn/completed" completed_params router_2).(EventRouter.heap) !! 0%N = Some Q' /\
    Q'.(EventQueue.active) = false.
Proof.
  destruct (events_reach_their_run 7 "turn/completed" completed_params turn_over router_2 route_1 waiting)
    as ((Q' & HQ' & Hactive & _) & _).
  - exact reachable_2.
  - evaluate.
  - rewrite routes_2. apply elem_of_cons. by left.
  - evaluate.
  - unfold concerns. split; [|split]; vm_compute; reflexivity.
  - discriminate.
  - exists Q'. split; [exact HQ'|exact Hactive].
Defined.

Lemma router_bounds_witness : length router_2.(EventRouter.routes) <= MAX_ACTIVE_ROUTES.
Proof. exact (proj1 (router_bounds run_event_json_laws router_2 reachable_2)). Defined.
