(* ===== verification/AppWitness.v ===== *)
(** * Witnesses for the app-server wire and connection

    Two lines that come in three chunks, and a response that races with a timeout. *)

From S2P Require Import Prelude AppJson AppWire AppConnection Toy.

Definition two_lines : list string := ["{}"; "[1]"].
Definition three_chunks : list string := ["{"; "}" +:+ String NL "[1"; "]" +:+ String NL EmptyString].

Lemma lines_roundtrip_witness :
  decoded (push_all three_chunks (JsonLineDecoder.new 3)) = Ok (two_lines, EmptyString).
Proof.
  refine (lines_roundtrip 3 two_lines three_chunks _ _).
  - constructor; [|constructor; [|constructor]]; vm_compute; repeat split; try done; intros; discriminate.
  - evaluate.
Defined.

(** A request is written, its response arrives, and its timeout comes before the delivery. *)
Definition answer : PendingResult := Ok Value.Null.
Definition conn_1 : Connection.t := (begin_request Connection.new).2.
Definition conn_2 : Connection.t := set_caller 1 Caller.Waiting conn_1.
Definition conn_3 : Connection.t := complete 1 answer conn_2.
Definition conn_4 : Connection.t := timed_out 1 conn_3.
Definition conn_5 : Connection.t := set_caller 1 (Caller.Returned answer) (deliver 1 conn_4).

Lemma reached_4 : conn_reached [(1%N, answer)] conn_4.
Proof.
  refine (cr_step [(1%N, answer)] conn_3 [] _ (cr_step [] conn_2 [_] _ (cr_step [] conn_1 [] _ (cr_step [] _ [] _ cr_new _) _) _) _).
  - eapply cs_request. apply surjective_pairing.
  - eapply cs_written; reflexivity.
  - apply cs_response. left. by eexists.
  - eapply cs_timed_out; reflexivity.
Qed.

Lemma reached_5 : conn_reached [(1%N, answer)] conn_5.
Proof.
  refine (cr_step [(1%N, answer)] (deliver 1 conn_4) [] _ (cr_step [(1%N, answer)] conn_4 [] _ reached_4 _) _).
  - apply cs_deliver.
  - eapply cs_received; [reflexivity|by right|reflexivity].
Qed.

Lemma responses_correlate_witness :
  has_returned 1 answer conn_5 /\
  result_justified [(1%N, answer)] conn_5.(Connection.connected) 1 answer.
Proof.
  assert (has_returned 1 answer conn_5) as Hr by (eexists; split; reflexivity).
  split; [exact Hr|].
  exact (proj1 (proj1 (responses_correlate [(1%N, answer)] conn_5 reached_5) 1%N answer Hr)).
Defined.

Lemma waiters_wake_witness :
  exists r, has_returned 1 r (set_caller 1 (Caller.Returned r) (deliver 1 conn_4)).
Proof.
  destruct (waiters_wake [(1%N, answer)] conn_4 1
              (Pending.mk (Sender.Held answer) None Caller.TimedOut) reached_4)
    as (r & _ & _ & _ & Hr & _).
  - evaluate.
  - by left.
  - exists r. exact Hr.
Defined.
