(* ===== verification/RunWitness.v ===== *)
(** * Witnesses for local runs

    One task of one project, started over one connection: it succeeds, its disk is full when it
    begins, its report comes late, its connection is lost, or it is stopped. *)

From S2P Require Import Prelude AppJson AppWire AppConnection EventRouter EventThm TaskArtifact TaskReceipt TaskMachine TaskStore TaskService TaskPlan TaskThm TaskRuns Worktree Runtime Orchestrator LocalState RunThm RunPoll LocalThm LocalSystem Toy TaskWitness ServiceWitness.

#[local] Existing Instances Toy.sha256 Toy.sha256_laws.
#[local] Instance event_json : RunEventJson := fun _ => Some "{}".

(** ** The run *)

Definition key : string := "key-1".
Definition a_task : string := derived_id "task" key.
Definition a_run : string := derived_id "run" key.
Definition repo : PathBuf.t := PathBuf.mk true ["repo"].
Definition data : PathBuf.t := PathBuf.mk true ["data"].
Definition work_root : PathBuf.t := PathBuf.mk true ["data"; "worktrees"].
Definition work_path : PathBuf.t := PathBuf.join work_root (directory_name_of a_run).
Definition said (output : string) : GitRun := Read output (Exited true).

Definition creating : CreateEnv.t :=
  CreateEnv.mk (Some repo) (said "/repo") (fun _ => Some repo) (said toy_commit) (Some data) true
    (Some work_root) true (said "") true (Some work_path) (Some "/data/worktrees/run").
Definition cleaning : CleanupEnv.t :=
  CleanupEnv.mk (Some work_root) (Some work_path) (said "") true true.
Definition a_worktree : TaskWorktree.t :=
  TaskWorktree.mk work_root repo work_path (directory_name_of a_run) "/data/worktrees/run" toy_commit.
Definition finishing : FinishEnv.t :=
  FinishEnv.mk true (said "") true toy_diff (Some 20%N) TaskEnv.fine cleaning.

(** The connection answers at once. *)
Definition answers (method : string) (params : Value.t) : list RouterOp * PendingResult :=
  ([], Ok (if String.eqb method "thread/start"
           then Value.Object [("cwd", Value.Str "/data/worktrees/run");
             ("thread", Value.Object [("id", Value.Str "thread-1");
                                      ("cwd", Value.Str "/data/worktrees/run")])]
           else if String.eqb method "turn/start"
           then Value.Object [("turn", Value.Object [("id", Value.Str "turn-1");
                                                     ("status", Value.Str "inProgress")])]
           else Value.Object [])).
Definition line : ConnectionControl.t := ConnectionControl.mk 7 answers.
Definition turn_said (status : string) : Value.t :=
  Value.Object [("threadId", Value.Str "thread-1");
                ("turn", Value.Object [("id", Value.Str "turn-1"); ("status", Value.Str status)])].

Definition a_metadata : RunMetadata.t := RunMetadata.mk a_task a_run "node-1" "1.0" 10.

(** ** What is written *)

Definition payload_of (outcome : RunReceiptOutcome.t) : ReceiptPayload.t :=
  ReceiptPayload.mk 1 a_task a_run "node-1" "codex" "1.0" 10 20 outcome None (receipt_error outcome)
    TestReport.NotReported (metadata_of toy_patch).
#[local] Instance run_receipt_json : ReceiptJson :=
  Toy.write_known [payload_of RunReceiptOutcome.Success; payload_of RunReceiptOutcome.OutcomeUnknown].
Definition receipt_of (outcome : RunReceiptOutcome.t) : RunReceipt.t :=
  match receipt_new (receipt_input a_metadata 20 outcome toy_patch) with
  | Ok receipt => receipt | Err _ => toy_receipt end.

Definition stored (call : Call.t) (tasks : list StoredTask.t) : list StoredTask.t :=
  match plan call tasks with Ok (Some next, _) => next | _ => tasks end.
Definition k1 := stored (Call.CreateTask
  (CreateTaskRequest.mk a_task key toy_project (TaskSpec.mk "Ship it" []))) [].
Definition k2 := stored (Call.AcceptTask toy_project a_task) k1.
Definition k3 := stored (Call.RegisterRun
  (RegisterRunRequest.mk a_task a_run (derived_id "run-key" key) toy_project)) k2.
Definition k4 := stored (Call.BeginRun a_task a_run) k3.
Definition k5 := stored (Call.FinalizeRun (receipt_of RunReceiptOutcome.Success)) k4.
Definition k6 := stored (Call.FinalizeRun (receipt_of RunReceiptOutcome.OutcomeUnknown)) k4.
Definition known_runs : list StorageDocument.t :=
  Eval vm_compute in StorageDocument.mk 1 <$> [[]; k1; k2; k3; k4; k5; k6].

#[local] Instance runs_json : TasksJson := {|
  tasks_to_vec_pretty := Toy.write_known known_runs;
  tasks_envelope_from_slice s := StorageDocument.version <$> Toy.read_known known_runs (chop s);
  tasks_from_slice s := Toy.read_known known_runs (chop s);
|}.
#[local] Instance runs_json_laws : TasksJsonLaws.
Proof.
  intros d bytes Hw. apply Toy.read_write_known in Hw as Hr.
  assert (chop (bytes +:+ newline) = bytes) as Hchop.
  { unfold tasks_to_vec_pretty, runs_json, Toy.write_known in Hw.
    apply bind_Some in Hw as ([i e] & _ & Hw). simpl in Hw. case_match; simplify_eq. done. }
  unfold tasks_envelope_from_slice, tasks_from_slice, runs_json. by rewrite Hchop, Hr.
Qed.

Lemma reads i tasks : load Io.fine (file_of i) = (Ok tasks, file_of i) -> coherent (fresh i) tasks.
Proof. intros Hload. split; [by exists (file_of i)|by left]. Qed.
Lemma reads_3 : coherent (fresh 3) k3.
Proof. apply reads. evaluate. Qed.
Lemma reads_4 : coherent (fresh 4) k4.
Proof. apply reads. evaluate. Qed.

(** ** Witnesses *)

Lemma worktree_apart_witness :
  create work_root a_run creating [] = (Ok a_worktree, [work_path; work_root]) /\
  PathBuf.parent work_path = Some work_root /\ paths_overlap work_path repo = false.
Proof.
  assert (create work_root a_run creating [] = (Ok a_worktree, [work_path; work_root])) as Hrun by evaluate.
  split; [exact Hrun|].
  destruct (worktree_apart work_root a_run creating [] a_worktree [work_path; work_root] Hrun)
    as (_ & Hparent & Hapart & _). split; [exact Hparent|exact Hapart].
Defined.

(** The run is over, its worktree still there. *)
Definition ran_desk : Desk.t :=
  Desk.mk (fresh 4) (Link.mk (EventRouter.new 1) []) [work_path; work_root].

Lemma evidence_kept_witness :
  let (r, s') := finish_run finishing a_worktree a_metadata RunReceiptOutcome.Success ran_desk in
  s'.(Desk.disk) = [work_root] /\ s'.(Desk.service) = loaded 5 k5 /\
  exists c receipt, r = Ok c /\ verify receipt = Ok tt /\
    c.(LocalCodexRunCompletion.run).(RunRecord.receipt) = Some receipt.
Proof.
  destruct (finish_run finishing a_worktree a_metadata RunReceiptOutcome.Success ran_desk)
    as [r s'] eqn:Hrun.
  assert (s'.(Desk.disk) = [work_root] /\ s'.(Desk.service) = loaded 5 k5) as [Hdisk Hserv].
  { change s' with (r, s').2. rewrite <- Hrun. split; evaluate. }
  split; [exact Hdisk|]. split; [exact Hserv|].
  destruct (evidence_kept runs_json_laws finishing a_worktree a_metadata RunReceiptOutcome.Success
    ran_desk k4 r s' reads_4 Hrun) as (c & receipt & _ & _ & _ & Hr & _ & _ & _ & _ & Hv & _ & _ & _ & _ & _ & _ & Hrc & _).
  { rewrite Hdisk. discriminate. }
  exists c, receipt. split; [exact Hr|]. split; [exact Hv|exact Hrc].
Defined.

(** *** Starts *)

Definition starting : StartEnv.t :=
  StartEnv.mk TaskEnv.fine creating TaskEnv.fine cleaning (Some 10%N) finishing.
Definition run_request : StartLocalCodexRunRequest.t :=
  StartLocalCodexRunRequest.mk toy_project a_task a_run "node-1" "1.0"
    (ResolvedProject.mk toy_project "/repo") line.
Definition queued_desk : Desk.t := Desk.mk (fresh 3) (Link.mk (EventRouter.new 1) []) [].

Lemma run_targets_worktree_witness :
  let (r, s') := start 3 work_root starting run_request queued_desk in
  length s'.(Desk.link).(Link.sent) = 2 /\ is_ok r = true /\
  exists w new, s'.(Desk.link).(Link.sent) = [] ++ new /\
    Forall (fun '(method, params) =>
      method = "thread/start" /\
        Value.get "cwd" params = Some (Value.Str w.(TaskWorktree.cwd)) \/
      method = "turn/start" /\ workspace_turn w.(TaskWorktree.cwd) params) new.
Proof.
  destruct (start 3 work_root starting run_request queued_desk) as [r s'] eqn:Hrun.
  assert (length s'.(Desk.link).(Link.sent) = 2 /\ is_ok r = true) as [Hlen Hok].
  { change s' with (r, s').2. change r with (r, s').1 at 2. rewrite <- Hrun. split; evaluate. }
  split; [exact Hlen|]. split; [exact Hok|].
  destruct (run_targets_worktree runs_json_laws 3 work_root starting run_request queued_desk k3 r s' reads_3 Hrun)
    as (w & _ & new & _ & _ & _ & Hnew & Hall).
  { intros Hsame. rewrite Hsame in Hlen. discriminate. }
  exists w, new. split; [exact Hnew|exact Hall].
Defined.

(** Two starts of the run, and a restart's reconciliation between them *)
Definition twice : list DeskOp :=
  [StartRun 3 work_root starting run_request; ServeTasks TaskEnv.fine (Call.GetTask a_task);
   StartRun 3 work_root starting run_request].

Lemma run_launched_once_witness :
  launches a_task a_run twice queued_desk = 1 /\ launches a_task a_run twice queued_desk <= 1.
Proof.
  split; [evaluate|].
  refine (run_launched_once runs_json_laws a_task a_run twice queued_desk k3 reads_3 _).
  repeat constructor. by intros (request & Hcall & _).
Defined.

(** The disk is full when the run is begun: the second start fails with room again. *)
Definition begin_fails : StartEnv.t :=
  StartEnv.mk TaskEnv.fine creating full_disk cleaning (Some 10%N) finishing.

Lemma worktree_strands_run_witness :
  let (r, s') := start 3 work_root begin_fails run_request queued_desk in
  let (r2, s2) := start 3 work_root starting run_request s' in
  r = Err TaskRunError.TaskState /\ r2 = Err TaskRunError.Worktree /\
  work_path ∈ s'.(Desk.disk) /\ coherent s2.(Desk.service) k3 /\ s2.(Desk.link).(Link.sent) = [].
Proof.
  destruct (start 3 work_root begin_fails run_request queued_desk) as [r s'] eqn:Hrun.
  destruct (start 3 work_root starting run_request s') as [r2 s2] eqn:Hrun2.
  assert (r = Err TaskRunError.TaskState /\ s'.(Desk.link).(Link.sent) = [] /\
    s'.(Desk.disk) = [work_path; work_root]) as (Hr & Hsent & Hdisk).
  { change s' with (r, s').2. change r with (r, s').1 at 1. rewrite <- Hrun.
    split; [|split]; evaluate. }
  assert (r2 = Err TaskRunError.Worktree) as Hr2.
  { change r2 with (r2, s2).1. rewrite <- Hrun2. change s' with (r, s').2. rewrite <- Hrun. evaluate. }
  assert (work_path ∈ s'.(Desk.disk)) as Hin by (rewrite Hdisk; left).
  subst r. destruct (worktree_strands_run runs_json_laws 3 work_root begin_fails run_request queued_desk k3
    TaskRunError.TaskState s' work_root reads_3 Hrun Hsent) as [Hco Hlater].
  { intros Hin0. by apply not_elem_of_nil in Hin0. }
  { exact Hin. }
  destruct (Hlater 3%N starting run_request s' k3 r2 s2 Hco Hin eq_refl eq_refl Hrun2) as [Hco2 Hsent2].
  split; [reflexivity|]. split; [exact Hr2|]. split; [exact Hin|]. split; [exact Hco2|].
  rewrite Hsent2. exact Hsent.
Defined.

(** *** Polls *)

(** The run that the start makes active *)
Definition started_desk : Desk.t := (start 3 work_root starting run_request queued_desk).2.
Definition a_stream : RunEventStream.t := RunEventStream.mk 1 0 0.
Definition active_run : ActiveLocalCodexRun.t :=
  ActiveLocalCodexRun.mk 3 line a_metadata a_worktree
    (ActiveCodexRun.mk 3 7 a_run "thread-1" "turn-1" a_stream) None None.

Lemma run_is_active :
  (start 3 work_root starting run_request queued_desk).1 = Ok (LocalCodexRunStart.Active active_run).
Proof. evaluate. Qed.
Lemma started_coherent : coherent started_desk.(Desk.service) k4.
Proof.
  assert (load Io.fine (file_of 4) = (Ok k4, file_of 4)) as Hload by evaluate.
  assert (started_desk.(Desk.service) = loaded 4 k4) as -> by evaluate.
  split; [by exists (file_of 4)|]. right. split; [done|]. by apply load_tasks_ok in Hload as [Hholds _].
Qed.

Definition polling (others : list RouterOp) : PollEnv.t :=
  PollEnv.mk others TaskEnv.fine TaskEnv.fine finishing.
Definition completion_event : RouterOp := Notify 7 "turn/completed" (turn_said "completed").
Definition told : Polled.t :=
  Polled.mk (Desk.set_router (router_step completion_event started_desk.(Desk.link).(Link.router))
    started_desk) active_run.
Definition untold : Polled.t := Polled.mk started_desk active_run.

(** The completion of a result that is one *)
Definition completion_of (r : result TaskRunError.t LocalCodexRunProgress.t) : LocalCodexRunCompletion.t :=
  match r with
  | Ok (LocalCodexRunProgress.Finished c) => c
  | _ => LocalCodexRunCompletion.mk closed_run toy_patch WorktreeCleanup.Removed
  end.

Lemma poll_records_outcome_witness :
  known_outcome (polling []) told = Some RunReceiptOutcome.Success /\
  exists c outcome, (poll (polling []) told).1 = Ok (LocalCodexRunProgress.Finished c) /\
    known_outcome (polling []) told = Some outcome /\
    finished_with a_metadata outcome c (service_of (poll (polling []) told).2).
Proof.
  split; [evaluate|]. pose (c := completion_of (poll (polling []) told).1).
  assert ((poll (polling []) told).1 = Ok (LocalCodexRunProgress.Finished c)) as Hc by evaluate.
  destruct (poll_records_outcome runs_json_laws (polling []) told k4
    (Ok (LocalCodexRunProgress.Finished c)) (poll (polling []) told).2 started_coherent eq_refl)
    as (outcome & Hk & Hfin).
  { rewrite <- Hc. by destruct (poll (polling []) told). }
  exists c, outcome. split; [exact Hc|]. split; [exact Hk|exact Hfin].
Defined.

Definition late : PollEnv.t := polling [completion_event].

Lemma late_report_lost_witness :
  exists c, poll late untold = (Ok (LocalCodexRunProgress.Finished c), (poll late untold).2) /\
    finished_with a_metadata RunReceiptOutcome.OutcomeUnknown c (service_of (poll late untold).2) /\
    (try_recv a_stream (router_of (poll late untold).2)).1
      = Some (RunEvent.mk a_run 1 RunEventKind.Completed).
Proof.
  pose (c := completion_of (poll late untold).1).
  assert ((poll late untold).1 = Ok (LocalCodexRunProgress.Finished c)) as Hc by evaluate.
  assert (poll late untold = (Ok (LocalCodexRunProgress.Finished c), (poll late untold).2)) as Hrun
    by (rewrite <- Hc; by destruct (poll late untold)).
  exists c. split; [exact Hrun|].
  refine (late_report_lost runs_json_laws late untold k4 (RunEvent.mk a_run 1 RunEventKind.Completed) c
    (poll late untold).2 started_coherent eq_refl eq_refl _ _ _ Hrun); evaluate.
Defined.

(** *** The system *)

Definition unknowing : UnknownEnv.t := UnknownEnv.mk finishing TaskEnv.fine TaskEnv.fine.
Definition working : WorkerEnv.t := WorkerEnv.mk (polling []) TaskEnv.fine unknowing.
Definition local_start : LocalStartEnv.t :=
  LocalStartEnv.mk TaskEnv.fine TaskEnv.fine TaskEnv.fine true starting true true unknowing
    TaskEnv.fine TaskEnv.fine.
Definition local_request : StartLocalTaskRequest.t :=
  StartLocalTaskRequest.mk toy_project key "Ship it" [] "node-1" "1.0"
    (ResolvedProject.mk toy_project "/repo") line.

Definition opened : TaskRunState.t := (open_state 3 work_root (EventRouter.new 1) [] TaskEnv.fine None).2.
Definition busy_state : TaskRunState.t := act (StartTask local_start local_request) opened.

Lemma opened_reachable : reachable opened.
Proof.
  refine (reachable_open 3 work_root (EventRouter.new 1) [] TaskEnv.fine None [] opened _ _).
  - split; [by exists None|by left].
  - assert ((open_state 3 work_root (EventRouter.new 1) [] TaskEnv.fine None).1 = Ok tt) as Hok by evaluate.
    unfold opened. rewrite <- Hok. by destruct (open_state _ _ _ _ _ _).
Qed.
Lemma busy_reachable : reachable busy_state.
Proof. apply reachable_act, opened_reachable. Qed.

Definition a_control : ActiveRunControl.t := ActiveRunControl.mk toy_project a_task a_run 0.
Definition a_worker : Worker.t := Worker.mk active_run a_control None false.
Lemma busy_workers : busy_state.(TaskRunState.workers) = [a_worker].
Proof. evaluate. Qed.

Lemma one_worker_per_run_witness :
  controls busy_state = [a_control] /\ busy_state.(TaskRunState.active) !! a_run = Some a_control.
Proof.
  assert (controls busy_state = [a_control]) as Hc by (unfold controls; by rewrite busy_workers).
  split; [exact Hc|].
  destruct (one_worker_per_run runs_json_laws busy_state busy_reachable) as (Ha & _).
  apply Ha. rewrite Hc. split; [left|reflexivity].
Defined.

Definition stopped : result LocalTaskError.t TaskRecord.t * TaskRunState.t :=
  stop_local TaskEnv.fine true toy_project a_task a_run busy_state.

Lemma stop_interrupts_run_witness :
  is_ok stopped.1 = true /\ is_active a_stream (TaskRunState.router stopped.2) = true /\
  sent_of (worker_step working a_worker stopped.2).2 = sent_of stopped.2 ++
    [("turn/interrupt", turn_interrupt_params active_run.(ActiveLocalCodexRun.active))].
Proof.
  assert (is_ok stopped.1 = true) as Hok by evaluate.
  assert (is_active a_stream (TaskRunState.router stopped.2) = true) as Hactive by evaluate.
  split; [exact Hok|]. split; [exact Hactive|].
  destruct stopped as [[task|] s'] eqn:Hstop; [|discriminate Hok].
  destruct (stop_interrupts_run runs_json_laws TaskEnv.fine true toy_project a_task a_run busy_state task s'
    busy_reachable Hstop) as (Hws & w & Hin & _ & _ & _ & _ & _ & Hsend).
  rewrite Hws, busy_workers in Hin. apply list_elem_of_singleton in Hin. subst w.
  exact (Hsend eq_refl Hactive working).
Defined.

(** The turn has begun and then the connection is lost: one event is left in the stream. *)
Definition lost_state : TaskRunState.t :=
  act (OnRouter Disconnect) (act (OnRouter (Notify 7 "turn/started" (turn_said "inProgress"))) busy_state).
Definition lost_turns : list Turn :=
  [Mine working; Stops 4; Serves TaskEnv.fine (Call.GetTask a_task); Mine working].

Lemma lost_closed : closed 0 1 (TaskRunState.router lost_state).
Proof.
  split.
  - eexists. split; [evaluate|]. split; reflexivity.
  - assert ((TaskRunState.router lost_state).(EventRouter.routes) = []) as -> by evaluate. apply not_elem_of_nil.
  - evaluate.
Qed.

Lemma closed_stream_ends_worker_witness :
  exists s', run_worker lost_turns a_worker lost_state = (None, s') /\
    over TaskEnv.fine a_control s' /\ s'.(TaskRunState.active) !! a_run = None.
Proof.
  destruct (rv_tasks _ (reachable_inv runs_json_laws lost_state
    (reachable_act _ _ (reachable_act _ _ busy_reachable)))) as [tasks Hco].
  destruct (closed_stream_ends_worker runs_json_laws lost_turns a_worker lost_state tasks 1 Hco)
    as (env & s' & Hin & Hrun & Hover & Hactive & _).
  - split; [reflexivity|]. split; reflexivity.
  - exact lost_closed.
  - repeat constructor.
  - cbv. lia.
  - exists s'. split; [exact Hrun|]. split; [|exact Hactive].
    assert (env = working) as ->; [|exact Hover].
    unfold lost_turns in Hin. rewrite !elem_of_cons in Hin.
    destruct Hin as [[= ->]|[[=]|[[=]|[[= ->]|Hin]]]]; [reflexivity|reflexivity|].
    destruct (not_elem_of_nil _ Hin).
Defined.
