(* ===== verification/AccountWitness.v ===== *)
(** * Witnesses for the account service

    Runs of the account service, move by move: a login whose page is opened, one that completes, a
    command that waits for another, and a logout that fails. *)

From S2P Require Import Prelude AppJson AppConnection Account AccountThm AccountLogic AccountMachine.

Definition field (key : string) (v : Value.t) : option string := v ← Value.get key v; Value.as_str v.

#[local] Instance account_json : AccountJson := {
  login_from_value v :=
    ty ← field "type" v;
    if str_eqb ty "chatgpt"
    then login_id ← field "loginId" v; auth_url ← field "authUrl" v;
         Some (LoginStartResponse.Chatgpt login_id auth_url)
    else Some LoginStartResponse.Unsupported;
  read_from_value v :=
    account ← Value.get "account" v;
    match Value.get "requiresOpenaiAuth" v with
    | Some (Value.Bool b) => Some (account, b)
    | _ => None
    end;
  account_from_value v :=
    ty ← field "type" v;
    if str_eqb ty "chatgpt"
    then email ← Value.get "email" v; plan_type ← field "planType" v;
         Some (AccountPayload.Chatgpt email plan_type)
    else Some AccountPayload.Unsupported;
  cancel_from_value v :=
    status ← field "status" v;
    if str_eqb status "canceled" then Some CancelLoginStatus.Canceled
    else if str_eqb status "notFound" then Some CancelLoginStatus.NotFound else None;
}.

Definition login_page : string := "https://auth.openai.com/oauth".
Definition login_url : Url.t := Url.mk "https" EmptyString None (Some "auth.openai.com") (Some 443%N) login_page.
#[local] Instance url_parser : UrlParser := fun s => if str_eqb s login_page then Some login_url else None.

(** ** Moves *)

Inductive Move :=
| Enter (entry : Entry)
| Go (i : nat) (reply : PendingResult) (ok : bool).

Definition move (v : Move) (m : Machine.t) : option Machine.t :=
  match v with
  | Enter entry => Some (Machine.set_threads (m.(Machine.threads) ++ [entry_program entry]) m)
  | Go i reply ok => advance i (Response.mk reply ok) m
  end.

Definition play (moves : list Move) : option Machine.t :=
  foldl (fun m v => m ≫= move v) (Some Machine.new) moves.
Definition played (moves : list Move) : Machine.t := default Machine.new (play moves).

Lemma move_step v m m' : move v m = Some m' -> machine_step m m'.
Proof. destruct v; simpl; [intros [= <-]; constructor|apply step_thread]. Qed.

Lemma play_run moves : is_some (play moves) = true -> account_run (length moves) (played moves).
Proof.
  unfold played. destruct (play moves) as [m|] eqn:Hplay; [|done]. intros _. simpl. revert m Hplay.
  induction moves as [|v moves IH] using rev_ind; intros m Hplay.
  - unfold play in Hplay. simpl in Hplay. simplify_eq. constructor.
  - unfold play in Hplay. rewrite foldl_app in Hplay. simpl in Hplay.
    apply bind_Some in Hplay as (m1 & Hplay & Hv). rewrite length_app, Nat.add_1_r.
    eapply nsteps_r; [by apply IH|by eapply move_step].
Qed.

Definition null : PendingResult := Ok Value.Null.
Definition goes (n i : nat) : list Move := replicate n (Go i null true).
Definition login_reply : PendingResult :=
  Ok (Value.Object [("type", Value.Str "chatgpt"); ("loginId", Value.Str "login-1");
                    ("authUrl", Value.Str login_page)]).
Definition cancel_reply : PendingResult := Ok (Value.Object [("status", Value.Str "canceled")]).
Definition signed_in_reply : PendingResult :=
  Ok (Value.Object [("account", Value.Object [("type", Value.Str "chatgpt"); ("email", Value.Null);
                                              ("planType", Value.Str "plus")]);
                    ("requiresOpenaiAuth", Value.Bool true)]).
Definition answering (n i : nat) (reply : PendingResult) : list Move := replicate n (Go i reply true).

(** ** Runs *)

Definition connecting : list Move := Enter (OnConnected 1) :: goes 8 0.
(** A login, up to the page being opened, and to its end *)
Definition opening : list Move :=
  connecting ++ Enter (Command AccountCommand.StartChatgptLogin) :: answering 7 1 login_reply.
Definition logging_in : list Move := opening ++ goes 9 1.
(** The connection is lost while the page is being opened. *)
Definition interrupted : list Move := opening ++ [Enter OnDisconnected].
Definition completion : Value.t := Value.Object [("loginId", Value.Str "login-1"); ("success", Value.Bool true)].
Definition completed : list Move :=
  logging_in ++ Enter (OnNotification 1 "account/login/completed" completion) :: goes 3 2
    ++ answering 10 3 signed_in_reply.
(** A logout that cancels the login and then fails *)
Definition failed_logout : list Move :=
  logging_in ++ Enter (Command AccountCommand.Logout) :: answering 4 2 cancel_reply
    ++ answering 9 2 (Err ConnectionError.Timeout).

Lemma completed_runs : account_run (length completed) (played completed).
Proof. apply play_run. vm_compute. reflexivity. Qed.
Lemma opening_runs : account_run (length opening) (played opening).
Proof. apply play_run. vm_compute. reflexivity. Qed.
Lemma interrupted_runs : account_run (length interrupted) (played interrupted).
Proof. apply play_run. vm_compute. reflexivity. Qed.

Definition opens (p : prog unit) : option Url.t := match p with OpenUrl url _ => Some url | _ => None end.

Lemma opens_inv p url : opens p = Some url -> exists k, p = OpenUrl url k.
Proof. destruct p; try done. intros [= ->]. by eexists. Qed.

(** ** Witnesses *)

Lemma account_state_consistent_witness :
  service_inv (played completed).(Machine.service) /\
  (played completed).(Machine.service).(AccountServiceState.status) = CodexRuntimeAuthStatus.SignedIn None "plus".
Proof.
  split; [|vm_compute; reflexivity].
  apply (account_state_consistent (length completed)); [apply completed_runs|]. vm_compute. discriminate.
Defined.

Lemma browser_opens_official_page_witness :
  official login_url /\ (played opening).(Machine.holder) BrowserOpenOperation = Some 1 /\
  (played opening).(Machine.service).(AccountServiceState.connection) <> None.
Proof.
  assert ((played opening).(Machine.threads) !! 1 ≫= opens = Some login_url) as Hopens
    by (vm_compute; reflexivity).
  apply bind_Some in Hopens as (p & Hp & Hurl). apply opens_inv in Hurl as [k ->].
  apply (browser_opens_official_page (length opening) _ _ _ k); [apply opening_runs|vm_compute; discriminate|exact Hp].
Defined.

Lemma account_never_deadlocks_witness :
  advance 2 (Response.mk null true) (played interrupted) = None /\
  exists j m', advance j (Response.mk null true) (played interrupted) = Some m'.
Proof.
  split; [vm_compute; reflexivity|].
  assert (finished <$> (played interrupted).(Machine.threads) !! 2 = Some false) as Hp
    by (vm_compute; reflexivity).
  apply fmap_Some in Hp as (p & Hp & Hf).
  apply (account_never_deadlocks (length interrupted) _ 2 p);
    [apply interrupted_runs|vm_compute; discriminate|exact Hp|by symmetry].
Defined.

Lemma account_leaves_nothing_witness :
  (forall l, (played completed).(Machine.holder) l = None) /\
  (played completed).(Machine.service).(AccountServiceState.login_completion) = LoginCompletionState.default.
Proof.
  apply (account_leaves_nothing (length completed)); [apply completed_runs|vm_compute; discriminate|].
  vm_compute. reflexivity.
Defined.

(** ** Observers *)

(** A status that changes is not always told to the observer. When a logout has cancelled the
    active login and the server then refuses it, every thread is done, the status is
    [Checking], and the observer was last told that the browser is pending: the error that the
    command publishes is not the status, so that nothing is published. *)
Theorem failed_logout_leaves_observer_behind :
  let m := played failed_logout in
  account_run (length failed_logout) m /\ forallb finished m.(Machine.threads) = true /\
  m.(Machine.service).(AccountServiceState.status) = CodexRuntimeAuthStatus.Checking /\
  m.(Machine.published) = Some CodexRuntimeAuthStatus.BrowserPending.
Proof.
  split; [apply play_run; vm_compute; reflexivity|].
  split; [vm_compute; reflexivity|]. split; vm_compute; reflexivity.
Qed.
