(* ===== verification/SettingsWitness.v ===== *)
(** * The settings on concrete inputs

    The properties of the identity, of the recent projects and of the threads of a project,
    applied to short histories with small instances of their parameters. *)

From S2P Require Import Prelude AppJson AppConnection EventRouter TaskArtifact TaskReceipt TaskMachine TaskStore StoredFile Identity Worktree Runtime Orchestrator Project ProjectThm ProjectThread Toy.

(** ** A format that knows a few documents *)

Section Format.
Context {A : Type} `{EqDecision A} (known : list A) (padding : string).

(** Version 1 only: one letter for the body, and the padding *)
Definition known_to_pretty (d : Document.t A) : option string :=
  if (d.(Document.version) =? FILE_VERSION)%N
  then (fun c => c +:+ padding) <$> Toy.write_known known d.(Document.body) else None.
Definition known_body (s : string) : option A :=
  match s with String c _ => known !! (nat_of_ascii c - 97) | EmptyString => None end.
Definition known_format : DocumentFormat A := {|
  document_to_pretty := known_to_pretty;
  envelope_from_slice := fun s => (fun _ => FILE_VERSION) <$> known_body s;
  document_from_slice := fun s => Document.mk FILE_VERSION <$> known_body s;
|}.

Lemma known_format_laws : @DocumentFormatLaws A known_format.
Proof.
  intros [version body] bytes. simpl. unfold known_to_pretty. simpl.
  destruct (N.eqb_spec version FILE_VERSION) as [->|]; [|done]. intros (c & Hc & ->)%fmap_Some.
  apply Toy.read_write_known in Hc as Hr. unfold Toy.write_known in Hc.
  destruct c as [|a [|? ?]]; [done| |done]. simpl in *. by rewrite Hr.
Qed.

Lemma known_format_size d bytes :
  @document_to_pretty A known_format d = Some bytes -> len bytes = (1 + len padding)%N.
Proof.
  simpl. unfold known_to_pretty. destruct (_ =? _)%N; [|done]. intros (c & Hc & ->)%fmap_Some.
  apply Toy.read_write_known in Hc. destruct c as [|a [|? ?]]; [done| |done]. by rewrite len_append.
Qed.
End Format.

(** ** The identity *)

Module ToyIdentity.
Definition env (lock : bool) (load : Io.t) (a b : N) : IdentityEnv.t :=
  IdentityEnv.mk lock load Io.fine Io.fine ((a, b), (b, a)).
Definition first_identity : RivloomIdentity.t := new_identity (env true Io.fine 7 11).
Definition renamed : RivloomIdentity.t := RivloomIdentity.set_display_name "Ada Lovelace" first_identity.
#[local] Instance format : DocumentFormat RivloomIdentity.t := known_format [first_identity; renamed] EmptyString.
#[local] Instance format_laws : DocumentFormatLaws RivloomIdentity.t := known_format_laws _ _.
#[local] Instance format_size : IdentitySize.
Proof. intros d bytes ->%known_format_size. change (len EmptyString) with 0%N. lia. Qed.

(** An unreadable file is quarantined and an identity is drawn; it is renamed; after a restart
    the file cannot be read at first; then it is found again, whatever would be drawn. *)
Definition calls : list IdentityCall :=
  [Get (env true Io.fine 7 11); UpdateName (env true Io.fine 1 2) "  Ada   Lovelace "; RestartIdentity;
   Get (env true (Io.mk false true true) 3 4); UpdateName (env true Io.fine 3 4) "   "; Get (env true Io.fine 5 6)].
End ToyIdentity.
#[local] Existing Instance ToyIdentity.format.

Lemma identity_permanent_witness :
  (identity_history ToyIdentity.calls (IdentityService.new (Some "?"))).1
    = [ToyIdentity.renamed; ToyIdentity.renamed; ToyIdentity.first_identity] /\
  same_person ToyIdentity.renamed ToyIdentity.first_identity.
Proof.
  assert ((identity_history ToyIdentity.calls (IdentityService.new (Some "?"))).1
    = [ToyIdentity.renamed; ToyIdentity.renamed; ToyIdentity.first_identity]) as Hfound by by vm_compute.
  split; [exact Hfound|].
  destruct (identity_permanent ToyIdentity.format_laws ToyIdentity.format_size (Some "?") ToyIdentity.calls _ _
              (surjective_pairing _)) as [Hsame _].
  rewrite Hfound in Hsame. apply Hsame; [left|do 2 right; left].
Defined.

(** ** Recent projects *)

Module ToyProjects.
Definition canonicalize (p : string) : option string :=
  if str_eqb p "/work/./app" || str_eqb p "/work/app" then Some "/work/app" else None.
Definition fs : ProjectFs.t :=
  ProjectFs.mk canonicalize (fun p => if str_eqb p "/work/app" then IsDirectory else IsMissing) (fun _ => true).
Definition env (now : Z) (save : Io.t) : ProjectEnv.t := ProjectEnv.mk true true now fs Io.fine save.

Definition app_id : string := "project-v1-" +:+ hex_of_bytes (Toy.digest "/work/app").
Definition app (now : Z) : StoredProject.t := StoredProject.mk app_id "/work/app" "app" now.
Definition old_project : StoredProject.t := StoredProject.mk "project-v1-old" "/work/old" "old" 10.

(** The list in memory has the project already, and another one *)
Definition before : ProjectService.t := ProjectService.mk None (Some [app 20; old_project]).
Definition selection (now : Z) : ProjectSelection.t :=
  ProjectSelection.mk (local_project (app now) ProjectAvailability.Available) None.

Lemma canonicalize_fixed p q : canonicalize p = Some q -> canonicalize q = Some q.
Proof. unfold canonicalize. destruct (_ || _); [|done]. by intros [= <-]. Qed.

Definition format : DocumentFormat (list StoredProject.t) := known_format [[app 30; old_project]] EmptyString.
End ToyProjects.

Section Selected.
#[local] Existing Instance ToyProjects.format.
#[local] Existing Instance Toy.sha256.

(** A project of the list is selected again through another path, and the list cannot be saved. *)
Lemma selected_project_found_witness :
  let s' := (select_project (ToyProjects.env 30 (Io.mk true true false)) (Some "/work/./app") ToyProjects.before).2 in
  s'.(ProjectService.projects) = Some [ToyProjects.app 30; ToyProjects.old_project] /\
  s'.(ProjectService.file) = None /\
  lookup_project (ToyProjects.env 40 Io.fine) ToyProjects.app_id s'
    = (Ok (ResolvedProject.mk ToyProjects.app_id "/work/app"), s').
Proof.
  intros s'. split; [by vm_compute|]. split; [by vm_compute|].
  destruct (selected_project_found Toy.sha256_laws (ToyProjects.env 30 (Io.mk true true false))
              (ToyProjects.env 40 Io.fine) "/work/./app"
              (ProjectSelection.mk (local_project (ToyProjects.app 30) ProjectAvailability.Available)
                 (Some RecentProjectsNotSaved)) ToyProjects.before s') as [Hlook _];
    [by vm_compute|exact ToyProjects.canonicalize_fixed|done|done|done| |exact Hlook].
  change (default [] (ProjectService.projects s')) with [ToyProjects.app 30; ToyProjects.old_project].
  intros q Hq Hne. apply elem_of_cons in Hq as [->|Hq]; [by destruct Hne|].
  apply list_elem_of_singleton in Hq as ->. by vm_compute.
Defined.
End Selected.

(** A directory name of 56,000 bytes: on Windows, where a path has up to 32,767 UTF-16 units of up to three bytes
    each, there are longer ones *)
Lemma long_name_exists : { s : string | len s = 56000%N }.
Proof. exists (Toy.code_of_size (N.to_nat 56000)). rewrite Toy.len_code_of_size. lia. Qed.
Definition long_name : string := proj1_sig long_name_exists.

(** Nineteen projects with such paths *)
Definition long_project (i : nat) : StoredProject.t :=
  StoredProject.mk ("project-v1-" +:+ Toy.code i) (Toy.code i +:+ long_name) (Toy.code i) (Z.of_nat i).
Definition crowded : ProjectService.t := ProjectService.mk None (Some (long_project <$> seq 1 19)).

(** A document is written as the paths in it, without what JSON adds to them, and not read back here. *)
Definition written_paths (projects : list StoredProject.t) : string :=
  foldr (fun p text => p.(StoredProject.path) +:+ text) EmptyString projects.
Definition paths_format : DocumentFormat (list StoredProject.t) := {|
  document_to_pretty d := Some (written_paths d.(Document.body));
  envelope_from_slice _ := None;
  document_from_slice _ := None;
|}.

Section LockedOut.
#[local] Existing Instance paths_format.
#[local] Existing Instance Toy.sha256.

(** The twentieth project is selected. *)
Definition twentieth : result ProjectServiceError.t (option ProjectSelection.t) * ProjectService.t :=
  select_project (ToyProjects.env 30 Io.fine) (Some "/work/app") crowded.

Lemma twentieth_run :
  twentieth.1 = Ok (Some (ToyProjects.selection 30)) /\
  normalize_projects (default [] twentieth.2.(ProjectService.projects))
    = ToyProjects.app 30 :: (long_project <$> reverse (seq 1 19)).
Proof. split; vm_compute; reflexivity. Qed.

Lemma len_written_paths projects : len (written_paths projects) = foldr (fun p n => len p.(StoredProject.path) + n)%N 0%N projects.
Proof. induction projects as [|p projects IH]; [done|]. simpl. by rewrite len_append, IH. Qed.

Lemma oversized_projects_lock_out_witness :
  let restarted := ProjectService.new twentieth.2.(ProjectService.file) in
  (ToyProjects.selection 30).(ProjectSelection.warning) = None /\
  list_recent (ToyProjects.env 40 Io.fine) restarted = (Err ProjectServiceError.Storage, restarted).
Proof.
  destruct twentieth_run as [Hrun Hlist].
  destruct (oversized_projects_lock_out (ToyProjects.env 30 Io.fine) "/work/app" (ToyProjects.selection 30) crowded twentieth.2
    (written_paths (normalize_projects (default [] twentieth.2.(ProjectService.projects))))) as (Hwarn & _ & Hlocked).
  - rewrite <- Hrun. exact (surjective_pairing twentieth).
  - left. reflexivity.
  - reflexivity.
  - reflexivity.
  - reflexivity.
  - rewrite Hlist, len_written_paths. simpl. rewrite !len_append. unfold long_name. rewrite (proj2_sig long_name_exists).
    by vm_compute.
  - split; [exact Hwarn|]. exact (proj1 (Hlocked (ToyProjects.env 40 Io.fine) EmptyString EmptyString)).
Defined.
End LockedOut.

(** ** Texts and threads *)

(** Four characters of three bytes each, cut to seven bytes *)
Lemma truncate_utf8_longest_witness :
  truncate_utf8 DEFAULT_DISPLAY_NAME 7 = "本机" /\ is_utf8 (truncate_utf8 DEFAULT_DISPLAY_NAME 7) = true.
Proof.
  split; [by vm_compute|]. apply (truncate_utf8_longest DEFAULT_DISPLAY_NAME 7). by vm_compute.
Defined.

Module ToyThreads.
Definition thread (n : nat) : ThreadWire.t :=
  ThreadWire.mk (Toy.code n) None "preview" 1 2 None ProjectThreadStatus.Idle "/work/app".
#[local] Instance json : ThreadJson := {
  thread_list_from_value _ := Some ([thread 0; thread 1], Some "next");
  thread_start_from_value _ := None;
  thread_read_from_value _ := None;
}.
Definition connection : ConnectionControl.t := ConnectionControl.mk 1 (fun _ _ => ([], Ok Value.Null)).
End ToyThreads.

Section Listed.
#[local] Existing Instance ToyProjects.format.
#[local] Existing Instance Toy.sha256.
#[local] Existing Instance ToyThreads.json.

(** The last page there is room for *)
Lemma project_threads_confined_witness :
  let page := ProjectThreadPage.mk [ToyThreads.thread 0; ToyThreads.thread 1] None in
  execute_thread_command (ToyProjects.env 30 Io.fine) (Some ToyThreads.connection) ToyProjects.app_id
    (list_threads (Some "cursor") 498) ToyProjects.before = (Ok page, ToyProjects.before) /\
  exists cwd path, ToyProjects.canonicalize cwd = Some path /\ Forall (thread_ok cwd) page.(ProjectThreadPage.data).
Proof.
  intros page.
  assert (execute_thread_command (ToyProjects.env 30 Io.fine) (Some ToyThreads.connection) ToyProjects.app_id
    (list_threads (Some "cursor") 498) ToyProjects.before = (Ok page, ToyProjects.before)) as Hrun by by vm_compute.
  split; [exact Hrun|].
  destruct (project_threads_confined (ToyProjects.env 30 Io.fine) (Some ToyThreads.connection) ToyProjects.app_id
              (Some "cursor") 498 ToyProjects.before page ToyProjects.before Hrun)
    as (cwd & path & _ & Hpath & _ & _ & _ & Hthreads & _).
  by exists cwd, path.
Defined.
End Listed.
