(* ===== verification/NodeWitness.v ===== *)
(** * A device on concrete inputs

    The properties of the vault, of a Node's session, of the channel to a host, of hosting and
    of the supervisor, applied to short histories with small instances of their parameters. *)

From S2P Require Import Prelude AppJson AppWire Transport Protocol Credential Invitation Brain BrainValid BrainInv BrainOps BrainThm Snapshot Storage Reconcile Node Delta Wire Client Sync Host Vault Trust Identity Registration Session SessionThm Channel Server Hosting Supervisor Toy WitnessSync.
Import Toy.

(** ** The instances *)

Lemma known_cut {A} `{EqDecision A} (known : list A) a bytes n :
  write_known known a = Some bytes -> n < String.length bytes -> read_known known (String.substring 0 n bytes) = None.
Proof.
  intros Hw Hn. apply read_write_known in Hw. destruct bytes as [|c [|]]; [done| |done].
  simpl in Hn. by assert (n = 0) as -> by lia.
Qed.

Module Device.
Definition certificate : string := "certificate".
Definition address : SocketAddr.t := SocketAddr.mk (V4 192 168 1 20) 7443.
Definition endpoint : TrustDescriptor.t := TrustDescriptor.mk 1 "brain-1" address "brain.local" certificate.
Definition descriptor_text : string := code 0.
Definition confirmed_print : string := hex_of_bytes (digest certificate).
Definition guest : RivloomIdentity.t := RivloomIdentity.mk "identity-2" "Bob" "device-2" None.
Definition registration : NodeRegistration.t :=
  NodeRegistration.mk 1 "identity-2" "device-2" endpoint confirmed_print.
Definition credential : IssuedCredential.t := IssuedCredential.mk guest_binding 87420 guest_secret.

#[export] Instance tls_inputs : TlsInputs := {|
  server_name_ok _ := true; root_certificate_ok _ := true; tls13_available := true |}.
#[export] Instance descriptor_json : DescriptorJson := {|
  descriptor_to_vec := write_known [endpoint]; descriptor_from_slice := read_known [endpoint] |}.
#[export] Instance descriptor_json_laws : DescriptorJsonLaws.
Proof. intros d bytes. apply read_write_known. Qed.
#[export] Instance registration_json : RegistrationJson := {|
  registration_to_vec := write_known [registration]; registration_from_slice := read_known [registration] |}.
#[export] Instance registration_json_laws : RegistrationJsonLaws.
Proof. split; [intros r bytes; apply read_write_known|intros r bytes n; apply known_cut]. Qed.
#[export] Instance binding_json : BindingJson := {|
  binding_to_vec := write_known [guest_binding]; binding_from_slice := read_known [guest_binding] |}.
#[export] Instance binding_file_laws : BindingFileLaws.
Proof.
  split; [intros b bytes; apply read_write_known|intros b bytes n; apply known_cut|].
  intros b bytes Hw%read_write_known _. destruct bytes as [|c [|]]; [done| |done]. unfold len. simpl. lia.
Qed.

#[export] Instance VaultDocument_eq_dec : EqDecision VaultDocument.t.
Proof. solve_decision. Defined.
Definition vault_document : VaultDocument.t := VaultDocument.mk 1 guest_binding 87420 guest_secret.
#[export] Instance vault_json : VaultJson := {|
  vault_document_to_vec := write_known [vault_document]; vault_document_from_slice := read_known [vault_document] |}.
#[export] Instance vault_json_laws : VaultJsonLaws.
Proof. intros d bytes. apply read_write_known. Qed.

#[export] Instance records_json : RecordsJson := fun m => Some (code_of_size (Nat.min 192 (size m))).
#[export] Instance directory_json : DirectoryJson := fun d => Some (code_of_size (length d.(MemberDirectory.entries))).

(** The vault of the system, and what it is after the guest's credential was saved *)
Definition empty_vault : OsVault.t := OsVault.mk true true true ∅.
Definition saved : OsVault.t := (save_new credential 1025 empty_vault).2.

(** A Brain that takes the guest in and serves its pages. As long as a number is left, the answers to its
    requests are lost. *)
Definition exchange (op : Operation.t) : M nat (ClientError.t VaultError.t) Reply.t :=
  lost ← get;
  match lost with
  | S lost => _ ← modify (fun _ => lost); throw ClientError.Transport
  | O =>
    match op with
    | Operation.Join _ _ _ _ _ _ => mret (Reply.Joined guest_binding 87420 guest_secret)
    | Operation.Authenticate _ _ => mret Reply.Authenticated
    | Operation.Sync q => mret (Reply.Page (make_page s2 guest_member q))
    | _ => throw ClientError.Transport
    end
  end.
Definition dial (peer : Peer.t) : M nat TlsError.t unit := mret tt.

Definition env (now : Z) : SessionEnv.t := SessionEnv.mk Free (Ok now) RegIo.fine RegIo.fine RegIo.fine.
Definition invitation : IssuedInvitation.t := IssuedInvitation.mk "brain-1" (hex_of "D") 1600 (mkToken (hex_of "E")).
Definition join_call (now : Z) : SessionCall := JoinBrain (env now) guest descriptor_text confirmed_print invitation.

Definition history (calls : list SessionCall) (lost : nat) : NodeSession.t OsVault.t (list NetEvent * nat) :=
  session_history (logged_exchange exchange) (logged_dial dial) calls
    (NodeSession.new Directory.NoEntry empty_vault ([], lost)).
End Device.
Import Device.

(** ** The vault *)

Lemma vault_roundtrip_witness :
  save_new credential 1025 empty_vault = (Ok tt, saved) /\
  vault_load guest_binding 87419 saved = Ok credential /\
  vault_load guest_binding 87420 saved = Err VaultError.Invalid.
Proof.
  assert (save_new credential 1025 empty_vault = (Ok tt, saved)) as Hsave by evaluate.
  split; [exact Hsave|].
  destruct (vault_roundtrip native_vault_laws vault_json_laws credential 1025 empty_vault saved Hsave) as [Hload _].
  assert (exists slot, vault_target guest_binding = Ok slot /\ is_ok (backend_read slot saved) = true)
    as (slot & Hslot & Hread) by (eexists; split; [reflexivity|evaluate]).
  split; apply (Hload slot Hread Hslot).
Defined.

(** ** The session *)

(** The answer to the request is lost; the device is restarted and asked to join again, twice. *)
Definition lost_join : list SessionCall := [join_call 1025; RestartSession; join_call 1030; Status (env 1031) guest; join_call 1035].

Lemma node_enrolls_once_witness :
  joins (log (history lost_join 1)) = 1 /\ joins (log (history lost_join 1)) <= missing Directory.NoEntry.
Proof.
  split; [evaluate|].
  apply (node_enrolls_once descriptor_json_laws registration_json_laws binding_file_laws exchange dial
           lost_join Directory.NoEntry empty_vault 1).
Defined.

(** The device joins, is restarted and connects again. *)
Definition joined_twice : list SessionCall := [join_call 1025; RestartSession; Connect (env 1100) guest].
Definition dialed : Peer.t := Peer.mk address "brain.local" certificate (digest certificate).

Lemma dials_only_confirmed_witness :
  log (history joined_twice 0) !! 7 = Some (Dialed dialed) /\
  private_address dialed.(Peer.address).(SocketAddr.ip) = true.
Proof.
  assert (log (history joined_twice 0) !! 7 = Some (Dialed dialed)) as Hlog by evaluate.
  split; [exact Hlog|].
  destruct (dials_only_confirmed descriptor_json_laws registration_json_laws binding_file_laws exchange dial
    joined_twice Directory.NoEntry empty_vault 0 dialed) as [Hprivate _]; [|exact Hprivate].
  by apply (list_elem_of_lookup_2 _ 7).
Defined.

Lemma client_is_registered_witness :
  let s := history joined_twice 0 in
  (fun c => c.(Client.binding)) <$> s.(NodeSession.client) = Some guest_binding /\
  exists reg, stored_binding reg RegIo.fine s.(NodeSession.directory) = Ok guest_binding.
Proof.
  intros s.
  assert ((fun c => c.(Client.binding)) <$> s.(NodeSession.client) = Some guest_binding) as Hc by evaluate.
  split; [exact Hc|].
  destruct (client_is_registered descriptor_json_laws registration_json_laws binding_file_laws exchange dial
    joined_twice Directory.NoEntry empty_vault 0) as [Hclient _].
  apply fmap_Some in Hc as (c & Hs & ->). destruct (Hclient c Hs) as (reg & Hstored & _). by exists reg.
Defined.

(** ** Hosting *)

Module ToyHost.
Definition host_id : string := "brain-" +:+ hex_of "P".
Definition ada : RivloomIdentity.t := RivloomIdentity.mk "identity-1" "Ada" "device-1" None.
Definition host_binding : CredentialBinding.t := CredentialBinding.mk host_id owner_member owner_node "device-1".
Definition host_endpoint : TrustDescriptor.t := TrustDescriptor.mk 1 host_id address "brain.local" certificate.
Definition profile : HostProfile.t := HostProfile.mk 1 host_binding host_endpoint 87400.

(** The Brain as it is created, and what two starts make of it *)
Definition h0 : Brain.t :=
  match bootstrap host_id owner 1000 (draw_of "A") (draw_of "B") (draw_of "C") with Ok (b, _) => b | Err _ => s0 end.
Definition start_states (now : Z) (h : Brain.t) : list Brain.t :=
  let h1 := run (observe now) h in
  let h2 := run (reset_presence now Restart) h1 in
  let h3 := run (observe now) h2 in
  [h1; h2; h3; run (brain_connect host_binding owner_secret now) h3].
Definition first_start : list Brain.t := start_states 1100 h0.
Definition brains : list Brain.t := h0 :: first_start ++ start_states 87399 (default h0 (list.last first_start)).
Definition documents : list Document.t := (fun i => Document.mk 1 (code i) (digest (code i))) <$> seq 0 9.

#[local] Instance snapshots : SnapshotJson := {|
  snapshot_to_vec := write_known (to_raw <$> brains); snapshot_from_slice := read_known (to_raw <$> brains) |}.
#[local] Instance document_files : DocumentJson := {|
  document_to_vec := write_known documents; document_from_slice := read_known documents |}.
#[local] Instance endpoints : DescriptorJson := {|
  descriptor_to_vec := write_known [host_endpoint]; descriptor_from_slice := read_known [host_endpoint] |}.
#[local] Instance bindings : BindingJson := {|
  binding_to_vec := write_known [host_binding]; binding_from_slice := read_known [host_binding] |}.
#[local] Instance profiles : ProfileJson := {|
  profile_to_vec := write_known [profile]; profile_from_slice := read_known [profile] |}.
#[local] Instance profiles_laws : ProfileJsonLaws.
Proof. intros p bytes. apply read_write_known. Qed.
#[local] Instance vault_documents : VaultJson :=
  let known := [VaultDocument.mk 1 host_binding 87400 owner_secret] in
  {| vault_document_to_vec := write_known known; vault_document_from_slice := read_known known |}.
#[local] Instance ServerDocument_eq_dec : EqDecision ServerDocument.t.
Proof. solve_decision. Defined.
#[local] Instance server_crypto : ServerCrypto :=
  let known := [ServerDocument.mk 1 host_id "brain.local" 1000 (1000 + LIFETIME) certificate "key"] in
  {| base64_encode s := s; base64_decode := Some;
     server_document_to_vec := write_known known; server_document_from_slice := read_known known;
     certificate_valid _ _ _ := true; server_config_ok _ _ := true |}.

Definition env (now : Z) : HostEnv.t :=
  HostEnv.mk HostFree (Ok now) true (draw_of "P") (draw_of "A", draw_of "B", draw_of "C") (Ok tt) true
    (draw_of "M") Committed (draw_of "N") Committed RegIo.fine (Some "key") (Some certificate) true.
Definition nothing : BrainService.t OsVault.t := BrainService.new HostDirectory.NoEntry empty_vault.
Definition set_up : BrainService.t OsVault.t := (initialize (env 1000) ada address "brain.local" nothing).2.
Definition started : BrainService.t OsVault.t := (start_host (env 1100) ada set_up).2.
Definition restarted : BrainService.t OsVault.t :=
  BrainService.new started.(BrainService.directory) started.(BrainService.vault).

(** A Brain is set up, started a minute and a half later, and the program is restarted: a day after it was set up it
    does not start any more. *)
Lemma hosting_ends_after_a_day_witness :
  initialize (env 1000) ada address "brain.local" nothing = (Ok profile, set_up) /\
  (start_host (env 1100) ada set_up).1 = Ok (HostingStatus.Running profile) /\
  is_ok (start_host (env 87399) ada restarted).1 = true /\
  is_ok (start_host (env 87400) ada restarted).1 = false.
Proof.
  assert (initialize (env 1000) ada address "brain.local" nothing = (Ok profile, set_up)) as Hinit by evaluate.
  split; [exact Hinit|]. split; [evaluate|]. split; [evaluate|].
  assert (rtc host_step set_up restarted) as Hsteps.
  { eapply rtc_l; [exact (hs_start (env 1100) ada set_up _ _ (surjective_pairing _))|].
    apply rtc_once, hs_restart. }
  pose proof (hosting_ends_after_a_day profiles_laws (env 1000) ada address "brain.local" nothing profile set_up 1000
                restarted (env 87400) ada 87400 Hinit eq_refl Hsteps eq_refl ltac:(lia)) as [Hend _].
  exact Hend.
Defined.
End ToyHost.

(** ** The supervisor *)

Module ToySupervisor.
#[local] Instance initialize_json : InitializeJson := {|
  initialize_from_str line :=
    if str_eqb line "ready" then Some (0%N, Some (InitializeResult.mk "codex/1" "/home/codex" "unix" "linux"), None) else None;
  app_version := "1.0";
|}.
#[local] Instance value_json : ValueJson := fun _ => None.

(** A command that is called, its next step, and the next step of the reader, which meets the end of the stream *)
Inductive move := Calls (c : Call) | Commands | Reads.
Definition outcome : LaunchOutcome := Launched true (Ok "ready") true.
Definition moved (m : move) (s : Supervisor.t) : option Supervisor.t :=
  match m with
  | Calls c => match s.(Supervisor.command) with Command.Idle => Some (enter c s) | _ => None end
  | Commands => command_step outcome true s
  | Reads => reader_step (Err TransportReadError.Closed) (fun _ => true) s
  end.
Fixpoint moved_all (l : list move) (s : Supervisor.t) : option Supervisor.t :=
  match l with [] => Some s | m :: l => s ← moved m s; moved_all l s end.

Lemma moved_steps l s s' : moved_all l s = Some s' -> rtc supervisor_step s s'.
Proof.
  revert s. induction l as [|m l IH]; intros s; simpl; [by intros [= ->]|].
  intros (s1 & Hm & Hl)%bind_Some. eapply rtc_l; [|by apply IH]. destruct m; simpl in Hm.
  - destruct (Supervisor.command s) eqn:Hc; try done. injection Hm as <-. by apply ss_enter.
  - by eapply ss_command.
  - by eapply ss_reader.
Qed.

(** The process is started; its stream ends; while the reader takes the connection down the process is started
    again, which waits for the reader. *)
Definition moves : list move :=
  Calls Start :: replicate 9 Commands ++ [Reads; Reads; Calls Retry; Commands; Reads; Reads] ++ replicate 8 Commands.
Definition status : RuntimeStatus.t := RuntimeStatus.Connected "1.0" "codex/1" "unix/linux" "/home/codex".
Definition reconnected : Supervisor.t := default Supervisor.new (moved_all moves Supervisor.new).

Lemma observers_in_step_witness :
  reconnected.(Supervisor.observed) =
    [OnStatus RuntimeStatus.Stopped; OnStatus RuntimeStatus.Starting; OnConnected 1; OnStatus status;
     OnDisconnected; OnStatus startup_error_status; OnStatus RuntimeStatus.Starting; OnConnected 2; OnStatus status] /\
  last_status reconnected.(Supervisor.observed) = Some reconnected.(Supervisor.status).
Proof.
  split; [evaluate|].
  destruct (observers_in_step reconnected) as (up & _ & Hrest); [apply (moved_steps moves); evaluate|].
  apply Hrest. evaluate.
Defined.
End ToySupervisor.

(** ** The transport *)

Module ToyTransport.
Definition chunks : list string := ["on"; "e" +:+ String NL "two"; String NL EmptyString].
Definition rest : list TransportEvent.t := [TransportEvent.Terminated (Some 0%Z)].

(** Two lines in three chunks, and the end of the process. A call whose deadline has passed returns nothing. *)
Lemma transport_delivers_lines_witness :
  let s := ProcessTransport.new ((TransportEvent.Stdout <$> chunks) ++ rest) in
  receive_all [0; 1; 4] s = [Ok "one"] /\
  receive_all [4; 4; 4; 4] s = [Ok "one"; Ok "two"; Err (TransportReadError.Terminated (Some 0%Z))].
Proof.
  intros s. split; [evaluate|].
  destruct (transport_delivers_lines chunks rest (TransportReadError.Terminated (Some 0%Z)) ["one"; "two"] [4; 4; 4; 4])
    as [_ Hall]; [evaluate|done|]. apply Hall; [repeat constructor; simpl; lia|simpl; lia].
Defined.
End ToyTransport.

(** ** The channel and the listener *)

Module ToyServer.
(** Bytes that arrive one by one *)
Fixpoint one_by_one (s : string) : list string :=
  match s with EmptyString => [] | String a s => String a EmptyString :: one_by_one s end.
Lemma one_by_one_chunked s : chunked (one_by_one s) s.
Proof.
  induction s as [|a s [IH IH']]; [split; [done|by apply not_elem_of_nil]|]. split.
  - exact (f_equal (String a) IH).
  - apply not_elem_of_cons. by split.
Qed.

(** Two messages and the beginning of a third *)
Lemma channel_delivers_whole_witness :
  let c := ((_ ← send_all ["one"; "two"]; send "three" (Some 6)) TlsChannel.opened).2 in
  exists c1 c2, receive_messages 2 (TlsChannel.set_incoming (one_by_one c.(TlsChannel.outgoing)) TlsChannel.opened) = (Ok ["one"; "two"], c1) /\
    receive c1 = (Err TlsError.Connection, c2) /\ c2.(TlsChannel.healthy) = false.
Proof.
  intros c.
  apply (channel_delivers_whole ["one"; "two"] "three" 6 (one_by_one c.(TlsChannel.outgoing)) c).
  - repeat constructor; by vm_compute.
  - split; [done|by vm_compute].
  - simpl. lia.
  - evaluate.
  - apply one_by_one_chunked.
Defined.

#[local] Instance Operation_eq_dec : EqDecision Operation.t.
Proof. solve_decision. Defined.
#[local] Instance Request_eq_dec : EqDecision Request.t.
Proof. solve_decision. Defined.
#[local] Instance Reply_eq_dec : EqDecision Reply.t.
Proof. solve_decision. Defined.
#[local] Instance Response_eq_dec : EqDecision Response.t.
Proof. solve_decision. Defined.
#[local] Existing Instance WitnessSync.page_json.
Definition token : SecretToken := mkToken (hex_of "T").
Definition operation : Operation.t := Operation.Submit task_message.
Definition submitted : Request.t := Request.mk 1 token.(expose_secret) operation.
Definition applied : Response.t := Response.mk 1 token.(expose_secret) (Reply.Applied "key-1" 4).
#[local] Instance wire_json : WireJson := {|
  request_to_vec := write_known [submitted]; request_from_slice := read_known [submitted];
  response_to_vec := write_known [applied]; response_from_slice := read_known [applied];
|}.
#[local] Instance wire_json_laws : WireJsonLaws.
Proof. split; [intros r bytes r' Hw%read_write_known Hr; simpl in Hr; congruence..|done|done]. Qed.

Definition round : RoundEnv.t := RoundEnv.mk false (Ok 1030%Z) toy_env None.
Definition worker : PeerWorker.t := PeerWorker.mk TlsChannel.opened submitting.

(** A task is submitted to the Brain and applied, byte by byte. *)
Lemma exchange_reaches_host_witness :
  (channel_exchange (V := VaultError.t) (served_by one_by_one round) (draw_of "T") None operation
     (TlsChannel.opened, worker)).1 = Ok (Reply.Applied "key-1" 4).
Proof.
  rewrite (exchange_reaches_host wire_json_laws one_by_one round (draw_of "T") token operation 1030 (code 0) submitting
    one_by_one_chunked eq_refl eq_refl eq_refl); [evaluate|evaluate|evaluate].
Defined.

(** A worker that is admitted and ends, and a second one *)
Lemma sessions_counted_witness :
  let s := (listen_one (Connection true true) true 3 (worker_ends 0 (listen_one (Connection true true) true 2
    (Listener.mk [] 0 0 (limiter_new 64 1))).2)).2 in
  s.(Listener.workers) = [(1%N, false)] /\ s.(Listener.active) = 1%N /\ length s.(Listener.workers) <= 16.
Proof.
  intros s. split; [evaluate|]. split; [evaluate|]. apply (sessions_counted 1 s).
  eapply rtc_l; [apply (ls_listen (Connection true true) true 2)|]. eapply rtc_l; [apply (ls_ends 0)|].
  apply rtc_once. apply (ls_listen (Connection true true) true 3).
Defined.
End ToyServer.
