(* ===== verification/DesktopWitness.v ===== *)
(** * The desktop on a concrete input

    A local task is started in a project of the list, on a process that is connected when its status is
    read, as the device of the identity that is made up and stored on the way. *)

From S2P Require Import Prelude AppJson AppWire AppConnection EventRouter EventThm TaskArtifact TaskReceipt TaskMachine TaskStore TaskService TaskPlan TaskThm TaskRuns StoredFile Identity Worktree Runtime Orchestrator LocalState Project ProjectThread Transport Supervisor TaskCommand Toy TaskWitness ServiceWitness RunWitness SettingsWitness.

#[local] Existing Instances Toy.sha256 RunWitness.event_json RunWitness.run_receipt_json ToyIdentity.format ToyProjects.format.

Definition app_id : string := ToyProjects.app_id.
Definition app_tasks : list (list StoredTask.t) :=
  let k1 := stored (Call.CreateTask (CreateTaskRequest.mk a_task key app_id (TaskSpec.mk "Ship it" []))) [] in
  let k2 := stored (Call.AcceptTask app_id a_task) k1 in
  let k3 := stored (Call.RegisterRun (RegisterRunRequest.mk a_task a_run (derived_id "run-key" key) app_id)) k2 in
  [[]; k1; k2; k3; stored (Call.BeginRun a_task a_run) k3].
Definition known_tasks : list StorageDocument.t := Eval vm_compute in StorageDocument.mk 1 <$> app_tasks.
#[local] Instance app_tasks_json : TasksJson := {|
  tasks_to_vec_pretty := Toy.write_known known_tasks;
  tasks_envelope_from_slice s := StorageDocument.version <$> Toy.read_known known_tasks (chop s);
  tasks_from_slice s := Toy.read_known known_tasks (chop s);
|}.

Definition command_env : CommandEnv.t :=
  CommandEnv.mk (ToyProjects.env 30 Io.fine) (fun process => AppProcess.mk RuntimeStatus.Starting process.(AppProcess.active_connection))
    (ToyIdentity.env true Io.fine 7 11) local_start.
Definition desktop : Desktop.t :=
  Desktop.mk (Some ToyProjects.before) (Some (IdentityService.new None))
    (Some (AppProcess.mk (RuntimeStatus.Connected "1.0" "codex/1" "unix/linux" "/home/codex") (Some line))) (Some opened).
Definition started : result TaskCommandError.t LocalTaskRun.t * Desktop.t :=
  start_local_task command_env app_id key "Ship it" [] desktop.

Lemma task_start_grounded_witness :
  is_ok started.1 = true /\
  exists cwd path ids, ToyProjects.canonicalize cwd = Some path /\ project_id_for_path path = Ok app_id /\
    started.2.(Desktop.identity) = Some ids /\ exists identity, durable ids identity.
Proof.
  assert (is_ok started.1 = true) as Hok by evaluate.
  split; [exact Hok|].
  assert (forall ids, desktop.(Desktop.identity) = Some ids -> identity_inv ids) as Hinv
    by (intros ids Hids; injection Hids as <-; left; reflexivity).
  destruct (task_start_grounded ToyIdentity.format_laws ToyIdentity.format_size command_env app_id key "Ship it" [] desktop
              started.1 started.2 Hinv (surjective_pairing _))
    as [[_ Hno]|(services & project & path & process & version & agent & platform & home & connection & ids & identity & tasks &
                 r0 & tasks' & _ & _ & Hpath & _ & _ & Hid & _ & _ & _ & _ & Hids & _ & Hdur & _)];
    [rewrite Hok in Hno; discriminate Hno|].
  exists project.(ResolvedProject.cwd), path, ids.
  split; [exact Hpath|]. split; [exact Hid|]. split; [exact Hids|]. exists identity. exact Hdur.
Defined.
